(* ===== verification/_CoqProject ===== *)
-Q . S2P
Prelude.v
Registers.v
Platform.v
RegisterAccess.v
Decoder.v
Driver.v
SimDevice.v
Configuration.v
Lifecycle.v
Progress.v
Graded.v
Logged.v
Steps.v
Diagnostics.v
Recovery.v
Writes.v
Detection.v
Stabilisation.v
Faults.v
Outage.v
Duration.v
Cadence.v
Protocol.v
Specified.v
Scenarios.v
