(* ===== verification/Prelude.v ===== *)
(** * Verification of the QMC5883L magnetometer driver

    The program is one C++ translation unit,
    [src/drivers/magnetometer/qmc5883l/QMC5883L.cpp]: a PX4 driver that takes
    a QMC5883L magnetometer on an I2C bus through software reset, register
    configuration and periodic sampling, and that re-initialises the chip
    when a configuration register reads back wrong.  The driver never blocks:
    [RunImpl] performs one step and asks the work queue to call it again.

    ** Files of the development, in dependency order

    - [Prelude] (this file): machine integers as [Z] with their wrap-around
      ([uint8], [uint16], [int16], [uint64]), the C++ conversion of an
      integer to [bool] ([truthy]), the two monads the model is written in
      ([State] for code that only talks to the bus, [Drv] for code that also
      updates the driver object and may run into undefined behaviour) with
      their notations (scopes [state_scope] and [drv_scope]), the weakest
      precondition [wp] of a [Drv] computation with its rules (rewrite base
      [wp]), the tactics [bitwise], [bit_of] and [wp_from], the hint
      base [qmc], runs of a step function that may stop ([steps]), and
      the first step of a run out of a set of states ([staying],
      [nsteps_first_exit], [nsteps_exit]).
    - [Registers]: the device's register map and bit names, the
      [register_config_t] triple with what it means for an entry to be well
      formed ([cfg_wf]) and to hold of a value ([cfg_holds]), and the
      driver's [STATE] enumeration.  These are declared in headers that are
      not part of [src/]; they are modelled from the specification and the
      chip's data sheet.
    - [Platform]: what the driver consumes and produces.  The class
      [Platform] is the byte transfer port together with the monotonic clock
      ([transfer], [hrt_absolute_time], [I2C_init]); [PlatformLaws] states
      what the driver's theorems assume of it: the clock is a 64-bit counter
      and a transfer does not turn it back.  [Schedule] models the work
      item's scheduling calls and when the work queue starts the item
      ([fire], [next_delay]), [PX4Magnetometer] the measurement sink,
      [perf_counter_t] the diagnostic counters.
    - [RegisterAccess]: [RegisterRead], [RegisterWrite],
      [RegisterSetAndClearBits] and [RegisterCheck], written against the
      [Platform] interface, with their bit-level theorems.
    - [Decoder]: [combine], the seven-byte [TransferBuffer], the condition
      under which a sample is processed ([sample_condition], line 178) next
      to the one the specification describes ([data_ready]), the axis sign
      convention with its saturation, and the temperature conversion.
    - [Driver]: the driver object ([Driver], a record of the data members
      under their C++ names), the constructor [QMC5883L_new], [init],
      [probe], [Reset], [Configure] and [RunImpl], the latter as one
      definition per [case] of its [switch] ([run_RESET],
      [run_WAIT_FOR_RESET], [run_CONFIGURE], [run_READ]) and one per part of
      the [READ] case; the weakest preconditions of these parts in closed
      form, and the tactics [wp_simpl] and [wp_cases] that compute with
      them.
    - [SimDevice]: an executable instance of [Platform], a register file
      with a clock, a script of injected transfer failures, a switch that
      takes the bus down, and a log of the transfers issued; it discharges
      [PlatformLaws].  Its work queue
      ([sim_start], [sim_round], [sim_rounds]) runs the driver.
    - [Configuration]: the class [RegisterFile], what a healthy chip
      promises of reads and writes; for every such device [Configure]
      succeeds on a consistent table and is idempotent; [SimDevice] is an
      instance.
    - [Lifecycle]: the invariant of the driver object ([driver_inv]), the
      state table the code implements, as a function ([lifecycle_next])
      and as a relation ([transition]), what a step observes ([observe]),
      the rounds of the work queue ([env_step], [round], [reachable]);
      preservation of the invariant, and that [RunImpl] implements the
      table.
    - [Progress]: runs of any length ([rounds_in], [trace]): the invariant
      in every reachable state, refinement over runs, the budget of one
      second, the round-robin order of the periodic check, and that the item
      is always scheduled again.
    - [Graded]: relations between the world before and after that count
      what was spent in between, and add up along a computation ([Graded],
      [costs]); what a step of [RunImpl] costs by state ([budget],
      [RunImpl_costs]), for any such relation.  The requests of [Logged],
      the faults of [Faults] and the time of [Duration] are instances.
    - [Logged]: the platform [Logged W], which is [W] with a record of the
      requests it was asked for.  The driver does on it what it does on [W]
      ([erased], with the hint base [erase]); the record shows how many
      requests a step issues and of which shape ([request_wf], [extends]).
    - [Steps]: the behaviour of single steps the specification singles
      out: the timeouts and their boundary, failed reads, failed checks, the
      temperature update, [init].
    - [Diagnostics]: [print_status] as the list of what it writes to the
      console, the destructor as the list of the counters it frees, and
      what the three counters count over a run ([tally], [counted]).
    - [Recovery]: the class [Chip], what the driver needs of the device to
      get to [READ] and to stay there; computations along a preorder
      ([along]); the phases of the driver on such a chip ([on_track],
      [next_phase]) over rounds in which nothing but the driver writes the
      control registers ([quiet_round]).
    - [Writes]: the record of [Logged] read for what the driver writes to
      the chip in each state ([write_allowed], [writes_within]), step by
      step and over runs on the recording platform ([logged_round]).
    - [Detection]: the time a fault in a control register can stay hidden
      ([hidden], [detection_time]), and its repair.
    - [Stabilisation]: from any state of the driver object and any content
      of the registers to [READ]: the way out of the two states that retry,
      and the theorem that puts [Recovery], [Detection] and the budget of
      [Progress] together.
    - [Faults]: the class [Transient], a bus on which no transfer fails
      after a number of them; every step issues a transfer ([settled]), and
      the driver is back in [READ] a bounded number of rounds after the
      last fault.
    - [Outage]: a bus on which every transfer fails ([dead]): what the
      steps observe on it, the return to [RESET] from every state when the
      table has an entry that sets a bit, and the outage that goes
      unnoticed when it has none.
    - [Duration]: a bus whose transfers take no longer than a bound
      ([brisk], [took]) and a work queue that is on time ([on_time],
      [brisk_round]): how long a step lasts, how long the start, and how
      far apart two samples are.
    - [Cadence]: what a step in [READ] does after the sample read
      ([maintenance_due]), the age of the last check and of the last
      temperature update, rounds in time in which the sample read succeeds
      ([punctual_round]), and a work queue that is late ([late_round]).
    - [Protocol]: the requests of a step in the order in which they are
      issued, as a function of the state the step starts in
      ([step_requests]).
    - [Specified]: the text of [RunImpl] with the condition of line 178
      as a parameter ([RunImpl_with]), which is [RunImpl] for the condition
      of the code and the code with the condition corrected for
      [data_ready]; computations in lock step ([related], with the hint
      base [related]); under any two conditions the steps differ in the
      sink only.
    - [Scenarios]: the scenarios of the specification's section 8,
      evaluated on [SimDevice].

    ** How the model corresponds to the code

    Every member function of [QMC5883L.cpp] is one definition with the
    function's name.  Data members are the fields of the record
    [Driver.Driver] under their C++ names.  A [uint8_t] is a [Z] in
    [[0, 256)], an [int16_t] a [Z] in [[-32768, 32768)], [hrt_abstime] a
    [Z] counting microseconds; every conversion the C++ performs implicitly
    (integer promotion before [<<], [|], [~]; narrowing on assignment) is
    written out with [uint8] or [int16].  [float] values (the scale
    [1.f / 12000.f] and the temperature) are modelled as the rationals
    they are the rounding of; no theorem is about the rounding.  A
    diagnostic counter is the number of events counted, a pair of
    [perf_begin] and [perf_end] being one event.  The constructor leaves
    out the construction of the bus base classes and the device id.

    The state table [lifecycle_next] is read off the code.  It has the
    states, conditions and delays of the table in section 4.5 of the
    specification, and departs from it where the code does: the timeouts
    compare with [>], and [READ] has no exit for a count of failures,
    which the code never increments.  The theorems about the table are
    theorems about what the code does; where that is not what the
    specification says, a theorem states the difference
    ([Steps.wait_for_reset_timeout], [Lifecycle.RunImpl_failure_count],
    [Steps.wait_for_reset_failed_read], [Outage.outage_unnoticed],
    [Lifecycle.RunImpl_never_publishes]).

    The bus and the clock are abstract: a definition that runs a transfer is
    a function of a world [W] with a [Platform W] instance, and time may pass
    during a transfer.  Reading the clock does not advance it: the time the
    processor spends between two transfers is counted with the transfer
    that follows, so that the two tests of lines 195 and 208 read the same
    time.  A transfer returns its status and the receive
    buffer's content after the call; the model fills the caller's
    zero-initialised buffer from it, so that a byte the transfer did not
    deliver reads as [0], as in the code.  Between two steps the work queue
    and the world are free ([env_step]): the item starts no earlier than
    asked, time does not go back, and the device may have changed in any
    way.  The theorems of [Recovery] and [Detection] are about a device that
    behaves: they assume the contract [Chip] of the device and rounds
    between which the control registers are left as the driver wrote them
    ([quiet_round]); [SimDevice] discharges the contract.  Those of [Faults]
    and [Outage] are about a bus that does not: [Transient] bounds the
    transfers until the last fault and says nothing of what a fault does
    to the registers, [dead] lets every transfer fail with no byte delivered; the
    work queue adds no fault ([fair_round]) and does not repair the bus
    ([dead_round]).

    The delay the driver asks for is counted from the end of the step that
    asked for it, and so is the period of the interval timer of [READ]:
    [env_step] reads it as the least distance between the end of one round
    and the start of the next, as a periodic task is read as a sporadic
    one.  The bounds that need rounds to come often enough assume more:
    those of [Duration] and [Cadence] are about a work queue that starts
    every round no later than [L] after that time ([on_time]) and about
    transfers that take no more than [D] each ([brisk]), those of [Cadence]
    also about sample reads that succeed; the simulated device has all
    three, with [L = 0] and [D] its cost of a transfer.

    [RunImpl_with] in [Specified] is the text of [read_sample], [run_READ]
    and [RunImpl] with the condition of line 178 replaced by a parameter,
    and [RunImpl_with_sample_condition] shows that the parameter is the
    only difference.  With [data_ready] for the parameter it is the code
    with the condition corrected, not the step of the specification.

    [print_status] and the destructor have no effect on the driver object:
    the first is modelled by the list of what it prints
    ([Diagnostics.print_status]), the second by the list of the counters it
    hands to [perf_free] ([Diagnostics.QMC5883L_delete]).

    The only undefined behaviour the code can reach is the indexing
    [_register_cfg[_checked_register]] (and the [% size_register_cfg] next
    to it).  [Drv] is a state monad with failure, and the lookup is the one
    place that fails; [Lifecycle] and [Progress] prove that it does not fail
    in any reachable state when the table has between 1 and 255 entries.

    ** What the theorems show

    - Decoder: [combine] is little-endian assembly followed by the signed
      wrap, with its round trip; the decoded sample agrees with the
      reference sign change [negate_ref], which saturates at [INT16_MIN]
      and is exact elsewhere; the condition of line 178 is constantly
      false, because [&&] was written for [&] and [OVL == 0] is a
      constant, and so rejects every sample the specification accepts.
    - Register access: [RegisterSetAndClearBits] writes exactly when the
      value changes, and applying an entry twice is applying it once;
      [RegisterCheck] decides exactly "set bits present and clear bits
      absent"; a read that delivers no byte reads as [0].
    - Configuration: on a healthy device and a consistent table,
      [Configure] succeeds and the driver reaches [READ]; a second
      [Configure] changes no register and, on every platform that
      remembers, issues the reads of the table's registers and no write.
    - Requests: every request a step issues is the read of a block of
      registers inside the register map or the write of one byte to a
      register of the map; a step ends after one request in [RESET] and in
      [WAIT_FOR_RESET], one or two in [READ], and between two and three for
      every entry of the table in [CONFIGURE]; recording the requests does
      not change what the driver does.  The requests of a step are those
      of [step_requests], in that order: one byte written to or read from
      [CNTL2]; every register of the table read, written when the entry
      changes it, and read again; seven bytes read from [X_LSB], followed
      by one byte of the register under check, or two bytes from
      [TEMP_LSB], or nothing.  The driver writes the soft reset in
      [RESET] and, in [CONFIGURE], bytes that satisfy the entries of the
      table to their registers; in [WAIT_FOR_RESET] and in [READ] it only
      reads, and so over runs of any length.
    - Recovery and detection: on a chip that works, three rounds take the
      driver from [RESET] to [READ] with the table holding, and so does
      [init] on a constructed driver followed by three rounds, with the
      sink as the constructor made it; in [READ] the driver
      stays as long as the control registers are left alone; a periodic
      check that fails leads back to [READ] in four rounds; a control
      register that has lost its configuration stays unnoticed for at most
      six rounds for every entry of the table (a bound that is attained),
      and is written again within four rounds more.  From any state that
      satisfies the invariant and any content of the registers the driver
      is in [READ] with the table holding after fifteen rounds and six for
      every entry, and stays there: it is self-stabilising.
    - Faults: the same holds on a bus on which transfers fail among the
      next [k], [k] rounds later, whatever the faults did to the registers
      and to the driver; on a bus that stays down the driver passes through
      [RESET] within fourteen rounds, or as many as the table has entries,
      provided an entry of the table sets a bit; when the table only clears
      bits the zeroed buffers pass every check, and the driver stays in
      [READ] without a transfer that succeeds.
    - Duration: on a bus whose transfers take no more than [D] a step
      lasts no longer than [D] for every transfer its state allows; with a
      work queue that is no more than [L] late the third round after [init]
      ends in [READ] within 101 ms, three times [L] and [D] for each of
      the two transfers of the reset and the three of every entry of the
      table, a bound the simulated device attains; in [READ] two rounds
      in a row start between 20 ms and 20 ms, [L] and two transfers
      apart, which is the distance of two samples.
    - Cadence: on a work queue that is on time and a bus that is brisk,
      with 20 ms, [L] and three reads within 100 ms, the round after a
      check never finds the check due again, so that from the second round
      in [READ] on the last check is no older than 100 ms and a read and
      the last temperature update no older than a second, 20 ms, [L] and
      two reads; from any state this is so after seventeen rounds and six
      for every entry of the table.  On a work queue that lets more than
      100 ms pass between two rounds every round checks an entry and the
      temperature is never read.
    - The condition of line 178: with the bitwise test of the status bits
      in its place the step hands the decoded buffer to the sink when the
      specification says so; with any condition in its place the step
      runs in lock step with [RunImpl], the states of the two differing in
      the sink only, round by round: the defect is confined to the sink.
    - Diagnostics: after a run, [print_status] reports the number of
      sample reads, of failed periodic checks and of failed sample reads of
      the run.
    - Lifecycle and Progress: [RunImpl] preserves the invariant and
      implements its state table, step by step and over runs; it
      follows the nine transitions only; it never hands a sample to the sink
      and never increments the failure count; the item is always scheduled
      again within 100 ms; at most ten rounds in a row are spent in
      [WAIT_FOR_RESET] or [CONFIGURE] after a delay of 100 ms; the
      periodic check visits every entry of the table.
    - Steps: the timeouts compare with [>], so that the driver retries once
      more at exactly 1000 ms; a failed read of the reset status is taken
      for a completed reset; a failed periodic check resets at once; a
      failed sample transfer forces the check in the same step, whenever
      the last check was; the temperature is updated at most when more than
      a second has passed; [init] schedules the first step or reports the
      bus status.

    ** Bounds

    There is no fuel in the model of the driver: [RunImpl] has no loop
    besides the two [for] loops of [Configure], which are structural
    recursion on the table; [Logged.RunImpl_terminates] counts the requests
    of a step.  The runs in [Progress], [Recovery], [Detection] and
    [Stabilisation] are of any length; the bound of [Detection] is in
    rounds, six for every entry of the table, from the interval of 20 ms
    between two rounds of [READ] and the 100 ms between two checks; that of
    [Stabilisation] adds the eleven rounds in a row the budget of one second
    allows in [WAIT_FOR_RESET] or [CONFIGURE], the round that leaves the
    state, and the three rounds from [RESET] to [READ]; that of [Faults]
    adds one round for every fault pending, because every step issues a
    transfer; that of [Outage] is the twelve rounds of [CONFIGURE] after
    the two that lead there from [RESET], or one round for every entry of
    the table in [READ], where every round checks an entry; that of
    [Duration] is in time: the 100 ms and the 1 ms the driver asks for
    after the reset and the first read of its status, [L] before each of
    the three rounds, and [D] for each transfer of their budgets; those of
    [Cadence] are in time too, and hold at the end of every round: between
    two rounds the ages grow by the 20 ms and [L] the work queue takes.  The
    work queue of [SimDevice] takes the number of rounds as an argument, and
    stops when the 64-bit clock would overflow; [sim_history] in
    [Scenarios] is bounded by a number of rounds that the scenario's
    deadline does not reach.

    ** Not modelled

    The I2C transport below [transfer], the rotation and the publication
    performed by the measurement sink, the text [perf_print_counter] and the
    sink's [print_status] write, the allocation of the counters
    ([perf_alloc] is called in [QMC5883L.hpp]), the work queue's thread, and
    the default table of [QMC5883L.hpp], which is not part of [src/]: the
    table is a parameter of the constructor.  The rounding of [float]
    values and the time the processor takes between two transfers are not
    modelled.  The specification is not modelled as a machine of its own:
    its step would count the read cycles that decode no sample and compare
    the timeouts with [>=], neither of which the code does.  Every function
    of [QMC5883L.cpp] is modelled; [probe], which the specification leaves
    to the environment, has a definition and no theorem. *)

From Stdlib Require Import ZArith Lia Bool Btauto.
From stdpp Require Import base tactics option list relations.

#[local] Open Scope Z_scope.

(** ** Machine integers *)

(** Conversion to [uint8_t], [uint16_t] and [uint64_t]: reduction modulo
    the width. *)
Definition uint8 (z : Z) : Z := z mod 2 ^ 8.
Definition uint16 (z : Z) : Z := z mod 2 ^ 16.
Definition uint64 (z : Z) : Z := z mod 2 ^ 64.

(** Conversion to [int16_t]: the value congruent modulo [2^16] that lies in
    [[-2^15, 2^15)]. *)
Definition int16 (z : Z) : Z := (z + 2 ^ 15) mod 2 ^ 16 - 2 ^ 15.

Definition INT16_MIN : Z := - 2 ^ 15.
Definition INT16_MAX : Z := 2 ^ 15 - 1.

Definition is_uint8 (z : Z) : Prop := 0 <= z < 2 ^ 8.
Definition is_int16 (z : Z) : Prop := INT16_MIN <= z <= INT16_MAX.
Definition is_uint64 (z : Z) : Prop := 0 <= z < 2 ^ 64.

#[export] Instance is_uint8_dec z : Decision (is_uint8 z).
Proof. unfold is_uint8. apply _. Defined.
#[export] Instance is_int16_dec z : Decision (is_int16 z).
Proof. unfold is_int16. apply _. Defined.
#[export] Instance is_uint64_dec z : Decision (is_uint64 z).
Proof. unfold is_uint64. apply _. Defined.

(** Contextual conversion of an integer to [bool], as the operands of [&&],
    [||], [!] and the condition of [if] undergo it. *)
Definition truthy (z : Z) : bool := negb (z =? 0).

(** ** The state monad of bus-level code *)

Declare Scope state_scope.
Delimit Scope state_scope with state.

Definition State (S A : Type) : Type := S -> A * S.

Definition ret {S A : Type} (a : A) : State S A := fun s => (a, s).

Definition bind {S A B : Type} (m : State S A) (k : A -> State S B) : State S B :=
  fun s => let r := m s in k (fst r) (snd r).

Definition gets {S A : Type} (f : S -> A) : State S A := fun s => (f s, s).

Definition modify {S : Type} (f : S -> S) : State S unit := fun s => (tt, f s).

Notation "x <- m ;; k" := (bind m (fun x => k))
  (at level 100, m at next level, right associativity) : state_scope.
Notation "m ;; k" := (bind m (fun _ => k))
  (at level 100, right associativity) : state_scope.

(** ** The monad of driver-level code: state and undefined behaviour *)

Declare Scope drv_scope.
Delimit Scope drv_scope with drv.

Definition Drv (S A : Type) : Type := S -> option (A * S).

Definition dret {S A : Type} (a : A) : Drv S A := fun s => Some (a, s).

Definition dbind {S A B : Type} (m : Drv S A) (k : A -> Drv S B) : Drv S B :=
  fun s => match m s with
           | Some (a, s') => k a s'
           | None => None
           end.

(** The computation that has no defined behaviour. *)
Definition undefined {S A : Type} : Drv S A := fun _ => None.

Definition dgets {S A : Type} (f : S -> A) : Drv S A := fun s => Some (f s, s).

Definition dmodify {S : Type} (f : S -> S) : Drv S unit := fun s => Some (tt, f s).

(** A computation on a part [T] of the state [S], given how to read the part
    and how to put it back. *)
Definition zoom {S T A : Type} (get : S -> T) (put : T -> S -> S)
    (m : State T A) : Drv S A :=
  fun s => let r := m (get s) in Some (fst r, put (snd r) s).

Notation "x <- m ;; k" := (dbind m (fun x => k))
  (at level 100, m at next level, right associativity) : drv_scope.
Notation "m ;; k" := (dbind m (fun _ => k))
  (at level 100, right associativity) : drv_scope.

(** [when b m]: an [if] without [else]. *)
Definition when {S : Type} (b : bool) (m : Drv S unit) : Drv S unit :=
  if b then m else dret tt.

(** ** Weakest preconditions

    [wp m Q s]: from [s], the computation [m] has defined behaviour and
    ends with a result and a state that satisfy [Q]. *)
Definition wp {S A : Type} (m : Drv S A) (Q : A -> S -> Prop) (s : S) : Prop :=
  match m s with
  | Some (a, s') => Q a s'
  | None => False
  end.

(** ** Tactics *)

(** Equality of integers bit by bit, for goals built from [Z.land], [Z.lor],
    [Z.lnot] and [Z.lxor]. *)
Ltac bitwise :=
  apply Z.bits_inj'; intros ?i ?Hi;
  repeat (rewrite ?Z.land_spec, ?Z.lor_spec, ?Z.lnot_spec, ?Z.lxor_spec,
            ?Z.bits_0 by lia);
  try btauto.

(** The bit [i] of an equation between integers. *)
Ltac bit_of H i :=
  let Hb := fresh "Hb" in
  pose proof (f_equal (fun z => Z.testbit z i) H) as Hb; cbn beta in Hb;
  repeat (rewrite ?Z.land_spec, ?Z.lor_spec, ?Z.lnot_spec, ?Z.lxor_spec,
            ?Z.bits_0 in Hb by lia).

(** Unfolds the monad operations in the goal. *)
Ltac munfold := unfold bind, ret, gets, modify, dbind, dret, dgets, dmodify, zoom, when in *.

Create HintDb qmc discriminated.
Create Rewrite HintDb wp.
Create HintDb drv discriminated.

(** ** Lemmas on machine integers *)

Lemma uint8_range z : is_uint8 (uint8 z).
Proof. unfold is_uint8, uint8. apply Z.mod_pos_bound. lia. Qed.

Lemma uint8_id z : is_uint8 z -> uint8 z = z.
Proof. unfold is_uint8, uint8. intros. apply Z.mod_small. lia. Qed.

Lemma uint64_range z : is_uint64 (uint64 z).
Proof. unfold is_uint64, uint64. apply Z.mod_pos_bound. lia. Qed.

Lemma uint64_id z : is_uint64 z -> uint64 z = z.
Proof. unfold is_uint64, uint64. intros. apply Z.mod_small. lia. Qed.

Lemma int16_range z : is_int16 (int16 z).
Proof.
  unfold is_int16, int16, INT16_MIN, INT16_MAX.
  pose proof (Z.mod_pos_bound (z + 2 ^ 15) (2 ^ 16)). lia.
Qed.

Lemma int16_id z : is_int16 z -> int16 z = z.
Proof.
  unfold is_int16, int16, INT16_MIN, INT16_MAX. intros.
  rewrite Z.mod_small; lia.
Qed.

Lemma int16_congr z : (int16 z - z) mod 2 ^ 16 = 0.
Proof.
  unfold int16.
  replace ((z + 2 ^ 15) mod 2 ^ 16 - 2 ^ 15 - z)
    with (- ((z + 2 ^ 15) / 2 ^ 16) * 2 ^ 16).
  - apply Z.mod_mul. lia.
  - pose proof (Z.div_mod (z + 2 ^ 15) (2 ^ 16)). lia.
Qed.

Lemma int16_of_uint16 z :
  0 <= z < 2 ^ 16 -> int16 z = if z <? 2 ^ 15 then z else z - 2 ^ 16.
Proof.
  intros Hz. unfold int16. destruct (Z.ltb_spec z (2 ^ 15)).
  - rewrite Z.mod_small; lia.
  - replace (z + 2 ^ 15) with (z - 2 ^ 15 + 1 * 2 ^ 16) by lia.
    rewrite Z.mod_add, Z.mod_small; lia.
Qed.

(** A nonnegative integer is below [2^k] when its bits from [k] on are
    clear. *)
Lemma bounded_by_bits k n :
  0 <= k -> 0 <= n -> (forall l, k <= l -> Z.testbit n l = false) -> 0 <= n < 2 ^ k.
Proof. intros Hk Hn Hb. by apply Z.bounded_iff_bits_nonneg'. Qed.

Lemma bits_above_uint8 z l : is_uint8 z -> 8 <= l -> Z.testbit z l = false.
Proof.
  unfold is_uint8. intros Hz Hl.
  eapply (proj1 (Z.bounded_iff_bits_nonneg' 8 z ltac:(lia) ltac:(lia))); done.
Qed.

Lemma land_uint8_l a b : is_uint8 a -> is_uint8 (Z.land a b).
Proof.
  intros Ha. apply bounded_by_bits; [lia | apply Z.land_nonneg; unfold is_uint8 in Ha; lia |].
  intros l Hl. rewrite Z.land_spec, (bits_above_uint8 a l) by done. done.
Qed.

Lemma land_uint8_r a b : is_uint8 b -> is_uint8 (Z.land a b).
Proof. rewrite Z.land_comm. apply land_uint8_l. Qed.

Lemma lor_uint8 a b : is_uint8 a -> is_uint8 b -> is_uint8 (Z.lor a b).
Proof.
  intros Ha Hb.
  apply bounded_by_bits; [lia | apply Z.lor_nonneg; unfold is_uint8 in *; lia |].
  intros l Hl. by rewrite Z.lor_spec, !bits_above_uint8.
Qed.

(** Masking with a single bit. *)
Lemma land_pow2 a k :
  0 <= k -> Z.land a (2 ^ k) = if Z.testbit a k then 2 ^ k else 0.
Proof.
  intros Hk. apply Z.bits_inj'. intros i Hi.
  rewrite Z.land_spec, Z.pow2_bits_eqb by done.
  destruct (Z.eqb_spec k i) as [-> | Hne].
  - destruct (Z.testbit a i); [by rewrite Z.pow2_bits_true | by rewrite Z.bits_0].
  - rewrite andb_false_r.
    destruct (Z.testbit a k); [by rewrite Z.pow2_bits_false | by rewrite Z.bits_0].
Qed.

Lemma land_pow2_eqb a k : 0 <= k -> (Z.land a (2 ^ k) =? 0) = negb (Z.testbit a k).
Proof.
  intros Hk. rewrite land_pow2 by done. destruct (Z.testbit a k); [| done].
  apply Z.eqb_neq. pose proof (Z.pow_pos_nonneg 2 k). lia.
Qed.

Lemma truthy_land_pow2 a k : 0 <= k -> truthy (Z.land a (2 ^ k)) = Z.testbit a k.
Proof. intros Hk. unfold truthy. rewrite land_pow2_eqb by done. apply negb_involutive. Qed.

Lemma truthy_true z : truthy z = true <-> z <> 0.
Proof. unfold truthy. rewrite negb_true_iff. apply Z.eqb_neq. Qed.

Lemma truthy_false z : truthy z = false <-> z = 0.
Proof. unfold truthy. rewrite negb_false_iff. apply Z.eqb_eq. Qed.

#[export] Hint Resolve uint8_range uint64_range int16_range
  land_uint8_l land_uint8_r lor_uint8 : qmc.

(** ** Lemmas on the monads *)

Lemma bind_ret_l {S A B} (a : A) (k : A -> State S B) s : bind (ret a) k s = k a s.
Proof. done. Qed.

Lemma bind_ret_r {S A} (m : State S A) s : bind m ret s = m s.
Proof. unfold bind, ret. cbn. by destruct (m s). Qed.

Lemma bind_assoc {S A B C} (m : State S A) (k : A -> State S B) (h : B -> State S C) s :
  bind (bind m k) h s = bind m (fun a => bind (k a) h) s.
Proof. done. Qed.

Lemma bind_run {S A B} (m : State S A) (k : A -> State S B) s a s' :
  m s = (a, s') -> bind m k s = k a s'.
Proof. unfold bind. by intros ->. Qed.

Lemma dbind_run {S A B} (m : Drv S A) (k : A -> Drv S B) s a s' :
  m s = Some (a, s') -> dbind m k s = k a s'.
Proof. unfold dbind. by intros ->. Qed.

Lemma dbind_undefined {S A B} (m : Drv S A) (k : A -> Drv S B) s :
  m s = None -> dbind m k s = None.
Proof. unfold dbind. by intros ->. Qed.

Lemma dbind_assoc {S A B C} (m : Drv S A) (k : A -> Drv S B) (h : B -> Drv S C) s :
  dbind (dbind m k) h s = dbind m (fun a => dbind (k a) h) s.
Proof. unfold dbind. by destruct (m s) as [[] |]. Qed.

(** ** The rules of the weakest precondition *)

Lemma wp_dret {S A} (a : A) (Q : A -> S -> Prop) s : wp (dret a) Q s = Q a s.
Proof. done. Qed.

Lemma wp_dbind {S A B} (m : Drv S A) (k : A -> Drv S B) (Q : B -> S -> Prop) s :
  wp (dbind m k) Q s = wp m (fun a s' => wp (k a) Q s') s.
Proof. unfold wp, dbind. by destruct (m s) as [[] |]. Qed.

Lemma wp_dgets {S A} (f : S -> A) (Q : A -> S -> Prop) s : wp (dgets f) Q s = Q (f s) s.
Proof. done. Qed.

Lemma wp_dmodify {S} (f : S -> S) (Q : unit -> S -> Prop) s :
  wp (dmodify f) Q s = Q tt (f s).
Proof. done. Qed.

Lemma wp_zoom {S T A} (get : S -> T) (put : T -> S -> S) (m : State T A)
    (Q : A -> S -> Prop) s :
  wp (zoom get put m) Q s = Q (fst (m (get s))) (put (snd (m (get s))) s).
Proof. done. Qed.

Lemma wp_undefined {S A} (Q : A -> S -> Prop) s : wp undefined Q s = False.
Proof. done. Qed.

Lemma wp_if {S A} (b : bool) (m1 m2 : Drv S A) (Q : A -> S -> Prop) s :
  wp (if b then m1 else m2) Q s = if b then wp m1 Q s else wp m2 Q s.
Proof. by destruct b. Qed.

Lemma wp_when {S} (b : bool) (m : Drv S unit) (Q : unit -> S -> Prop) s :
  wp (when b m) Q s = if b then wp m Q s else Q tt s.
Proof. by destruct b. Qed.

Lemma wp_mono {S A} (m : Drv S A) (Q Q' : A -> S -> Prop) s :
  (forall a s', Q a s' -> Q' a s') -> wp m Q s -> wp m Q' s.
Proof. unfold wp. destruct (m s) as [[] |]; auto. Qed.

Lemma wp_conj {S A} (m : Drv S A) (Q Q' : A -> S -> Prop) s :
  wp m Q s -> wp m Q' s -> wp m (fun a s' => Q a s' /\ Q' a s') s.
Proof. unfold wp. destruct (m s) as [[] |]; auto. Qed.

(** A weakest precondition says that the computation returns, and what. *)
Lemma wp_elim {S A} (m : Drv S A) (Q : A -> S -> Prop) s :
  wp m Q s -> exists a s', m s = Some (a, s') /\ Q a s'.
Proof. unfold wp. destruct (m s) as [[a s'] |]; [eauto | done]. Qed.

Lemma wp_elim_unit {S} (m : Drv S unit) (Q : S -> Prop) s :
  wp m (fun _ => Q) s -> exists s', m s = Some (tt, s') /\ Q s'.
Proof. intros Hwp. destruct (wp_elim _ _ _ Hwp) as ([] & s' & ? & ?). eauto. Qed.

Lemma wp_intro {S A} (m : Drv S A) (Q : A -> S -> Prop) s a s' :
  m s = Some (a, s') -> Q a s' -> wp m Q s.
Proof. unfold wp. by intros ->. Qed.

(** A run is the weakest precondition of its own outcome: what holds of
    every outcome of [m] can be proved by computing a weakest
    precondition. *)
Lemma wp_of_run {S A} (m : Drv S A) s a s' :
  m s = Some (a, s') -> wp m (fun a' s'' => (a', s'') = (a, s')) s.
Proof. unfold wp. by intros ->. Qed.

(** Turns the hypothesis [H : m s = Some (a, s')] into the premise
    [wp m (fun a' s'' => (a', s'') = (a, s')) s] of the goal. *)
Ltac wp_from H := apply wp_of_run in H; revert H.

Lemma wp_run {S A} (m : Drv S A) (Q : A -> S -> Prop) s a s' :
  m s = Some (a, s') -> wp m Q s -> Q a s'.
Proof. unfold wp. by intros ->. Qed.

#[export] Hint Rewrite @wp_dbind @wp_dret @wp_dgets @wp_dmodify @wp_zoom
  @wp_undefined @wp_if @wp_when : wp.

Lemma zoom_run {S T A} (get : S -> T) (put : T -> S -> S) (m : State T A) s a t' :
  m (get s) = (a, t') -> zoom get put m s = Some (a, put t' s).
Proof. unfold zoom. by intros ->. Qed.

Lemma zoom_defined {S T A} (get : S -> T) (put : T -> S -> S) (m : State T A) s :
  zoom get put m s = Some (fst (m (get s)), put (snd (m (get s))) s).
Proof. done. Qed.

(** ** Runs *)

(** A run of a relation is a run of every relation that contains it. *)
Lemma nsteps_sub {A} (R R' : relation A) n x y :
  (forall x y, R x y -> R' x y) -> nsteps R n x y -> nsteps R' n x y.
Proof. intros HR. exact (nsteps_congruence id R' n x y HR). Qed.

(** [n] steps of a function that may stop, and the run they make. *)
Fixpoint steps {A} (f : A -> option A) (n : nat) (x : A) : option A :=
  match n with
  | O => Some x
  | S n => y ← f x; steps f n y
  end.

Lemma steps_nsteps {A} (f : A -> option A) (R : relation A) (P : A -> Prop) n :
  (forall x y, P x -> f x = Some y -> R x y /\ P y) ->
  forall x y, P x -> steps f n x = Some y -> nsteps R n x y.
Proof.
  intros HR. induction n as [| n IH]; intros x y HP; cbn [steps].
  - intros [= <-]. constructor.
  - destruct (f x) as [x1 |] eqn:Hf; [| done]. cbn [mbind option_bind].
    destruct (HR x x1 HP Hf) as [Hr HP1]. intros Hn. econstructor; eauto.
Qed.

(** ** The first step out of a set of states *)

Section FirstExit.
Context {A : Type} (R : relation A) (P : A -> Prop) `{!forall x, Decision (P x)}.

(** A step that ends in [P]. *)
Definition staying : relation A := fun x y => R x y /\ P y.

(** A run stays in [P], or leaves it for the first time after some steps
    in [P]. *)
Lemma nsteps_first_exit m : forall x z,
  nsteps R m x z ->
  nsteps staying m x z \/
  exists k y y',
    (k < m)%nat /\ nsteps staying k x y /\ R y y' /\ ~ P y' /\ nsteps R (m - k - 1) y' z.
Proof.
  induction m as [| m IH]; intros x z Hn.
  { inversion Hn; subst. left. constructor. }
  inversion Hn as [| ? ? y ? Hr Hrest]; subst.
  destruct (decide (P y)) as [Hy | Hy].
  - destruct (IH _ _ Hrest) as [Hall | (k & y1 & y2 & Hk & Hst & Hr' & Hn' & Hrem)].
    + left. by econstructor.
    + right. exists (S k), y1, y2. split_and!; [lia | by econstructor | done..].
  - right. exists 0%nat, x, y. rewrite Nat.sub_0_r. cbn. rewrite Nat.sub_0_r.
    split_and!; [lia | constructor | done..].
Qed.

Lemma nsteps_staying n x z : nsteps staying n x z -> nsteps R n x z.
Proof. induction 1 as [| ? ? ? ? [Hr _] _ IH]; [constructor | by econstructor]. Qed.

(** A run that stays in [P] ends in [P]. *)
Lemma staying_last n x y : nsteps staying n x y -> P x -> P y.
Proof. induction 1 as [| ? ? ? ? [_ Hy] _ IH]; auto. Qed.

(** When no more than [b] steps in a row stay in [P], a longer run leaves
    [P] after [b] steps at the latest. *)
Lemma nsteps_exit b m x z :
  (forall n y, nsteps staying n x y -> (n <= b)%nat) -> (b < m)%nat ->
  nsteps R m x z ->
  exists k y y',
    (k <= b)%nat /\ nsteps staying k x y /\ R y y' /\ ~ P y' /\ nsteps R (m - k - 1) y' z.
Proof.
  intros Hb Hm Hn.
  destruct (nsteps_first_exit m x z Hn) as [Hall | (k & y & y' & Hk & Hst & Hr & Hy & Hrest)].
  { specialize (Hb _ _ Hall). lia. }
  exists k, y, y'. split_and!; [by apply (Hb k y) | done..].
Qed.

End FirstExit.
