(* ===== verification/Registers.v ===== *)
(** * The register map of the device and the driver's enumerations

    The register addresses, the bit names of [STATUS], [CNTL1] and [CNTL2],
    the configuration triple [register_config_t] and the enumeration [STATE]
    are declared in the driver's headers, which [QMC5883L.cpp] includes.
    They are modelled here from the specification and the chip's data sheet.
    Each enumeration is a module, so that a value is written as in the
    source: [Register.CNTL2], [CNTL2_BIT.SOFT_RST], [STATE.RESET]. *)

From Stdlib Require Import ZArith Lia.
From stdpp Require Import base tactics decidable list.
From S2P Require Import Prelude.

#[local] Open Scope Z_scope.

(** ** Registers *)

Module Register.

Inductive Register : Set :=
| X_LSB | X_MSB | Y_LSB | Y_MSB | Z_LSB | Z_MSB
| STATUS
| TEMP_LSB | TEMP_MSB
| CNTL1 | CNTL2
| SET_RESET_PERIOD
| CHIP_ID.

(** [static_cast<uint8_t>(reg)]: the address sent on the bus. *)
Definition addr (r : Register) : Z :=
  match r with
  | X_LSB => 0x00 | X_MSB => 0x01
  | Y_LSB => 0x02 | Y_MSB => 0x03
  | Z_LSB => 0x04 | Z_MSB => 0x05
  | STATUS => 0x06
  | TEMP_LSB => 0x07 | TEMP_MSB => 0x08
  | CNTL1 => 0x09 | CNTL2 => 0x0A
  | SET_RESET_PERIOD => 0x0B
  | CHIP_ID => 0x0D
  end.

Definition all : list Register :=
  [X_LSB; X_MSB; Y_LSB; Y_MSB; Z_LSB; Z_MSB; STATUS; TEMP_LSB; TEMP_MSB;
   CNTL1; CNTL2; SET_RESET_PERIOD; CHIP_ID].

End Register.

Abbreviation Register := Register.Register.

#[export] Instance Register_eq_dec : EqDecision Register.
Proof. solve_decision. Defined.

(** ** Bit names *)

Module STATUS_BIT.
Definition DOR : Z := 4.  (* Bit2: data skipped *)
Definition OVL : Z := 2.  (* Bit1: overflow flag *)
Definition DRDY : Z := 1. (* Bit0: data ready *)
End STATUS_BIT.

Module CNTL1_BIT.
Definition OSR_512 : Z := 0xC0.        (* OSR[7:6], both clear selects 512 *)
Definition RNG_2G : Z := 0x30.         (* RNG[5:4], both clear selects 2 G *)
Definition ODR_50HZ : Z := 0x04.       (* ODR[3:2] = 01 *)
Definition Mode_Continuous : Z := 0x01. (* MODE[1:0] = 01 *)
End CNTL1_BIT.

Module CNTL2_BIT.
Definition SOFT_RST : Z := 0x80. (* Bit7: soft reset, cleared by the chip *)
Definition ROL_PNT : Z := 0x40.  (* Bit6: pointer roll-over *)
End CNTL2_BIT.

(** ** Configuration entries *)

(** The triple of the header.  The two masks are [uint8_t] there; here
    they are integers, and [cfg_wf] is what says that they are bytes: the
    theorems that depend on it assume it of the table. *)
Record register_config_t : Set := {
  reg : Register;
  set_bits : Z;
  clear_bits : Z;
}.

#[export] Instance register_config_eq_dec : EqDecision register_config_t.
Proof. solve_decision. Defined.

(** An entry is well formed when both masks are bytes and no bit is asked to
    be set and clear at once. *)
Definition cfg_wf (c : register_config_t) : Prop :=
  is_uint8 (set_bits c) /\ is_uint8 (clear_bits c) /\
  Z.land (set_bits c) (clear_bits c) = 0.

#[export] Instance cfg_wf_dec c : Decision (cfg_wf c).
Proof. unfold cfg_wf. apply _. Defined.

(** What an entry asks of the value [v] of its register. *)
Definition cfg_holds (c : register_config_t) (v : Z) : Prop :=
  Z.land v (set_bits c) = set_bits c /\ Z.land v (clear_bits c) = 0.

#[export] Instance cfg_holds_dec c v : Decision (cfg_holds c v).
Proof. unfold cfg_holds. apply _. Defined.

(** ** States of the driver *)

Module STATE.

Inductive STATE : Set :=
| RESET
| WAIT_FOR_RESET
| CONFIGURE
| READ.

End STATE.

Abbreviation STATE := STATE.STATE.

#[export] Instance STATE_eq_dec : EqDecision STATE.
Proof. solve_decision. Defined.

(** ** Lemmas *)

Lemma Register_all_complete r : r ∈ Register.all.
Proof. destruct r; unfold Register.all; repeat constructor. Qed.

Lemma Register_addr_uint8 r : is_uint8 (Register.addr r).
Proof. destruct r; unfold is_uint8; cbn; lia. Qed.

Lemma Register_addr_inj r1 r2 : Register.addr r1 = Register.addr r2 -> r1 = r2.
Proof. destruct r1, r2; cbn; intros; done. Qed.

Lemma SOFT_RST_uint8 : is_uint8 CNTL2_BIT.SOFT_RST.
Proof. unfold is_uint8, CNTL2_BIT.SOFT_RST; lia. Qed.

#[export] Hint Resolve Register_addr_uint8 SOFT_RST_uint8 : qmc.
