(* ===== verification/Platform.v ===== *)
(** * What the driver consumes and produces

    The byte transfer port and the clock are an interface, the class
    [Platform]; the driver's theorems are proved for every instance that
    satisfies [PlatformLaws].  The work item's scheduling calls, the
    measurement sink and the diagnostic counters are objects the driver
    owns; they are modelled by the state each call leaves behind.  None of
    this code is part of [QMC5883L.cpp]: it is modelled from the
    specification's description of the external interfaces. *)

From Stdlib Require Import ZArith Lia QArith_base.
From stdpp Require Import base tactics option list.
From S2P Require Import Prelude.

#[local] Open Scope Z_scope.

(** ** Time literals: microseconds *)

Definition ms (n : Z) : Z := n * 1000.
Definition sec (n : Z) : Z := n * 1000000.

(** ** The byte transfer port and the clock *)

Definition PX4_OK : Z := 0.

(** [transfer send recv_len] sends the bytes [send] and asks for [recv_len]
    bytes; it returns the status and what the receive buffer holds after the
    call.  [hrt_absolute_time] reads the monotonic clock.  [I2C_init] is the
    bus-level initialisation the base class performs.  Reading the clock
    does not advance it: time passes during a transfer and while the item
    waits in the work queue, and the time the processor spends between two
    transfers is counted with the transfer that follows.  Two reads of the
    clock with no transfer between them, as on lines 195 and 208, give the
    same time. *)
Class Platform (W : Type) : Type := {
  transfer : list Z -> nat -> State W (Z * list Z);
  hrt_absolute_time : W -> Z;
  I2C_init : State W Z;
}.

(** The clock is a 64-bit counter that a transfer does not turn back. *)
Class PlatformLaws (W : Type) `{Platform W} : Prop := {
  clock_uint64 : forall w, is_uint64 (hrt_absolute_time w);
  transfer_clock : forall send n w,
    hrt_absolute_time w <= hrt_absolute_time (snd (transfer send n w));
  I2C_init_clock : forall w,
    hrt_absolute_time w <= hrt_absolute_time (snd (I2C_init w));
}.

Section Clock.
Context {W : Type} `{Platform W}.

(** [hrt_absolute_time()] as an action. *)
Definition now : State W Z := gets hrt_absolute_time.

(** [hrt_elapsed_time(&then)]: the unsigned difference to the clock. *)
Definition hrt_elapsed_time (then_ : Z) : State W Z :=
  gets (fun w => uint64 (hrt_absolute_time w - then_)).

End Clock.

(** The byte at offset [i] of a zero-initialised [uint8_t] buffer after a
    transfer that left [data] in it. *)
Definition buffer_byte (data : list Z) (i : nat) : Z :=
  uint8 (default 0 (data !! i)).

(** ** The work item's schedule *)

(** [run_now]: the item is queued for immediate execution.  [timer]: the
    pending timer call as (delay to the first call, interval between the
    following ones); an interval of [0] is a one-shot call. *)
Record Schedule : Set := {
  run_now : bool;
  timer : option (Z * Z);
}.

Definition ScheduleClear (_ : Schedule) : Schedule :=
  {| run_now := false; timer := None |}.

Definition ScheduleNow (s : Schedule) : Schedule :=
  {| run_now := true; timer := timer s |}.

Definition ScheduleDelayed (delay : Z) (s : Schedule) : Schedule :=
  {| run_now := run_now s; timer := Some (delay, 0) |}.

Definition ScheduleOnInterval (interval delay : Z) (s : Schedule) : Schedule :=
  {| run_now := run_now s; timer := Some (delay, interval) |}.

(** The schedule as the work queue starts the item: an immediate request is
    consumed and leaves the timer pending; otherwise the timer has expired,
    a one-shot call is gone and a periodic call is armed for its interval. *)
Definition fire (s : Schedule) : Schedule :=
  if run_now s then {| run_now := false; timer := timer s |}
  else
    {| run_now := false;
       timer := match timer s with
                | Some (_, interval) =>
                    if interval =? 0 then None else Some (interval, interval)
                | None => None
                end |}.

(** The delay after which the work queue starts the item, if it does. *)
Definition next_delay (s : Schedule) : option Z :=
  if run_now s then Some 0 else fst <$> timer s.

(** The item will run again. *)
Definition scheduled (s : Schedule) : Prop :=
  run_now s = true \/ is_Some (timer s).

#[export] Instance scheduled_dec s : Decision (scheduled s).
Proof. unfold scheduled. apply _. Defined.

(** ** The measurement sink *)

Inductive ORB_PRIO : Set := ORB_PRIO_DEFAULT | ORB_PRIO_VERY_HIGH.

(** One call of [update]: the sample's timestamp and the three raw axis
    values. *)
Record mag_sample : Set := {
  sample_timestamp : Z;
  sample_x : Z;
  sample_y : Z;
  sample_z : Z;
}.

(** The sink keeps its settings and, in the model, every sample it was
    given, the latest first. *)
Record PX4Magnetometer : Set := {
  mag_priority : ORB_PRIO;
  mag_rotation : Z;
  mag_external : bool;
  mag_scale : Q;
  mag_temperature : option Q;
  mag_samples : list mag_sample;
}.

Definition PX4Magnetometer_new (prio : ORB_PRIO) (rotation : Z) : PX4Magnetometer :=
  {| mag_priority := prio; mag_rotation := rotation; mag_external := false;
     mag_scale := 1%Q; mag_temperature := None; mag_samples := [] |}.

Definition set_external (b : bool) (m : PX4Magnetometer) : PX4Magnetometer :=
  {| mag_priority := mag_priority m; mag_rotation := mag_rotation m;
     mag_external := b; mag_scale := mag_scale m;
     mag_temperature := mag_temperature m; mag_samples := mag_samples m |}.

Definition set_scale (q : Q) (m : PX4Magnetometer) : PX4Magnetometer :=
  {| mag_priority := mag_priority m; mag_rotation := mag_rotation m;
     mag_external := mag_external m; mag_scale := q;
     mag_temperature := mag_temperature m; mag_samples := mag_samples m |}.

Definition set_temperature (q : Q) (m : PX4Magnetometer) : PX4Magnetometer :=
  {| mag_priority := mag_priority m; mag_rotation := mag_rotation m;
     mag_external := mag_external m; mag_scale := mag_scale m;
     mag_temperature := Some q; mag_samples := mag_samples m |}.

Definition update (t x y z : Z) (m : PX4Magnetometer) : PX4Magnetometer :=
  {| mag_priority := mag_priority m; mag_rotation := mag_rotation m;
     mag_external := mag_external m; mag_scale := mag_scale m;
     mag_temperature := mag_temperature m;
     mag_samples :=
       {| sample_timestamp := t; sample_x := x; sample_y := y; sample_z := z |}
       :: mag_samples m |}.

(** ** Diagnostic counters: the number of events counted *)

Definition perf_counter_t : Set := nat.

Definition perf_count (c : perf_counter_t) : perf_counter_t := S c.

(** An elapsed-time counter counts one event per [perf_begin]/[perf_end]
    pair, at [perf_end]. *)
Definition perf_begin (c : perf_counter_t) : perf_counter_t := c.
Definition perf_end (c : perf_counter_t) : perf_counter_t := S c.

(** ** Lemmas *)

Lemma ms_pos n : 0 < n -> 0 < ms n.
Proof. unfold ms. lia. Qed.

Lemma buffer_byte_uint8 data i : is_uint8 (buffer_byte data i).
Proof. apply uint8_range. Qed.

Lemma buffer_byte_nil i : buffer_byte [] i = 0.
Proof. unfold buffer_byte. by rewrite lookup_nil. Qed.

Lemma buffer_byte_lookup data i b :
  data !! i = Some b -> is_uint8 b -> buffer_byte data i = b.
Proof. unfold buffer_byte. intros -> Hb. by apply uint8_id. Qed.

Lemma scheduled_Delayed d s : scheduled (ScheduleDelayed d s).
Proof. right. by eexists. Qed.

Lemma scheduled_OnInterval i d s : scheduled (ScheduleOnInterval i d s).
Proof. right. by eexists. Qed.

Lemma scheduled_Now s : scheduled (ScheduleNow s).
Proof. by left. Qed.

Lemma scheduled_next_delay s : scheduled s <-> is_Some (next_delay s).
Proof.
  unfold scheduled, next_delay. destruct (run_now s); [by split; eauto |].
  rewrite fmap_is_Some. split; [by intros [? | ?] | by right].
Qed.

Lemma fire_interval s i :
  run_now s = false -> timer s = Some (i, i) -> i <> 0 -> fire s = s.
Proof.
  destruct s as [rn tm]. cbn. intros -> -> Hi. unfold fire. cbn.
  by destruct (Z.eqb_spec i 0).
Qed.

#[export] Hint Resolve buffer_byte_uint8 scheduled_Delayed scheduled_OnInterval
  scheduled_Now : qmc.

Section ClockLemmas.
Context {W : Type} `{PlatformLaws W}.

(** Without wrap-around, the elapsed time is the difference to the clock
    reading. *)
Lemma hrt_elapsed_time_exact then_ w :
  0 <= then_ <= hrt_absolute_time w ->
  hrt_elapsed_time then_ w = (hrt_absolute_time w - then_, w).
Proof.
  intros Ht. unfold hrt_elapsed_time, gets. f_equal.
  apply uint64_id. pose proof (clock_uint64 w). unfold is_uint64 in *. lia.
Qed.

Lemma hrt_elapsed_time_world then_ w : snd (hrt_elapsed_time then_ w) = w.
Proof. done. Qed.

Lemma now_run w : now w = (hrt_absolute_time w, w).
Proof. done. Qed.

End ClockLemmas.
