(* ===== verification/RegisterAccess.v ===== *)
(** * The register access layer and the configuration validator

    [RegisterRead], [RegisterWrite], [RegisterSetAndClearBits] and
    [RegisterCheck] of [QMC5883L.cpp], as computations on any world with a
    [Platform] instance.  The theorems of this file hold for every
    platform; those that need a device that remembers what was written are
    in [SimDevice]. *)

From Stdlib Require Import ZArith Lia Bool.
From stdpp Require Import base tactics option list.
From S2P Require Import Prelude Registers Platform.

#[local] Open Scope Z_scope.

Section RegisterAccess.
Context {W : Type} `{Platform W}.

(** [transfer(&cmd, 1, &buffer, 1); return buffer;]: the status of the
    transfer is dropped, and a buffer the transfer left untouched reads
    as [0]. *)
Definition RegisterRead (r : Register) : State W Z :=
  (res <- transfer [Register.addr r] 1 ;;
   ret (buffer_byte (snd res) 0))%state.

(** [uint8_t buffer[2] {(uint8_t)reg, value}; transfer(buffer, 2, nullptr, 0);] *)
Definition RegisterWrite (r : Register) (value : Z) : State W unit :=
  (_ <- transfer [Register.addr r; value] 0 ;;
   ret tt)%state.

(** [uint8_t val = (orig_val & ~clearbits) | setbits;]: the operands are
    promoted to [int], the result is narrowed to [uint8_t]. *)
Definition set_and_clear (orig_val setbits clearbits : Z) : Z :=
  uint8 (Z.lor (Z.land orig_val (Z.lnot clearbits)) setbits).

Definition RegisterSetAndClearBits (r : Register) (setbits clearbits : Z) : State W unit :=
  (orig_val <- RegisterRead r ;;
   let val := set_and_clear orig_val setbits clearbits in
   if negb (orig_val =? val) then RegisterWrite r val else ret tt)%state.

(** The two tests of [RegisterCheck] on the value read. *)
Definition set_bits_missing (c : register_config_t) (reg_value : Z) : bool :=
  truthy (set_bits c) && negb (Z.land reg_value (set_bits c) =? set_bits c).

Definition clear_bits_present (c : register_config_t) (reg_value : Z) : bool :=
  truthy (clear_bits c) && negb (Z.land reg_value (clear_bits c) =? 0).

Definition RegisterCheck (c : register_config_t) : State W bool :=
  (reg_value <- RegisterRead (reg c) ;;
   let success := true in
   let success := if set_bits_missing c reg_value then false else success in
   let success := if clear_bits_present c reg_value then false else success in
   ret success)%state.

(** A computation does not turn the clock back. *)
Definition clock_mono {A : Type} (m : State W A) : Prop :=
  forall w, hrt_absolute_time w <= hrt_absolute_time (snd (m w)).

End RegisterAccess.

(** ** The value computed by [RegisterSetAndClearBits] *)

(** Narrowing to [uint8_t] loses nothing: the value before the conversion is
    a byte already. *)
Lemma set_and_clear_exact o s c :
  is_uint8 o -> is_uint8 s ->
  set_and_clear o s c = Z.lor (Z.land o (Z.lnot c)) s.
Proof. intros Ho Hs. apply uint8_id. auto with qmc. Qed.

Lemma set_and_clear_uint8 o s c : is_uint8 (set_and_clear o s c).
Proof. apply uint8_range. Qed.

Lemma lor_land_lnot_set o s c : Z.land (Z.lor (Z.land o (Z.lnot c)) s) s = s.
Proof. bitwise. Qed.

Lemma lor_land_lnot_clear o s c :
  Z.land s c = 0 -> Z.land (Z.lor (Z.land o (Z.lnot c)) s) c = 0.
Proof.
  intros Hsc. bitwise. bit_of Hsc i.
  destruct (Z.testbit o i), (Z.testbit c i), (Z.testbit s i); cbn in *; congruence.
Qed.

Lemma lor_land_lnot_fixed o s c :
  Z.land o s = s -> Z.land o c = 0 -> Z.lor (Z.land o (Z.lnot c)) s = o.
Proof.
  intros Hs Hc. bitwise. bit_of Hs i. bit_of Hc i.
  destruct (Z.testbit o i), (Z.testbit c i), (Z.testbit s i); cbn in *; congruence.
Qed.

(** The value written has every bit of [set_bits] and no bit of
    [clear_bits]. *)
Lemma set_and_clear_holds c o :
  is_uint8 o -> cfg_wf c -> cfg_holds c (set_and_clear o (set_bits c) (clear_bits c)).
Proof.
  intros Ho (Hs & _ & Hsc). rewrite set_and_clear_exact by done.
  split; [apply lor_land_lnot_set | by apply lor_land_lnot_clear].
Qed.

(** The value is left as it is exactly when it satisfies the entry already:
    this is the case in which no write is issued. *)
Lemma set_and_clear_fixed_iff c o :
  is_uint8 o -> cfg_wf c ->
  set_and_clear o (set_bits c) (clear_bits c) = o <-> cfg_holds c o.
Proof.
  intros Ho Hwf. split.
  - intros <-. by apply set_and_clear_holds.
  - intros [Hs Hc]. destruct Hwf as (Hsb & _ & _).
    rewrite set_and_clear_exact by done. by apply lor_land_lnot_fixed.
Qed.

(** Applying an entry of the table twice is the same as applying it
    once: the value [RegisterSetAndClearBits] computes from a value it has
    computed is that value, so that a second pass over the table writes
    nothing. *)
Lemma set_and_clear_idem c o :
  is_uint8 o -> cfg_wf c ->
  set_and_clear (set_and_clear o (set_bits c) (clear_bits c)) (set_bits c) (clear_bits c)
  = set_and_clear o (set_bits c) (clear_bits c).
Proof.
  intros Ho Hwf. apply set_and_clear_fixed_iff; [apply set_and_clear_uint8 | done |].
  by apply set_and_clear_holds.
Qed.

(** ** The tests of [RegisterCheck] *)

(** The guards [reg_cfg.set_bits && ...] and [reg_cfg.clear_bits && ...] do
    not change the outcome: an empty mask is satisfied by every value. *)
Lemma set_bits_missing_spec c v :
  set_bits_missing c v = negb (bool_decide (Z.land v (set_bits c) = set_bits c)).
Proof.
  unfold set_bits_missing, truthy.
  destruct (Z.eqb_spec (set_bits c) 0) as [-> | Hne]; cbn.
  - rewrite Z.land_0_r. by rewrite bool_decide_eq_true_2.
  - destruct (Z.eqb_spec (Z.land v (set_bits c)) (set_bits c)).
    + by rewrite bool_decide_eq_true_2.
    + by rewrite bool_decide_eq_false_2.
Qed.

Lemma clear_bits_present_spec c v :
  clear_bits_present c v = negb (bool_decide (Z.land v (clear_bits c) = 0)).
Proof.
  unfold clear_bits_present, truthy.
  destruct (Z.eqb_spec (clear_bits c) 0) as [-> | Hne]; cbn.
  - rewrite Z.land_0_r. by rewrite bool_decide_eq_true_2.
  - destruct (Z.eqb_spec (Z.land v (clear_bits c)) 0).
    + by rewrite bool_decide_eq_true_2.
    + by rewrite bool_decide_eq_false_2.
Qed.

Section RegisterAccessLemmas.
Context {W : Type} `{Platform W}.

Lemma RegisterRead_run r w :
  RegisterRead r w =
  (buffer_byte (snd (fst (transfer [Register.addr r] 1 w))) 0,
   snd (transfer [Register.addr r] 1 w)).
Proof. done. Qed.

Lemma RegisterWrite_run r v w :
  RegisterWrite r v w = (tt, snd (transfer [Register.addr r; v] 0 w)).
Proof. done. Qed.

Lemma RegisterRead_uint8 r w : is_uint8 (fst (RegisterRead r w)).
Proof. rewrite RegisterRead_run. apply buffer_byte_uint8. Qed.

(** A read whose transfer delivers no byte returns [0], whatever the
    status: the caller cannot tell a failed read from a register that
    holds [0]. *)
Lemma RegisterRead_no_data r w st w' :
  transfer [Register.addr r] 1 w = ((st, []), w') -> RegisterRead r w = (0, w').
Proof. intros Ht. rewrite RegisterRead_run, Ht. cbn. by rewrite buffer_byte_nil. Qed.

(** [RegisterSetAndClearBits] reads the register once, and writes
    the value with the bits set and cleared exactly when that value differs
    from the one read. *)
Lemma RegisterSetAndClearBits_run r s c w :
  RegisterSetAndClearBits r s c w =
  let (o, w1) := RegisterRead r w in
  if decide (set_and_clear o s c = o) then (tt, w1)
  else RegisterWrite r (set_and_clear o s c) w1.
Proof.
  unfold RegisterSetAndClearBits, bind. destruct (RegisterRead r w) as [o w1].
  cbn. destruct (Z.eqb_spec o (set_and_clear o s c)); case_decide; cbn; first [done | congruence].
Qed.

(** [RegisterCheck] decides [cfg_holds] on the value it reads. *)
Lemma RegisterCheck_run c w :
  RegisterCheck c w =
  (bool_decide (cfg_holds c (fst (RegisterRead (reg c) w))),
   snd (RegisterRead (reg c) w)).
Proof.
  unfold RegisterCheck, bind, ret. destruct (RegisterRead (reg c) w) as [v w1]; cbn.
  rewrite set_bits_missing_spec, clear_bits_present_spec. f_equal.
  unfold cfg_holds.
  destruct (decide (Z.land v (set_bits c) = set_bits c)),
           (decide (Z.land v (clear_bits c) = 0));
    repeat (rewrite ?bool_decide_eq_true_2, ?bool_decide_eq_false_2 by tauto); done.
Qed.

(** [RegisterCheck] returns true exactly when the value it reads has
    every bit of [set_bits] and no bit of [clear_bits]. *)
Lemma RegisterCheck_true c w :
  fst (RegisterCheck c w) = true <-> cfg_holds c (fst (RegisterRead (reg c) w)).
Proof. rewrite RegisterCheck_run. cbn. apply bool_decide_eq_true. Qed.

Lemma RegisterCheck_world c w :
  snd (RegisterCheck c w) = snd (RegisterRead (reg c) w).
Proof. by rewrite RegisterCheck_run. Qed.

(** A check of an entry with a bit to set fails when the transfer of
    the read delivers no byte, as a failed transfer does: the zeroed buffer
    is taken for the register's value. *)
Lemma RegisterCheck_no_data c w st w' :
  set_bits c <> 0 ->
  transfer [Register.addr (reg c)] 1 w = ((st, []), w') ->
  RegisterCheck c w = (false, w').
Proof.
  intros Hs Ht. rewrite RegisterCheck_run, (RegisterRead_no_data _ _ _ _ Ht). cbn.
  f_equal. apply bool_decide_eq_false_2. intros [Hset _].
  rewrite Z.land_0_l in Hset. congruence.
Qed.

End RegisterAccessLemmas.

(** ** The clock through the register operations *)

Section ClockMono.
Context {W : Type} `{PlatformLaws W}.

Lemma clock_mono_ret {A} (a : A) : clock_mono (ret a : State W A).
Proof. intros w. cbn. lia. Qed.

Lemma clock_mono_bind {A B} (m : State W A) (k : A -> State W B) :
  clock_mono m -> (forall a, clock_mono (k a)) -> clock_mono (bind m k).
Proof.
  intros Hm Hk w. unfold bind. specialize (Hm w).
  destruct (m w) as [a w1]. specialize (Hk a w1). cbn in *. lia.
Qed.

Lemma clock_mono_transfer send n : clock_mono (transfer send n).
Proof. intros w. apply transfer_clock. Qed.

Lemma clock_mono_if {A} (b : bool) (m1 m2 : State W A) :
  clock_mono m1 -> clock_mono m2 -> clock_mono (if b then m1 else m2).
Proof. by destruct b. Qed.

Lemma clock_mono_RegisterRead r : clock_mono (RegisterRead r).
Proof.
  unfold RegisterRead.
  apply clock_mono_bind; [apply clock_mono_transfer | intros; apply clock_mono_ret].
Qed.

Lemma clock_mono_RegisterWrite r v : clock_mono (RegisterWrite r v).
Proof.
  unfold RegisterWrite.
  apply clock_mono_bind; [apply clock_mono_transfer | intros; apply clock_mono_ret].
Qed.

Lemma clock_mono_RegisterSetAndClearBits r s c :
  clock_mono (RegisterSetAndClearBits r s c).
Proof.
  unfold RegisterSetAndClearBits.
  apply clock_mono_bind; [apply clock_mono_RegisterRead |].
  intros a. apply clock_mono_if; [apply clock_mono_RegisterWrite | apply clock_mono_ret].
Qed.

Lemma clock_mono_RegisterCheck c : clock_mono (RegisterCheck c).
Proof.
  unfold RegisterCheck.
  apply clock_mono_bind; [apply clock_mono_RegisterRead | intros; apply clock_mono_ret].
Qed.

End ClockMono.

#[export] Hint Resolve set_and_clear_uint8 set_and_clear_holds
  clock_mono_ret clock_mono_transfer clock_mono_RegisterRead clock_mono_RegisterWrite
  clock_mono_RegisterSetAndClearBits clock_mono_RegisterCheck : qmc.

(** ** Witnesses *)

Lemma set_and_clear_idem_witness :
  let c := {| reg := Register.CNTL1; set_bits := 0x05; clear_bits := 0xF0 |} in
  set_and_clear (set_and_clear 0xFF (set_bits c) (clear_bits c)) (set_bits c) (clear_bits c)
  = set_and_clear 0xFF (set_bits c) (clear_bits c).
Proof.
  apply (set_and_clear_idem {| reg := Register.CNTL1; set_bits := 0x05; clear_bits := 0xF0 |});
    [unfold is_uint8; lia | by vm_compute].
Defined.
