(* ===== verification/Decoder.v ===== *)
(** * The sample decoder and the temperature conversion

    [combine], the receive buffers of the two block reads, the condition
    under which [RunImpl] processes a sample, the sign convention of the
    axes with its saturation, and the conversion of the temperature
    reading. *)

From Stdlib Require Import ZArith Lia Bool QArith_base.
From stdpp Require Import base tactics option list list_numbers.
From S2P Require Import Prelude Registers Platform.

#[local] Open Scope Z_scope.

(** ** Definitions *)

(** [return (msb << 8u) | lsb;] with return type [int16_t]: the operands are
    promoted to [int], the result is narrowed to sixteen signed bits. *)
Definition combine (msb lsb : Z) : Z := int16 (Z.lor (Z.shiftl msb 8) lsb).

(** The receive buffer of the sample read: seven consecutive bytes from
    register [X_LSB] on. *)
Record TransferBuffer : Set := {
  X_LSB : Z;
  X_MSB : Z;
  Y_LSB : Z;
  Y_MSB : Z;
  Z_LSB : Z;
  Z_MSB : Z;
  STATUS : Z;
}.

(** The buffer after a transfer that left [data] in it; it was
    zero-initialised ([buffer{}]). *)
Definition TransferBuffer_of (data : list Z) : TransferBuffer :=
  {| X_LSB := buffer_byte data 0; X_MSB := buffer_byte data 1;
     Y_LSB := buffer_byte data 2; Y_MSB := buffer_byte data 3;
     Z_LSB := buffer_byte data 4; Z_MSB := buffer_byte data 5;
     STATUS := buffer_byte data 6 |}.

(** The condition of the [if] that guards the processing of a sample:
    [!failure && (buffer.STATUS && STATUS_BIT::DRDY)
              && (buffer.STATUS && STATUS_BIT::OVL == 0)].
    [&&] converts both operands to [bool], and [==] binds tighter
    than [&&]. *)
Definition sample_condition (failure : bool) (status : Z) : bool :=
  negb failure
  && (truthy status && truthy STATUS_BIT.DRDY)
  && (truthy status && (STATUS_BIT.OVL =? 0)).

(** The condition the specification describes: the data-ready bit is set
    and the overflow bit is clear. *)
Definition data_ready (failure : bool) (status : Z) : bool :=
  negb failure
  && truthy (Z.land status STATUS_BIT.DRDY)
  && (Z.land status STATUS_BIT.OVL =? 0).

(** [x = (x == INT16_MIN) ? INT16_MAX : -x;] on an [int16_t]. *)
Definition negate_sat (x : Z) : Z :=
  if x =? INT16_MIN then INT16_MAX else int16 (- x).

(** The three axis values handed to the sink: forward is [-X], right is
    [+Y], down is [-Z]. *)
Definition decode_sample (buffer : TransferBuffer) : Z * Z * Z :=
  let x := combine (X_MSB buffer) (X_LSB buffer) in
  let y := combine (Y_MSB buffer) (Y_LSB buffer) in
  let z := combine (Z_MSB buffer) (Z_LSB buffer) in
  let x := negate_sat x in
  let z := negate_sat z in
  (x, y, z).

(** The receive buffer of the temperature read. *)
Record TransferBufferTemperature : Set := {
  TOUT_LSB : Z;
  TOUT_MSB : Z;
}.

Definition TransferBufferTemperature_of (data : list Z) : TransferBufferTemperature :=
  {| TOUT_LSB := buffer_byte data 0; TOUT_MSB := buffer_byte data 1 |}.

(** [temperature_raw / 100.f] of
    [combine(buffer_temperature.TOUT_MSB, buffer_temperature.TOUT_LSB)].
    The C++ value is the [float] nearest to this quotient; the model keeps
    the quotient, and no theorem is about the rounding. *)
Definition temperature_C (b : TransferBufferTemperature) : Q :=
  let temperature_raw := combine (TOUT_MSB b) (TOUT_LSB b) in
  (inject_Z temperature_raw / inject_Z 100)%Q.

(** The scale [Configure] gives to the sink: [1.f / 12000.f], kept as the
    rational it is the rounding of. *)
Definition SCALE : Q := (1 / inject_Z 12000)%Q.

(** ** [combine] *)

Lemma shiftl8_land_byte m l : is_uint8 l -> Z.land (Z.shiftl m 8) l = 0.
Proof.
  intros Hl. bitwise. destruct (Z.ltb_spec i 8).
  - rewrite Z.shiftl_spec_low by lia. done.
  - rewrite (bits_above_uint8 l i) by done. apply andb_false_r.
Qed.

Lemma shiftl8_lor_byte m l : is_uint8 l -> Z.lor (Z.shiftl m 8) l = m * 2 ^ 8 + l.
Proof.
  intros Hl. rewrite <- Z.add_nocarry_lor by by apply shiftl8_land_byte.
  by rewrite Z.shiftl_mul_pow2 by lia.
Qed.

Lemma combine_range msb lsb : is_int16 (combine msb lsb).
Proof. apply int16_range. Qed.

(** [combine] is the little-endian value of the two bytes, read as a signed
    sixteen-bit number. *)
Lemma combine_value msb lsb :
  is_uint8 msb -> is_uint8 lsb ->
  combine msb lsb =
  if msb <? 2 ^ 7 then msb * 2 ^ 8 + lsb else msb * 2 ^ 8 + lsb - 2 ^ 16.
Proof.
  unfold combine, is_uint8. intros Hm Hl. rewrite shiftl8_lor_byte by done.
  rewrite int16_of_uint16 by lia.
  destruct (Z.ltb_spec msb (2 ^ 7)), (Z.ltb_spec (msb * 2 ^ 8 + lsb) (2 ^ 15)); lia.
Qed.

(** [combine] agrees with the reference decoding of two bytes in
    little-endian order: modulo [2 ^ 16], its result is
    [little_endian_to_Z] of the low byte followed by the high byte. *)
Lemma combine_little_endian msb lsb :
  is_uint8 msb -> is_uint8 lsb ->
  uint16 (combine msb lsb) = little_endian_to_Z 8 [lsb; msb].
Proof.
  intros Hm Hl. rewrite combine_value by done. unfold uint16, is_uint8 in *. cbn.
  rewrite Z.shiftl_0_l, Z.lor_0_r, Z.lor_comm, shiftl8_lor_byte by done.
  destruct (Z.ltb_spec msb (2 ^ 7)).
  - apply Z.mod_small. lia.
  - replace (msb * 2 ^ 8 + lsb - 2 ^ 16) with (msb * 2 ^ 8 + lsb + (-1) * 2 ^ 16) by lia.
    rewrite Z.mod_add by lia. apply Z.mod_small. lia.
Qed.

(** The bytes can be read back from the combined value. *)
Lemma combine_lsb msb lsb :
  is_uint8 msb -> is_uint8 lsb -> uint8 (combine msb lsb) = lsb.
Proof.
  intros Hm Hl. rewrite combine_value by done. unfold uint8, is_uint8 in *.
  destruct (msb <? 2 ^ 7).
  - rewrite Z.add_comm, Z.mod_add by lia. apply Z.mod_small. lia.
  - replace (msb * 2 ^ 8 + lsb - 2 ^ 16) with (lsb + (msb - 2 ^ 8) * 2 ^ 8) by lia.
    rewrite Z.mod_add by lia. apply Z.mod_small. lia.
Qed.

Lemma combine_msb msb lsb :
  is_uint8 msb -> is_uint8 lsb -> uint8 (Z.shiftr (combine msb lsb) 8) = msb.
Proof.
  intros Hm Hl. rewrite combine_value by done. unfold uint8, is_uint8 in *.
  rewrite Z.shiftr_div_pow2 by lia.
  destruct (msb <? 2 ^ 7).
  - rewrite Z.add_comm, Z.div_add, Z.div_small, Z.add_0_l by lia.
    apply Z.mod_small. lia.
  - replace (msb * 2 ^ 8 + lsb - 2 ^ 16) with (lsb + (msb - 2 ^ 8) * 2 ^ 8) by lia.
    rewrite Z.div_add, Z.div_small, Z.add_0_l by lia.
    replace (msb - 2 ^ 8) with (msb + (-1) * 2 ^ 8) by lia.
    rewrite Z.mod_add by lia. apply Z.mod_small. lia.
Qed.

(** C40: every signed sixteen-bit value is the combination of its two
    bytes: splitting a value into its high and low byte and combining them
    gives the value back. *)
Lemma combine_split v :
  is_int16 v -> combine (uint8 (Z.shiftr v 8)) (uint8 v) = v.
Proof.
  intros Hv. rewrite combine_value by apply uint8_range.
  unfold uint8, is_int16, INT16_MIN, INT16_MAX in *.
  rewrite Z.shiftr_div_pow2 by lia.
  pose proof (Z.div_mod v (2 ^ 8)). pose proof (Z.mod_pos_bound v (2 ^ 8)).
  pose proof (Z.div_mod (v / 2 ^ 8) (2 ^ 8)).
  pose proof (Z.mod_pos_bound (v / 2 ^ 8) (2 ^ 8)).
  assert (- 2 ^ 7 <= v / 2 ^ 8 < 2 ^ 7) by (split; [apply Z.div_le_lower_bound | apply Z.div_lt_upper_bound]; lia).
  destruct (Z.ltb_spec ((v / 2 ^ 8) mod 2 ^ 8) (2 ^ 7)); lia.
Qed.

(** [combine] loses nothing: two pairs of bytes with the same
    combination are the same pair. *)
Lemma combine_inj m1 l1 m2 l2 :
  is_uint8 m1 -> is_uint8 l1 -> is_uint8 m2 -> is_uint8 l2 ->
  combine m1 l1 = combine m2 l2 -> m1 = m2 /\ l1 = l2.
Proof.
  intros Hm1 Hl1 Hm2 Hl2 Heq. split.
  - by rewrite <- (combine_msb m1 l1), <- (combine_msb m2 l2), Heq.
  - by rewrite <- (combine_lsb m1 l1), <- (combine_lsb m2 l2), Heq.
Qed.

Lemma combine_negative msb lsb :
  is_uint8 msb -> is_uint8 lsb -> combine msb lsb < 0 <-> 2 ^ 7 <= msb.
Proof.
  intros Hm Hl. rewrite combine_value by done. unfold is_uint8 in *.
  destruct (Z.ltb_spec msb (2 ^ 7)); lia.
Qed.

(** ** The sign convention *)

Lemma negate_sat_range x : is_int16 (negate_sat x).
Proof.
  unfold negate_sat. destruct (x =? INT16_MIN); [| apply int16_range].
  unfold is_int16, INT16_MIN, INT16_MAX. lia.
Qed.

Lemma negate_sat_neg x : is_int16 x -> x <> INT16_MIN -> negate_sat x = - x.
Proof.
  unfold negate_sat. intros Hx Hne. destruct (Z.eqb_spec x INT16_MIN); [done |].
  apply int16_id. unfold is_int16, INT16_MIN, INT16_MAX in *. lia.
Qed.

Lemma negate_sat_min : negate_sat INT16_MIN = INT16_MAX.
Proof. done. Qed.

(** Negation never yields [INT16_MIN]: the result can be negated again
    without saturation. *)
Lemma negate_sat_not_min x : is_int16 x -> negate_sat x <> INT16_MIN.
Proof.
  intros Hx. destruct (decide (x = INT16_MIN)) as [-> | Hne].
  - done.
  - rewrite negate_sat_neg by done. unfold is_int16, INT16_MIN, INT16_MAX in *. lia.
Qed.

(** Away from [INT16_MIN] the sign change of the X and Z axes is its
    own inverse. *)
Lemma negate_sat_involutive x :
  is_int16 x -> x <> INT16_MIN -> negate_sat (negate_sat x) = x.
Proof.
  intros Hx Hne. rewrite (negate_sat_neg x) by done.
  rewrite negate_sat_neg; unfold is_int16, INT16_MIN, INT16_MAX in *; lia.
Qed.

(** Saturation is the only place where the sign change differs from
    the mathematical negation, and there it differs by one: the sum of a
    sixteen-bit value and its sign-changed value is at most one in absolute
    value. *)
Lemma negate_sat_abs x : is_int16 x -> Z.abs (negate_sat x + x) <= 1.
Proof.
  intros Hx. destruct (decide (x = INT16_MIN)) as [-> | Hne].
  - rewrite negate_sat_min. unfold INT16_MIN, INT16_MAX. lia.
  - rewrite negate_sat_neg by done. lia.
Qed.

(** ** The decoded sample *)

(** The three axis values of a decoded sample are signed sixteen-bit
    numbers, whatever the seven bytes of the buffer are: neither [combine]
    nor the sign change overflows. *)
Lemma decode_sample_range b :
  let '(x, y, z) := decode_sample b in is_int16 x /\ is_int16 y /\ is_int16 z.
Proof.
  unfold decode_sample. auto using negate_sat_range, combine_range.
Qed.

Lemma decode_sample_axes b :
  decode_sample b =
  (negate_sat (combine (X_MSB b) (X_LSB b)),
   combine (Y_MSB b) (Y_LSB b),
   negate_sat (combine (Z_MSB b) (Z_LSB b))).
Proof. done. Qed.

(** The sign change as the specification states it: the negation of the
    integers, except that [INT16_MIN] is taken to [INT16_MAX]. *)
Definition negate_ref (v : Z) : Z :=
  if decide (v = INT16_MIN) then INT16_MAX else - v.

Lemma negate_sat_ref x : is_int16 x -> negate_sat x = negate_ref x.
Proof.
  intros Hx. unfold negate_ref. case_decide as Hmin; [by rewrite Hmin |].
  by apply negate_sat_neg.
Qed.

(** C39: the decoded sample, for every buffer: X and Z are the negated
    values of their byte pairs and Y is the value of its byte pair, where
    the negation is that of the integers except at [INT16_MIN], which is
    taken to [INT16_MAX]: the sixteen-bit negation of the code saturates
    and never wraps. *)
Theorem decode_sample_saturating b :
  decode_sample b =
  (negate_ref (combine (X_MSB b) (X_LSB b)), combine (Y_MSB b) (Y_LSB b),
   negate_ref (combine (Z_MSB b) (Z_LSB b))).
Proof.
  unfold decode_sample. by rewrite !negate_sat_ref by apply combine_range.
Qed.

(** Away from [INT16_MIN] the decoded sample is exact: X and Z are
    the negated values of their byte pairs, Y is the value of its byte
    pair. *)
Theorem decode_sample_exact b :
  combine (X_MSB b) (X_LSB b) <> INT16_MIN ->
  combine (Z_MSB b) (Z_LSB b) <> INT16_MIN ->
  decode_sample b =
  (- combine (X_MSB b) (X_LSB b), combine (Y_MSB b) (Y_LSB b),
   - combine (Z_MSB b) (Z_LSB b)).
Proof.
  intros Hx Hz. unfold decode_sample.
  by rewrite !negate_sat_neg by auto using combine_range.
Qed.

Lemma TransferBuffer_of_bytes data :
  let b := TransferBuffer_of data in
  is_uint8 (X_LSB b) /\ is_uint8 (X_MSB b) /\ is_uint8 (Y_LSB b) /\ is_uint8 (Y_MSB b) /\
  is_uint8 (Z_LSB b) /\ is_uint8 (Z_MSB b) /\ is_uint8 (STATUS b).
Proof. cbn. auto 10 with qmc. Qed.

(** ** The condition of line 178 *)

(** The second conjunct compares the constant [OVL] with [0]: the condition
    is false whatever was read. *)
Lemma sample_condition_false failure status : sample_condition failure status = false.
Proof.
  unfold sample_condition. change (STATUS_BIT.OVL =? 0) with false.
  by rewrite andb_false_r, andb_false_r.
Qed.

(** The condition of the specification depends on the two status bits
    only. *)
Lemma data_ready_spec failure status :
  data_ready failure status =
  negb failure && Z.testbit status 0 && negb (Z.testbit status 1).
Proof.
  unfold data_ready, STATUS_BIT.DRDY, STATUS_BIT.OVL.
  change 1 with (2 ^ 0). change 2 with (2 ^ 1).
  by rewrite truthy_land_pow2, land_pow2_eqb.
Qed.

(** The condition of line 178 rejects every buffer the condition of
    the specification (no failure, data-ready bit set, overflow bit clear)
    accepts. *)
Theorem sample_condition_diverges failure status :
  data_ready failure status = true -> sample_condition failure status = false.
Proof. intros _. apply sample_condition_false. Qed.

(** ** Temperature *)

(** The temperature handed to the sink is the signed sixteen-bit raw
    value divided by 100, as an exact rational. *)
Lemma temperature_C_value b :
  (temperature_C b == combine (TOUT_MSB b) (TOUT_LSB b) # 100)%Q.
Proof.
  unfold temperature_C, Qdiv, Qinv, Qmult, Qeq, inject_Z. cbn. lia.
Qed.

#[export] Hint Resolve combine_range negate_sat_range : qmc.

(** ** Witnesses *)

(** Ranges of concrete numbers. *)
Ltac range_solve :=
  unfold is_uint8, is_int16, is_uint64, INT16_MIN, INT16_MAX in *; lia.

Lemma combine_little_endian_witness :
  uint16 (combine 0xFF 0xFE) = little_endian_to_Z 8 [0xFE; 0xFF].
Proof. apply combine_little_endian; range_solve. Defined.

Lemma combine_split_witness :
  is_int16 (-2) /\ combine (uint8 (Z.shiftr (-2) 8)) (uint8 (-2)) = -2.
Proof. split; [range_solve | apply combine_split; range_solve]. Defined.

Lemma negate_sat_involutive_witness : negate_sat (negate_sat INT16_MAX) = INT16_MAX.
Proof. apply negate_sat_involutive; range_solve. Defined.

Lemma negate_sat_abs_witness : Z.abs (negate_sat INT16_MIN + INT16_MIN) <= 1.
Proof. apply negate_sat_abs; range_solve. Defined.

Lemma sample_condition_diverges_witness :
  data_ready false STATUS_BIT.DRDY = true /\
  sample_condition false STATUS_BIT.DRDY = false.
Proof. split; [reflexivity | by apply sample_condition_diverges]. Defined.

Lemma decode_sample_exact_witness :
  decode_sample (TransferBuffer_of [0x00; 0x10; 0x00; 0x00; 0x00; 0x00; STATUS_BIT.DRDY])
  = (-4096, 0, 0).
Proof.
  exact (decode_sample_exact
           (TransferBuffer_of [0x00; 0x10; 0x00; 0x00; 0x00; 0x00; STATUS_BIT.DRDY])
           ltac:(by vm_compute) ltac:(by vm_compute)).
Defined.
