(* ===== verification/Driver.v ===== *)
(** * The driver object and its member functions

    The record [Driver] holds the data members of class [QMC5883L] under
    their C++ names, together with the objects the class owns or inherits:
    the measurement sink [_px4_mag], the three diagnostic counters and the
    schedule of the work item it derives from.  A [System] is a driver
    object in a world.  The member functions are computations in
    [Drv (System W)]; [RunImpl] is split into one definition per [case] of
    its [switch]. *)

From Stdlib Require Import ZArith Lia Bool QArith_base.
From stdpp Require Import base tactics option list.
From S2P Require Import Prelude Registers Platform RegisterAccess Decoder.

#[local] Open Scope Z_scope.

(** ** The driver object *)

Record Driver : Set := {
  _px4_mag : PX4Magnetometer;
  _transfer_perf : perf_counter_t;
  _bad_register_perf : perf_counter_t;
  _bad_transfer_perf : perf_counter_t;
  _reset_timestamp : Z;
  _last_config_check_timestamp : Z;
  _temperature_update_timestamp : Z;
  _consecutive_failures : Z;
  _state : STATE;
  _checked_register : Z;
  _register_cfg : list register_config_t;
  _schedule : Schedule;
}.

(** [size_register_cfg] *)
Definition size_register_cfg (d : Driver) : Z := Z.of_nat (length (_register_cfg d)).

(** Assignment to one member. *)
Definition set_px4_mag (f : PX4Magnetometer -> PX4Magnetometer) (d : Driver) : Driver :=
  {| _px4_mag := f (_px4_mag d); _transfer_perf := _transfer_perf d;
     _bad_register_perf := _bad_register_perf d; _bad_transfer_perf := _bad_transfer_perf d;
     _reset_timestamp := _reset_timestamp d;
     _last_config_check_timestamp := _last_config_check_timestamp d;
     _temperature_update_timestamp := _temperature_update_timestamp d;
     _consecutive_failures := _consecutive_failures d; _state := _state d;
     _checked_register := _checked_register d; _register_cfg := _register_cfg d;
     _schedule := _schedule d |}.

Definition set_transfer_perf (f : perf_counter_t -> perf_counter_t) (d : Driver) : Driver :=
  {| _px4_mag := _px4_mag d; _transfer_perf := f (_transfer_perf d);
     _bad_register_perf := _bad_register_perf d; _bad_transfer_perf := _bad_transfer_perf d;
     _reset_timestamp := _reset_timestamp d;
     _last_config_check_timestamp := _last_config_check_timestamp d;
     _temperature_update_timestamp := _temperature_update_timestamp d;
     _consecutive_failures := _consecutive_failures d; _state := _state d;
     _checked_register := _checked_register d; _register_cfg := _register_cfg d;
     _schedule := _schedule d |}.

Definition set_bad_register_perf (f : perf_counter_t -> perf_counter_t) (d : Driver) : Driver :=
  {| _px4_mag := _px4_mag d; _transfer_perf := _transfer_perf d;
     _bad_register_perf := f (_bad_register_perf d); _bad_transfer_perf := _bad_transfer_perf d;
     _reset_timestamp := _reset_timestamp d;
     _last_config_check_timestamp := _last_config_check_timestamp d;
     _temperature_update_timestamp := _temperature_update_timestamp d;
     _consecutive_failures := _consecutive_failures d; _state := _state d;
     _checked_register := _checked_register d; _register_cfg := _register_cfg d;
     _schedule := _schedule d |}.

Definition set_bad_transfer_perf (f : perf_counter_t -> perf_counter_t) (d : Driver) : Driver :=
  {| _px4_mag := _px4_mag d; _transfer_perf := _transfer_perf d;
     _bad_register_perf := _bad_register_perf d; _bad_transfer_perf := f (_bad_transfer_perf d);
     _reset_timestamp := _reset_timestamp d;
     _last_config_check_timestamp := _last_config_check_timestamp d;
     _temperature_update_timestamp := _temperature_update_timestamp d;
     _consecutive_failures := _consecutive_failures d; _state := _state d;
     _checked_register := _checked_register d; _register_cfg := _register_cfg d;
     _schedule := _schedule d |}.

Definition set_reset_timestamp (t : Z) (d : Driver) : Driver :=
  {| _px4_mag := _px4_mag d; _transfer_perf := _transfer_perf d;
     _bad_register_perf := _bad_register_perf d; _bad_transfer_perf := _bad_transfer_perf d;
     _reset_timestamp := t;
     _last_config_check_timestamp := _last_config_check_timestamp d;
     _temperature_update_timestamp := _temperature_update_timestamp d;
     _consecutive_failures := _consecutive_failures d; _state := _state d;
     _checked_register := _checked_register d; _register_cfg := _register_cfg d;
     _schedule := _schedule d |}.

Definition set_last_config_check_timestamp (t : Z) (d : Driver) : Driver :=
  {| _px4_mag := _px4_mag d; _transfer_perf := _transfer_perf d;
     _bad_register_perf := _bad_register_perf d; _bad_transfer_perf := _bad_transfer_perf d;
     _reset_timestamp := _reset_timestamp d;
     _last_config_check_timestamp := t;
     _temperature_update_timestamp := _temperature_update_timestamp d;
     _consecutive_failures := _consecutive_failures d; _state := _state d;
     _checked_register := _checked_register d; _register_cfg := _register_cfg d;
     _schedule := _schedule d |}.

Definition set_temperature_update_timestamp (t : Z) (d : Driver) : Driver :=
  {| _px4_mag := _px4_mag d; _transfer_perf := _transfer_perf d;
     _bad_register_perf := _bad_register_perf d; _bad_transfer_perf := _bad_transfer_perf d;
     _reset_timestamp := _reset_timestamp d;
     _last_config_check_timestamp := _last_config_check_timestamp d;
     _temperature_update_timestamp := t;
     _consecutive_failures := _consecutive_failures d; _state := _state d;
     _checked_register := _checked_register d; _register_cfg := _register_cfg d;
     _schedule := _schedule d |}.

Definition set_consecutive_failures (n : Z) (d : Driver) : Driver :=
  {| _px4_mag := _px4_mag d; _transfer_perf := _transfer_perf d;
     _bad_register_perf := _bad_register_perf d; _bad_transfer_perf := _bad_transfer_perf d;
     _reset_timestamp := _reset_timestamp d;
     _last_config_check_timestamp := _last_config_check_timestamp d;
     _temperature_update_timestamp := _temperature_update_timestamp d;
     _consecutive_failures := n; _state := _state d;
     _checked_register := _checked_register d; _register_cfg := _register_cfg d;
     _schedule := _schedule d |}.

Definition set_state (st : STATE) (d : Driver) : Driver :=
  {| _px4_mag := _px4_mag d; _transfer_perf := _transfer_perf d;
     _bad_register_perf := _bad_register_perf d; _bad_transfer_perf := _bad_transfer_perf d;
     _reset_timestamp := _reset_timestamp d;
     _last_config_check_timestamp := _last_config_check_timestamp d;
     _temperature_update_timestamp := _temperature_update_timestamp d;
     _consecutive_failures := _consecutive_failures d; _state := st;
     _checked_register := _checked_register d; _register_cfg := _register_cfg d;
     _schedule := _schedule d |}.

Definition set_checked_register (i : Z) (d : Driver) : Driver :=
  {| _px4_mag := _px4_mag d; _transfer_perf := _transfer_perf d;
     _bad_register_perf := _bad_register_perf d; _bad_transfer_perf := _bad_transfer_perf d;
     _reset_timestamp := _reset_timestamp d;
     _last_config_check_timestamp := _last_config_check_timestamp d;
     _temperature_update_timestamp := _temperature_update_timestamp d;
     _consecutive_failures := _consecutive_failures d; _state := _state d;
     _checked_register := i; _register_cfg := _register_cfg d;
     _schedule := _schedule d |}.

Definition set_schedule (f : Schedule -> Schedule) (d : Driver) : Driver :=
  {| _px4_mag := _px4_mag d; _transfer_perf := _transfer_perf d;
     _bad_register_perf := _bad_register_perf d; _bad_transfer_perf := _bad_transfer_perf d;
     _reset_timestamp := _reset_timestamp d;
     _last_config_check_timestamp := _last_config_check_timestamp d;
     _temperature_update_timestamp := _temperature_update_timestamp d;
     _consecutive_failures := _consecutive_failures d; _state := _state d;
     _checked_register := _checked_register d; _register_cfg := _register_cfg d;
     _schedule := f (_schedule d) |}.

(** The constructor.  [external] is what the bus base class answers to
    [external()]; the table is the default member initialiser of
    [_register_cfg]; the other members start from their default
    initialisers.  The construction of the base classes [I2C] and
    [I2CSPIDriver] (bus number, address, frequency, work queue) and the
    device id the sink is given are left out: nothing in [QMC5883L.cpp]
    reads them. *)
Definition QMC5883L_new (external : bool) (rotation : Z)
    (cfg : list register_config_t) : Driver :=
  {| _px4_mag :=
       set_external external
         (PX4Magnetometer_new
            (if external then ORB_PRIO_VERY_HIGH else ORB_PRIO_DEFAULT) rotation);
     _transfer_perf := 0%nat; _bad_register_perf := 0%nat; _bad_transfer_perf := 0%nat;
     _reset_timestamp := 0;
     _last_config_check_timestamp := 0;
     _temperature_update_timestamp := 0;
     _consecutive_failures := 0;
     _state := STATE.RESET;
     _checked_register := 0;
     _register_cfg := cfg;
     _schedule := {| run_now := false; timer := None |} |}.

(** ** A driver in its world *)

Record System (W : Type) : Type := {
  driver : Driver;
  world : W;
}.
Arguments driver {W} _.
Arguments world {W} _.
Arguments Build_System {W} _ _.

Section Driver.
Context {W : Type} `{Platform W}.

Definition with_driver (f : Driver -> Driver) (s : System W) : System W :=
  {| driver := f (driver s); world := world s |}.

Definition with_world (w : W) (s : System W) : System W :=
  {| driver := driver s; world := w |}.

(** Reading a member, assigning to a member, running bus-level code. *)
Definition get {A : Type} (f : Driver -> A) : Drv (System W) A :=
  dgets (fun s => f (driver s)).

Definition assign (f : Driver -> Driver) : Drv (System W) unit :=
  dmodify (with_driver f).

Definition bus {A : Type} (m : State W A) : Drv (System W) A :=
  zoom world with_world m.

(** ** [Reset] *)

Definition Reset : Drv (System W) bool :=
  (assign (set_state STATE.RESET) ;;
   assign (set_schedule ScheduleClear) ;;
   assign (set_schedule ScheduleNow) ;;
   dret true)%drv.

(** ** [init] *)

Definition init : Drv (System W) Z :=
  (ret_ <- bus I2C_init ;;
   if negb (ret_ =? PX4_OK) then dret ret_
   else
     ok <- Reset ;;
     dret (if ok then 0 else -1))%drv.

(** ** [probe] *)

Definition probe : Drv (System W) Z :=
  (res <- bus (transfer [Register.addr Register.X_LSB] 1) ;;
   dret (fst res))%drv.

(** ** [Configure] *)

(** The first loop: set and clear the bits of every entry. *)
Fixpoint apply_register_cfg (cfg : list register_config_t) : State W unit :=
  match cfg with
  | [] => ret tt
  | reg_cfg :: rest =>
      (RegisterSetAndClearBits (reg reg_cfg) (set_bits reg_cfg) (clear_bits reg_cfg) ;;
       apply_register_cfg rest)%state
  end.

(** The second loop: check every entry; [success] is cleared by a failed
    check and never set again. *)
Fixpoint check_register_cfg (cfg : list register_config_t) (success : bool) : State W bool :=
  match cfg with
  | [] => ret success
  | reg_cfg :: rest =>
      (ok <- RegisterCheck reg_cfg ;;
       check_register_cfg rest (if negb ok then false else success))%state
  end.

Definition Configure : Drv (System W) bool :=
  (cfg <- get _register_cfg ;;
   bus (apply_register_cfg cfg) ;;
   success <- bus (check_register_cfg cfg true) ;;
   assign (set_px4_mag (set_scale SCALE)) ;;
   dret success)%drv.

(** ** [RunImpl] *)

(** [case STATE::RESET] *)
Definition run_RESET : Drv (System W) unit :=
  (bus (RegisterWrite Register.CNTL2 CNTL2_BIT.SOFT_RST) ;;
   t <- bus now ;;
   assign (set_reset_timestamp t) ;;
   assign (set_consecutive_failures 0) ;;
   assign (set_state STATE.WAIT_FOR_RESET) ;;
   assign (set_schedule (ScheduleDelayed (ms 100))))%drv.

(** [hrt_elapsed_time(&_reset_timestamp) > 1000_ms] *)
Definition reset_timed_out : Drv (System W) bool :=
  (t <- get _reset_timestamp ;;
   elapsed <- bus (hrt_elapsed_time t) ;;
   dret (elapsed >? ms 1000))%drv.

(** [case STATE::WAIT_FOR_RESET] *)
Definition run_WAIT_FOR_RESET : Drv (System W) unit :=
  (cntl2 <- bus (RegisterRead Register.CNTL2) ;;
   if Z.land cntl2 CNTL2_BIT.SOFT_RST =? 0 then
     assign (set_state STATE.CONFIGURE) ;;
     assign (set_schedule (ScheduleDelayed (ms 1)))
   else
     late <- reset_timed_out ;;
     if late then
       assign (set_state STATE.RESET) ;;
       assign (set_schedule (ScheduleDelayed (ms 100)))
     else
       assign (set_schedule (ScheduleDelayed (ms 100))))%drv.

(** [case STATE::CONFIGURE] *)
Definition run_CONFIGURE : Drv (System W) unit :=
  (ok <- Configure ;;
   if ok then
     assign (set_state STATE.READ) ;;
     assign (set_schedule (ScheduleOnInterval (ms 20) (ms 20)))
   else
     late <- reset_timed_out ;;
     when late (assign (set_state STATE.RESET)) ;;
     assign (set_schedule (ScheduleDelayed (ms 100))))%drv.

(** [case STATE::READ], first part: the block read and the processing of
    the sample.  Returns [failure] and [timestamp_sample]. *)
Definition read_sample : Drv (System W) (bool * Z) :=
  (assign (set_transfer_perf perf_begin) ;;
   timestamp_sample <- bus now ;;
   res <- bus (transfer [Register.addr Register.X_LSB] 7) ;;
   let buffer := TransferBuffer_of (snd res) in
   let failure := negb (fst res =? PX4_OK) in
   when failure (assign (set_bad_transfer_perf perf_count)) ;;
   assign (set_transfer_perf perf_end) ;;
   when (sample_condition failure (STATUS buffer))
     (let '(x, y, z) := decode_sample buffer in
      assign (set_px4_mag (update timestamp_sample x y z)) ;;
      assign (set_consecutive_failures 0)) ;;
   dret (failure, timestamp_sample))%drv.

(** [failure || hrt_elapsed_time(&_last_config_check_timestamp) > 100_ms]:
    the clock is read only when [failure] is false. *)
Definition config_check_due (failure : bool) : Drv (System W) bool :=
  (if failure then dret true
   else
     t <- get _last_config_check_timestamp ;;
     elapsed <- bus (hrt_elapsed_time t) ;;
     dret (elapsed >? ms 100))%drv.

(** The periodic check of one configuration register.  The result tells
    whether [RunImpl] goes on after it: a failed check calls [Reset] and
    returns.  Indexing [_register_cfg] outside its bounds is undefined. *)
Definition check_next_register (timestamp_sample : Z) : Drv (System W) bool :=
  (i <- get _checked_register ;;
   cfg <- get _register_cfg ;;
   match cfg !! Z.to_nat i with
   | None => undefined
   | Some reg_cfg =>
       ok <- bus (RegisterCheck reg_cfg) ;;
       if ok then
         assign (set_last_config_check_timestamp timestamp_sample) ;;
         assign (set_checked_register (uint8 (Z.rem (i + 1) (Z.of_nat (length cfg))))) ;;
         dret true
       else
         assign (set_bad_register_perf perf_count) ;;
         Reset ;;
         dret false
   end)%drv.

(** [hrt_elapsed_time(&_temperature_update_timestamp) > 1_s] *)
Definition temperature_due : Drv (System W) bool :=
  (t <- get _temperature_update_timestamp ;;
   elapsed <- bus (hrt_elapsed_time t) ;;
   dret (elapsed >? sec 1))%drv.

(** The temperature update: at most one per second. *)
Definition update_temperature (timestamp_sample : Z) : Drv (System W) unit :=
  (assign (set_temperature_update_timestamp timestamp_sample) ;;
   res <- bus (transfer [Register.addr Register.TEMP_LSB] 2) ;;
   when (fst res =? PX4_OK)
     (assign (set_px4_mag
        (set_temperature (temperature_C (TransferBufferTemperature_of (snd res)))))))%drv.

(** [if (_consecutive_failures > 10) { Reset(); }] *)
Definition check_consecutive_failures : Drv (System W) unit :=
  (n <- get _consecutive_failures ;;
   when (n >? 10) (Reset ;; dret tt))%drv.

(** [case STATE::READ] *)
Definition run_READ : Drv (System W) unit :=
  (r <- read_sample ;;
   let '(failure, timestamp_sample) := r in
   due <- config_check_due failure ;;
   go_on <-
     (if due then check_next_register timestamp_sample
      else
        temp <- temperature_due ;;
        when temp (update_temperature timestamp_sample) ;;
        dret true) ;;
   when go_on check_consecutive_failures)%drv.

(** The bus operations of [Configure], and of the sample read. *)
Definition configure_bus (cfg : list register_config_t) : State W bool :=
  (apply_register_cfg cfg ;; check_register_cfg cfg true)%state.

Definition sample_bus : State W (Z * list Z) :=
  transfer [Register.addr Register.X_LSB] 7.

Definition temperature_bus : State W (Z * list Z) :=
  transfer [Register.addr Register.TEMP_LSB] 2.

(** The driver object after [Reset]. *)
Definition after_Reset (d : Driver) : Driver :=
  set_schedule ScheduleNow (set_schedule ScheduleClear (set_state STATE.RESET d)).

(** The time on the clock of [w] since [then_]. *)
Definition elapsed_since (then_ : Z) (w : W) : Z :=
  uint64 (hrt_absolute_time w - then_).

Definition RunImpl : Drv (System W) unit :=
  (st <- get _state ;;
   match st with
   | STATE.RESET => run_RESET
   | STATE.WAIT_FOR_RESET => run_WAIT_FOR_RESET
   | STATE.CONFIGURE => run_CONFIGURE
   | STATE.READ => run_READ
   end)%drv.

End Driver.

(** ** Weakest preconditions of the driver's primitives *)

Section DriverRules.
Context {W : Type} `{Platform W}.

Lemma wp_get {A} (f : Driver -> A) (Q : A -> System W -> Prop) s :
  wp (get f) Q s = Q (f (driver s)) s.
Proof. done. Qed.

Lemma wp_assign (f : Driver -> Driver) (Q : unit -> System W -> Prop) s :
  wp (assign f) Q s = Q tt {| driver := f (driver s); world := world s |}.
Proof. done. Qed.

Lemma wp_bus {A} (m : State W A) (Q : A -> System W -> Prop) s :
  wp (bus m) Q s =
  Q (fst (m (world s))) {| driver := driver s; world := snd (m (world s)) |}.
Proof. done. Qed.

Lemma wp_Reset (Q : bool -> System W -> Prop) s :
  wp Reset Q s = Q true {| driver := after_Reset (driver s); world := world s |}.
Proof. done. Qed.

End DriverRules.

#[export] Hint Rewrite @wp_get @wp_assign @wp_bus @wp_Reset sample_condition_false : wp.

(** Computes a weakest precondition with the rules of the base [wp], as far
    as the conditions the code branches on allow. *)
Ltac wp_simpl :=
  autounfold with drv;
  repeat (progress (autorewrite with wp;
    cbn beta iota zeta delta
      [world driver fst snd negb orb andb now gets hrt_elapsed_time decode_sample
       size_register_cfg after_Reset
       _px4_mag _transfer_perf _bad_register_perf _bad_transfer_perf
       _reset_timestamp _last_config_check_timestamp _temperature_update_timestamp
       _consecutive_failures _state _checked_register _register_cfg _schedule
       set_px4_mag set_transfer_perf set_bad_register_perf set_bad_transfer_perf
       set_reset_timestamp set_last_config_check_timestamp
       set_temperature_update_timestamp set_consecutive_failures set_state
       set_checked_register set_schedule])).

(** The same, with a case analysis on every condition met on the way;
    [tac] is tried before each case analysis. *)
Ltac wp_cases_with tac :=
  wp_simpl;
  repeat (first
            [ progress tac
            | match goal with
              | |- context [if ?b then _ else _] => destruct b eqn:?
              end ];
          wp_simpl).

Ltac wp_cases := wp_cases_with fail.

(** Case analysis on the table lookup of the periodic check as well. *)
Ltac wp_cases_lookup :=
  wp_cases_with
    ltac:(idtac;
          match goal with
          | |- context [match ?o with Some _ => _ | None => _ end] => destruct o eqn:?
          end).

(** ** The parts of [RunImpl] in closed form *)

Section ClosedForms.
Context {W : Type} `{Platform W}.
Implicit Types (s : System W).

Lemma wp_reset_timed_out (Q : bool -> System W -> Prop) s :
  wp reset_timed_out Q s = Q (elapsed_since (_reset_timestamp (driver s)) (world s) >? ms 1000) s.
Proof. destruct s. unfold reset_timed_out. by wp_simpl. Qed.

Lemma wp_config_check_due failure (Q : bool -> System W -> Prop) s :
  wp (config_check_due failure) Q s =
  Q (failure || (elapsed_since (_last_config_check_timestamp (driver s)) (world s) >? ms 100)) s.
Proof. destruct s, failure; unfold config_check_due; by wp_simpl. Qed.

Lemma wp_temperature_due (Q : bool -> System W -> Prop) s :
  wp temperature_due Q s =
  Q (elapsed_since (_temperature_update_timestamp (driver s)) (world s) >? sec 1) s.
Proof. destruct s. unfold temperature_due. by wp_simpl. Qed.

Lemma wp_check_consecutive_failures (Q : unit -> System W -> Prop) s :
  wp check_consecutive_failures Q s =
  if _consecutive_failures (driver s) >? 10
  then Q tt {| driver := after_Reset (driver s); world := world s |}
  else Q tt s.
Proof. unfold check_consecutive_failures. by wp_simpl. Qed.

Lemma wp_Configure (Q : bool -> System W -> Prop) s :
  wp Configure Q s =
  Q (fst (configure_bus (_register_cfg (driver s)) (world s)))
    {| driver := set_px4_mag (set_scale SCALE) (driver s);
       world := snd (configure_bus (_register_cfg (driver s)) (world s)) |}.
Proof. unfold Configure. by wp_simpl. Qed.

(** The sample read: the condition of line 178 is false, so that the read
    only counts. *)
Lemma wp_read_sample (Q : bool * Z -> System W -> Prop) s :
  wp read_sample Q s =
  if fst (fst (sample_bus (world s))) =? PX4_OK
  then
    Q (false, hrt_absolute_time (world s))
      {| driver := set_transfer_perf perf_end (set_transfer_perf perf_begin (driver s));
         world := snd (sample_bus (world s)) |}
  else
    Q (true, hrt_absolute_time (world s))
      {| driver :=
           set_transfer_perf perf_end
             (set_bad_transfer_perf perf_count
                (set_transfer_perf perf_begin (driver s)));
         world := snd (sample_bus (world s)) |}.
Proof.
  unfold read_sample, sample_bus. wp_simpl.
  by destruct (_ =? _); wp_simpl.
Qed.

Lemma wp_update_temperature timestamp_sample (Q : unit -> System W -> Prop) s :
  wp (update_temperature timestamp_sample) Q s =
  if fst (fst (temperature_bus (world s))) =? PX4_OK
  then
    Q tt
      {| driver :=
           set_px4_mag
             (set_temperature
                (temperature_C
                   (TransferBufferTemperature_of (snd (fst (temperature_bus (world s)))))))
             (set_temperature_update_timestamp timestamp_sample (driver s));
         world := snd (temperature_bus (world s)) |}
  else
    Q tt
      {| driver := set_temperature_update_timestamp timestamp_sample (driver s);
         world := snd (temperature_bus (world s)) |}.
Proof.
  unfold update_temperature, temperature_bus. wp_simpl.
  by destruct (_ =? _); wp_simpl.
Qed.

Lemma wp_check_next_register timestamp_sample (Q : bool -> System W -> Prop) s :
  wp (check_next_register timestamp_sample) Q s =
  match _register_cfg (driver s) !! Z.to_nat (_checked_register (driver s)) with
  | None => False
  | Some reg_cfg =>
      if fst (RegisterCheck reg_cfg (world s))
      then
        Q true
          {| driver :=
               set_checked_register
                 (uint8 (Z.rem (_checked_register (driver s) + 1) (size_register_cfg (driver s))))
                 (set_last_config_check_timestamp timestamp_sample (driver s));
             world := snd (RegisterCheck reg_cfg (world s)) |}
      else
        Q false
          {| driver := after_Reset (set_bad_register_perf perf_count (driver s));
             world := snd (RegisterCheck reg_cfg (world s)) |}
  end.
Proof.
  unfold check_next_register, size_register_cfg. wp_simpl.
  destruct (_ !! _); wp_simpl; [| done].
  by destruct (fst _); wp_simpl.
Qed.

End ClosedForms.

#[export] Hint Rewrite @wp_reset_timed_out @wp_config_check_due @wp_temperature_due
  @wp_check_consecutive_failures @wp_Configure @wp_read_sample @wp_update_temperature
  @wp_check_next_register : wp.

#[export] Hint Unfold RunImpl run_RESET run_WAIT_FOR_RESET run_CONFIGURE run_READ
  init probe : drv.

(** ** The clock through the loops of [Configure] *)

Section DriverClock.
Context {W : Type} `{PlatformLaws W}.

Lemma clock_mono_apply_register_cfg cfg : clock_mono (apply_register_cfg cfg).
Proof.
  induction cfg as [| c cfg IH]; cbn; [apply clock_mono_ret |].
  apply clock_mono_bind; auto with qmc.
Qed.

Lemma clock_mono_check_register_cfg cfg b : clock_mono (check_register_cfg cfg b).
Proof.
  revert b. induction cfg as [| c cfg IH]; intros b; cbn; [apply clock_mono_ret |].
  apply clock_mono_bind; auto with qmc.
Qed.

Lemma clock_mono_configure_bus cfg : clock_mono (configure_bus cfg).
Proof.
  unfold configure_bus. apply clock_mono_bind;
    auto using clock_mono_apply_register_cfg, clock_mono_check_register_cfg.
Qed.

Lemma clock_mono_sample_bus : clock_mono sample_bus.
Proof. apply clock_mono_transfer. Qed.

Lemma clock_mono_temperature_bus : clock_mono temperature_bus.
Proof. apply clock_mono_transfer. Qed.

End DriverClock.

#[export] Hint Resolve clock_mono_apply_register_cfg clock_mono_check_register_cfg
  clock_mono_configure_bus clock_mono_sample_bus clock_mono_temperature_bus : qmc.

(** Adds to the context that the clock did not go back across each bus
    operation the goal mentions. *)
Ltac pose_clock :=
  repeat match goal with
  | |- context [snd (?m ?w)] =>
      lazymatch goal with
      | _ : hrt_absolute_time w <= hrt_absolute_time (snd (m w)) |- _ => fail
      | _ => idtac
      end;
      assert (hrt_absolute_time w <= hrt_absolute_time (snd (m w)))
        by (apply (ltac:(auto with qmc) : clock_mono m))
  end.
