(* ===== verification/SimDevice.v ===== *)
(** * An executable platform: a register file on a scripted bus

    [SimDevice] is an instance of [Platform] that computes: a register file
    (a finite map from addresses to bytes), a clock that every transfer
    advances by a fixed cost, a script that says which of the coming
    transfers fail, a switch that takes the bus down for good, and a log of
    the transfers issued.  With
    [sim_soft_reset] the device performs the chip's soft reset when bit 7 of
    [CNTL2] is written: all registers return to zero, the bit included; without
    it the device is a plain memory, in which the bit stays set (a chip whose
    reset never completes).  The device is modelled from the data sheet's
    description of the register interface, not from code of [src/]. *)

From Stdlib Require Import ZArith Lia Bool.
From stdpp Require Import base tactics option list gmap.
From S2P Require Import Prelude Registers Platform RegisterAccess Decoder Driver.

#[local] Open Scope Z_scope.

(** ** The device *)

Record SimDevice : Type := {
  sim_regs : gmap Z Z;
  sim_clock : Z;
  sim_cost : Z;
  sim_faults : list bool;
  sim_down : bool;
  sim_log : list (list Z * nat);
  sim_soft_reset : bool;
  sim_init_status : Z;
}.

Definition PX4_ERROR : Z := -1.

(** The register at address [a]; a register never written holds [0]. *)
Definition sim_reg (d : SimDevice) (a : Z) : Z := default 0 (sim_regs d !! a).

(** The bytes of [n] consecutive registers from address [a] on. *)
Definition sim_read_block (d : SimDevice) (a : Z) (n : nat) : list Z :=
  (fun i => uint8 (sim_reg d (a + Z.of_nat i))) <$> seq 0 n.

(** The register file after the byte [v] is written to address [a]. *)
Definition sim_store (d : SimDevice) (a v : Z) : gmap Z Z :=
  if sim_soft_reset d && (a =? Register.addr Register.CNTL2)
     && negb (Z.land v CNTL2_BIT.SOFT_RST =? 0)
  then ∅
  else <[a := uint8 v]> (sim_regs d).

(** The clock saturates at the largest 64-bit value. *)
Definition sim_tick (d : SimDevice) : Z :=
  Z.min (Z.max (sim_clock d) (sim_clock d + sim_cost d)) (2 ^ 64 - 1).

Definition sim_now (d : SimDevice) : Z :=
  Z.min (Z.max 0 (sim_clock d)) (2 ^ 64 - 1).

(** One transfer: it is logged, it takes [sim_cost], and it fails when the
    bus is down or the script says so, leaving the registers and the receive
    buffer alone.
    One byte sent selects the address to read from; two bytes are an
    address and the value to write there. *)
Definition sim_transfer (send : list Z) (recv_len : nat) (d : SimDevice)
    : (Z * list Z) * SimDevice :=
  let fails := sim_down d || default false (head (sim_faults d)) in
  let regs' :=
    match send with
    | [a; v] => if fails then sim_regs d else sim_store d a v
    | _ => sim_regs d
    end in
  let data :=
    match send with
    | [a] => if fails then [] else sim_read_block d a recv_len
    | _ => []
    end in
  ((if fails then PX4_ERROR else PX4_OK, data),
   {| sim_regs := regs'; sim_clock := sim_tick d; sim_cost := sim_cost d;
      sim_faults := tail (sim_faults d); sim_down := sim_down d;
      sim_log := (send, recv_len) :: sim_log d;
      sim_soft_reset := sim_soft_reset d; sim_init_status := sim_init_status d |}).

Definition sim_I2C_init (d : SimDevice) : Z * SimDevice := (sim_init_status d, d).

#[export] Instance SimDevice_Platform : Platform SimDevice := {
  transfer := sim_transfer;
  hrt_absolute_time := sim_now;
  I2C_init := sim_I2C_init;
}.

(** A device with every register at zero, at time [t]. *)
Definition sim_new (t cost : Z) (faults : list bool) (soft_reset : bool) : SimDevice :=
  {| sim_regs := ∅; sim_clock := t; sim_cost := cost; sim_faults := faults;
     sim_down := false; sim_log := []; sim_soft_reset := soft_reset; sim_init_status := PX4_OK |}.

(** The device after time has passed outside any transfer. *)
Definition sim_wait (dt : Z) (d : SimDevice) : SimDevice :=
  {| sim_regs := sim_regs d; sim_clock := Z.max (sim_clock d) (sim_clock d + dt);
     sim_cost := sim_cost d; sim_faults := sim_faults d; sim_down := sim_down d;
     sim_log := sim_log d;
     sim_soft_reset := sim_soft_reset d; sim_init_status := sim_init_status d |}.

(** The write transfers among the logged ones. *)
Definition sim_writes (d : SimDevice) : list (list Z * nat) :=
  filter (fun t => length (fst t) = 2%nat) (sim_log d).

(** The table of the specification's scenario, a table that configures
    continuous measurement at 50 Hz with pointer roll-over, and a driver
    object on a fresh device with soft reset. *)
Definition scenario_cfg : list register_config_t :=
  [ {| reg := Register.CNTL1; set_bits := 0x01; clear_bits := 0x00 |} ].

Definition continuous_cfg : list register_config_t :=
  [ {| reg := Register.CNTL1;
       set_bits := Z.lor CNTL1_BIT.ODR_50HZ CNTL1_BIT.Mode_Continuous;
       clear_bits := Z.lor CNTL1_BIT.OSR_512 CNTL1_BIT.RNG_2G |};
    {| reg := Register.CNTL2;
       set_bits := CNTL2_BIT.ROL_PNT;
       clear_bits := CNTL2_BIT.SOFT_RST |};
    {| reg := Register.SET_RESET_PERIOD; set_bits := 0x01; clear_bits := 0x00 |} ].

Definition sim_system : System SimDevice :=
  {| driver := QMC5883L_new false 0 continuous_cfg; world := sim_new 0 100 [] true |}.

(** A device that holds a sample: X is [0x1000], Y and Z are zero, and
    [STATUS] has the data-ready bit set; its configuration registers hold
    what [continuous_cfg] asks for. *)
Definition sim_sample_regs : gmap Z Z :=
  list_to_map
    [ (Register.addr Register.X_LSB, 0x00); (Register.addr Register.X_MSB, 0x10);
      (Register.addr Register.STATUS, STATUS_BIT.DRDY);
      (Register.addr Register.CNTL1, 0x05); (Register.addr Register.CNTL2, 0x40);
      (Register.addr Register.SET_RESET_PERIOD, 0x01) ].

(** The driver in state [READ] on that device, half a second after the
    reset. *)
Definition sim_read_system : System SimDevice :=
  {| driver :=
       set_schedule (ScheduleOnInterval (ms 20) (ms 20))
         (set_state STATE.READ (QMC5883L_new false 0 continuous_cfg));
     world :=
       {| sim_regs := sim_sample_regs; sim_clock := ms 500; sim_cost := 100;
          sim_faults := []; sim_down := false; sim_log := []; sim_soft_reset := true;
          sim_init_status := PX4_OK |} |}.

(** A device with the registers [regs] at time [t]; every transfer costs
    100 us. *)
Definition sim_device (regs : gmap Z Z) (t : Z) (faults : list bool) (soft_reset : bool)
    : SimDevice :=
  {| sim_regs := regs; sim_clock := t; sim_cost := 100; sim_faults := faults;
     sim_down := false; sim_log := []; sim_soft_reset := soft_reset; sim_init_status := PX4_OK |}.

(** The driver in state [st], reset at time [0], with the schedule the
    state is entered with. *)
Definition sim_driver (st : STATE) : Driver :=
  set_schedule
    (match st with
     | STATE.READ => ScheduleOnInterval (ms 20) (ms 20)
     | STATE.CONFIGURE => ScheduleDelayed (ms 1)
     | _ => ScheduleDelayed (ms 100)
     end)
    (set_state st (QMC5883L_new false 0 continuous_cfg)).

(** Waiting for a reset that is not complete, with the read of [CNTL2]
    ending exactly 1000 ms after the reset. *)
Definition sim_boundary_system : System SimDevice :=
  {| driver := sim_driver STATE.WAIT_FOR_RESET;
     world := sim_device {[ Register.addr Register.CNTL2 := CNTL2_BIT.SOFT_RST ]}
                (ms 1000 - 100) [] false |}.

(** The same 200 ms after the reset, on a bus whose next transfer fails. *)
Definition sim_dead_system : System SimDevice :=
  {| driver := sim_driver STATE.WAIT_FOR_RESET;
     world := sim_device {[ Register.addr Register.CNTL2 := CNTL2_BIT.SOFT_RST ]}
                (ms 200) [true] false |}.

(** Configuring on a bus on which every transfer fails, 950 ms after the
    reset. *)
Definition sim_unconfigurable_system : System SimDevice :=
  {| driver := sim_driver STATE.CONFIGURE;
     world := sim_device ∅ (ms 950) (replicate 9 true) true |}.

(** Reading from a device whose [CNTL1] has lost its configuration. *)
Definition sim_corrupt_system : System SimDevice :=
  {| driver := sim_driver STATE.READ;
     world := sim_device (<[ Register.addr Register.CNTL1 := 0 ]> sim_sample_regs)
                (ms 500) [] true |}.

(** Reading on a bus whose next transfer fails. *)
Definition sim_fault_system : System SimDevice :=
  {| driver := sim_driver STATE.READ;
     world := sim_device sim_sample_regs (ms 500) [true] true |}.

(** Reading 1500 ms after the reset, the configuration checked 10 ms ago,
    from a device at 25 degrees: [TOUT] holds 2500. *)
Definition sim_temperature_system : System SimDevice :=
  {| driver := set_last_config_check_timestamp (ms 1490) (sim_driver STATE.READ);
     world := sim_device
                (<[ Register.addr Register.TEMP_LSB := 0xC4 ]>
                   (<[ Register.addr Register.TEMP_MSB := 0x09 ]> sim_sample_regs))
                (ms 1500) [] true |}.

(** A bus that does not initialise. *)
Definition sim_failing_bus : SimDevice :=
  {| sim_regs := ∅; sim_clock := 0; sim_cost := 100; sim_faults := [];
     sim_down := false; sim_log := []; sim_soft_reset := true;
     sim_init_status := PX4_ERROR |}.

(** ** The work queue *)

(** The work queue starts the item when the delay it was asked for has
    passed; the simulation ends when the clock would run out of its 64
    bits. *)
Definition sim_start (s : System SimDevice) : option (System SimDevice) :=
  match next_delay (_schedule (driver s)) with
  | Some delay =>
      if (0 <=? sim_clock (world s)) && (sim_clock (world s) + delay <? 2 ^ 64)
      then Some {| driver := set_schedule fire (driver s);
                   world := sim_wait delay (world s) |}
      else None
  | None => None
  end.

(** One round, and [n] of them: the item starts, [RunImpl] runs. *)
Definition sim_round (s : System SimDevice) : option (System SimDevice) :=
  s1 ← sim_start s; snd <$> RunImpl s1.

Fixpoint sim_rounds (n : nat) (s : System SimDevice) : option (System SimDevice) :=
  match n with
  | O => Some s
  | S n => s' ← sim_round s; sim_rounds n s'
  end.

(** The state after [n] rounds, or [s] when the simulation ends before. *)
Definition sim_rounds_state (n : nat) (s : System SimDevice) : System SimDevice :=
  default s (sim_rounds n s).

(** The driver after [init], and the same on a device whose reset never
    completes. *)
Definition sim_started : System SimDevice :=
  {| driver := after_Reset (QMC5883L_new false 0 continuous_cfg);
     world := sim_new 0 100 [] true |}.

Definition sim_stuck : System SimDevice :=
  {| driver := after_Reset (QMC5883L_new false 0 continuous_cfg);
     world := sim_new 0 100 [] false |}.

(** ** The laws *)

Lemma sim_now_uint64 d : is_uint64 (sim_now d).
Proof. unfold is_uint64, sim_now. lia. Qed.

Lemma sim_transfer_clock send n d : sim_now d <= sim_now (snd (sim_transfer send n d)).
Proof. unfold sim_now, sim_transfer, sim_tick. cbn. lia. Qed.

#[export] Instance SimDevice_PlatformLaws : PlatformLaws SimDevice.
Proof.
  split.
  - apply sim_now_uint64.
  - apply sim_transfer_clock.
  - intros d. cbn. lia.
Qed.

(** ** Witnesses *)

Lemma RegisterCheck_no_data_witness :
  RegisterCheck {| reg := Register.CNTL1; set_bits := 0x01; clear_bits := 0x00 |}
    (sim_device sim_sample_regs 0 [true] true)
  = (false,
     snd (transfer [Register.addr Register.CNTL1] 1
            (sim_device sim_sample_regs 0 [true] true))).
Proof.
  apply (RegisterCheck_no_data
           {| reg := Register.CNTL1; set_bits := 0x01; clear_bits := 0x00 |} _ PX4_ERROR);
    [done | reflexivity].
Defined.
