(* ===== verification/Configuration.v ===== *)
(** * Configuration of a device that remembers

    [Configure] talks to the chip through [transfer] only, so that what it
    achieves depends on the device.  The class [RegisterFile] states what a
    healthy chip promises: a read delivers the register's byte and changes
    nothing, a write stores its byte and changes no other register.  For
    every such device, and every table that is consistent, [Configure]
    succeeds, the driver reaches [READ], and a second pass over the table
    changes nothing.  [SimDevice] is an instance. *)

From Stdlib Require Import ZArith Lia Bool.
From stdpp Require Import base tactics option list gmap.
From S2P Require Import Prelude Registers Platform RegisterAccess Decoder Driver.
From S2P Require Import SimDevice.

#[local] Open Scope Z_scope.

(** ** Tables *)

(** No entry sets a bit that an entry of the same register clears. *)
Definition cfg_consistent (cfg : list register_config_t) : Prop :=
  Forall (fun c1 =>
    Forall (fun c2 => reg c1 = reg c2 -> Z.land (set_bits c1) (clear_bits c2) = 0) cfg) cfg.

(** No entry asks for a soft reset. *)
Definition cfg_no_reset (cfg : list register_config_t) : Prop :=
  Forall (fun c => Z.land (set_bits c) CNTL2_BIT.SOFT_RST = 0) cfg.

(** ** A device that remembers *)

Class RegisterFile (W : Type) `{Platform W} : Type := {
  healthy : W -> Prop;
  peek : W -> Register -> Z;
  peek_uint8 : forall w r, is_uint8 (peek w r);
  read_transfer : forall w r,
    healthy w ->
    fst (transfer [Register.addr r] 1 w) = (PX4_OK, [peek w r]) /\
    healthy (snd (transfer [Register.addr r] 1 w)) /\
    forall r', peek (snd (transfer [Register.addr r] 1 w)) r' = peek w r';
  write_transfer : forall w r v,
    healthy w -> is_uint8 v ->
    (r = Register.CNTL2 -> Z.land v CNTL2_BIT.SOFT_RST = 0) ->
    healthy (snd (transfer [Register.addr r; v] 0 w)) /\
    forall r', peek (snd (transfer [Register.addr r; v] 0 w)) r' =
               if decide (r' = r) then v else peek w r';
}.

Section Configuration.
Context {W : Type} `{RegisterFile W}.

(** The bus works, and the chip is not in reset. *)
Definition ready (w : W) : Prop :=
  healthy w /\ Z.land (peek w Register.CNTL2) CNTL2_BIT.SOFT_RST = 0.

(** The two devices hold the same bytes. *)
Definition same_registers (w w' : W) : Prop := forall r, peek w r = peek w' r.

(** Every entry of [cfg] holds of its register. *)
Definition configured (cfg : list register_config_t) (w : W) : Prop :=
  Forall (fun c => cfg_holds c (peek w (reg c))) cfg.

End Configuration.

(** The simulated device is healthy when its bus is up and its script
    holds no fault. *)
Definition sim_healthy (d : SimDevice) : Prop :=
  sim_down d = false /\ sim_faults d = [].

Definition sim_peek (d : SimDevice) (r : Register) : Z :=
  uint8 (sim_reg d (Register.addr r)).

Lemma cfg_consistent_elem cfg c1 c2 :
  cfg_consistent cfg -> c1 ∈ cfg -> c2 ∈ cfg -> reg c1 = reg c2 ->
  Z.land (set_bits c1) (clear_bits c2) = 0.
Proof.
  intros Hcons H1 H2. eapply Forall_forall in Hcons; [| exact H1].
  eapply Forall_forall in Hcons; [| exact H2]. done.
Qed.

Lemma set_and_clear_preserves c c' o :
  is_uint8 o -> is_uint8 (set_bits c') -> cfg_holds c o ->
  Z.land (set_bits c) (clear_bits c') = 0 ->
  Z.land (set_bits c') (clear_bits c) = 0 ->
  cfg_holds c (set_and_clear o (set_bits c') (clear_bits c')).
Proof.
  intros Ho Hs' [Hset Hclear] H1 H2. rewrite set_and_clear_exact by done.
  split; bitwise; bit_of Hset i; bit_of Hclear i; bit_of H1 i; bit_of H2 i.
  all: destruct (Z.testbit o i), (Z.testbit (set_bits c) i), (Z.testbit (clear_bits c) i),
         (Z.testbit (set_bits c') i), (Z.testbit (clear_bits c') i); cbn in *; congruence.
Qed.

Lemma set_and_clear_no_reset o s c :
  is_uint8 o -> is_uint8 s ->
  Z.land o CNTL2_BIT.SOFT_RST = 0 -> Z.land s CNTL2_BIT.SOFT_RST = 0 ->
  Z.land (set_and_clear o s c) CNTL2_BIT.SOFT_RST = 0.
Proof.
  intros Ho Hs H1 H2. rewrite set_and_clear_exact by done.
  bitwise. bit_of H1 i. bit_of H2 i.
  destruct (Z.testbit o i), (Z.testbit s i), (Z.testbit c i),
    (Z.testbit CNTL2_BIT.SOFT_RST i); cbn in *; congruence.
Qed.

Section ConfigurationTheorems.
Context {W : Type} `{RegisterFile W}.
Implicit Types (w : W) (c : register_config_t) (cfg : list register_config_t).

(** What the driver can learn of a device are its registers: [peek] and
    [configured] respect [same_registers]. *)
#[export] Instance same_registers_equivalence : Equivalence same_registers.
Proof.
  split; [by intros w r | by intros w w' Hw r | intros w1 w2 w3 H12 H23 r].
  by rewrite H12.
Qed.

#[export] Instance peek_proper : Proper (same_registers ==> eq ==> eq) peek.
Proof. by intros w w' Hw r ? <-. Qed.

#[export] Instance configured_proper cfg : Proper (same_registers ==> iff) (configured cfg).
Proof.
  intros w w' Hw. unfold configured. apply Forall_proper; [| done].
  intros c. by rewrite Hw.
Qed.

Lemma RegisterRead_peek r w :
  healthy w ->
  fst (RegisterRead r w) = peek w r /\
  healthy (snd (RegisterRead r w)) /\
  same_registers (snd (RegisterRead r w)) w.
Proof.
  intros Hw. destruct (read_transfer w r Hw) as (Hdata & Hh & Hpeek).
  rewrite RegisterRead_run. cbn. rewrite Hdata. cbn.
  split_and!; [| done..]. apply buffer_byte_lookup; [done | apply peek_uint8].
Qed.

Lemma RegisterCheck_peek c w :
  healthy w ->
  fst (RegisterCheck c w) = bool_decide (cfg_holds c (peek w (reg c))) /\
  healthy (snd (RegisterCheck c w)) /\
  same_registers (snd (RegisterCheck c w)) w.
Proof.
  intros Hw. destruct (RegisterRead_peek (reg c) w Hw) as (Hv & Hh & Hpeek).
  rewrite RegisterCheck_run. cbn [fst snd]. by rewrite Hv.
Qed.

(** [RegisterSetAndClearBits] on a device that is ready: the register holds
    the value with the bits set and cleared, the others are as they were. *)
Lemma RegisterSetAndClearBits_peek c w :
  ready w -> is_uint8 (set_bits c) ->
  Z.land (set_bits c) CNTL2_BIT.SOFT_RST = 0 ->
  ready (snd (RegisterSetAndClearBits (reg c) (set_bits c) (clear_bits c) w)) /\
  forall r',
    peek (snd (RegisterSetAndClearBits (reg c) (set_bits c) (clear_bits c) w)) r' =
    if decide (r' = reg c)
    then set_and_clear (peek w (reg c)) (set_bits c) (clear_bits c)
    else peek w r'.
Proof.
  intros [Hw Hrst] Hs Hsr. destruct (RegisterRead_peek (reg c) w Hw) as (Hv & Hh & Hpeek).
  set (v := set_and_clear (peek w (reg c)) (set_bits c) (clear_bits c)).
  assert (Z.land (if decide (Register.CNTL2 = reg c) then v else peek w Register.CNTL2)
            CNTL2_BIT.SOFT_RST = 0) as Hv0.
  { case_decide as Heq; [| done].
    apply set_and_clear_no_reset; rewrite <- ?Heq; auto using peek_uint8. }
  cut (healthy (snd (RegisterSetAndClearBits (reg c) (set_bits c) (clear_bits c) w)) /\
       forall r',
         peek (snd (RegisterSetAndClearBits (reg c) (set_bits c) (clear_bits c) w)) r' =
         if decide (r' = reg c) then v else peek w r').
  { intros [Hh' Hp]. split; [split; [done | by rewrite Hp] | done]. }
  rewrite RegisterSetAndClearBits_run.
  destruct (RegisterRead (reg c) w) as [o w1]. cbn [fst snd] in Hv, Hh, Hpeek. subst o.
  fold v. destruct (decide (v = peek w (reg c))) as [Hfix | Hfix]; cbn [snd].
  - split; [done |]. intros r'. rewrite Hpeek.
    destruct (decide (r' = reg c)) as [-> | ?]; done.
  - rewrite RegisterWrite_run. cbn [snd].
    destruct (write_transfer w1 (reg c) v) as [Hh' Hp'];
      [done | apply set_and_clear_uint8 | intros Heq; by rewrite Heq, decide_True in Hv0 |].
    split; [done |]. intros r'. rewrite Hp'.
    destruct (decide (r' = reg c)); [done | apply Hpeek].
Qed.

(** On a device that is ready, [RegisterSetAndClearBits] with a well
    formed entry that does not ask for a soft reset establishes the entry:
    afterwards the register has every bit of [set_bits] and no bit of
    [clear_bits], every other register holds what it held, and the device is
    still ready. *)
Theorem RegisterSetAndClearBits_establishes c w :
  ready w -> cfg_wf c -> Z.land (set_bits c) CNTL2_BIT.SOFT_RST = 0 ->
  ready (snd (RegisterSetAndClearBits (reg c) (set_bits c) (clear_bits c) w)) /\
  cfg_holds c
    (peek (snd (RegisterSetAndClearBits (reg c) (set_bits c) (clear_bits c) w)) (reg c)) /\
  forall r, r <> reg c ->
    peek (snd (RegisterSetAndClearBits (reg c) (set_bits c) (clear_bits c) w)) r = peek w r.
Proof.
  intros Hw Hwf Hnr.
  destruct (RegisterSetAndClearBits_peek c w Hw (proj1 Hwf) Hnr) as [Hw1 Hp1].
  split_and!; [done | | intros r Hr; by rewrite Hp1, decide_False].
  rewrite Hp1, decide_True by done. apply set_and_clear_holds; [apply peek_uint8 | done].
Qed.

(** The first loop of [Configure]: every entry holds afterwards. *)
Lemma apply_register_cfg_configured cfg : forall applied w,
  ready w -> configured applied w ->
  Forall cfg_wf (applied ++ cfg) -> cfg_consistent (applied ++ cfg) ->
  cfg_no_reset cfg ->
  ready (snd (apply_register_cfg cfg w)) /\
  configured (applied ++ cfg) (snd (apply_register_cfg cfg w)).
Proof.
  induction cfg as [| c cfg IH]; intros applied w Hw Happ Hwf Hcons Hnr.
  { by rewrite app_nil_r. }
  cbn [apply_register_cfg]. unfold bind. cbv beta zeta.
  apply Forall_cons in Hnr as [Hnrc Hnr].
  pose proof (proj1 (Forall_app _ _ _) Hwf) as [_ [(Hs & Hc & Hsc) _]%Forall_cons].
  destruct (RegisterSetAndClearBits_peek c w Hw Hs Hnrc) as [Hw1 Hp1].
  rewrite (assoc_L (++) applied [c] cfg : applied ++ c :: cfg = _) in *.
  apply IH; [done | | done | done | done].
  apply Forall_app. split; [| apply Forall_singleton].
  - apply Forall_forall. intros c' Hc'. rewrite Hp1.
    pose proof (proj1 (Forall_forall _ _) Happ c' Hc') as Hold. cbn beta in Hold.
    destruct (decide (reg c' = reg c)) as [Heq | Hne]; [| done].
    rewrite Heq in Hold. apply set_and_clear_preserves; auto using peek_uint8.
    all: apply (cfg_consistent_elem _ _ _ Hcons);
      rewrite ?elem_of_app, ?list_elem_of_singleton; auto.
  - rewrite Hp1, decide_True by done. apply set_and_clear_holds; [apply peek_uint8 | done].
Qed.

(** The second loop: the result is true exactly when [success] was and
    every entry holds; the registers are left as they were. *)
Lemma check_register_cfg_configured cfg : forall w success,
  healthy w ->
  (fst (check_register_cfg cfg success w) = true <-> success = true /\ configured cfg w) /\
  healthy (snd (check_register_cfg cfg success w)) /\
  same_registers (snd (check_register_cfg cfg success w)) w.
Proof.
  induction cfg as [| c cfg IH]; intros w success Hw.
  { cbn. split_and!; [| done..]. split; [by split; [| constructor] | by intros []]. }
  cbn [check_register_cfg]. unfold bind. cbv beta zeta.
  destruct (RegisterCheck_peek c w Hw) as (Hok & Hw1 & Hp1).
  destruct (IH (snd (RegisterCheck c w))
              (if negb (fst (RegisterCheck c w)) then false else success) Hw1)
    as (Hiff & Hw2 & Hp2).
  split_and!; [| done | by rewrite Hp2].
  rewrite Hiff, Hp1, Hok. unfold configured at 2.
  rewrite Forall_cons. case_bool_decide; destruct success; cbn; intuition congruence.
Qed.

(** [Configure] succeeds on a device that is ready, for a table that is
    consistent. *)
Lemma configure_bus_succeeds cfg w :
  ready w -> Forall cfg_wf cfg -> cfg_consistent cfg -> cfg_no_reset cfg ->
  fst (configure_bus cfg w) = true /\
  ready (snd (configure_bus cfg w)) /\ configured cfg (snd (configure_bus cfg w)).
Proof.
  intros Hw Hwf Hcons Hnr. unfold configure_bus, bind. cbv beta zeta.
  destruct (apply_register_cfg_configured cfg [] w) as [[Hh Hrst] Hcfg]; [done | constructor | done..|].
  destruct (check_register_cfg_configured cfg (snd (apply_register_cfg cfg w)) true Hh)
    as (Hiff & Hh' & Hp).
  split_and!; [by apply Hiff | split; [done | by rewrite Hp] | by rewrite Hp].
Qed.

(** A pass over a table that holds already leaves every register as it
    is. *)
Lemma apply_register_cfg_fixed cfg : forall w,
  ready w -> configured cfg w -> Forall cfg_wf cfg -> cfg_no_reset cfg ->
  ready (snd (apply_register_cfg cfg w)) /\
  same_registers (snd (apply_register_cfg cfg w)) w.
Proof.
  induction cfg as [| c cfg IH]; intros w Hw Hcfg Hwf Hnr; [done |].
  cbn [apply_register_cfg]. unfold bind. cbv beta zeta.
  apply Forall_cons in Hcfg as [Hc Hcfg]. apply Forall_cons in Hwf as [Hwfc Hwf].
  apply Forall_cons in Hnr as [Hnrc Hnr].
  destruct (RegisterSetAndClearBits_peek c w Hw (proj1 Hwfc) Hnrc) as [Hw1 Hp1].
  assert (same_registers (RegisterSetAndClearBits (reg c) (set_bits c) (clear_bits c) w).2 w)
    as Hsame.
  { intros r. rewrite Hp1. destruct (decide (r = reg c)) as [-> |]; [| done].
    apply set_and_clear_fixed_iff; auto using peek_uint8. }
  destruct (IH _ Hw1) as [Hw2 Hp2]; [by rewrite Hsame | done..|].
  split; [done |]. by rewrite Hp2.
Qed.

(** C24: on a device that is ready (the bus works and the chip is not in
    reset), with a table whose entries are well formed, do not contradict
    each other and do not ask for a soft reset, a step in [CONFIGURE]
    succeeds: the driver goes to [READ], and every entry of the table holds
    of its register afterwards. *)
Theorem configure_reaches_READ (s : System W) :
  _state (driver s) = STATE.CONFIGURE -> ready (world s) ->
  Forall cfg_wf (_register_cfg (driver s)) ->
  cfg_consistent (_register_cfg (driver s)) -> cfg_no_reset (_register_cfg (driver s)) ->
  exists s', RunImpl s = Some (tt, s') /\
    _state (driver s') = STATE.READ /\
    ready (world s') /\ configured (_register_cfg (driver s')) (world s').
Proof.
  intros Hst Hw Hwf Hcons Hnr.
  destruct (configure_bus_succeeds _ _ Hw Hwf Hcons Hnr) as (Hok & Hw' & Hcfg).
  apply wp_elim_unit. wp_simpl. rewrite Hst. wp_simpl. rewrite Hok. by wp_simpl.
Qed.

(** Configuring is idempotent: on a device that is ready, a second
    [Configure] after a first succeeds as well and leaves every register as
    the first left it. *)
Theorem configure_bus_idempotent cfg w :
  ready w -> Forall cfg_wf cfg -> cfg_consistent cfg -> cfg_no_reset cfg ->
  fst (configure_bus cfg (snd (configure_bus cfg w))) = true /\
  same_registers (snd (configure_bus cfg (snd (configure_bus cfg w))))
    (snd (configure_bus cfg w)).
Proof.
  intros Hw Hwf Hcons Hnr.
  destruct (configure_bus_succeeds _ _ Hw Hwf Hcons Hnr) as (_ & Hw1 & Hcfg).
  destruct (configure_bus_succeeds _ _ Hw1 Hwf Hcons Hnr) as (Hok & _ & _).
  split; [done |]. unfold configure_bus at 1, bind. cbv beta zeta.
  destruct (apply_register_cfg_fixed cfg _ Hw1 Hcfg Hwf Hnr) as [[Hh _] Hp].
  destruct (check_register_cfg_configured cfg _ true Hh) as (_ & _ & Hp').
  by rewrite Hp', Hp.
Qed.

End ConfigurationTheorems.

(** ** The simulated device remembers *)

Lemma sim_store_plain d a v :
  (a = Register.addr Register.CNTL2 -> Z.land v CNTL2_BIT.SOFT_RST = 0) ->
  sim_store d a v = <[a := uint8 v]> (sim_regs d).
Proof.
  intros Hv. unfold sim_store.
  destruct (Z.eqb_spec a (Register.addr Register.CNTL2)) as [Ha | Ha];
    [| by rewrite andb_false_r].
  by rewrite (Hv Ha), andb_false_r.
Qed.

Lemma sim_read_transfer d r :
  sim_healthy d ->
  fst (transfer [Register.addr r] 1 d) = (PX4_OK, [sim_peek d r]) /\
  sim_healthy (snd (transfer [Register.addr r] 1 d)) /\
  forall r', sim_peek (snd (transfer [Register.addr r] 1 d)) r' = sim_peek d r'.
Proof.
  intros [Hup Hd]. unfold sim_healthy, sim_peek in *. cbn. rewrite Hup, Hd. cbn.
  change (Z.of_nat 0) with 0. by rewrite Z.add_0_r.
Qed.

Lemma sim_write_transfer d r v :
  sim_healthy d -> is_uint8 v ->
  (r = Register.CNTL2 -> Z.land v CNTL2_BIT.SOFT_RST = 0) ->
  sim_healthy (snd (transfer [Register.addr r; v] 0 d)) /\
  forall r', sim_peek (snd (transfer [Register.addr r; v] 0 d)) r' =
             if decide (r' = r) then v else sim_peek d r'.
Proof.
  intros [Hup Hd] Hv Hrst. unfold sim_healthy, sim_peek, sim_reg in *. cbn.
  rewrite Hup, Hd. cbn. split; [done |]. intros r'.
  rewrite sim_store_plain by (intros Ha%Register_addr_inj; auto).
  destruct (decide (r' = r)) as [-> | Hne].
  - rewrite lookup_insert_eq. cbn. by rewrite !(uint8_id v).
  - rewrite lookup_insert_ne; [done |]. by intros ?%Register_addr_inj.
Qed.

#[export] Instance SimDevice_RegisterFile : RegisterFile SimDevice := {
  healthy := sim_healthy;
  peek := sim_peek;
  peek_uint8 d r := uint8_range _;
  read_transfer := sim_read_transfer;
  write_transfer := sim_write_transfer;
}.

(** A read is not a write. *)
Lemma sim_RegisterRead_writes r d :
  sim_writes (snd (RegisterRead r d)) = sim_writes d.
Proof. done. Qed.

(** On the simulated device, a pass of the first loop of [Configure] over
    a table that holds already issues no write transfer. *)
Lemma sim_apply_register_cfg_configured cfg : forall d,
  ready d -> configured cfg d -> Forall cfg_wf cfg -> cfg_no_reset cfg ->
  sim_writes (snd (apply_register_cfg cfg d)) = sim_writes d.
Proof.
  induction cfg as [| c cfg IH]; intros d Hd Hcfg Hwf Hnr; [done |].
  apply Forall_cons in Hcfg as [Hc Hcfg]. apply Forall_cons in Hwf as [Hwfc Hwf].
  apply Forall_cons in Hnr as [Hnrc Hnr].
  destruct (apply_register_cfg_fixed [c] d Hd) as [Hd1 Hp1]; [by apply Forall_singleton.. |].
  cbn [apply_register_cfg] in *. unfold bind, ret in *. cbn [fst snd] in *.
  rewrite IH; [| done | by rewrite Hp1 | done..].
  rewrite RegisterSetAndClearBits_run.
  destruct (RegisterRead_peek (reg c) d (proj1 Hd)) as (Hv & _ & _).
  pose proof (sim_RegisterRead_writes (reg c) d) as Hlog.
  destruct (RegisterRead (reg c) d) as [o d1]. cbn [fst snd] in *. subst o.
  rewrite decide_True; [done |].
  apply set_and_clear_fixed_iff; [apply (peek_uint8 d) | done..].
Qed.

(** On the simulated device, two passes of the first loop of
    [Configure] in a row, with no change of a register in between: the
    second pass issues no write transfer, because every read finds the value
    the first pass has left. *)
Theorem sim_apply_register_cfg_twice cfg d :
  ready d -> Forall cfg_wf cfg -> cfg_consistent cfg -> cfg_no_reset cfg ->
  sim_writes (snd (apply_register_cfg cfg (snd (apply_register_cfg cfg d))))
  = sim_writes (snd (apply_register_cfg cfg d)).
Proof.
  intros Hd Hwf Hcons Hnr.
  destruct (apply_register_cfg_configured cfg [] d) as [Hd1 Hcfg]; [done | constructor | done..|].
  by apply sim_apply_register_cfg_configured.
Qed.

(** ** Witnesses *)

(** A simulated device is ready, by evaluation. *)
Ltac sim_ready := split; [split |]; vm_compute; reflexivity.

Lemma sim_configure_ready : ready (world (sim_rounds_state 2 sim_started)).
Proof. sim_ready. Qed.

Lemma continuous_cfg_wf :
  Forall cfg_wf continuous_cfg /\ cfg_consistent continuous_cfg /\
  cfg_no_reset continuous_cfg.
Proof. split_and!; apply (bool_decide_unpack _); vm_compute; exact I. Qed.

Lemma RegisterSetAndClearBits_establishes_witness :
  let c := {| reg := Register.CNTL1; set_bits := 0x05; clear_bits := 0xF0 |} in
  let d := sim_device {[ Register.addr Register.CNTL1 := 0xF2 ]} 0 [] true in
  peek (snd (RegisterSetAndClearBits (reg c) (set_bits c) (clear_bits c) d)) (reg c) = 0x07 /\
  cfg_holds c
    (peek (snd (RegisterSetAndClearBits (reg c) (set_bits c) (clear_bits c) d)) (reg c)).
Proof.
  intros c d. split; [by vm_compute |].
  apply (RegisterSetAndClearBits_establishes c d);
    [sim_ready | apply (bool_decide_unpack _); vm_compute; exact I
    | by vm_compute].
Defined.

Lemma configure_reaches_READ_witness :
  exists s', RunImpl (sim_rounds_state 2 sim_started) = Some (tt, s') /\
    _state (driver s') = STATE.READ /\
    ready (world s') /\ configured (_register_cfg (driver s')) (world s').
Proof.
  destruct continuous_cfg_wf as (Hwf & Hcons & Hnr).
  apply configure_reaches_READ; [vm_compute; reflexivity | apply sim_configure_ready | done..].
Defined.

Lemma configure_bus_idempotent_witness :
  fst (configure_bus continuous_cfg
         (snd (configure_bus continuous_cfg (sim_new 0 100 [] true)))) = true /\
  same_registers
    (snd (configure_bus continuous_cfg
            (snd (configure_bus continuous_cfg (sim_new 0 100 [] true)))))
    (snd (configure_bus continuous_cfg (sim_new 0 100 [] true))).
Proof.
  destruct continuous_cfg_wf as (Hwf & Hcons & Hnr).
  apply configure_bus_idempotent; [sim_ready | done..].
Defined.

Lemma sim_apply_register_cfg_twice_witness :
  sim_writes (snd (apply_register_cfg continuous_cfg (sim_new 0 100 [] true))) <> [] /\
  sim_writes (snd (apply_register_cfg continuous_cfg
                     (snd (apply_register_cfg continuous_cfg (sim_new 0 100 [] true)))))
  = sim_writes (snd (apply_register_cfg continuous_cfg (sim_new 0 100 [] true))).
Proof.
  destruct continuous_cfg_wf as (Hwf & Hcons & Hnr).
  split; [by vm_compute |].
  apply sim_apply_register_cfg_twice; [sim_ready | done..].
Defined.
