(* ===== verification/Lifecycle.v ===== *)
(** * The lifecycle state machine

    Theorems on [RunImpl] for every platform that satisfies
    [PlatformLaws]: the invariant of the driver object and its
    preservation, absence of undefined behaviour, the state table of the
    driver as a function of what a step observes and the proof that
    [RunImpl] implements it, the timeouts, the round-robin order of the
    periodic register check, and what follows from the condition of
    line 178.  The table is the one the code implements.  It has the
    states, the conditions and the delays of the table in section 4.5 of
    the specification, and differs from it in two places: the timeouts
    are tested with [>] (lines 119 and 140), so that the driver retries
    once more at exactly 1000 ms, where the specification resets from
    1000 ms on; and there is no way from [READ] to [RESET] for more than
    ten failures in a row, because the count tested on line 228 is never
    incremented. *)

From Stdlib Require Import ZArith Lia Bool.
From stdpp Require Import base tactics option list.
From S2P Require Import Prelude Registers Platform RegisterAccess Decoder Driver SimDevice.

#[local] Open Scope Z_scope.

(** ** The state table *)

(** What a step asks of the work queue. *)
Inductive request : Set :=
| Delay (d : Z)      (* run once more after [d] *)
| Interval (i : Z)   (* run every [i] from now on *)
| Keep               (* leave the schedule as it is *)
| Immediately.       (* drop the schedule and run at once *)

(** What a step observes of the device and the clock: nothing in [RESET];
    whether the reset is complete, and the time since the reset, in
    [WAIT_FOR_RESET]; whether [Configure] succeeded, and the time since the
    reset, in [CONFIGURE]; in [READ] whether the sample transfer failed, and
    the result of the periodic check when one was made.  The observations
    are those of the code: a register whose read failed is observed as the
    zero the buffer was initialised with. *)
Inductive observation : Set :=
| Nothing
| ResetStatus (done : bool) (elapsed : Z)
| Configured (ok : bool) (elapsed : Z)
| Sampled (failure : bool) (check : option bool).

(** The state table of [RunImpl]: the successor state and the request,
    from the state and the observation.  The comparisons are those of
    lines 119 and 140; the row of [READ] has no exit for a count of
    failures, which line 228 tests and nothing increments. *)
Definition lifecycle_next (st : STATE) (o : observation) : STATE * request :=
  match st, o with
  | STATE.RESET, _ => (STATE.WAIT_FOR_RESET, Delay (ms 100))
  | STATE.WAIT_FOR_RESET, ResetStatus true _ => (STATE.CONFIGURE, Delay (ms 1))
  | STATE.WAIT_FOR_RESET, ResetStatus false elapsed =>
      if elapsed >? ms 1000 then (STATE.RESET, Delay (ms 100))
      else (STATE.WAIT_FOR_RESET, Delay (ms 100))
  | STATE.CONFIGURE, Configured true _ => (STATE.READ, Interval (ms 20))
  | STATE.CONFIGURE, Configured false elapsed =>
      if elapsed >? ms 1000 then (STATE.RESET, Delay (ms 100))
      else (STATE.CONFIGURE, Delay (ms 100))
  | STATE.READ, Sampled _ (Some false) => (STATE.RESET, Immediately)
  | STATE.READ, Sampled _ _ => (STATE.READ, Keep)
  | st, _ => (st, Keep)
  end.

(** The transitions of the table, without their conditions. *)
Inductive transition : STATE -> STATE -> Prop :=
| t_reset : transition STATE.RESET STATE.WAIT_FOR_RESET
| t_wait_done : transition STATE.WAIT_FOR_RESET STATE.CONFIGURE
| t_wait_again : transition STATE.WAIT_FOR_RESET STATE.WAIT_FOR_RESET
| t_wait_timeout : transition STATE.WAIT_FOR_RESET STATE.RESET
| t_configure_done : transition STATE.CONFIGURE STATE.READ
| t_configure_again : transition STATE.CONFIGURE STATE.CONFIGURE
| t_configure_timeout : transition STATE.CONFIGURE STATE.RESET
| t_read : transition STATE.READ STATE.READ
| t_read_fault : transition STATE.READ STATE.RESET.

(** The schedule a request leaves behind. *)
Definition apply_request (r : request) (s : Schedule) : Schedule :=
  match r with
  | Delay d => ScheduleDelayed d s
  | Interval i => ScheduleOnInterval i i s
  | Keep => s
  | Immediately => ScheduleNow (ScheduleClear s)
  end.

Section Lifecycle.
Context {W : Type} `{PlatformLaws W}.

(** ** The invariant of the driver object *)

Record driver_inv (s : System W) : Prop := {
  inv_size : 0 < size_register_cfg (driver s) < 2 ^ 8;
  inv_checked : 0 <= _checked_register (driver s) < size_register_cfg (driver s);
  inv_failures : _consecutive_failures (driver s) = 0;
  inv_reset_timestamp :
    0 <= _reset_timestamp (driver s) <= hrt_absolute_time (world s);
  inv_config_check_timestamp :
    0 <= _last_config_check_timestamp (driver s) <= hrt_absolute_time (world s);
  inv_temperature_timestamp :
    0 <= _temperature_update_timestamp (driver s) <= hrt_absolute_time (world s);
  inv_read_interval :
    _state (driver s) = STATE.READ ->
    timer (_schedule (driver s)) = Some (ms 20, ms 20);
}.

(** ** What the work queue and the world do between two steps *)

(** The work queue starts the item no earlier than asked, and time does not
    go back; the device may have changed in any way. *)
Definition env_step (s s' : System W) : Prop :=
  exists delay,
    next_delay (_schedule (driver s)) = Some delay /\
    driver s' = set_schedule fire (driver s) /\
    hrt_absolute_time (world s) <= hrt_absolute_time (world s') /\
    hrt_absolute_time (world s) + delay <= hrt_absolute_time (world s').

(** One round: the work queue starts the item, [RunImpl] runs. *)
Definition round (s s' : System W) : Prop :=
  exists s1, env_step s s1 /\ RunImpl s1 = Some (tt, s').

(** The states the system is in between rounds, from the state [s0] that
    [init] leaves behind. *)
Inductive reachable (s0 : System W) : System W -> Prop :=
| reachable_init : reachable s0 s0
| reachable_round s s' : reachable s0 s -> round s s' -> reachable s0 s'.

(** ** What a step observes *)

Definition observe_WAIT_FOR_RESET (s : System W) : observation :=
  ResetStatus
    (Z.land (fst (RegisterRead Register.CNTL2 (world s))) CNTL2_BIT.SOFT_RST =? 0)
    (elapsed_since (_reset_timestamp (driver s))
       (snd (RegisterRead Register.CNTL2 (world s)))).

Definition observe_CONFIGURE (s : System W) : observation :=
  Configured
    (fst (configure_bus (_register_cfg (driver s)) (world s)))
    (elapsed_since (_reset_timestamp (driver s))
       (snd (configure_bus (_register_cfg (driver s)) (world s)))).

(** Whether the periodic check is due after the sample read. *)
Definition check_due (s : System W) : bool :=
  negb (fst (fst (sample_bus (world s))) =? PX4_OK)
  || (elapsed_since (_last_config_check_timestamp (driver s))
        (snd (sample_bus (world s))) >? ms 100).

Definition observe_READ (s : System W) : observation :=
  Sampled
    (negb (fst (fst (sample_bus (world s))) =? PX4_OK))
    (if check_due s then
       match _register_cfg (driver s) !! Z.to_nat (_checked_register (driver s)) with
       | Some c => Some (fst (RegisterCheck c (snd (sample_bus (world s)))))
       | None => None
       end
     else None).

Definition observe (s : System W) : observation :=
  match _state (driver s) with
  | STATE.RESET => Nothing
  | STATE.WAIT_FOR_RESET => observe_WAIT_FOR_RESET s
  | STATE.CONFIGURE => observe_CONFIGURE s
  | STATE.READ => observe_READ s
  end.

End Lifecycle.

(** Closes a goal [driver_inv _] whose fields follow from the hypotheses by
    computation, the monotonicity of the clock and arithmetic. *)
Ltac inv_solve :=
  split; unfold size_register_cfg, after_Reset, elapsed_since in *; cbn; pose_clock; intros;
  first [done | lia | congruence | auto].

(** Case analysis on a run [Hrun : RunImpl s = Some (tt, s')]: one goal per
    path through [RunImpl], with [s'] replaced by the state the path
    leaves. *)
Ltac run_cases Hrun :=
  wp_from Hrun; wp_simpl;
  match goal with
  | |- context [_state (driver ?s)] => destruct (_state (driver s)) eqn:?
  end;
  [ wp_simpl | wp_cases | wp_cases | wp_cases_lookup; try done ];
  intros [= <-]; wp_simpl.

Section LifecycleTheorems.
Context {W : Type} `{PlatformLaws W}.
Implicit Types s : System W.

(** ** The round-robin index *)

Lemma next_index_range i n :
  0 <= i < n -> n < 2 ^ 8 -> 0 <= uint8 (Z.rem (i + 1) n) < n.
Proof.
  intros Hi Hn. rewrite Z.rem_mod_nonneg by lia.
  pose proof (Z.mod_pos_bound (i + 1) n). rewrite uint8_id; unfold is_uint8; lia.
Qed.

Lemma next_index_value i n :
  0 <= i < n -> n < 2 ^ 8 ->
  uint8 (Z.rem (i + 1) n) = if decide (i + 1 = n) then 0 else i + 1.
Proof.
  intros Hi Hn. rewrite Z.rem_mod_nonneg by lia.
  case_decide as Heq.
  - rewrite Heq, Z.mod_same by lia. done.
  - rewrite Z.mod_small by lia. apply uint8_id. unfold is_uint8. lia.
Qed.

Lemma next_index_mod i n :
  0 <= i < n -> n < 2 ^ 8 -> uint8 (Z.rem (i + 1) n) = (i + 1) mod n.
Proof.
  intros Hi Hn. rewrite Z.rem_mod_nonneg by lia.
  pose proof (Z.mod_pos_bound (i + 1) n). apply uint8_id. unfold is_uint8. lia.
Qed.

Lemma lookup_checked_register s :
  driver_inv s ->
  is_Some (_register_cfg (driver s) !! Z.to_nat (_checked_register (driver s))).
Proof.
  intros [Hsz Hck _ _ _ _ _]. unfold size_register_cfg in *.
  apply lookup_lt_is_Some. lia.
Qed.

(** ** Preservation of the invariant *)

Lemma env_step_inv s s' : driver_inv s -> env_step s s' -> driver_inv s'.
Proof.
  intros [Hsz Hck Hf Hr Hc Ht Hsch] (delay & Hd & Hdrv & Hmono & Hclk).
  split; rewrite ?Hdrv; unfold size_register_cfg in *; cbn; try lia.
  intros Hst. specialize (Hsch Hst). unfold fire.
  destruct (run_now _); cbn; by rewrite Hsch.
Qed.

Lemma RunImpl_inv_wp s : driver_inv s -> wp RunImpl (fun _ s' => driver_inv s') s.
Proof.
  intros Hinv. pose proof (lookup_checked_register s Hinv) as [c Hc].
  destruct Hinv as [Hsz Hck Hf Hr Hcc Ht Hsch].
  pose proof (clock_uint64 (world s)) as Hu. unfold is_uint64 in Hu.
  wp_simpl. destruct (_state (driver s)) eqn:Hst.
  - wp_simpl. inv_solve.
  - wp_cases; inv_solve.
  - wp_cases; inv_solve.
  - pose proof (next_index_range _ _ Hck (proj2 Hsz)).
    wp_cases_with ltac:(rewrite ?Hc, ?Hf); inv_solve.
Qed.

(** A state that satisfies the invariant has a run. *)
Lemma RunImpl_defined s : driver_inv s -> exists s', RunImpl s = Some (tt, s').
Proof.
  intros Hinv. destruct (wp_elim _ _ _ (RunImpl_inv_wp s Hinv)) as ([] & s' & Hrun & _).
  eauto.
Qed.

(** C2: from a state that satisfies the invariant, [RunImpl] has defined
    behaviour (the index into [_register_cfg] is in bounds) and leaves a
    state that satisfies the invariant: the index stays below the table's
    size, the failure count stays zero, no timestamp is ahead of the clock,
    and the periodic timer is armed whenever the state is [READ]. *)
Theorem RunImpl_preserves_invariant s :
  driver_inv s -> exists s', RunImpl s = Some (tt, s') /\ driver_inv s'.
Proof.
  intros Hinv. destruct (wp_elim _ _ _ (RunImpl_inv_wp s Hinv)) as ([] & s' & Hrun & Hinv').
  eauto.
Qed.

(** ** [RunImpl] implements the state table *)

Lemma RunImpl_refines_wp s :
  driver_inv s ->
  wp RunImpl
    (fun _ s' =>
       _state (driver s') = fst (lifecycle_next (_state (driver s)) (observe s)) /\
       _schedule (driver s') =
       apply_request (snd (lifecycle_next (_state (driver s)) (observe s)))
         (_schedule (driver s))) s.
Proof.
  intros Hinv. pose proof (lookup_checked_register s Hinv) as [c Hc].
  destruct Hinv as [Hsz Hck Hf Hr Hcc Ht Hsch].
  unfold observe, observe_WAIT_FOR_RESET, observe_CONFIGURE, observe_READ, check_due.
  wp_simpl. destruct (_state (driver s)) eqn:Hst.
  - wp_simpl. done.
  - wp_cases_with ltac:(cbn [lifecycle_next apply_request]); done.
  - wp_cases_with ltac:(cbn [lifecycle_next apply_request]); done.
  - wp_cases_with ltac:(rewrite ?Hc, ?Hf; cbn [lifecycle_next apply_request negb orb]);
      try done.
Qed.

Lemma RunImpl_refines s s' :
  driver_inv s -> RunImpl s = Some (tt, s') ->
  _state (driver s') = fst (lifecycle_next (_state (driver s)) (observe s)) /\
  _schedule (driver s') =
  apply_request (snd (lifecycle_next (_state (driver s)) (observe s))) (_schedule (driver s)).
Proof. intros Hinv Hrun. exact (wp_run _ _ _ _ _ Hrun (RunImpl_refines_wp s Hinv)). Qed.

(** C1: [RunImpl] implements the state table: from a
    state that satisfies the invariant, it returns, its successor state is
    the one the table gives for the current state and for what the step
    observes of the device and the clock, and the schedule it leaves is the
    one the table asks for. *)
Theorem RunImpl_refines_lifecycle s :
  driver_inv s ->
  exists s',
    RunImpl s = Some (tt, s') /\
    _state (driver s') = fst (lifecycle_next (_state (driver s)) (observe s)) /\
    _schedule (driver s') =
    apply_request (snd (lifecycle_next (_state (driver s)) (observe s)))
      (_schedule (driver s)).
Proof.
  intros Hinv. destruct (RunImpl_defined s Hinv) as [s' Hrun].
  exists s'. split; [done | by apply RunImpl_refines].
Qed.

(** C31: whatever the state of the driver object, a step of [RunImpl] that
    returns follows one of the nine transitions of the table: [RESET] to
    [WAIT_FOR_RESET]; [WAIT_FOR_RESET] to [CONFIGURE], to itself or to
    [RESET]; [CONFIGURE] to [READ], to itself or to [RESET]; [READ] to
    itself or to [RESET]. *)
Theorem RunImpl_transition s s' :
  RunImpl s = Some (tt, s') -> transition (_state (driver s)) (_state (driver s')).
Proof.
  intros Hrun. run_cases Hrun; cbn; try constructor.
  all: match goal with Hst : _state _ = _ |- _ => rewrite Hst end; constructor.
Qed.

(** ** What follows from the condition of line 178 *)

(** C3: no step of [RunImpl] hands a sample to the measurement sink: the
    samples the sink holds after the step are those it held before, whatever
    the device delivered.  The condition that guards the call of [update]
    compares the constant [STATUS_BIT::OVL] with zero. *)
Theorem RunImpl_never_publishes s s' :
  RunImpl s = Some (tt, s') ->
  mag_samples (_px4_mag (driver s')) = mag_samples (_px4_mag (driver s)).
Proof.
  intros Hrun. by run_cases Hrun.
Qed.

(** C32: no step of [RunImpl] increments the failure count: a step leaves it
    as it was, or sets it to zero (in [RESET]).  With the count at zero, as
    the constructor leaves it, the threshold test
    [_consecutive_failures > 10] of [READ] never causes a reset. *)
Theorem RunImpl_failure_count s s' :
  RunImpl s = Some (tt, s') ->
  _consecutive_failures (driver s') = _consecutive_failures (driver s) \/
  _consecutive_failures (driver s') = 0.
Proof.
  intros Hrun. run_cases Hrun; auto.
Qed.

End LifecycleTheorems.

(** ** Witnesses on the simulated device *)

Lemma sim_system_inv : driver_inv sim_system.
Proof. split; cbn; first [lia | done]. Qed.

Lemma sim_read_system_inv : driver_inv sim_read_system.
Proof. split; cbn; first [lia | done]. Qed.

Lemma RunImpl_preserves_invariant_witness :
  driver_inv sim_system /\
  exists s', RunImpl sim_system = Some (tt, s') /\ driver_inv s'.
Proof.
  split; [exact sim_system_inv | apply (RunImpl_preserves_invariant _ sim_system_inv)].
Defined.

Lemma RunImpl_refines_lifecycle_witness :
  driver_inv sim_read_system /\
  exists s',
    RunImpl sim_read_system = Some (tt, s') /\
    _state (driver s') =
    fst (lifecycle_next (_state (driver sim_read_system)) (observe sim_read_system)) /\
    _schedule (driver s') =
    apply_request
      (snd (lifecycle_next (_state (driver sim_read_system)) (observe sim_read_system)))
      (_schedule (driver sim_read_system)).
Proof.
  split; [exact sim_read_system_inv |
          apply (RunImpl_refines_lifecycle _ sim_read_system_inv)].
Defined.

Lemma RunImpl_transition_witness :
  exists s',
    RunImpl sim_read_system = Some (tt, s') /\
    transition (_state (driver sim_read_system)) (_state (driver s')).
Proof.
  destruct (RunImpl_defined _ sim_read_system_inv) as [s' Hrun].
  exists s'. split; [exact Hrun | exact (RunImpl_transition _ _ Hrun)].
Defined.

Lemma RunImpl_never_publishes_witness :
  data_ready false (sim_reg (world sim_read_system) (Register.addr Register.STATUS)) = true /\
  exists s',
    RunImpl sim_read_system = Some (tt, s') /\
    mag_samples (_px4_mag (driver s')) = mag_samples (_px4_mag (driver sim_read_system)).
Proof.
  split; [reflexivity |].
  destruct (RunImpl_defined _ sim_read_system_inv) as [s' Hrun].
  exists s'. split; [exact Hrun | exact (RunImpl_never_publishes _ _ Hrun)].
Defined.

Lemma RunImpl_failure_count_witness :
  exists s',
    RunImpl sim_read_system = Some (tt, s') /\
    (_consecutive_failures (driver s') = _consecutive_failures (driver sim_read_system) \/
     _consecutive_failures (driver s') = 0).
Proof.
  destruct (RunImpl_defined _ sim_read_system_inv) as [s' Hrun].
  exists s'. split; [exact Hrun | exact (RunImpl_failure_count _ _ Hrun)].
Defined.
