(* ===== verification/Progress.v ===== *)
(** * Runs of the work item

    A run is a sequence of rounds: the work queue starts the item after the
    delay it was asked for, [RunImpl] runs.  This file holds what is true of
    every run on every platform that satisfies [PlatformLaws]: the invariant
    holds in every reachable state, the states of a run are those the
    state table gives for what the rounds observe, the item is
    always scheduled again, the budget of one second bounds the number of
    rounds spent waiting for the reset or retrying the configuration, and the
    periodic check visits the entries of the table in round-robin order. *)

From Stdlib Require Import ZArith Lia Bool.
From stdpp Require Import base tactics option list relations.
From S2P Require Import Prelude Registers Platform RegisterAccess Decoder Driver.
From S2P Require Import SimDevice Lifecycle.

#[local] Open Scope Z_scope.

(** ** Runs *)

(** The states in which the driver retries until the budget is used up. *)
Definition retrying (st : STATE) : Prop :=
  st = STATE.WAIT_FOR_RESET \/ st = STATE.CONFIGURE.

(** The run of the state table over a list of observations. *)
Definition lifecycle_run (st : STATE) (os : list observation) : STATE :=
  foldl (fun st o => fst (lifecycle_next st o)) st os.

(** A round in which the periodic check ran and passed. *)
Definition passed (o : observation) : bool :=
  match o with
  | Sampled _ (Some true) => true
  | _ => false
  end.

(** A round in which the periodic check ran and failed. *)
Definition failed (o : observation) : bool :=
  match o with
  | Sampled _ (Some false) => true
  | _ => false
  end.

Fixpoint passes (os : list observation) : nat :=
  match os with
  | [] => 0
  | o :: os => (if passed o then 1 else 0) + passes os
  end.

Section Runs.
Context {W : Type} `{PlatformLaws W}.

(** [n] rounds in a row through states that satisfy [P]. *)
Inductive rounds_in (P : System W -> Prop) : nat -> System W -> System W -> Prop :=
| rounds_in_O s : P s -> rounds_in P 0 s s
| rounds_in_S n s s1 s' :
    P s -> round s s1 -> rounds_in P n s1 s' -> rounds_in P (S n) s s'.

(** A round that observes [o]. *)
Definition round_obs (o : observation) (s s' : System W) : Prop :=
  exists s1, env_step s s1 /\ observe s1 = o /\ RunImpl s1 = Some (tt, s').

(** A run, with what its rounds observe. *)
Inductive trace : list observation -> System W -> System W -> Prop :=
| trace_nil s : trace [] s s
| trace_cons o os s s1 s' :
    round_obs o s s1 -> trace os s1 s' -> trace (o :: os) s s'.

End Runs.

(** The work queue on the simulated device, with what the rounds observe. *)
Fixpoint sim_trace (n : nat) (s : System SimDevice)
    : option (list observation * System SimDevice) :=
  match n with
  | O => Some ([], s)
  | S n =>
      s1 ← sim_start s;
      r ← RunImpl s1;
      t ← sim_trace n (snd r);
      Some (observe s1 :: fst t, snd t)
  end.

Section RunTheorems.
Context {W : Type} `{PlatformLaws W}.
Implicit Types s : System W.

(** ** What the work queue leaves alone *)

Lemma env_step_run_now s s1 : env_step s s1 -> run_now (_schedule (driver s1)) = false.
Proof. intros (d & _ & -> & _). cbn. unfold fire. by destruct (run_now (_schedule _)). Qed.

Lemma env_step_clock s s1 d :
  env_step s s1 -> next_delay (_schedule (driver s)) = Some d ->
  hrt_absolute_time (world s) + d <= hrt_absolute_time (world s1).
Proof. intros (d' & Hd & _ & _ & Hc) Hd'. rewrite Hd in Hd'. by injection Hd' as <-. Qed.

Lemma env_step_members s s1 :
  env_step s s1 ->
  _state (driver s1) = _state (driver s) /\
  _reset_timestamp (driver s1) = _reset_timestamp (driver s) /\
  _checked_register (driver s1) = _checked_register (driver s) /\
  _register_cfg (driver s1) = _register_cfg (driver s).
Proof. by intros (d & _ & -> & _). Qed.

(** ** The invariant in every reachable state *)

Lemma round_inv s s' : driver_inv s -> round s s' -> driver_inv s'.
Proof.
  intros Hinv (s1 & Henv & Hrun).
  exact (wp_run _ _ _ _ _ Hrun (RunImpl_inv_wp s1 (env_step_inv _ _ Hinv Henv))).
Qed.

Lemma round_obs_round o s s' : round_obs o s s' -> round s s'.
Proof. intros (s1 & ? & _ & ?). by exists s1. Qed.

Lemma trace_inv os s s' : driver_inv s -> trace os s s' -> driver_inv s'.
Proof. intros Hinv Htr. induction Htr; eauto using round_inv, round_obs_round. Qed.

(** C4: every state the system reaches from a state that satisfies the
    invariant, by any number of rounds of the work queue and whatever the
    device does in between, satisfies the invariant: in particular no round
    indexes [_register_cfg] out of bounds. *)
Theorem reachable_invariant s0 s : driver_inv s0 -> reachable s0 s -> driver_inv s.
Proof. intros Hinv. induction 1; eauto using round_inv. Qed.

(** ** The clock *)

Lemma elapsed_since_exact t (w : W) :
  0 <= t <= hrt_absolute_time w -> elapsed_since t w = hrt_absolute_time w - t.
Proof.
  intros Ht. unfold elapsed_since. apply uint64_id.
  pose proof (clock_uint64 w). unfold is_uint64 in *. lia.
Qed.

Lemma RunImpl_clock s s' :
  RunImpl s = Some (tt, s') -> hrt_absolute_time (world s) <= hrt_absolute_time (world s').
Proof. intros Hrun. run_cases Hrun; cbn; pose_clock; lia. Qed.

(** ** The item is scheduled again *)

Lemma RunImpl_next_delay s s' :
  driver_inv s -> run_now (_schedule (driver s)) = false ->
  RunImpl s = Some (tt, s') ->
  exists d, next_delay (_schedule (driver s')) = Some d /\ 0 <= d <= ms 100.
Proof.
  intros Hinv Hnow Hrun. destruct Hinv as [_ _ _ _ _ _ Hsch].
  run_cases Hrun; unfold next_delay; cbn; rewrite ?Hnow, ?Hsch by done.
  all: eexists; (split; [reflexivity | unfold ms; cbn; lia]).
Qed.

(** C30: the machine never stalls: after every round from a state that
    satisfies the invariant, the item is scheduled to run again, after a
    delay of at most 100 ms. *)
Theorem round_reschedules s s' :
  driver_inv s -> round s s' ->
  exists d, next_delay (_schedule (driver s')) = Some d /\ 0 <= d <= ms 100.
Proof.
  intros Hinv (s1 & Henv & Hrun).
  apply (RunImpl_next_delay s1 s'); eauto using env_step_inv, env_step_run_now.
Qed.

(** ** Runs follow the state table *)

Lemma trace_app os1 os2 s s' :
  trace (os1 ++ os2) s s' <-> exists s1, trace os1 s s1 /\ trace os2 s1 s'.
Proof.
  revert s. induction os1 as [| o os1 IH]; intros s; cbn.
  - split; [intros; eexists; split; [constructor | done] |].
    by intros (s1 & Hnil & ?); inversion Hnil; subst.
  - split.
    + inversion 1 as [| ? ? ? s1 ? Hr Hrest]; subst.
      apply IH in Hrest as (s2 & ? & ?). exists s2. eauto using trace.
    + intros (s2 & Hcons & ?). inversion Hcons; subst.
      econstructor; [done |]. apply IH. eauto.
Qed.

Lemma round_obs_state o s s' :
  driver_inv s -> round_obs o s s' ->
  _state (driver s') = fst (lifecycle_next (_state (driver s)) o).
Proof.
  intros Hinv (s1 & Henv & <- & Hrun).
  destruct (env_step_members _ _ Henv) as (<- & _).
  by apply RunImpl_refines; [eapply env_step_inv |].
Qed.

(** C25: the state after a run is the state the state table reaches
    over the observations of the run's rounds. *)
Theorem trace_refines os s s' :
  driver_inv s -> trace os s s' ->
  _state (driver s') = lifecycle_run (_state (driver s)) os.
Proof.
  intros Hinv Htr. induction Htr as [| o os s s1 s' Hr Htr IH]; [done |].
  cbn. rewrite <- (round_obs_state o s s1) by done.
  apply IH. eauto using round_inv, round_obs_round.
Qed.

(** ** The budget of one second *)

(** A round from [WAIT_FOR_RESET] or [CONFIGURE] that stays there: the
    budget is not used up when it ends, and the next round is asked for
    100 ms later. *)
Lemma RunImpl_retry s s' :
  driver_inv s -> retrying (_state (driver s)) ->
  run_now (_schedule (driver s)) = false ->
  RunImpl s = Some (tt, s') ->
  _state (driver s') = _state (driver s) ->
  _reset_timestamp (driver s') = _reset_timestamp (driver s) /\
  hrt_absolute_time (world s') <= _reset_timestamp (driver s) + ms 1000 /\
  next_delay (_schedule (driver s')) = Some (ms 100).
Proof.
  intros Hinv Hst Hnow Hrun. destruct Hinv as [_ _ _ Hr _ _ _].
  wp_from Hrun. wp_simpl. destruct Hst as [Hst | Hst]; rewrite Hst.
  all: wp_cases; intros [= <-]; wp_simpl; rewrite ?Hst; try done; intros _.
  all: unfold next_delay; wp_simpl; cbn [ScheduleDelayed run_now timer]; rewrite Hnow.
  all: split_and!; try done.
  all: match goal with
       | Hb : (elapsed_since _ _ >? _) = false |- _ =>
           cbn in Hb |- *; rewrite elapsed_since_exact in Hb by (pose_clock; lia); lia
       end.
Qed.

Lemma retry_round s s' d :
  driver_inv s -> retrying (_state (driver s)) ->
  next_delay (_schedule (driver s)) = Some d ->
  round s s' -> _state (driver s') = _state (driver s) ->
  driver_inv s' /\
  _reset_timestamp (driver s') = _reset_timestamp (driver s) /\
  hrt_absolute_time (world s) + d <= hrt_absolute_time (world s') /\
  hrt_absolute_time (world s') <= _reset_timestamp (driver s) + ms 1000 /\
  next_delay (_schedule (driver s')) = Some (ms 100).
Proof.
  intros Hinv Hst Hd Hround Hst'. pose proof (round_inv _ _ Hinv Hround) as Hinv'.
  destruct Hround as (s1 & Henv & Hrun).
  destruct (env_step_members _ _ Henv) as (Hst1 & Hts1 & _).
  pose proof (env_step_clock _ _ _ Henv Hd). pose proof (RunImpl_clock _ _ Hrun).
  destruct (RunImpl_retry s1 s') as (Hts & Hbudget & Hnext);
    rewrite ?Hst1, ?Hts1 in *; eauto using env_step_inv, env_step_run_now.
  rewrite Hts. split_and!; [done | done | lia | done | done].
Qed.

Lemma rounds_in_first P n s s' : rounds_in P n s s' -> P s.
Proof. by destruct 1. Qed.

Lemma retry_budget_clock st n :
  retrying st -> forall s s' d,
  driver_inv s -> next_delay (_schedule (driver s)) = Some d ->
  rounds_in (fun s => _state (driver s) = st) (S n) s s' ->
  hrt_absolute_time (world s) + d + ms 100 * Z.of_nat n
  <= _reset_timestamp (driver s) + ms 1000.
Proof.
  intros Hst. induction n as [| n IH]; intros s s' d Hinv Hd Hchain.
  all: inversion Hchain as [| ? ? s1 ? Hs Hround Hrest]; subst.
  all: pose proof (rounds_in_first _ _ _ _ Hrest) as Hs1; cbn in Hs1.
  all: destruct (retry_round s s1 d) as (Hinv1 & Hts & Hlo & Hhi & Hnext);
         try done; try congruence.
  - lia.
  - specialize (IH _ _ _ Hinv1 Hnext Hrest). lia.
Qed.

(** C11: the budget of one second bounds the rounds spent in
    [WAIT_FOR_RESET], and in [CONFIGURE]: if the item is scheduled after [d]
    and the driver then stays in one of these states for [n + 1] rounds in
    a row, then [d] and the [n] retry delays of 100 ms fit in 1000 ms; so
    the driver leaves the state, for the next state or for [RESET], in the
    eleventh round at the latest. *)
Theorem retry_budget st n s s' d :
  driver_inv s -> retrying st ->
  next_delay (_schedule (driver s)) = Some d ->
  rounds_in (fun s => _state (driver s) = st) (S n) s s' ->
  d + ms 100 * Z.of_nat n <= ms 1000.
Proof.
  intros Hinv Hst Hd Hchain.
  pose proof (retry_budget_clock st n Hst s s' d Hinv Hd Hchain).
  destruct Hinv as [_ _ _ Hr _ _ _]. lia.
Qed.

(** ** The budget, on the rounds of any scheduler *)

Section Budget.
Context {R : relation (System W)} (R_round : forall s s', R s s' -> round s s').

(** Rounds in a row that end in state [st] are rounds in [st]. *)
Lemma staying_rounds_in st n : forall s s',
  _state (driver s) = st ->
  nsteps (staying R (fun s => _state (driver s) = st)) n s s' ->
  rounds_in (fun s => _state (driver s) = st) n s s'.
Proof.
  induction n as [| n IH]; intros s s' Hst Hn.
  - inversion Hn; subst. by constructor.
  - inversion Hn as [| ? ? s1 ? [Hr Hst1] Hrest]; subst.
    econstructor; [done | by apply R_round | by apply IH].
Qed.

(** The driver does not stay in [WAIT_FOR_RESET] or [CONFIGURE] for more
    than eleven rounds in a row, whatever the schedule it starts with. *)
Lemma retrying_rounds st n s s' :
  driver_inv s -> retrying st -> _state (driver s) = st ->
  nsteps (staying R (fun s => _state (driver s) = st)) n s s' ->
  (n <= 11)%nat.
Proof.
  intros Hinv Hret Hst Hn. destruct n as [| [| n]]; [lia.. |].
  inversion Hn as [| ? ? s1 ? [Hr Hst1] Hrest]; subst.
  destruct (R_round _ _ Hr) as (s0 & Henv & Hrun).
  destruct Henv as (d & Hd & Henv).
  destruct (retry_round s s1 d Hinv Hret Hd) as (Hinv1 & _ & _ & _ & Hnext);
    [by exists s0; split; [exists d |] | done |].
  pose proof (retry_budget_clock _ n Hret s1 s' (ms 100) Hinv1 Hnext
                (staying_rounds_in _ _ _ _ Hst1 Hrest)) as Hb.
  destruct Hinv1 as [_ _ _ Hr1 _ _ _]. unfold ms in *. lia.
Qed.

End Budget.

(** ** The round-robin order of the periodic check *)

Lemma RunImpl_checked_register s s' :
  driver_inv s -> RunImpl s = Some (tt, s') ->
  _register_cfg (driver s') = _register_cfg (driver s) /\
  _checked_register (driver s') =
  if passed (observe s)
  then (_checked_register (driver s) + 1) mod size_register_cfg (driver s)
  else _checked_register (driver s).
Proof.
  intros Hinv Hrun. pose proof (lookup_checked_register s Hinv) as [c Hc].
  destruct Hinv as [Hsz Hck Hf _ _ _ _].
  pose proof (next_index_mod _ _ Hck (proj2 Hsz)) as Hi.
  unfold observe, observe_WAIT_FOR_RESET, observe_CONFIGURE, observe_READ, check_due.
  wp_from Hrun. wp_simpl. destruct (_state (driver s)) eqn:Hst.
  - wp_simpl. by intros [= <-].
  - wp_cases; by intros [= <-].
  - wp_cases; by intros [= <-].
  - wp_cases_with ltac:(rewrite ?Hc, ?Hf; cbn [passed negb orb]); intros [= <-]; done.
Qed.

Lemma round_obs_checked_register o s s' :
  driver_inv s -> round_obs o s s' ->
  _register_cfg (driver s') = _register_cfg (driver s) /\
  _checked_register (driver s') =
  if passed o
  then (_checked_register (driver s) + 1) mod size_register_cfg (driver s)
  else _checked_register (driver s).
Proof.
  intros Hinv (s1 & Henv & <- & Hrun).
  destruct (env_step_members _ _ Henv) as (_ & _ & Hi & Hcfg).
  destruct (RunImpl_checked_register s1 s') as [-> ->]; eauto using env_step_inv.
  unfold size_register_cfg. by rewrite Hi, Hcfg.
Qed.

Lemma trace_checked_register os s s' :
  driver_inv s -> trace os s s' ->
  _register_cfg (driver s') = _register_cfg (driver s) /\
  _checked_register (driver s') =
  (_checked_register (driver s) + Z.of_nat (passes os)) mod size_register_cfg (driver s).
Proof.
  intros Hinv Htr. induction Htr as [s | o os s s1 s' Hr Htr IH].
  - destruct Hinv as [_ Hck _ _ _ _ _]. cbn. by rewrite Z.add_0_r, Z.mod_small.
  - destruct (round_obs_checked_register _ _ _ Hinv Hr) as [Hcfg Hi].
    destruct IH as [-> ->]; [eauto using round_inv, round_obs_round |].
    unfold size_register_cfg. rewrite Hcfg, Hi. split; [done |].
    cbn [passes]. destruct (passed o); [| done].
    unfold size_register_cfg. rewrite Zplus_mod_idemp_l. f_equal. lia.
Qed.

Lemma passes_split k os :
  (k < passes os)%nat ->
  exists os1 o os2, os = os1 ++ o :: os2 /\ passed o = true /\ passes os1 = k.
Proof.
  revert k. induction os as [| o os IH]; intros k; cbn; [lia |].
  destruct (passed o) eqn:Ho.
  - destruct k as [| k]; [by exists [], o, os |].
    intros Hk. destruct (IH k) as (os1 & o' & os2 & -> & Ho' & <-); [lia |].
    exists (o :: os1), o', os2. cbn. by rewrite Ho.
  - intros Hk. destruct (IH k) as (os1 & o' & os2 & -> & Ho' & <-); [lia |].
    exists (o :: os1), o', os2. cbn. by rewrite Ho.
Qed.

(** The index of the periodic check advances by one, modulo the size
    of the table, with every check that passes, and with nothing else: after
    a run it is the index before the run plus the number of checks that
    passed, modulo the size; the table itself is never changed. *)
Theorem round_robin_index os s s' :
  driver_inv s -> trace os s s' ->
  _register_cfg (driver s') = _register_cfg (driver s) /\
  _checked_register (driver s') =
  (_checked_register (driver s) + Z.of_nat (passes os)) mod size_register_cfg (driver s).
Proof. apply trace_checked_register. Qed.

(** C12: round-robin coverage: in a run in which as many checks pass as the
    table has entries, every entry is checked: for every index [j] of the
    table there is a round of the run that starts with [_checked_register]
    at [j] and in which the check, of entry [j], passes. *)
Theorem round_robin_coverage os s s' j :
  driver_inv s -> trace os s s' ->
  size_register_cfg (driver s) <= Z.of_nat (passes os) ->
  0 <= j < size_register_cfg (driver s) ->
  exists os1 o os2 s1,
    os = os1 ++ o :: os2 /\ passed o = true /\ trace os1 s s1 /\
    _checked_register (driver s1) = j.
Proof.
  intros Hinv Htr Hn Hj.
  pose proof (Z.mod_pos_bound (j - _checked_register (driver s))
                (size_register_cfg (driver s))) as Hk.
  destruct (passes_split (Z.to_nat ((j - _checked_register (driver s))
                                      mod size_register_cfg (driver s))) os)
    as (os1 & o & os2 & -> & Ho & Hp); [lia |].
  apply trace_app in Htr as (s1 & Htr1 & _). exists os1, o, os2, s1. split_and!; [done.. |].
  destruct (trace_checked_register _ _ _ Hinv Htr1) as [_ ->].
  rewrite Hp, Z2Nat.id, Zplus_mod_idemp_r by lia.
  rewrite Z.mod_small; lia.
Qed.

End RunTheorems.

(** ** Runs on the simulated device *)

(** The run of [n] rounds from [s], if the simulation gets that far. *)
Definition sim_run (n : nat) (s : System SimDevice) : list observation * System SimDevice :=
  default ([], s) (sim_trace n s).

Lemma sim_start_env_step s s1 : sim_start s = Some s1 -> env_step s s1.
Proof.
  unfold sim_start. destruct (next_delay _) as [d |] eqn:Hd; [| done].
  destruct (andb _ _) eqn:Hc; [| done]. intros [= <-].
  apply andb_prop in Hc as [?%Z.leb_le ?%Z.ltb_lt].
  exists d. split_and!; [done | done | ..]; cbn; unfold sim_now; cbn; lia.
Qed.

(** The simulated work queue lets time pass and nothing else. *)
Lemma sim_start_world s s1 :
  sim_start s = Some s1 -> exists d, world s1 = sim_wait d (world s).
Proof.
  unfold sim_start. destruct (next_delay _) as [d |]; [| done].
  destruct (andb _ _); [| done]. intros [= <-]. by exists d.
Qed.

(** What a round of the simulated work queue is made of. *)
Lemma sim_round_inv s s' :
  sim_round s = Some s' -> exists s1, sim_start s = Some s1 /\ RunImpl s1 = Some (tt, s').
Proof.
  unfold sim_round. destruct (sim_start s) as [s1 |] eqn:Hstart; [| done].
  cbn [mbind option_bind]. destruct (RunImpl s1) as [[[] s2] |] eqn:Hstep; [| done].
  intros [= <-]. by exists s1.
Qed.

Lemma sim_round_sound s s' : sim_round s = Some s' -> round s s'.
Proof. intros (s1 & Hstart & Hrun)%sim_round_inv. exists s1. eauto using sim_start_env_step. Qed.

(** The rounds of the simulated work queue are steps of [R] when each of
    them is, from the states that satisfy [P]. *)
Lemma sim_rounds_steps n : forall s, sim_rounds n s = steps sim_round n s.
Proof.
  induction n as [| n IH]; intros s; [done |]. cbn [sim_rounds steps].
  destruct (sim_round s); [apply IH | done].
Qed.

Lemma sim_rounds_nsteps (R : relation (System SimDevice)) (P : System SimDevice -> Prop) n :
  (forall s s', P s -> sim_round s = Some s' -> R s s' /\ P s') ->
  forall s s', P s -> sim_rounds n s = Some s' -> nsteps R n s s'.
Proof. intros HR s s'. rewrite sim_rounds_steps. by apply steps_nsteps. Qed.

Lemma sim_trace_sound n s os s' : sim_trace n s = Some (os, s') -> trace os s s'.
Proof.
  revert s os s'. induction n as [| n IH]; intros s os s'; cbn [sim_trace].
  { intros [= <- <-]. constructor. }
  destruct (sim_start s) as [s1 |] eqn:Hstart; [| done]. cbn [mbind option_bind].
  destruct (RunImpl s1) as [[[] s2] |] eqn:Hstep; [| done]. cbn [mbind option_bind snd].
  destruct (sim_trace n s2) as [[os' s3] |] eqn:Hrest; [| done].
  intros [= <- <-]. econstructor; [| by apply IH].
  exists s1. eauto using sim_start_env_step.
Qed.

Lemma sim_run_trace n s :
  is_Some (sim_trace n s) -> trace (sim_run n s).1 s (sim_run n s).2.
Proof.
  unfold sim_run. intros [[os s'] Hrun]. rewrite Hrun. by apply (sim_trace_sound n).
Qed.

Lemma trace_reachable {W : Type} `{PlatformLaws W} os (s0 s s' : System W) :
  reachable s0 s -> trace os s s' -> reachable s0 s'.
Proof.
  intros Hreach Htr. induction Htr; [done |].
  eauto using reachable, round_obs_round.
Qed.

Lemma sim_started_inv : driver_inv sim_started.
Proof. split; cbn; first [lia | done]. Qed.

Lemma sim_stuck_inv : driver_inv sim_stuck.
Proof. split; cbn; first [lia | done]. Qed.

Lemma sim_run_inv n s :
  driver_inv s -> is_Some (sim_trace n s) -> driver_inv (sim_run n s).2.
Proof. intros Hinv Hrun. exact (trace_inv _ _ _ Hinv (sim_run_trace n s Hrun)). Qed.

(** Closes a goal that holds by computation on the simulated device. *)
Ltac sim_compute := vm_compute; first [reflexivity | by eauto | done].

Lemma reachable_invariant_witness :
  reachable sim_started (sim_run 3 sim_started).2 /\
  driver_inv (sim_run 3 sim_started).2.
Proof.
  assert (reachable sim_started (sim_run 3 sim_started).2) as Hreach.
  { eapply trace_reachable; [constructor | apply sim_run_trace; sim_compute]. }
  split; [exact Hreach | exact (reachable_invariant _ _ sim_started_inv Hreach)].
Defined.

Lemma round_reschedules_witness :
  round sim_read_system (sim_run 1 sim_read_system).2 /\
  exists d,
    next_delay (_schedule (driver (sim_run 1 sim_read_system).2)) = Some d /\
    0 <= d <= ms 100.
Proof.
  assert (round sim_read_system (sim_run 1 sim_read_system).2) as Hround.
  { apply sim_round_sound. sim_compute. }
  split; [exact Hround | exact (round_reschedules _ _ sim_read_system_inv Hround)].
Defined.

Lemma trace_refines_witness :
  _state (driver (sim_run 3 sim_started).2) = STATE.READ /\
  _state (driver (sim_run 3 sim_started).2) =
  lifecycle_run (_state (driver sim_started)) (sim_run 3 sim_started).1.
Proof.
  split; [sim_compute |].
  apply (trace_refines _ _ _ sim_started_inv). apply sim_run_trace. sim_compute.
Defined.

Lemma retry_budget_witness :
  rounds_in (fun s => _state (driver s) = STATE.WAIT_FOR_RESET) 2
    (sim_run 1 sim_stuck).2 (sim_run 3 sim_stuck).2 /\
  ms 100 + ms 100 * Z.of_nat 1 <= ms 1000.
Proof.
  assert (rounds_in (fun s => _state (driver s) = STATE.WAIT_FOR_RESET) 2
            (sim_run 1 sim_stuck).2 (sim_run 3 sim_stuck).2) as Hchain.
  { apply rounds_in_S with (sim_run 2 sim_stuck).2;
      [sim_compute | apply sim_round_sound; sim_compute |].
    apply rounds_in_S with (sim_run 3 sim_stuck).2;
      [sim_compute | apply sim_round_sound; sim_compute |].
    constructor. sim_compute. }
  split; [exact Hchain |].
  apply (retry_budget STATE.WAIT_FOR_RESET 1 _ _ (ms 100)
           (sim_run_inv 1 _ sim_stuck_inv ltac:(sim_compute))
           (or_introl eq_refl) ltac:(sim_compute) Hchain).
Defined.

Lemma round_robin_index_witness :
  passes (sim_run 13 sim_read_system).1 = 3%nat /\
  _register_cfg (driver (sim_run 13 sim_read_system).2) =
  _register_cfg (driver sim_read_system) /\
  _checked_register (driver (sim_run 13 sim_read_system).2) =
  (_checked_register (driver sim_read_system)
   + Z.of_nat (passes (sim_run 13 sim_read_system).1))
  mod size_register_cfg (driver sim_read_system).
Proof.
  split; [sim_compute |].
  apply (round_robin_index _ _ _ sim_read_system_inv). apply sim_run_trace. sim_compute.
Defined.

Lemma round_robin_coverage_witness :
  exists os1 o os2 s1,
    (sim_run 13 sim_read_system).1 = os1 ++ o :: os2 /\ passed o = true /\
    trace os1 sim_read_system s1 /\ _checked_register (driver s1) = 2.
Proof.
  apply (round_robin_coverage _ _ (sim_run 13 sim_read_system).2 2 sim_read_system_inv).
  - apply sim_run_trace. sim_compute.
  - apply Z.leb_le. sim_compute.
  - split; [apply Z.leb_le | apply Z.ltb_lt]; sim_compute.
Defined.
