(* ===== verification/Graded.v ===== *)
(** * Graded: what a step costs

    Several questions about a step of the driver have the same shape: how
    many requests it issues, how many of the pending faults it takes, how
    long it lasts.  Each is a relation between the world before and the
    world after that is indexed by a lower and an upper count, holds of a
    transfer with the counts [1] and [1], and adds up along a computation.
    This file has the calculus once, for any such relation ([Graded]), and
    the count of a step of [RunImpl] by state ([budget]): one transfer in
    [RESET] and in [WAIT_FOR_RESET], one or two in [READ], between two and
    three for every entry of the table in [CONFIGURE]. *)

From Stdlib Require Import ZArith Lia Bool.
From stdpp Require Import base tactics option list.
From S2P Require Import Prelude Registers Platform RegisterAccess Decoder Driver.
From S2P Require Import SimDevice Configuration Lifecycle.

#[local] Open Scope Z_scope.

(** ** Relations graded by two counts *)

(** [R lo hi w w']: from [w] to [w'] at least [lo] and at most [hi] units
    were spent. *)
Class Graded {W : Type} (R : nat -> nat -> relation W) : Prop := {
  graded_refl w : R 0%nat 0%nat w w;
  graded_trans l1 h1 l2 h2 w1 w2 w3 :
    R l1 h1 w1 w2 -> R l2 h2 w2 w3 -> R (l1 + l2)%nat (h1 + h2)%nat w1 w3;
  graded_weaken l h l' h' w w' :
    R l h w w' -> (l' <= l)%nat -> (h <= h')%nat -> R l' h' w w';
}.

(** A computation that spends between [lo] and [hi]. *)
Definition costs {W A} (R : nat -> nat -> relation W) (lo hi : nat) (m : State W A) : Prop :=
  forall w, R lo hi w (snd (m w)).

(** The transfers a step may issue, by state, for a table of [n] entries. *)
Definition budget (st : STATE) (n : nat) : nat * nat :=
  match st with
  | STATE.RESET | STATE.WAIT_FOR_RESET => (1, 1)
  | STATE.CONFIGURE => (2 * n, 3 * n)
  | STATE.READ => (1, 2)
  end%nat.

Section Costs.
Context {W : Type} (R : nat -> nat -> relation W) `{!Graded R}.

Lemma costs_ret {A} (a : A) : costs R 0 0 (ret a).
Proof. intros w. apply graded_refl. Qed.

Lemma costs_bind {A B} l1 h1 l2 h2 (m : State W A) (k : A -> State W B) :
  costs R l1 h1 m -> (forall a, costs R l2 h2 (k a)) ->
  costs R (l1 + l2) (h1 + h2) (bind m k).
Proof. intros Hm Hk w. exact (graded_trans _ _ _ _ _ _ _ (Hm w) (Hk _ _)). Qed.

Lemma costs_weaken {A} l h l' h' (m : State W A) :
  costs R l h m -> (l' <= l)%nat -> (h <= h')%nat -> costs R l' h' m.
Proof. intros Hm Hl Hh w. exact (graded_weaken _ _ _ _ _ _ (Hm w) Hl Hh). Qed.

Lemma costs_if {A} l1 h1 l2 h2 (b : bool) (m1 m2 : State W A) :
  costs R l1 h1 m1 -> costs R l2 h2 m2 ->
  costs R (l1 `min` l2) (h1 `max` h2) (if b then m1 else m2).
Proof.
  destruct b; intros H1 H2; [apply (costs_weaken l1 h1) | apply (costs_weaken l2 h2)];
    auto; lia.
Qed.

Lemma costs_step {A} l1 h1 l2 h2 (m : State W A) w w1 :
  costs R l2 h2 m -> R l1 h1 w w1 -> R (l1 + l2) (h1 + h2) w (snd (m w1)).
Proof. intros Hm Hw. exact (graded_trans _ _ _ _ _ _ _ Hw (Hm w1)). Qed.

(** ** The operations of the driver *)

Section Driver.
Context `{Platform W}.

(** Every transfer the driver issues costs one: the read of a register,
    the block reads of the sample and of the temperature, the write of a
    byte. *)
Hypothesis Hread : forall r, costs R 1 1 (transfer [Register.addr r] 1).
Hypothesis Hsample : costs R 1 1 sample_bus.
Hypothesis Htemperature : costs R 1 1 temperature_bus.
Hypothesis Hwrite : forall r v, is_uint8 v -> costs R 1 1 (transfer [Register.addr r; v] 0).

Lemma costs_RegisterRead r : costs R 1 1 (RegisterRead r).
Proof.
  unfold RegisterRead.
  apply (costs_bind 1 1 0 0); [apply Hread | intros; apply costs_ret].
Qed.

Lemma costs_RegisterWrite r v : is_uint8 v -> costs R 1 1 (RegisterWrite r v).
Proof.
  intros Hv. unfold RegisterWrite.
  apply (costs_bind 1 1 0 0); [by apply Hwrite | intros; apply costs_ret].
Qed.

Lemma costs_RegisterSetAndClearBits r s c : costs R 1 2 (RegisterSetAndClearBits r s c).
Proof.
  unfold RegisterSetAndClearBits.
  apply (costs_bind 1 1 0 1); [apply costs_RegisterRead | intros a].
  apply (costs_if 1 1 0 0); [apply costs_RegisterWrite, uint8_range | apply costs_ret].
Qed.

Lemma costs_RegisterCheck c : costs R 1 1 (RegisterCheck c).
Proof.
  unfold RegisterCheck.
  apply (costs_bind 1 1 0 0); [apply costs_RegisterRead | intros; apply costs_ret].
Qed.

(** The two loops of [Configure] visit every entry once. *)
Lemma costs_apply_register_cfg cfg :
  costs R (length cfg) (2 * length cfg) (apply_register_cfg cfg).
Proof.
  induction cfg as [| c cfg IH]; [apply costs_ret |].
  eapply costs_weaken;
    [apply (costs_bind _ _ _ _ _ _ (costs_RegisterSetAndClearBits _ _ _) (fun _ => IH))
    | cbn; lia..].
Qed.

Lemma costs_check_register_cfg cfg b :
  costs R (length cfg) (length cfg) (check_register_cfg cfg b).
Proof.
  revert b. induction cfg as [| c cfg IH]; intros b; [apply costs_ret |].
  apply (costs_bind 1 1 _ _ _ _ (costs_RegisterCheck _)). intros ok. apply IH.
Qed.

Lemma costs_configure_bus cfg :
  costs R (2 * length cfg) (3 * length cfg) (configure_bus cfg).
Proof.
  eapply costs_weaken;
    [apply (costs_bind _ _ _ _ _ _ (costs_apply_register_cfg cfg)
              (fun _ => costs_check_register_cfg cfg true)) | lia..].
Qed.

End Driver.
End Costs.

(** Follows the bus operations that lead from one world to another, and
    adds up what they cost.  The address of [CNTL2] shows as a number when
    the step has been computed. *)
Ltac costs_transfer :=
  solve [ eauto using costs_RegisterRead, costs_RegisterWrite, costs_RegisterCheck,
            costs_configure_bus, SOFT_RST_uint8 ].

Ltac costs_solve :=
  eapply graded_weaken;
  [ repeat first
      [ apply graded_refl
      | match goal with
        | |- ?R _ _ _ (snd _) =>
            first
              [ eapply (costs_step R); [costs_transfer |]
              | eapply (costs_step R _ _ _ _ (transfer [Register.addr Register.CNTL2] 1));
                [costs_transfer |]
              | eapply (costs_step R _ _ _ _ (transfer [Register.addr Register.CNTL2; _] 0));
                [costs_transfer |] ]
        end ]
  | cbn; lia.. ].

Section Steps.
Context {W : Type} `{PlatformLaws W} (R : nat -> nat -> relation W) `{!Graded R}.
Implicit Types s : System W.

Hypothesis Hread : forall r, costs R 1 1 (transfer [Register.addr r] 1).
Hypothesis Hsample : costs R 1 1 sample_bus.
Hypothesis Htemperature : costs R 1 1 temperature_bus.
Hypothesis Hwrite : forall r v, is_uint8 v -> costs R 1 1 (transfer [Register.addr r; v] 0).

(** A step costs what the budget of its state says. *)
Lemma RunImpl_costs s s' :
  RunImpl s = Some (tt, s') ->
  R (budget (_state (driver s)) (length (_register_cfg (driver s)))).1
    (budget (_state (driver s)) (length (_register_cfg (driver s)))).2
    (world s) (world s').
Proof.
  intros Hrun. run_cases Hrun; cbn [budget fst snd].
  all: costs_solve.
Qed.

End Steps.
