(* ===== verification/Logged.v ===== *)
(** * The transfers a step issues

    [Logged W] is the platform [W] with a record of the transfers it was
    asked for.  The driver runs on it as on any platform; what it does there
    is what it does on [W] ([erased_RunImpl]), and the record shows which
    transfers a step issues: how many, and of which shape. *)

From Stdlib Require Import ZArith Lia Bool.
From stdpp Require Import base tactics option list list_numbers.
From S2P Require Import Prelude Registers Platform RegisterAccess Decoder Driver.
From S2P Require Import SimDevice Configuration Lifecycle Progress Graded.

#[local] Open Scope Z_scope.

(** ** The recording platform *)

(** A request: the bytes sent and the number of bytes asked for. *)
Definition request_t : Type := list Z * nat.

Record Logged (W : Type) : Type := {
  base : W;
  issued : list request_t;   (* the last request first *)
}.
Arguments base {W} _.
Arguments issued {W} _.
Arguments Build_Logged {W} _ _.

Section Logged.
Context {W : Type} `{Platform W}.

Definition logged_transfer (send : list Z) (n : nat) : State (Logged W) (Z * list Z) :=
  fun lw =>
    let r := transfer send n (base lw) in
    (fst r, {| base := snd r; issued := (send, n) :: issued lw |}).

Definition logged_I2C_init : State (Logged W) Z :=
  fun lw =>
    let r := I2C_init (base lw) in
    (fst r, {| base := snd r; issued := issued lw |}).

#[export] Instance Logged_Platform : Platform (Logged W) := {|
  transfer := logged_transfer;
  hrt_absolute_time lw := hrt_absolute_time (base lw);
  I2C_init := logged_I2C_init;
|}.

(** Recording from now on; forgetting the record. *)
Definition record (s : System W) : System (Logged W) :=
  {| driver := driver s; world := {| base := world s; issued := [] |} |}.

Definition erase (s : System (Logged W)) : System W :=
  {| driver := driver s; world := base (world s) |}.

End Logged.

#[export] Instance Logged_PlatformLaws {W : Type} `{PlatformLaws W} : PlatformLaws (Logged W).
Proof.
  split; intros; cbn.
  - apply clock_uint64.
  - apply transfer_clock.
  - apply I2C_init_clock.
Qed.

(** ** The shape of a request *)

(** An address of the register map. *)
Definition mapped (a : Z) : bool :=
  bool_decide (a ∈ Register.addr <$> Register.all).

(** A read sends the address of a register and asks for the registers from
    there on, all of them in the map; a write sends the address of a
    register and one byte, and asks for nothing. *)
Definition request_wf (t : request_t) : bool :=
  match t with
  | ([a], S n) => forallb mapped (seqZ a (Z.of_nat (S n)))
  | ([a; v], O) => mapped a && bool_decide (is_uint8 v)
  | _ => false
  end.

(** The record [lw'] is the record [lw] with between [lo] and [hi] more
    requests, all well formed. *)
Definition extends {W} (lo hi : nat) (lw lw' : Logged W) : Prop :=
  exists new,
    issued lw' = new ++ issued lw /\
    (lo <= length new <= hi)%nat /\
    Forall request_wf new.

(** ** Records grow *)

Section Extends.
Context {W : Type}.
Implicit Types lw : Logged W.

(** The record counts the requests: it is graded by their number. *)
#[export] Instance extends_graded : Graded (extends (W := W)).
Proof.
  split.
  - intros lw. by exists [].
  - intros l1 h1 l2 h2 lw1 lw2 lw3 (n1 & E1 & L1 & F1) (n2 & E2 & L2 & F2). exists (n2 ++ n1).
    rewrite E2, E1, app_assoc, length_app, Forall_app. split_and!; [done | lia.. | done | done].
  - intros l h l' h' lw lw' (n & E & L & F) ? ?. exists n. split_and!; [done | lia.. | done].
Qed.

End Extends.

Section Issues.
Context {W : Type} `{Platform W}.

(** A request that is well formed is one more on the record. *)
Lemma issues_transfer send n :
  request_wf (send, n) -> costs extends 1 1 (transfer send n : State (Logged W) _).
Proof.
  intros Hwf lw. exists [(send, n)]. split_and!; cbn; [done | lia.. |].
  by constructor.
Qed.

Lemma read_wf r : request_wf ([Register.addr r], 1%nat).
Proof. by destruct r; vm_compute. Qed.

Lemma write_wf r v : is_uint8 v -> request_wf ([Register.addr r; v], 0%nat).
Proof.
  intros Hv. cbn. apply andb_prop_intro. split; [by destruct r; vm_compute |].
  by apply bool_decide_pack.
Qed.

End Issues.

Section StepRequests.
Context {W : Type} `{PlatformLaws W}.
Implicit Types s : System (Logged W).

(** The record of a step: as many requests as the budget of the state
    says, all well formed. *)
Lemma RunImpl_extends s s' :
  RunImpl s = Some (tt, s') ->
  extends (budget (_state (driver s)) (length (_register_cfg (driver s)))).1
          (budget (_state (driver s)) (length (_register_cfg (driver s)))).2
          (world s) (world s').
Proof.
  apply (RunImpl_costs extends); intros; apply issues_transfer; auto using read_wf, write_wf.
Qed.
End StepRequests.

(** ** Recording changes nothing *)

(** The bus-level computation [m] on the recording platform does what [m']
    does on the platform itself. *)
Definition erases {W A} (m : State (Logged W) A) (m' : State W A) : Prop :=
  forall lw, fst (m lw) = fst (m' (base lw)) /\ base (snd (m lw)) = snd (m' (base lw)).

(** The same for driver-level computations. *)
Definition erased {W A} (m : Drv (System (Logged W)) A) (m' : Drv (System W) A) : Prop :=
  forall s, m' (erase s) = prod_map id erase <$> m s.

Section Erasure.
Context {W : Type} `{Platform W}.

Lemma erases_ret {A} (a : A) : erases (ret a) (ret a : State W A).
Proof. done. Qed.

Lemma erases_bind {A B} (m : State (Logged W) A) m' (k : A -> State (Logged W) B) k' :
  erases m m' -> (forall a, erases (k a) (k' a)) -> erases (bind m k) (bind m' k').
Proof.
  intros Hm Hk lw. unfold bind. destruct (Hm lw) as [-> <-]. apply Hk.
Qed.

Lemma erases_transfer send n : erases (transfer send n) (transfer send n : State W _).
Proof. done. Qed.

Lemma erases_I2C_init : erases I2C_init (I2C_init : State W _).
Proof. done. Qed.

Lemma erases_now : erases now (now : State W _).
Proof. done. Qed.

Lemma erases_hrt_elapsed_time t : erases (hrt_elapsed_time t) (hrt_elapsed_time t : State W _).
Proof. done. Qed.

Lemma erases_if {A} (b : bool) (m1 m2 : State (Logged W) A) m1' m2' :
  erases m1 m1' -> erases m2 m2' -> erases (if b then m1 else m2) (if b then m1' else m2').
Proof. by destruct b. Qed.

Lemma erased_dret {A} (a : A) : erased (dret a) (dret a : Drv (System W) A).
Proof. done. Qed.

Lemma erased_dbind {A B} (m : Drv (System (Logged W)) A) m'
    (k : A -> Drv (System (Logged W)) B) k' :
  erased m m' -> (forall a, erased (k a) (k' a)) -> erased (dbind m k) (dbind m' k').
Proof.
  intros Hm Hk s. unfold dbind. rewrite Hm. destruct (m s) as [[a s1] |]; [apply Hk | done].
Qed.

Lemma erased_get {A} (f : Driver -> A) : erased (get f) (get f : Drv (System W) A).
Proof. done. Qed.

Lemma erased_assign f : erased (assign f) (assign f : Drv (System W) unit).
Proof. done. Qed.

Lemma erased_bus {A} (m : State (Logged W) A) m' : erases m m' -> erased (bus m) (bus m').
Proof.
  intros Hm s. unfold bus, zoom, erase. cbn. destruct (Hm (world s)) as [-> <-]. done.
Qed.

Lemma erased_undefined {A} : erased undefined (undefined : Drv (System W) A).
Proof. done. Qed.

Lemma erased_when (b : bool) (m : Drv (System (Logged W)) unit) m' :
  erased m m' -> erased (when b m) (when b m').
Proof. by destruct b. Qed.

Lemma erased_if {A} (b : bool) (m1 m2 : Drv (System (Logged W)) A) m1' m2' :
  erased m1 m1' -> erased m2 m2' -> erased (if b then m1 else m2) (if b then m1' else m2').
Proof. by destruct b. Qed.

End Erasure.

Create HintDb erase discriminated.
#[export] Hint Resolve erases_ret erases_bind erases_transfer erases_I2C_init erases_now
  erases_hrt_elapsed_time erases_if erased_dret erased_dbind erased_get erased_assign
  erased_bus erased_undefined erased_when erased_if : erase.
#[export] Hint Extern 2 (erased (match ?x with _ => _ end) _) => destruct x : erase.
#[export] Hint Extern 2 (erases (match ?x with _ => _ end) _) => destruct x : erase.

Section ErasedDriver.
Context {W : Type} `{Platform W}.

Lemma erases_RegisterRead r : erases (RegisterRead r) (RegisterRead r : State W _).
Proof. unfold RegisterRead. auto with erase. Qed.

Lemma erases_RegisterWrite r v : erases (RegisterWrite r v) (RegisterWrite r v : State W _).
Proof. unfold RegisterWrite. auto with erase. Qed.

Lemma erases_RegisterSetAndClearBits r s c :
  erases (RegisterSetAndClearBits r s c) (RegisterSetAndClearBits r s c : State W _).
Proof. unfold RegisterSetAndClearBits. auto using erases_RegisterRead, erases_RegisterWrite with erase. Qed.

Lemma erases_RegisterCheck c : erases (RegisterCheck c) (RegisterCheck c : State W _).
Proof. unfold RegisterCheck. auto using erases_RegisterRead with erase. Qed.

Lemma erases_apply_register_cfg cfg :
  erases (apply_register_cfg cfg) (apply_register_cfg cfg : State W _).
Proof. induction cfg; cbn; auto using erases_RegisterSetAndClearBits with erase. Qed.

Lemma erases_check_register_cfg cfg b :
  erases (check_register_cfg cfg b) (check_register_cfg cfg b : State W _).
Proof. revert b. induction cfg; intros b; cbn; auto using erases_RegisterCheck with erase. Qed.

End ErasedDriver.

#[export] Hint Resolve erases_RegisterRead erases_RegisterWrite erases_RegisterSetAndClearBits
  erases_RegisterCheck erases_apply_register_cfg erases_check_register_cfg : erase.

Section ErasedSteps.
Context {W : Type} `{Platform W}.

Lemma erased_Reset : erased Reset (Reset : Drv (System W) _).
Proof. unfold Reset. auto 10 with erase. Qed.

Lemma erased_init : erased init (init : Drv (System W) _).
Proof. unfold init. auto 10 using erased_Reset with erase. Qed.

Lemma erased_probe : erased probe (probe : Drv (System W) _).
Proof. unfold probe. auto 10 with erase. Qed.

Lemma erased_Configure : erased Configure (Configure : Drv (System W) _).
Proof. unfold Configure. auto 10 with erase. Qed.

Lemma erased_reset_timed_out : erased reset_timed_out (reset_timed_out : Drv (System W) _).
Proof. unfold reset_timed_out. auto 10 with erase. Qed.

Lemma erased_RunImpl : erased RunImpl (RunImpl : Drv (System W) _).
Proof.
  unfold RunImpl, run_RESET, run_WAIT_FOR_RESET, run_CONFIGURE, run_READ, read_sample,
    config_check_due, check_next_register, temperature_due, update_temperature,
    check_consecutive_failures.
  cbv zeta.
  auto 40 using erased_Reset, erased_Configure, erased_reset_timed_out with erase.
Qed.

End ErasedSteps.

(** ** What a step asks of the bus *)

Section Requests.
Context {W : Type} `{PlatformLaws W}.
Implicit Types s : System W.

Lemma erase_record s : erase (record s) = s.
Proof. by destruct s. Qed.

(** A step on [W] is a step on the recording platform, whose record is
    within the budget of the state. *)
Lemma RunImpl_recorded s s' :
  RunImpl s = Some (tt, s') ->
  exists lw,
    RunImpl (record s) = Some (tt, {| driver := driver s'; world := lw |}) /\
    base lw = world s' /\
    extends (budget (_state (driver s)) (length (_register_cfg (driver s)))).1
            (budget (_state (driver s)) (length (_register_cfg (driver s)))).2
            (world (record s)) lw.
Proof.
  intros Hrun. pose proof (erased_RunImpl (record s)) as He.
  rewrite erase_record, Hrun in He.
  destruct (RunImpl (record s)) as [[[] [d lw]] |] eqn:Hrec; [| done].
  injection He as ->. exists lw. split_and!; [done.. |].
  exact (RunImpl_extends _ _ Hrec).
Qed.

(** C13: every request a step issues is well formed: it is the read of a
    block of registers that lies inside the register map, given by the
    address of its first register, or the write of one byte to a register
    of the map. *)
Theorem RunImpl_requests_well_formed s s' :
  RunImpl s = Some (tt, s') ->
  exists lw,
    RunImpl (record s) = Some (tt, {| driver := driver s'; world := lw |}) /\
    base lw = world s' /\
    Forall request_wf (issued lw).
Proof.
  intros Hrun. destruct (RunImpl_recorded _ _ Hrun) as (lw & Hrec & Hb & new & E & _ & F).
  exists lw. split_and!; [done.. |]. by rewrite E, app_nil_r.
Qed.

(** C16: a step ends, and the number of requests it issues is bounded by
    its state: one in [RESET] and in [WAIT_FOR_RESET], one or two in [READ],
    and in [CONFIGURE] between two and three for every entry of the table:
    the two loops of [Configure] visit every entry once. *)
Theorem RunImpl_terminates s :
  driver_inv s ->
  exists s' lw,
    RunImpl s = Some (tt, s') /\
    RunImpl (record s) = Some (tt, {| driver := driver s'; world := lw |}) /\
    ((budget (_state (driver s)) (length (_register_cfg (driver s)))).1
     <= length (issued lw)
     <= (budget (_state (driver s)) (length (_register_cfg (driver s)))).2)%nat.
Proof.
  intros Hinv. destruct (RunImpl_defined _ Hinv) as [s' Hrun].
  destruct (RunImpl_recorded _ _ Hrun) as (lw & Hrec & Hb & new & E & L & _).
  exists s', lw. split_and!; [done.. | |]; rewrite E, app_nil_r; lia.
Qed.

(** Recording changes nothing: a step of the driver on the recording
    platform is, once the record is forgotten, the step of the driver on
    the platform itself. *)
Theorem RunImpl_erase (s : System (Logged W)) :
  RunImpl (erase s) = prod_map id erase <$> RunImpl s.
Proof. apply erased_RunImpl. Qed.

End Requests.

(** ** A configured device is only read *)

(** The recording platform remembers what its base remembers. *)
#[export] Instance Logged_RegisterFile {W : Type} `{RegisterFile W}
    : RegisterFile (Logged W) := {|
  healthy lw := healthy (base lw);
  peek lw := peek (base lw);
  peek_uint8 lw := peek_uint8 (base lw);
  read_transfer lw := read_transfer (base lw);
  write_transfer lw := write_transfer (base lw);
|}.

(** The reads of the registers of a table, one for every entry. *)
Definition reads_of (cfg : list register_config_t) : list request_t :=
  (fun c => ([Register.addr (reg c)], 1%nat)) <$> cfg.

Section ReadOnly.
Context {W : Type} `{RegisterFile W}.
Implicit Types (lw : Logged W) (cfg : list register_config_t).

Lemma issued_RegisterRead r lw :
  issued (snd (RegisterRead r lw)) = ([Register.addr r], 1%nat) :: issued lw.
Proof. done. Qed.

Lemma issued_check_register_cfg cfg : forall b lw,
  issued (snd (check_register_cfg cfg b lw)) = rev (reads_of cfg) ++ issued lw.
Proof.
  induction cfg as [| c cfg IH]; intros b lw; [done |].
  cbn [check_register_cfg]. unfold bind. cbv beta zeta. rewrite IH.
  cbn. by rewrite <- app_assoc.
Qed.

(** An entry that holds already is read, and not written. *)
Lemma issued_RegisterSetAndClearBits c lw :
  ready lw -> cfg_wf c -> cfg_holds c (peek lw (reg c)) ->
  issued (snd (RegisterSetAndClearBits (reg c) (set_bits c) (clear_bits c) lw))
  = ([Register.addr (reg c)], 1%nat) :: issued lw.
Proof.
  intros [Hw _] Hwf Hc. rewrite RegisterSetAndClearBits_run.
  destruct (RegisterRead_peek (reg c) lw Hw) as (Hv & _ & _).
  pose proof (issued_RegisterRead (reg c) lw) as Hlog.
  destruct (RegisterRead (reg c) lw) as [o lw1]. cbn [fst snd] in *. subst o.
  rewrite decide_True; [done |].
  apply set_and_clear_fixed_iff; [apply (peek_uint8 lw) | done..].
Qed.

Lemma issued_apply_register_cfg cfg : forall lw,
  ready lw -> configured cfg lw -> Forall cfg_wf cfg -> cfg_no_reset cfg ->
  issued (snd (apply_register_cfg cfg lw)) = rev (reads_of cfg) ++ issued lw.
Proof.
  induction cfg as [| c cfg IH]; intros lw Hw Hcfg Hwf Hnr; [done |].
  destruct (apply_register_cfg_fixed [c] lw Hw) as [Hw1 Hp1];
    [by apply Forall_cons in Hcfg as [? _]; apply Forall_singleton
    | by apply Forall_cons in Hwf as [? _]; apply Forall_singleton
    | by apply Forall_cons in Hnr as [? _]; apply Forall_singleton |].
  apply Forall_cons in Hcfg as [Hc Hcfg]. apply Forall_cons in Hwf as [Hwfc Hwf].
  apply Forall_cons in Hnr as [Hnrc Hnr].
  cbn [apply_register_cfg] in *. unfold bind, ret in *. cbn [fst snd] in *.
  rewrite IH; [| done | by rewrite Hp1 | done..].
  rewrite issued_RegisterSetAndClearBits by done. cbn. by rewrite <- app_assoc.
Qed.

(** C37: [Configure] on a device that is ready and configured already
    only reads: it issues the reads of the table's registers twice, once in
    each loop, and no write. *)
Theorem configure_bus_read_only cfg lw :
  ready lw -> configured cfg lw -> Forall cfg_wf cfg -> cfg_no_reset cfg ->
  issued (snd (configure_bus cfg lw)) = rev (reads_of cfg ++ reads_of cfg) ++ issued lw.
Proof.
  intros Hw Hcfg Hwf Hnr. unfold configure_bus, bind. cbv beta zeta.
  rewrite issued_check_register_cfg, issued_apply_register_cfg by done.
  by rewrite rev_app_distr, <- app_assoc.
Qed.

End ReadOnly.

(** ** Witnesses on the simulated device *)

(** A step in [READ] with the periodic check due: the block read and the
    read of [CNTL1]. *)
Lemma RunImpl_requests_well_formed_witness :
  exists s' lw,
    RunImpl sim_read_system = Some (tt, s') /\
    RunImpl (record sim_read_system) = Some (tt, {| driver := driver s'; world := lw |}) /\
    base lw = world s' /\
    Forall request_wf (issued lw).
Proof.
  destruct (RunImpl_defined _ sim_read_system_inv) as [s' Hrun].
  destruct (RunImpl_requests_well_formed _ _ Hrun) as (lw & Hrec & Hb & Hwf).
  by exists s', lw.
Defined.

(** The step in [CONFIGURE] after a reset, with the table of three entries:
    every register is read, written, and read again. *)
Lemma RunImpl_terminates_witness :
  exists s' lw,
    RunImpl (sim_run 2 sim_started).2 = Some (tt, s') /\
    RunImpl (record (sim_run 2 sim_started).2)
    = Some (tt, {| driver := driver s'; world := lw |}) /\
    (6 <= length (issued lw) <= 9)%nat.
Proof.
  apply (RunImpl_terminates (sim_run 2 sim_started).2).
  apply sim_run_inv; [apply sim_started_inv | sim_compute].
Defined.

(** The device after the three rounds that configure it. *)
Lemma configure_bus_read_only_witness :
  issued (snd (configure_bus continuous_cfg (world (record (sim_run 3 sim_started).2))))
  = rev (reads_of continuous_cfg ++ reads_of continuous_cfg)
    ++ issued (world (record (sim_run 3 sim_started).2)).
Proof.
  apply configure_bus_read_only; [split; sim_compute | | apply continuous_cfg_wf..].
  apply (bool_decide_unpack _). vm_compute. exact I.
Defined.
