(* ===== verification/Steps.v ===== *)
(** * What a step does in each state

    The behaviour of [RunImpl] on the branches the specification singles
    out, for every platform that satisfies [PlatformLaws]: the timeouts of
    [WAIT_FOR_RESET] and [CONFIGURE] with their boundary, the read of the
    reset status that fails, the periodic check that fails, the sample read
    that fails, the temperature update, and [init]. *)

From Stdlib Require Import ZArith Lia Bool QArith_base.
From stdpp Require Import base tactics option list.
From S2P Require Import Prelude Registers Platform RegisterAccess Decoder Driver.
From S2P Require Import SimDevice Lifecycle Progress.

#[local] Open Scope Z_scope.

Section Steps.
Context {W : Type} `{PlatformLaws W}.
Implicit Types s : System W.

(** The state and the schedule after a step, from what the step observes. *)
Lemma RunImpl_state s o :
  driver_inv s -> observe s = o ->
  exists s', RunImpl s = Some (tt, s') /\
    _state (driver s') = fst (lifecycle_next (_state (driver s)) o) /\
    _schedule (driver s') =
    apply_request (snd (lifecycle_next (_state (driver s)) o)) (_schedule (driver s)).
Proof.
  intros Hinv <-. destruct (RunImpl_defined s Hinv) as [s' Hrun].
  exists s'. split; [done | by apply RunImpl_refines].
Qed.

(** ** [WAIT_FOR_RESET] *)

Lemma observe_WAIT_FOR_RESET_stuck s :
  driver_inv s ->
  Z.land (fst (RegisterRead Register.CNTL2 (world s))) CNTL2_BIT.SOFT_RST <> 0 ->
  observe_WAIT_FOR_RESET s =
  ResetStatus false
    (hrt_absolute_time (snd (RegisterRead Register.CNTL2 (world s)))
     - _reset_timestamp (driver s)).
Proof.
  intros [_ _ _ Hr _ _ _] Hbit. unfold observe_WAIT_FOR_RESET.
  rewrite elapsed_since_exact by (pose_clock; lia).
  by destruct (Z.eqb_spec (Z.land (RegisterRead Register.CNTL2 (world s)).1
                             CNTL2_BIT.SOFT_RST) 0).
Qed.

(** C22: in [WAIT_FOR_RESET], while the reset bit reads as set, the driver
    asks to run again after 100 ms, and goes back to [RESET] exactly when
    more than 1000 ms have passed between the reset and the end of the read:
    at 1000 ms exactly it waits once more. *)
Theorem wait_for_reset_timeout s :
  driver_inv s -> _state (driver s) = STATE.WAIT_FOR_RESET ->
  Z.land (fst (RegisterRead Register.CNTL2 (world s))) CNTL2_BIT.SOFT_RST <> 0 ->
  exists s', RunImpl s = Some (tt, s') /\
    _schedule (driver s') = ScheduleDelayed (ms 100) (_schedule (driver s)) /\
    _state (driver s') =
    if hrt_absolute_time (snd (RegisterRead Register.CNTL2 (world s)))
       - _reset_timestamp (driver s) >? ms 1000
    then STATE.RESET else STATE.WAIT_FOR_RESET.
Proof.
  intros Hinv Hst Hbit.
  destruct (RunImpl_state s _ Hinv eq_refl) as (s' & Hrun & Hst' & Hsch).
  exists s'. revert Hst' Hsch. unfold observe.
  rewrite Hst, observe_WAIT_FOR_RESET_stuck by done.
  cbn. by destruct (_ >? _).
Qed.

(** C33: in [WAIT_FOR_RESET], a read of [CNTL2] whose transfer delivers no
    byte, as a failed transfer does, is taken for a completed reset: the
    driver goes on to [CONFIGURE] after 1 ms, whatever the status of the
    transfer and however long ago the reset was. *)
Theorem wait_for_reset_failed_read s st w' :
  _state (driver s) = STATE.WAIT_FOR_RESET ->
  transfer [Register.addr Register.CNTL2] 1 (world s) = ((st, []), w') ->
  exists s', RunImpl s = Some (tt, s') /\
    _state (driver s') = STATE.CONFIGURE /\ world s' = w' /\
    _schedule (driver s') = ScheduleDelayed (ms 1) (_schedule (driver s)).
Proof.
  intros Hst Ht. apply (RegisterRead_no_data Register.CNTL2) in Ht.
  apply wp_elim_unit. wp_simpl. rewrite Hst. wp_simpl. rewrite Ht. by wp_simpl.
Qed.

(** ** [CONFIGURE] *)

Lemma observe_CONFIGURE_failed s :
  driver_inv s ->
  fst (configure_bus (_register_cfg (driver s)) (world s)) = false ->
  observe_CONFIGURE s =
  Configured false
    (hrt_absolute_time (snd (configure_bus (_register_cfg (driver s)) (world s)))
     - _reset_timestamp (driver s)).
Proof.
  intros [_ _ _ Hr _ _ _] Hok. unfold observe_CONFIGURE.
  rewrite elapsed_since_exact by (pose_clock; lia). by rewrite Hok.
Qed.

(** C34: in [CONFIGURE], when a check of the second loop fails, the driver
    asks to run again after 100 ms, and goes back to [RESET] exactly when
    more than 1000 ms have passed between the reset and the end of
    [Configure]; otherwise it stays in [CONFIGURE]. *)
Theorem configure_timeout s :
  driver_inv s -> _state (driver s) = STATE.CONFIGURE ->
  fst (configure_bus (_register_cfg (driver s)) (world s)) = false ->
  exists s', RunImpl s = Some (tt, s') /\
    _schedule (driver s') = ScheduleDelayed (ms 100) (_schedule (driver s)) /\
    _state (driver s') =
    if hrt_absolute_time (snd (configure_bus (_register_cfg (driver s)) (world s)))
       - _reset_timestamp (driver s) >? ms 1000
    then STATE.RESET else STATE.CONFIGURE.
Proof.
  intros Hinv Hst Hok.
  destruct (RunImpl_state s _ Hinv eq_refl) as (s' & Hrun & Hst' & Hsch).
  exists s'. revert Hst' Hsch. unfold observe.
  rewrite Hst, observe_CONFIGURE_failed by done.
  cbn. by destruct (_ >? _).
Qed.

(** In [CONFIGURE], when every check of the second loop passes, the
    driver goes to [READ], arms the timer for an interval of 20 ms, and has
    given the sink the scale of 1/12000 Gauss per count. *)
Theorem configure_success s :
  _state (driver s) = STATE.CONFIGURE ->
  fst (configure_bus (_register_cfg (driver s)) (world s)) = true ->
  exists s', RunImpl s = Some (tt, s') /\
    _state (driver s') = STATE.READ /\
    _schedule (driver s') = ScheduleOnInterval (ms 20) (ms 20) (_schedule (driver s)) /\
    mag_scale (_px4_mag (driver s')) = SCALE.
Proof.
  intros Hst Hok. apply wp_elim_unit. wp_simpl. rewrite Hst. wp_simpl.
  rewrite Hok. by wp_simpl.
Qed.

(** ** [READ] *)

(** C23: in [READ], a periodic check that fails is counted in
    [_bad_register_perf] and resets the driver at once: the state is
    [RESET], the timer is cancelled and the item is queued to run
    immediately; the index of the check and the temperature are left as they
    were. *)
Theorem read_check_failure s :
  driver_inv s -> _state (driver s) = STATE.READ ->
  failed (observe s) = true ->
  exists s', RunImpl s = Some (tt, s') /\
    _state (driver s') = STATE.RESET /\
    _schedule (driver s') = {| run_now := true; timer := None |} /\
    _bad_register_perf (driver s') = S (_bad_register_perf (driver s)) /\
    _checked_register (driver s') = _checked_register (driver s) /\
    mag_temperature (_px4_mag (driver s')) = mag_temperature (_px4_mag (driver s)).
Proof.
  intros Hinv Hst. pose proof (lookup_checked_register s Hinv) as [c Hc].
  destruct Hinv as [_ _ Hf _ _ _ _].
  unfold observe, observe_READ, check_due. rewrite Hst, Hc. intros Hobs.
  apply wp_elim_unit. wp_simpl. rewrite Hst.
  wp_cases_with ltac:(rewrite ?Hc, ?Hf); try done.
  all: revert Hobs; repeat match goal with Hb : ?b = _ |- context [?b] => rewrite Hb end.
  all: cbn; congruence.
Qed.

(** C35: in [READ], a sample transfer that fails forces the periodic
    check in the same step, whenever the last check was.  The failure is
    counted in [_bad_transfer_perf]; the step then reads the register of
    the entry the index points to and nothing else, leaves the sink and the
    timestamp of the temperature as they were, and ends as a check does:
    when the entry holds, in [READ] with the timestamp of the check set to
    the time taken before the sample read and the index advanced; when it
    does not, in [RESET] with the failure counted in
    [_bad_register_perf]. *)
Theorem read_transfer_failure s :
  driver_inv s -> _state (driver s) = STATE.READ ->
  fst (fst (sample_bus (world s))) <> PX4_OK ->
  exists c,
    _register_cfg (driver s) !! Z.to_nat (_checked_register (driver s)) = Some c /\
    exists s', RunImpl s = Some (tt, s') /\
      _bad_transfer_perf (driver s') = S (_bad_transfer_perf (driver s)) /\
      _transfer_perf (driver s') = S (_transfer_perf (driver s)) /\
      _px4_mag (driver s') = _px4_mag (driver s) /\
      _temperature_update_timestamp (driver s') = _temperature_update_timestamp (driver s) /\
      world s' = snd (RegisterCheck c (snd (sample_bus (world s)))) /\
      if fst (RegisterCheck c (snd (sample_bus (world s))))
      then _state (driver s') = STATE.READ /\
           _last_config_check_timestamp (driver s') = hrt_absolute_time (world s) /\
           _checked_register (driver s') =
           (_checked_register (driver s) + 1) mod size_register_cfg (driver s)
      else _state (driver s') = STATE.RESET /\
           _bad_register_perf (driver s') = S (_bad_register_perf (driver s)).
Proof.
  intros Hinv Hst Hfail. pose proof (lookup_checked_register s Hinv) as [c Hc].
  pose proof (next_index_mod _ _ (inv_checked s Hinv) (proj2 (inv_size s Hinv))) as Hnext.
  destruct Hinv as [_ _ Hf _ _ _ _]. apply Z.eqb_neq in Hfail.
  exists c. split; [done |]. apply wp_elim_unit. wp_simpl. rewrite Hst.
  wp_cases_with ltac:(rewrite ?Hc, ?Hf, ?Hfail; cbn [negb orb]); try done.
  all: repeat match goal with Hb : ?b = _ |- context [?b] => rewrite Hb end.
  all: by rewrite <- ?Hnext.
Qed.

(** C36: the temperature of the sink changes only in a step in which no
    periodic check is due and more than one second has passed between the
    last update's timestamp and the end of the sample read; the value is
    then the raw value of the two bytes read, divided by 100, and the
    update's timestamp is the one taken before the sample read. *)
Theorem temperature_update s s' :
  driver_inv s -> RunImpl s = Some (tt, s') ->
  mag_temperature (_px4_mag (driver s')) <> mag_temperature (_px4_mag (driver s)) ->
  observe s = Sampled false None /\
  hrt_absolute_time (snd (sample_bus (world s)))
  - _temperature_update_timestamp (driver s) > sec 1 /\
  _temperature_update_timestamp (driver s') = hrt_absolute_time (world s) /\
  mag_temperature (_px4_mag (driver s')) =
  Some (temperature_C
          (TransferBufferTemperature_of
             (snd (fst (temperature_bus (snd (sample_bus (world s)))))))).
Proof.
  intros Hinv Hrun. pose proof (lookup_checked_register s Hinv) as [c Hc].
  destruct Hinv as [_ _ Hf _ _ Ht _].
  unfold observe, observe_READ, check_due.
  run_cases Hrun; try done; intros _.
  all: repeat match goal with Hb : ?b = _ |- context [?b] => rewrite Hb end.
  all: split_and!; try done.
  all: match goal with
       | Hb : (elapsed_since _ _ >? sec 1) = true |- _ =>
           rewrite elapsed_since_exact in Hb by (pose_clock; lia); lia
       end.
Qed.

(** ** [init] *)

(** [init] when the bus initialises: the driver object is the constructed
    one after [Reset]. *)
Lemma init_run ext rot cfg (w : W) :
  fst (I2C_init w) = PX4_OK ->
  init {| driver := QMC5883L_new ext rot cfg; world := w |}
  = Some (0, {| driver := after_Reset (QMC5883L_new ext rot cfg);
                world := snd (I2C_init w) |}).
Proof. intros Hok. unfold init, dbind, bus, zoom. cbn. by rewrite Hok. Qed.

(** The constructed driver satisfies the invariant after [Reset], in any
    world. *)
Lemma QMC5883L_new_inv ext rot cfg (w : W) :
  (0 < length cfg < 256)%nat ->
  driver_inv {| driver := after_Reset (QMC5883L_new ext rot cfg); world := w |}.
Proof.
  intros Hcfg. pose proof (clock_uint64 w) as Hu. unfold is_uint64 in Hu.
  split; unfold size_register_cfg; cbn; first [lia | done].
Qed.

(** [init] on a freshly constructed driver whose table has between 1
    and 255 entries, when the bus initialises, returns 0 and leaves the
    driver in [RESET], queued to run at once, in a state that satisfies the
    invariant. *)
Theorem init_ok ext rot cfg (w : W) :
  (0 < length cfg < 256)%nat -> fst (I2C_init w) = PX4_OK ->
  exists s',
    init {| driver := QMC5883L_new ext rot cfg; world := w |} = Some (0, s') /\
    driver_inv s' /\ _state (driver s') = STATE.RESET /\
    next_delay (_schedule (driver s')) = Some 0.
Proof.
  intros Hcfg Hok. eexists. split; [by apply init_run |].
  split; [by apply QMC5883L_new_inv | done].
Qed.

(** When the bus does not initialise, [init] returns the status of the
    bus and leaves the driver object as it was: nothing is scheduled. *)
Theorem init_failure s :
  fst (I2C_init (world s)) <> PX4_OK ->
  init s = Some (fst (I2C_init (world s)),
                 {| driver := driver s; world := snd (I2C_init (world s)) |}).
Proof.
  intros Hfail%Z.eqb_neq. unfold init, dbind, bus, zoom. cbn. by rewrite Hfail.
Qed.

End Steps.

(** ** Witnesses on the simulated device *)

(** The invariant of a concrete state. *)
Ltac sim_inv := split; vm_compute; first [done | by split | by intros [=]].

Lemma sim_boundary_system_inv : driver_inv sim_boundary_system.
Proof. sim_inv. Qed.

Lemma sim_unconfigurable_system_inv : driver_inv sim_unconfigurable_system.
Proof. sim_inv. Qed.

Lemma sim_corrupt_system_inv : driver_inv sim_corrupt_system.
Proof. sim_inv. Qed.

Lemma sim_fault_system_inv : driver_inv sim_fault_system.
Proof. sim_inv. Qed.

Lemma sim_temperature_system_inv : driver_inv sim_temperature_system.
Proof. sim_inv. Qed.

Lemma wait_for_reset_timeout_witness :
  hrt_absolute_time (snd (RegisterRead Register.CNTL2 (world sim_boundary_system)))
  - _reset_timestamp (driver sim_boundary_system) = ms 1000 /\
  exists s', RunImpl sim_boundary_system = Some (tt, s') /\
    _schedule (driver s') =
    ScheduleDelayed (ms 100) (_schedule (driver sim_boundary_system)) /\
    _state (driver s') =
    if hrt_absolute_time (snd (RegisterRead Register.CNTL2 (world sim_boundary_system)))
       - _reset_timestamp (driver sim_boundary_system) >? ms 1000
    then STATE.RESET else STATE.WAIT_FOR_RESET.
Proof.
  split; [sim_compute |].
  apply (wait_for_reset_timeout _ sim_boundary_system_inv); sim_compute.
Defined.

Lemma wait_for_reset_failed_read_witness :
  sim_reg (world sim_dead_system) (Register.addr Register.CNTL2) = CNTL2_BIT.SOFT_RST /\
  exists s', RunImpl sim_dead_system = Some (tt, s') /\
    _state (driver s') = STATE.CONFIGURE /\
    world s' = snd (transfer [Register.addr Register.CNTL2] 1 (world sim_dead_system)) /\
    _schedule (driver s') = ScheduleDelayed (ms 1) (_schedule (driver sim_dead_system)).
Proof.
  split; [sim_compute |].
  apply (wait_for_reset_failed_read sim_dead_system PX4_ERROR); sim_compute.
Defined.

Lemma configure_timeout_witness :
  exists s', RunImpl sim_unconfigurable_system = Some (tt, s') /\
    _schedule (driver s') =
    ScheduleDelayed (ms 100) (_schedule (driver sim_unconfigurable_system)) /\
    _state (driver s') =
    if hrt_absolute_time
         (snd (configure_bus (_register_cfg (driver sim_unconfigurable_system))
                 (world sim_unconfigurable_system)))
       - _reset_timestamp (driver sim_unconfigurable_system) >? ms 1000
    then STATE.RESET else STATE.CONFIGURE.
Proof. apply (configure_timeout _ sim_unconfigurable_system_inv); sim_compute. Defined.

Lemma configure_success_witness :
  exists s', RunImpl (sim_run 2 sim_started).2 = Some (tt, s') /\
    _state (driver s') = STATE.READ /\
    _schedule (driver s') =
    ScheduleOnInterval (ms 20) (ms 20) (_schedule (driver (sim_run 2 sim_started).2)) /\
    mag_scale (_px4_mag (driver s')) = SCALE.
Proof. apply configure_success; sim_compute. Defined.

Lemma read_check_failure_witness :
  exists s', RunImpl sim_corrupt_system = Some (tt, s') /\
    _state (driver s') = STATE.RESET /\
    _schedule (driver s') = {| run_now := true; timer := None |} /\
    _bad_register_perf (driver s') = S (_bad_register_perf (driver sim_corrupt_system)) /\
    _checked_register (driver s') = _checked_register (driver sim_corrupt_system) /\
    mag_temperature (_px4_mag (driver s')) =
    mag_temperature (_px4_mag (driver sim_corrupt_system)).
Proof. apply (read_check_failure _ sim_corrupt_system_inv); sim_compute. Defined.

(** Reading on a bus whose next transfer fails, 10 ms after the last
    check passed: the check is not due by the clock, and is made. *)
Definition sim_recent_fault_system : System SimDevice :=
  with_driver (set_last_config_check_timestamp (ms 490)) sim_fault_system.

Lemma sim_recent_fault_system_inv : driver_inv sim_recent_fault_system.
Proof. sim_inv. Qed.

Lemma read_transfer_failure_witness :
  hrt_absolute_time (snd (sample_bus (world sim_recent_fault_system)))
  - _last_config_check_timestamp (driver sim_recent_fault_system) <= ms 100 /\
  exists c,
    _register_cfg (driver sim_recent_fault_system)
      !! Z.to_nat (_checked_register (driver sim_recent_fault_system)) = Some c /\
    exists s', RunImpl sim_recent_fault_system = Some (tt, s') /\
      _bad_transfer_perf (driver s') = S (_bad_transfer_perf (driver sim_recent_fault_system)) /\
      _transfer_perf (driver s') = S (_transfer_perf (driver sim_recent_fault_system)) /\
      _px4_mag (driver s') = _px4_mag (driver sim_recent_fault_system) /\
      _temperature_update_timestamp (driver s')
      = _temperature_update_timestamp (driver sim_recent_fault_system) /\
      world s' = snd (RegisterCheck c (snd (sample_bus (world sim_recent_fault_system)))) /\
      if fst (RegisterCheck c (snd (sample_bus (world sim_recent_fault_system))))
      then _state (driver s') = STATE.READ /\
           _last_config_check_timestamp (driver s')
           = hrt_absolute_time (world sim_recent_fault_system) /\
           _checked_register (driver s') =
           (_checked_register (driver sim_recent_fault_system) + 1)
             mod size_register_cfg (driver sim_recent_fault_system)
      else _state (driver s') = STATE.RESET /\
           _bad_register_perf (driver s')
           = S (_bad_register_perf (driver sim_recent_fault_system)).
Proof.
  split; [by vm_compute |].
  apply (read_transfer_failure _ sim_recent_fault_system_inv); [sim_compute |].
  vm_compute. intros [=].
Defined.

Lemma temperature_update_witness :
  mag_temperature (_px4_mag (driver (sim_run 1 sim_temperature_system).2))
  = Some (temperature_C {| TOUT_LSB := 0xC4; TOUT_MSB := 0x09 |}) /\
  _temperature_update_timestamp (driver (sim_run 1 sim_temperature_system).2)
  = ms 1520.
Proof.
  assert (sim_start sim_temperature_system
          = Some {| driver := set_schedule fire (driver sim_temperature_system);
                    world := sim_wait (ms 20) (world sim_temperature_system) |})
    as Hstart by sim_compute.
  assert (RunImpl {| driver := set_schedule fire (driver sim_temperature_system);
                     world := sim_wait (ms 20) (world sim_temperature_system) |}
          = Some (tt, (sim_run 1 sim_temperature_system).2)) as Hrun by sim_compute.
  pose proof (env_step_inv _ _ sim_temperature_system_inv
                (sim_start_env_step _ _ Hstart)) as Hinv.
  destruct (temperature_update _ _ Hinv Hrun) as (_ & _ & Hts & Htemp).
  - vm_compute. intros [=].
  - split; [exact Htemp | exact Hts].
Defined.

Lemma init_ok_witness :
  exists s',
    init {| driver := QMC5883L_new true 0 continuous_cfg; world := sim_new 0 100 [] true |}
    = Some (0, s') /\
    driver_inv s' /\ _state (driver s') = STATE.RESET /\
    next_delay (_schedule (driver s')) = Some 0.
Proof. apply init_ok; [cbn; lia | reflexivity]. Defined.

Lemma init_failure_witness :
  init {| driver := QMC5883L_new true 0 continuous_cfg;
          world := sim_failing_bus |}
  = Some (fst (I2C_init (world {| driver := QMC5883L_new true 0 continuous_cfg;
                                  world := sim_failing_bus |})),
          {| driver := QMC5883L_new true 0 continuous_cfg;
             world := snd (I2C_init (sim_failing_bus)) |}).
Proof. apply (init_failure (W := SimDevice)). vm_compute. intros [=]. Defined.
