(* ===== verification/Diagnostics.v ===== *)
(** * Diagnostics: the performance counters, [print_status], the destructor

    The three counters are members of the driver; [RunImpl] is the only code
    that counts in them.  [print_status] writes them and the sink's status
    to the console, the destructor frees them.  The console is modelled by
    the list of what is written to it, the destructor by the list of the
    counters it frees.  The theorems say what the counters count: the
    sample reads, the sample reads that failed, and the periodic checks that
    failed, of the run so far. *)

From Stdlib Require Import ZArith Lia Bool.
From stdpp Require Import base tactics option list.
From S2P Require Import Prelude Registers Platform RegisterAccess Decoder Driver.
From S2P Require Import SimDevice Lifecycle Progress Steps.

#[local] Open Scope Z_scope.

(** ** [print_status] and the destructor *)

(** What a call writes to the console. *)
Inductive output : Set :=
| BasePrintStatus                          (* [I2CSPIDriverBase::print_status()] *)
| PerfPrintCounter (c : perf_counter_t)    (* [perf_print_counter(c)] *)
| MagPrintStatus (mag : PX4Magnetometer).  (* [_px4_mag.print_status()] *)

Definition print_status (d : Driver) : list output :=
  [ BasePrintStatus;
    PerfPrintCounter (_transfer_perf d);
    PerfPrintCounter (_bad_register_perf d);
    PerfPrintCounter (_bad_transfer_perf d);
    MagPrintStatus (_px4_mag d) ].

(** The destructor: the counters handed to [perf_free], in order. *)
Definition QMC5883L_delete (d : Driver) : list perf_counter_t :=
  [ _transfer_perf d; _bad_register_perf d; _bad_transfer_perf d ].

(** ** What the rounds of a run count *)

(** A round that read a sample; a round whose sample read failed. *)
Definition sampled (o : observation) : bool :=
  match o with
  | Sampled _ _ => true
  | _ => false
  end.

Definition transfer_failed (o : observation) : bool :=
  match o with
  | Sampled true _ => true
  | _ => false
  end.

(** The number of observations of a run that satisfy [p]. *)
Fixpoint tally (p : observation -> bool) (os : list observation) : nat :=
  match os with
  | [] => 0
  | o :: os => (if p o then 1 else 0) + tally p os
  end.

(** The counters of [d], each advanced by the tally of its event. *)
Definition counted (os : list observation) (d : Driver) : list perf_counter_t :=
  [ (_transfer_perf d + tally sampled os)%nat;
    (_bad_register_perf d + tally failed os)%nat;
    (_bad_transfer_perf d + tally transfer_failed os)%nat ].

(** ** Lemmas *)

(** Equations between lists of counters. *)
Ltac counters_eq := repeat (f_equal; try lia).

Lemma tally_le p q os :
  (forall o, p o = true -> q o = true) -> (tally p os <= tally q os)%nat.
Proof.
  intros Hpq. induction os as [| o os IH]; cbn; [lia |].
  specialize (Hpq o). destruct (p o), (q o); lia.
Qed.

Lemma transfer_failed_sampled o : transfer_failed o = true -> sampled o = true.
Proof. by destruct o as [| | | []]. Qed.

Section Counters.
Context {W : Type} `{PlatformLaws W}.
Implicit Types s : System W.

Lemma QMC5883L_delete_counted d : QMC5883L_delete d = counted [] d.
Proof. unfold QMC5883L_delete, counted. cbn. by rewrite !Nat.add_0_r. Qed.

Lemma counted_cons o os d d' :
  QMC5883L_delete d' = counted [o] d -> counted os d' = counted (o :: os) d.
Proof. unfold QMC5883L_delete, counted. cbn. intros [= -> -> ->]. counters_eq. Qed.

(** One step counts what it observes. *)
Lemma RunImpl_counted s s' :
  driver_inv s -> RunImpl s = Some (tt, s') ->
  QMC5883L_delete (driver s') = counted [observe s] (driver s).
Proof.
  intros Hinv Hrun. pose proof (lookup_checked_register s Hinv) as [c Hc].
  destruct Hinv as [_ _ Hf _ _ _ _].
  unfold observe, observe_WAIT_FOR_RESET, observe_CONFIGURE, observe_READ, check_due.
  unfold QMC5883L_delete, counted.
  run_cases Hrun.
  all: repeat match goal with Hb : ?b = _ |- context [?b] => rewrite Hb end.
  all: rewrite ?Hc; cbn; unfold perf_end, perf_begin, perf_count; counters_eq.
Qed.

Lemma round_obs_counted o s s' :
  driver_inv s -> round_obs o s s' ->
  QMC5883L_delete (driver s') = counted [o] (driver s).
Proof.
  intros Hinv (s1 & Henv & <- & Hrun).
  rewrite (RunImpl_counted s1 s') by eauto using env_step_inv.
  destruct Henv as (d & _ & -> & _). done.
Qed.

Lemma trace_counted os s s' :
  driver_inv s -> trace os s s' ->
  QMC5883L_delete (driver s') = counted os (driver s).
Proof.
  intros Hinv Htr. induction Htr as [s | o os s s1 s' Hr Htr IH].
  - apply QMC5883L_delete_counted.
  - rewrite IH by eauto using round_inv, round_obs_round.
    eauto using counted_cons, round_obs_counted.
Qed.

(** C38: what [print_status] reports after a run: the first counter has
    advanced by the number of rounds that read a sample, the second by the
    number of periodic checks that failed, the third by the number of sample
    reads that failed. *)
Theorem print_status_after_run os s s' :
  driver_inv s -> trace os s s' ->
  print_status (driver s') =
  BasePrintStatus :: (PerfPrintCounter <$> counted os (driver s))
    ++ [MagPrintStatus (_px4_mag (driver s'))].
Proof. intros Hinv Htr. by rewrite <- (trace_counted _ _ _ Hinv Htr). Qed.

(** The failed sample reads are among the sample reads. *)
Lemma bad_transfers_bounded os s s' :
  driver_inv s -> trace os s s' ->
  (_bad_transfer_perf (driver s) <= _transfer_perf (driver s))%nat ->
  (_bad_transfer_perf (driver s') <= _transfer_perf (driver s'))%nat.
Proof.
  intros Hinv Htr Hle. pose proof (trace_counted _ _ _ Hinv Htr) as Hc.
  injection Hc as -> _ ->.
  pose proof (tally_le _ _ os transfer_failed_sampled). lia.
Qed.

End Counters.

(** ** A run on the simulated device *)

(** Six rounds from a device whose [CNTL1] has lost its configuration: the
    first check fails, the driver resets and configures the device again and
    reads twice more. *)
Lemma print_status_after_run_witness :
  counted (sim_run 6 sim_corrupt_system).1 (driver sim_corrupt_system) = [3; 1; 0]%nat /\
  print_status (driver (sim_run 6 sim_corrupt_system).2) =
  BasePrintStatus
    :: (PerfPrintCounter
          <$> counted (sim_run 6 sim_corrupt_system).1 (driver sim_corrupt_system))
    ++ [MagPrintStatus (_px4_mag (driver (sim_run 6 sim_corrupt_system).2))].
Proof.
  split; [sim_compute |].
  apply (print_status_after_run _ _ _ sim_corrupt_system_inv).
  apply sim_run_trace. sim_compute.
Defined.
