(* ===== verification/Recovery.v ===== *)
(** * Recovery: the driver on a chip that works

    [Chip] is what the driver needs of the device to get to [READ] and to
    stay there: the chip answers the transfers the driver issues, keeps its
    control registers through reads, and completes a soft reset.  Read with
    [RegisterFile], it is the contract between the driver and the device;
    the simulated device discharges it.  The theorems follow the driver
    through its states on such a chip, as long as nothing but the driver
    writes the control registers: three rounds from [RESET] to [READ], no
    way out of [READ], and back to [READ] in four rounds after a periodic
    check has found a register changed. *)

From Stdlib Require Import ZArith Lia Bool.
From stdpp Require Import base tactics option list relations.
From S2P Require Import Prelude Registers Platform RegisterAccess Decoder Driver.
From S2P Require Import SimDevice Configuration Lifecycle Progress Steps.

#[local] Open Scope Z_scope.

(** ** A chip that works *)

(** The registers the driver writes. *)
Definition control (r : Register) : bool :=
  match r with
  | Register.CNTL1 | Register.CNTL2 | Register.SET_RESET_PERIOD => true
  | _ => false
  end.

(** Every entry of the table is about a control register. *)
Definition cfg_control (cfg : list register_config_t) : Prop :=
  Forall (fun c => control (reg c)) cfg.

#[export] Instance cfg_control_dec cfg : Decision (cfg_control cfg).
Proof. unfold cfg_control. apply _. Defined.

(** A chip that is alive answers every transfer the driver issues, keeps its
    control registers through a read of any length, and completes a soft
    reset: [SOFT_RST] reads as zero after it was written.  The
    initialisation of the bus leaves it alive. *)
Class Chip (W : Type) `{RegisterFile W} : Type := {
  alive : W -> Prop;
  alive_healthy : forall w, alive w -> healthy w;
  init_alive : forall w, alive w -> alive (snd (I2C_init w));
  read_alive : forall w r n,
    alive w ->
    alive (snd (transfer [Register.addr r] n w)) /\
    forall r', control r' ->
      peek (snd (transfer [Register.addr r] n w)) r' = peek w r';
  write_alive : forall w r v,
    alive w -> alive (snd (transfer [Register.addr r; v] 0 w));
  reset_transfer : forall w,
    alive w ->
    Z.land (peek (snd (transfer [Register.addr Register.CNTL2; CNTL2_BIT.SOFT_RST] 0 w))
              Register.CNTL2) CNTL2_BIT.SOFT_RST = 0;
}.

Section Chip.
Context {W : Type} `{Chip W}.

(** The two devices hold the same control registers. *)
Definition same_control (w w' : W) : Prop :=
  forall r, control r -> peek w r = peek w' r.

(** The chip is alive and not in reset. *)
Definition operational (w : W) : Prop :=
  alive w /\ Z.land (peek w Register.CNTL2) CNTL2_BIT.SOFT_RST = 0.

(** From [w] to [w'] the chip stays alive. *)
Definition stays_alive (w w' : W) : Prop := alive w -> alive w'.

(** From [w] to [w'] the chip stays alive, with its control registers. *)
Definition undisturbed (w w' : W) : Prop :=
  alive w -> alive w' /\ same_control w' w.

(** The work queue starts the item; the chip is left undisturbed. *)
Definition quiet_step (s s1 : System W) : Prop :=
  env_step s s1 /\ undisturbed (world s) (world s1).

Definition quiet_round (s s' : System W) : Prop :=
  exists s1, quiet_step s s1 /\ RunImpl s1 = Some (tt, s').

(** What the table must be for [Configure] to succeed and to last. *)
Definition table_ok (s : System W) : Prop :=
  Forall cfg_wf (_register_cfg (driver s)) /\
  cfg_consistent (_register_cfg (driver s)) /\
  cfg_no_reset (_register_cfg (driver s)) /\
  cfg_control (_register_cfg (driver s)).

(** The driver is in state [st], and the chip is as far as the driver
    takes it to be: alive when it is about to be reset, out of reset while
    the driver waits for the reset and configures, and configured when it
    is read. *)
Definition on_track (st : STATE) (s : System W) : Prop :=
  _state (driver s) = st /\
  match st with
  | STATE.RESET => alive (world s)
  | STATE.WAIT_FOR_RESET | STATE.CONFIGURE => operational (world s)
  | STATE.READ =>
      alive (world s) /\ configured (_register_cfg (driver s)) (world s)
  end.

(** The driver reads from a chip that is configured. *)
Definition serving : System W -> Prop := on_track STATE.READ.

End Chip.

(** ** Computations along a preorder *)

(** Every run of [m] leads from a world to one related by [R]. *)
Definition along {W A} (R : relation W) (m : State W A) : Prop :=
  forall w, R w (snd (m w)).

Section Along.
Context {W : Type} (R : relation W) `{!PreOrder R}.

Lemma along_ret {A} (a : A) : along R (ret a).
Proof. intros w. reflexivity. Qed.

Lemma along_bind {A B} (m : State W A) (k : A -> State W B) :
  along R m -> (forall a, along R (k a)) -> along R (bind m k).
Proof. intros Hm Hk w. unfold bind. etransitivity; [apply Hm | apply Hk]. Qed.

Lemma along_if {A} (b : bool) (m1 m2 : State W A) :
  along R m1 -> along R m2 -> along R (if b then m1 else m2).
Proof. by destruct b. Qed.

Lemma along_step {A} (m : State W A) w w1 : along R m -> R w w1 -> R w (snd (m w1)).
Proof. intros Hm Hw. etransitivity; [exact Hw | apply Hm]. Qed.

Section Registers.
Context `{Platform W}.
Hypothesis Hread : forall r n, along R (transfer [Register.addr r] n).

Lemma along_RegisterRead r : along R (RegisterRead r).
Proof. unfold RegisterRead. auto using along_bind, along_ret. Qed.

Lemma along_RegisterCheck c : along R (RegisterCheck c).
Proof. unfold RegisterCheck. auto using along_bind, along_ret, along_RegisterRead. Qed.

Lemma along_check_register_cfg cfg b : along R (check_register_cfg cfg b).
Proof.
  revert b. induction cfg; intros b; cbn; auto using along_bind, along_ret, along_RegisterCheck.
Qed.

Lemma along_sample_bus : along R sample_bus.
Proof. apply Hread. Qed.

Lemma along_temperature_bus : along R temperature_bus.
Proof. apply Hread. Qed.

Hypothesis Hwrite : forall r v, along R (transfer [Register.addr r; v] 0).

Lemma along_RegisterWrite r v : along R (RegisterWrite r v).
Proof. unfold RegisterWrite. auto using along_bind, along_ret. Qed.

Lemma along_RegisterSetAndClearBits r s c : along R (RegisterSetAndClearBits r s c).
Proof.
  unfold RegisterSetAndClearBits.
  auto using along_bind, along_ret, along_if, along_RegisterRead, along_RegisterWrite.
Qed.

Lemma along_apply_register_cfg cfg : along R (apply_register_cfg cfg).
Proof. induction cfg; cbn; auto using along_bind, along_ret, along_RegisterSetAndClearBits. Qed.

Lemma along_configure_bus cfg : along R (configure_bus cfg).
Proof.
  unfold configure_bus.
  auto using along_bind, along_apply_register_cfg, along_check_register_cfg.
Qed.

End Registers.
End Along.

Create HintDb along discriminated.
#[export] Hint Resolve along_ret along_RegisterRead along_RegisterCheck along_sample_bus
  along_temperature_bus along_RegisterWrite along_configure_bus : along.
#[export] Hint Extern 1 (PreOrder _) => apply _ : along.

(** Follows the bus operations that lead from one world to another. *)
Ltac along_solve :=
  repeat first
    [ reflexivity
    | match goal with
      | |- ?R _ (snd _) => eapply (along_step R); [solve [eauto with along] |]
      end ].

Section ChipLemmas.
Context {W : Type} `{Chip W}.
Implicit Types (w : W) (s : System W).

#[export] Instance same_control_equivalence : Equivalence same_control.
Proof.
  split; [by intros w r | intros w w' Hw r Hr; symmetry; by apply Hw |].
  intros w1 w2 w3 H12 H23 r Hr. by rewrite H12, H23.
Qed.

#[export] Instance stays_alive_preorder : PreOrder stays_alive.
Proof. split; [intros w | intros w1 w2 w3 H12 H23]; unfold stays_alive in *; auto. Qed.

#[export] Instance undisturbed_preorder : PreOrder undisturbed.
Proof.
  split; [by intros w Hw | intros w1 w2 w3 H12 H23 Hw].
  destruct (H12 Hw) as [Hw2 Hc2]. destruct (H23 Hw2) as [Hw3 Hc3].
  split; [done | by etransitivity].
Qed.

Lemma stays_alive_read r n : along stays_alive (transfer [Register.addr r] n).
Proof. intros w Hw. by apply read_alive. Qed.

Lemma stays_alive_write r v : along stays_alive (transfer [Register.addr r; v] 0).
Proof. intros w Hw. by apply write_alive. Qed.

Lemma undisturbed_read r n : along undisturbed (transfer [Register.addr r] n).
Proof. intros w Hw. by apply read_alive. Qed.

End ChipLemmas.

#[export] Hint Extern 1 (along stays_alive (transfer [_] _)) =>
  first [apply stays_alive_read | apply (stays_alive_read Register.CNTL2)] : along.
#[export] Hint Extern 1 (along stays_alive (transfer [_; _] _)) =>
  first [apply stays_alive_write | apply (stays_alive_write Register.CNTL2)] : along.
#[export] Hint Extern 1 (along undisturbed (transfer [_] _)) =>
  first [apply undisturbed_read | apply (undisturbed_read Register.CNTL2)] : along.

Section ChipSteps.
Context {W : Type} `{Chip W}.
Implicit Types (w : W) (s : System W).

Lemma RunImpl_alive s s' :
  RunImpl s = Some (tt, s') -> stays_alive (world s) (world s').
Proof.
  intros Hrun. run_cases Hrun.
  all: along_solve.
Qed.

Lemma RunImpl_undisturbed s s' :
  RunImpl s = Some (tt, s') -> _state (driver s) <> STATE.RESET ->
  _state (driver s) <> STATE.CONFIGURE ->
  undisturbed (world s) (world s').
Proof.
  intros Hrun. run_cases Hrun; try done; intros _ _.
  all: along_solve.
Qed.


Lemma operational_ready w : operational w -> ready w.
Proof. intros [Hw Hb]. split; [by apply alive_healthy | done]. Qed.

Lemma operational_undisturbed w w' :
  undisturbed w w' -> operational w -> operational w'.
Proof. intros Hu [Hw Hb]. destruct (Hu Hw) as [Hw' Hc]. split; [done | by rewrite Hc]. Qed.

Lemma configured_undisturbed cfg w w' :
  undisturbed w w' -> alive w -> cfg_control cfg -> configured cfg w -> configured cfg w'.
Proof.
  intros Hu Hw Hctl Hcfg. destruct (Hu Hw) as [_ Hc]. unfold configured, cfg_control in *.
  rewrite Forall_forall in *. intros c Hin. rewrite Hc by auto. auto.
Qed.

End ChipSteps.

(** The state the driver goes to when all is well. *)
Definition next_phase (st : STATE) : STATE :=
  match st with
  | STATE.RESET => STATE.WAIT_FOR_RESET
  | STATE.WAIT_FOR_RESET => STATE.CONFIGURE
  | STATE.CONFIGURE | STATE.READ => STATE.READ
  end.

(** What it then asks of the work queue. *)
Definition phase_request (st : STATE) : request :=
  match st with
  | STATE.RESET => Delay (ms 100)
  | STATE.WAIT_FOR_RESET => Delay (ms 1)
  | STATE.CONFIGURE => Interval (ms 20)
  | STATE.READ => Keep
  end.

(** ** The steps on a chip that works *)

Section Recovery.
Context {W : Type} `{PlatformLaws W} `{!RegisterFile W} `{!Chip W}.
Implicit Types (w : W) (s : System W).

Lemma on_track_alive st s : on_track st s -> alive (world s).
Proof. intros [_ Hw]. destruct st; [done | by destruct Hw..]. Qed.

(** What the steps observe on a chip that is on track: the table takes
    the driver to the next phase, with the request of the phase. *)
Lemma observe_on_track st s :
  driver_inv s -> table_ok s -> on_track st s ->
  lifecycle_next st (observe s) = (next_phase st, phase_request st).
Proof.
  intros Hinv (Hwf & Hcons & Hnr & Hctl) [Hst Hw]. unfold observe. rewrite Hst.
  destruct st; [done | | |].
  - destruct (RegisterRead_peek Register.CNTL2 (world s)) as (Hv & _ & _);
      [apply alive_healthy, Hw |].
    unfold observe_WAIT_FOR_RESET. by rewrite Hv, (proj2 Hw).
  - destruct (configure_bus_succeeds _ _ (operational_ready _ Hw) Hwf Hcons Hnr)
      as (Hok & _ & _).
    unfold observe_CONFIGURE. by rewrite Hok.
  - unfold observe_READ. destruct (check_due s); [| done].
    destruct (_ !! _) as [c |] eqn:Hc; [| done].
    pose proof (along_sample_bus undisturbed undisturbed_read (world s) (proj1 Hw))
      as [Hw1 Hp1].
    destruct (RegisterCheck_peek c (snd (sample_bus (world s)))) as (-> & _ & _);
      [by apply alive_healthy |].
    apply list_elem_of_lookup_2 in Hc.
    rewrite Hp1 by exact (proj1 (Forall_forall _ _) Hctl c Hc).
    rewrite bool_decide_true; [done |]. exact (proj1 (Forall_forall _ _) (proj2 Hw) c Hc).
Qed.

(** The world after the two steps that write. *)
Lemma RunImpl_world s s' :
  RunImpl s = Some (tt, s') ->
  match _state (driver s) with
  | STATE.RESET =>
      world s' = snd (RegisterWrite Register.CNTL2 CNTL2_BIT.SOFT_RST (world s))
  | STATE.CONFIGURE =>
      world s' = snd (configure_bus (_register_cfg (driver s)) (world s))
  | _ => True
  end.
Proof. intros Hrun. by run_cases Hrun. Qed.

(** A step takes a chip that is on track to the next phase. *)
Lemma RunImpl_on_track st s s' :
  driver_inv s -> table_ok s -> on_track st s -> RunImpl s = Some (tt, s') ->
  on_track (next_phase st) s'.
Proof.
  intros Hinv Hok Htr Hrun. pose proof (on_track_alive _ _ Htr) as Hw.
  destruct (RunImpl_refines s s' Hinv Hrun) as [Hst' _].
  destruct (RunImpl_checked_register s s' Hinv Hrun) as [Hcfg _].
  pose proof (RunImpl_world s s' Hrun) as Hworld.
  pose proof (RunImpl_undisturbed s s' Hrun) as Hu.
  destruct Htr as [Hst Hp]. rewrite Hst in *.
  rewrite (observe_on_track st s) in Hst' by done. cbn [fst] in Hst'.
  split; [done |]. destruct Hok as (Hwf & Hcons & Hnr & Hctl).
  destruct st; cbn [next_phase]; rewrite ?Hcfg, ?Hworld.
  - split; [apply (write_alive _ Register.CNTL2 _ Hw) | apply (reset_transfer _ Hw)].
  - by apply (operational_undisturbed (world s)); [apply Hu |].
  - destruct (configure_bus_succeeds _ _ (operational_ready _ Hp) Hwf Hcons Hnr)
      as (_ & _ & Hc).
    split; [| done].
    by apply (along_configure_bus stays_alive stays_alive_read stays_alive_write).
  - destruct Hp as [Hop Hc]. specialize (Hu ltac:(done) ltac:(done)).
    split; [by apply Hu | eauto using configured_undisturbed].
Qed.

(** The work queue leaves a chip that is on track as it is. *)
Lemma quiet_step_on_track st s s1 :
  table_ok s -> on_track st s -> quiet_step s s1 -> table_ok s1 /\ on_track st s1.
Proof.
  intros Hok Htr [Henv Hu]. pose proof (on_track_alive _ _ Htr) as Hw.
  destruct (env_step_members _ _ Henv) as (Hst & _ & _ & Hcfg).
  destruct Hok as (Hwf & Hcons & Hnr & Hctl). destruct Htr as [<- Hp].
  unfold table_ok, on_track. rewrite Hst, Hcfg. split; [done |]. split; [done |].
  revert Hp. destruct (_state (driver s)); [by intros ?; apply Hu | ..]; intros Hp;
    [| | destruct Hp; split; [by apply Hu |]];
    eauto using operational_undisturbed, configured_undisturbed.
Qed.

(** A quiet round takes a chip that is on track to the next phase. *)
Lemma quiet_round_on_track st s s' :
  driver_inv s -> table_ok s -> on_track st s -> quiet_round s s' ->
  driver_inv s' /\ table_ok s' /\ on_track (next_phase st) s'.
Proof.
  intros Hinv Hok Htr (s1 & Hq & Hrun).
  destruct (quiet_step_on_track _ _ _ Hok Htr Hq) as [Hok1 Htr1].
  pose proof (env_step_inv _ _ Hinv (proj1 Hq)) as Hinv1.
  destruct (RunImpl_checked_register s1 s' Hinv1 Hrun) as [Hcfg _].
  split_and!; [| by unfold table_ok; rewrite Hcfg | by eapply RunImpl_on_track].
  exact (wp_run _ _ _ _ _ Hrun (RunImpl_inv_wp s1 Hinv1)).
Qed.

Lemma quiet_rounds_on_track n : forall st s s',
  driver_inv s -> table_ok s -> on_track st s -> nsteps quiet_round n s s' ->
  driver_inv s' /\ table_ok s' /\ on_track (Nat.iter n next_phase st) s'.
Proof.
  induction n as [| n IH]; intros st s s' Hinv Hok Htr Hn.
  - by inversion Hn; subst.
  - apply nsteps_inv_r in Hn as (s1 & Hn & Hr).
    destruct (IH _ _ _ Hinv Hok Htr Hn) as (Hinv1 & Hok1 & Htr1).
    by apply (quiet_round_on_track _ s1).
Qed.

Lemma iter_next_phase_READ n : Nat.iter n next_phase STATE.READ = STATE.READ.
Proof. induction n as [| n IH]; [done |]. by rewrite Nat.iter_succ, IH. Qed.

Lemma iter_next_phase m st : (3 <= m)%nat -> Nat.iter m next_phase st = STATE.READ.
Proof.
  intros Hm. replace m with (m - 3 + 3)%nat by lia.
  rewrite Nat.iter_add. replace (Nat.iter 3 next_phase st) with STATE.READ by (by destruct st).
  apply iter_next_phase_READ.
Qed.

(** After three quiet rounds a chip that is on track is read, and stays
    so. *)
Lemma on_track_settles st m s s' :
  driver_inv s -> table_ok s -> on_track st s -> (3 <= m)%nat ->
  nsteps quiet_round m s s' -> on_track STATE.READ s'.
Proof.
  intros Hinv Hok Htr Hm Hn.
  destruct (quiet_rounds_on_track m st s s') as (_ & _ & Htr'); [done.. |].
  by rewrite iter_next_phase in Htr'.
Qed.

End Recovery.

(** ** The sink through the rounds *)

(** The sink is the one the constructor made, for a driver on an external
    bus or not and with the rotation [rot], and it has the scale of the
    chip's range once the driver reads. *)
Definition sink_inv {W} (ext : bool) (rot : Z) (s : System W) : Prop :=
  mag_priority (_px4_mag (driver s))
  = (if ext then ORB_PRIO_VERY_HIGH else ORB_PRIO_DEFAULT) /\
  mag_external (_px4_mag (driver s)) = ext /\
  mag_rotation (_px4_mag (driver s)) = rot /\
  (_state (driver s) = STATE.READ -> mag_scale (_px4_mag (driver s)) = SCALE).

Section Sink.
Context {W : Type} `{PlatformLaws W}.
Implicit Types s : System W.

Lemma RunImpl_sink_inv ext rot s s' :
  RunImpl s = Some (tt, s') -> sink_inv ext rot s -> sink_inv ext rot s'.
Proof.
  unfold sink_inv. intros Hrun. run_cases Hrun; cbn; intros (? & ? & ? & Hsc);
    split_and!; try done; auto; congruence.
Qed.

Lemma round_sink_inv ext rot s s' :
  round s s' -> sink_inv ext rot s -> sink_inv ext rot s'.
Proof.
  intros (s1 & (d & _ & Hdrv & _) & Hrun) Hs. apply (RunImpl_sink_inv ext rot s1 s' Hrun).
  unfold sink_inv. by rewrite Hdrv.
Qed.

End Sink.

(** ** Recovery *)

Section RecoveryTheorems.
Context {W : Type} `{PlatformLaws W} `{!RegisterFile W} `{!Chip W}.
Implicit Types (w : W) (s : System W).

(** Recovery: on a chip that is alive and left undisturbed between
    the rounds, three rounds take the driver from [RESET] to [READ], with
    the chip alive and every entry of the table holding of its
    register. *)
Theorem recovery s s' :
  driver_inv s -> table_ok s -> _state (driver s) = STATE.RESET -> alive (world s) ->
  nsteps quiet_round 3 s s' -> serving s'.
Proof.
  intros Hinv Hok Hst Hw Hn.
  by destruct (quiet_rounds_on_track 3 STATE.RESET s s') as (_ & _ & Htr).
Qed.

Lemma quiet_rounds_sink_inv ext rot n : forall s s',
  nsteps quiet_round n s s' -> sink_inv ext rot s -> sink_inv ext rot s'.
Proof.
  induction n as [| n IH]; intros s s' Hn Hs; inversion Hn as [| ? ? s1 ? Hr Hrest]; subst.
  - done.
  - destruct Hr as (s0 & [Henv _] & Hrun). apply (IH s1 s' Hrest).
    apply (round_sink_inv ext rot s s1); [by exists s0 | done].
Qed.

(** C8: start-up: a driver constructed with a table that is well formed,
    consistent and about control registers only, on a chip that is alive
    and whose bus initialises: [init] returns 0, and three rounds later the
    driver reads from a configured chip, with the sink the constructor
    made (priority by the kind of bus, rotation) set to the scale of the
    chip's range. *)
Theorem startup ext rot cfg (w : W) :
  alive w -> fst (I2C_init w) = PX4_OK -> (0 < length cfg < 256)%nat ->
  Forall cfg_wf cfg -> cfg_consistent cfg -> cfg_no_reset cfg -> cfg_control cfg ->
  exists s1,
    init {| driver := QMC5883L_new ext rot cfg; world := w |} = Some (0, s1) /\
    forall s', nsteps quiet_round 3 s1 s' ->
      serving s' /\ sink_inv ext rot s' /\ mag_scale (_px4_mag (driver s')) = SCALE.
Proof.
  intros Hw Hok Hlen Hwf Hcons Hnr Hctl. eexists. split; [by apply init_run |].
  intros s' Hn.
  destruct (fun Hinv Htab Htr => quiet_rounds_on_track 3 STATE.RESET _ s' Hinv Htab Htr Hn)
    as (_ & _ & Htr); [by apply QMC5883L_new_inv | done | by split; [| apply init_alive] |].
  assert (sink_inv ext rot s') as Hs
    by (apply (quiet_rounds_sink_inv ext rot 3 _ s' Hn); by destruct ext).
  split_and!; [done.. |]. apply Hs, Htr.
Qed.

(** C26: once the driver reads from a configured chip it goes on doing so:
    as long as the chip is left undisturbed between the rounds, no periodic
    check fails, the driver stays in [READ], and the table holds. *)
Theorem serving_stable n s s' :
  driver_inv s -> table_ok s -> serving s -> nsteps quiet_round n s s' -> serving s'.
Proof.
  intros Hinv Hok Hs Hn.
  destruct (quiet_rounds_on_track n STATE.READ s s') as (_ & _ & Htr); [done.. |].
  by rewrite iter_next_phase_READ in Htr.
Qed.

(** Self-healing: when a periodic check fails, because a register
    has lost its configuration, the fourth round after it finds the driver
    in [READ] again with the chip configured, provided the chip is alive and
    left undisturbed from then on. *)
Theorem self_healing s s1 s2 s' :
  driver_inv s -> table_ok s -> alive (world s) ->
  env_step s s1 -> stays_alive (world s) (world s1) ->
  _state (driver s1) = STATE.READ -> failed (observe s1) = true ->
  RunImpl s1 = Some (tt, s2) ->
  nsteps quiet_round 3 s2 s' -> serving s'.
Proof.
  intros Hinv Hok Hw Henv Hw1 Hst Hfail Hrun Hn.
  pose proof (env_step_inv _ _ Hinv Henv) as Hinv1.
  destruct (env_step_members _ _ Henv) as (_ & _ & _ & Hcfg1).
  destruct (RunImpl_refines s1 s2 Hinv1 Hrun) as [Hst2 _].
  destruct (RunImpl_checked_register s1 s2 Hinv1 Hrun) as [Hcfg2 _].
  destruct (quiet_rounds_on_track 3 STATE.RESET s2 s') as (_ & _ & Htr); [| | | done..].
  - exact (wp_run _ _ _ _ _ Hrun (RunImpl_inv_wp s1 Hinv1)).
  - unfold table_ok. by rewrite Hcfg2, Hcfg1.
  - split; [| apply (RunImpl_alive s1 s2 Hrun); auto].
    rewrite Hst2, Hst. by destruct (observe s1) as [| | | ? [[] |]].
Qed.

End RecoveryTheorems.

(** ** The simulated device is a chip that works *)

(** The script holds no fault, and the soft reset is implemented. *)
Definition sim_alive (d : SimDevice) : Prop :=
  sim_healthy d /\ sim_soft_reset d = true.

Lemma sim_read_alive d r n :
  sim_alive d ->
  sim_alive (snd (transfer [Register.addr r] n d)) /\
  forall r', control r' -> peek (snd (transfer [Register.addr r] n d)) r' = peek d r'.
Proof. intros [[Hup Hf] Hr]. unfold sim_alive, sim_healthy. cbn. by rewrite Hup, Hf. Qed.

Lemma sim_write_alive d r v :
  sim_alive d -> sim_alive (snd (transfer [Register.addr r; v] 0 d)).
Proof. intros [[Hup Hf] Hr]. unfold sim_alive, sim_healthy. cbn. by rewrite Hup, Hf. Qed.

Lemma sim_reset_transfer d :
  sim_alive d ->
  Z.land (peek (snd (transfer [Register.addr Register.CNTL2; CNTL2_BIT.SOFT_RST] 0 d))
            Register.CNTL2) CNTL2_BIT.SOFT_RST = 0.
Proof.
  intros [[Hup Hf] Hr]. cbn. unfold sim_peek, sim_reg, sim_store. cbn.
  by rewrite Hup, Hf, Hr.
Qed.

#[export] Instance SimDevice_Chip : Chip SimDevice := {
  alive := sim_alive;
  alive_healthy d Hd := proj1 Hd;
  init_alive d Hd := Hd;
  read_alive := sim_read_alive;
  write_alive := sim_write_alive;
  reset_transfer := sim_reset_transfer;
}.

(** The simulated work queue only lets time pass. *)
Lemma sim_start_quiet s s1 : sim_start s = Some s1 -> quiet_step s s1.
Proof.
  intros Hstart. split; [by apply sim_start_env_step |].
  by destruct (sim_start_world _ _ Hstart) as [d ->].
Qed.

Lemma sim_round_quiet s s' : sim_round s = Some s' -> quiet_round s s'.
Proof. intros (s1 & Hstart & Hrun)%sim_round_inv. exists s1. eauto using sim_start_quiet. Qed.

Lemma sim_rounds_quiet n s s' : sim_rounds n s = Some s' -> nsteps quiet_round n s s'.
Proof.
  apply (sim_rounds_nsteps quiet_round (fun _ => True)); [| done].
  eauto using sim_round_quiet.
Qed.

Lemma continuous_cfg_ok {W} (s : System W) :
  _register_cfg (driver s) = continuous_cfg -> table_ok s.
Proof.
  intros Hcfg. unfold table_ok. rewrite Hcfg.
  split_and!; apply (bool_decide_unpack _); vm_compute; exact I.
Qed.

(** A simulated driver that reads from a configured chip. *)
Lemma sim_serving s :
  _register_cfg (driver s) = continuous_cfg -> _state (driver s) = STATE.READ ->
  sim_alive (world s) -> bool_decide (configured continuous_cfg (world s)) = true ->
  table_ok s /\ serving s.
Proof.
  intros Hcfg Hst Hw Hc%bool_decide_eq_true_1.
  split; [by apply continuous_cfg_ok |]. split; [done | split; [done |]]. by rewrite Hcfg.
Qed.

(** ** Witnesses *)

Lemma recovery_witness : serving (sim_rounds_state 3 sim_started).
Proof.
  apply (recovery sim_started);
    [apply sim_started_inv | by apply continuous_cfg_ok | done | done |].
  apply sim_rounds_quiet. sim_compute.
Defined.

Lemma serving_stable_witness : serving (sim_rounds_state 20 sim_read_system).
Proof.
  apply (serving_stable 20 sim_read_system);
    [apply sim_read_system_inv | by apply continuous_cfg_ok | |].
  - split; [done | split; [done |]]. apply (bool_decide_unpack _). vm_compute. exact I.
  - apply sim_rounds_quiet. sim_compute.
Defined.

(** The device whose [CNTL1] has lost its configuration: the check of the
    first round fails, the fourth round after it reads again. *)
Lemma self_healing_witness : serving (sim_rounds_state 4 sim_corrupt_system).
Proof.
  apply (self_healing sim_corrupt_system
           (default sim_corrupt_system (sim_start sim_corrupt_system))
           (sim_rounds_state 1 sim_corrupt_system));
    [apply sim_corrupt_system_inv | by apply continuous_cfg_ok | done | | done | ..].
  - apply sim_start_env_step. sim_compute.
  - sim_compute.
  - sim_compute.
  - sim_compute.
  - apply sim_rounds_quiet. sim_compute.
Defined.

(** The driver of an external bus, from the constructor on. *)
Lemma startup_witness :
  exists s1,
    init {| driver := QMC5883L_new true 0 continuous_cfg; world := sim_new 0 100 [] true |}
    = Some (0, s1) /\
    forall s', nsteps quiet_round 3 s1 s' ->
      serving s' /\ sink_inv true 0 s' /\ mag_scale (_px4_mag (driver s')) = SCALE.
Proof.
  apply (startup true 0 continuous_cfg (sim_new 0 100 [] true));
    [done | done | cbn; lia | ..];
    apply (continuous_cfg_ok {| driver := QMC5883L_new true 0 continuous_cfg;
                                world := sim_new 0 100 [] true |} eq_refl).
Defined.
