(* ===== verification/Writes.v ===== *)
(** * Writes: what the driver writes to the chip

    On the recording platform of [Logged] every request of a step is on
    record.  This file reads the record for what the driver writes: the
    soft reset in [RESET], and in [CONFIGURE] values for the registers of
    the table that satisfy their entries; in [WAIT_FOR_RESET] and in [READ]
    the driver only reads, so that sampling and the periodic check leave
    the chip as it is. *)

From Stdlib Require Import ZArith Lia Bool.
From stdpp Require Import base tactics option list relations.
From S2P Require Import Prelude Registers Platform RegisterAccess Decoder Driver.
From S2P Require Import SimDevice Configuration Lifecycle Progress Logged Steps Recovery.

#[local] Open Scope Z_scope.

(** ** The requests a state allows *)

(** In state [st] with the table [cfg]: any read; in [RESET] the write of
    [SOFT_RST] to [CNTL2]; in [CONFIGURE] the write to the register of an
    entry of the table of a byte that satisfies the entry. *)
Definition write_allowed (st : STATE) (cfg : list register_config_t) (t : request_t) : Prop :=
  match t with
  | ([_], _) => True
  | ([a; v], _) =>
      match st with
      | STATE.RESET => a = Register.addr Register.CNTL2 /\ v = CNTL2_BIT.SOFT_RST
      | STATE.CONFIGURE =>
          Exists (fun c => a = Register.addr (reg c) /\ is_uint8 v /\ cfg_holds c v) cfg
      | _ => False
      end
  | _ => False
  end.

#[export] Instance write_allowed_dec st cfg t : Decision (write_allowed st cfg t).
Proof. destruct t as [[| a [| v [| ? ?]]] n], st; cbn; apply _. Defined.

(** From [lw] to [lw'] the record has grown by requests that [st] allows. *)
Definition writes_within {W} (st : STATE) (cfg : list register_config_t)
    (lw lw' : Logged W) : Prop :=
  exists new, issued lw' = new ++ issued lw /\ Forall (write_allowed st cfg) new.

Section Writes.
Context {W : Type} `{Platform W}.
Implicit Types (lw : Logged W) (s : System W).

#[export] Instance writes_within_preorder st cfg : PreOrder (writes_within (W := W) st cfg).
Proof.
  split; [intros lw; by exists [] |].
  intros lw1 lw2 lw3 (n1 & E1 & F1) (n2 & E2 & F2). exists (n2 ++ n1).
  by rewrite E2, E1, app_assoc, Forall_app.
Qed.

(** A read is allowed in every state. *)
Lemma writes_within_read st cfg r n :
  along (writes_within (W := W) st cfg) (transfer [Register.addr r] n).
Proof. intros lw. exists [([Register.addr r], n)]. split; [done | by constructor]. Qed.

Lemma writes_within_write st cfg r v lw :
  write_allowed st cfg ([Register.addr r; v], 0%nat) ->
  writes_within st cfg lw (snd (RegisterWrite r v lw)).
Proof. intros Hw. exists [([Register.addr r; v], 0%nat)]. split; [done | by constructor]. Qed.

(** The record of a step that started with an empty record. *)
Lemma writes_within_record st cfg s lw' :
  writes_within st cfg (world (record s)) lw' -> Forall (write_allowed st cfg) (issued lw').
Proof. intros (new & -> & Hnew). by rewrite app_nil_r. Qed.

Lemma writes_within_cons st cfg t lw b i :
  write_allowed st cfg t -> writes_within st cfg lw {| base := b; issued := i |} ->
  writes_within st cfg lw {| base := b; issued := t :: i |}.
Proof. intros Ht (new & E & F). exists (t :: new). cbn in *. rewrite E. by split; [| constructor]. Qed.

Lemma writes_within_base st cfg lw b :
  writes_within st cfg lw {| base := b; issued := issued lw |}.
Proof. by exists []. Qed.

(** [RegisterSetAndClearBits] on an entry of the table: a read, and the
    write of a byte that satisfies the entry. *)
Lemma writes_within_RegisterSetAndClearBits cfg c :
  c ∈ cfg -> cfg_wf c ->
  along (writes_within (W := W) STATE.CONFIGURE cfg)
    (RegisterSetAndClearBits (reg c) (set_bits c) (clear_bits c)).
Proof.
  intros Hin Hwf lw. rewrite RegisterSetAndClearBits_run.
  pose proof (RegisterRead_uint8 (reg c) lw) as Ho.
  pose proof (along_RegisterRead _ (writes_within_read STATE.CONFIGURE cfg) (reg c) lw) as Hr.
  destruct (RegisterRead (reg c) lw) as [o lw1]. cbn in Ho, Hr. case_decide; [done |].
  etransitivity; [exact Hr |]. apply writes_within_write, Exists_exists.
  exists c. auto using set_and_clear_uint8, set_and_clear_holds.
Qed.

Lemma writes_within_apply_register_cfg cfg cfg' :
  cfg' ⊆ cfg -> Forall cfg_wf cfg' ->
  along (writes_within (W := W) STATE.CONFIGURE cfg) (apply_register_cfg cfg').
Proof.
  induction cfg' as [| c cfg' IH]; intros Hsub Hwf; [apply along_ret, _ |].
  apply Forall_cons in Hwf as [Hc Hwf]. cbn [apply_register_cfg].
  apply along_bind; [apply _ | | intros _; apply IH; [| done]].
  - apply writes_within_RegisterSetAndClearBits; [apply Hsub; left | done].
  - intros c' Hc'. apply Hsub. by right.
Qed.

(** [Configure] writes to the registers of the table only, and only bytes
    that satisfy their entries. *)
Lemma writes_within_configure_bus cfg :
  Forall cfg_wf cfg ->
  along (writes_within (W := W) STATE.CONFIGURE cfg) (configure_bus cfg).
Proof.
  intros Hwf. unfold configure_bus. apply along_bind; [apply _ | |].
  - by apply writes_within_apply_register_cfg.
  - intros _. apply along_check_register_cfg; [apply _ |]. apply writes_within_read.
Qed.

End Writes.

(** ** The writes of a step and of a run *)

(** A request that some state allows: a read, the soft reset, or the write
    of a byte that satisfies an entry of the table to its register. *)
Definition write_expected (cfg : list register_config_t) (t : request_t) : Prop :=
  exists st, write_allowed st cfg t.

(** A round on the recording platform: the world changes, the record does
    not, and [RunImpl] runs. *)
Definition logged_round {W} `{Platform W} (s s' : System (Logged W)) : Prop :=
  exists s1, env_step s s1 /\ issued (world s1) = issued (world s) /\
             RunImpl s1 = Some (tt, s').

Section WritesOfSteps.
Context {W : Type} `{PlatformLaws W}.
Implicit Types (s : System W) (ls : System (Logged W)).

(** A step adds to the record what its state allows. *)
Lemma RunImpl_writes_within ls ls' :
  Forall cfg_wf (_register_cfg (driver ls)) -> RunImpl ls = Some (tt, ls') ->
  writes_within (_state (driver ls)) (_register_cfg (driver ls)) (world ls) (world ls').
Proof.
  intros Hwf Hrun. run_cases Hrun.
  all: repeat match goal with Hst : _state _ = _ |- _ => rewrite Hst; clear Hst end.
  all: try (by apply writes_within_configure_bus).
  all: by repeat (apply writes_within_cons; [done |]); apply writes_within_base.
Qed.

(** C15: what a step writes to the chip.  Of the requests a step of
    [RunImpl] issues with a table whose entries are well formed, the writes
    are: in [RESET] that of [SOFT_RST] to [CNTL2]; in [CONFIGURE] those of
    bytes that satisfy an entry of the table to the register of that
    entry; in [WAIT_FOR_RESET] and in [READ] none: sampling, the
    temperature and the periodic check only read. *)
Theorem RunImpl_writes s ls' :
  Forall cfg_wf (_register_cfg (driver s)) ->
  RunImpl (record s) = Some (tt, ls') ->
  Forall (write_allowed (_state (driver s)) (_register_cfg (driver s)))
    (issued (world ls')).
Proof.
  intros Hwf Hrun. apply (writes_within_record _ _ s).
  by apply (RunImpl_writes_within (record s)).
Qed.

Lemma record_inv s : driver_inv s -> driver_inv (record s).
Proof. by intros []. Qed.

Lemma logged_round_round ls ls' : logged_round ls ls' -> round ls ls'.
Proof. intros (ls1 & Henv & _ & Hrun). by exists ls1. Qed.

Lemma logged_round_writes cfg ls ls' :
  driver_inv ls -> _register_cfg (driver ls) = cfg -> Forall cfg_wf cfg ->
  Forall (write_expected cfg) (issued (world ls)) -> logged_round ls ls' ->
  _register_cfg (driver ls') = cfg /\ Forall (write_expected cfg) (issued (world ls')).
Proof.
  intros Hinv Hcfg Hwf Hold (ls1 & Henv & Hrec & Hrun).
  destruct (env_step_members _ _ Henv) as (_ & _ & _ & Hcfg1).
  destruct (RunImpl_checked_register ls1 ls') as [Hcfg' _]; eauto using env_step_inv.
  split; [congruence |].
  destruct (RunImpl_writes_within ls1 ls') as (new & -> & Hnew); [congruence | done |].
  rewrite Hrec, Forall_app. split; [| done].
  eapply Forall_impl; [exact Hnew |]. intros t Ht. eexists. by rewrite <- Hcfg, <- Hcfg1.
Qed.

Lemma logged_rounds_write cfg n ls ls' :
  Forall cfg_wf cfg -> nsteps logged_round n ls ls' ->
  driver_inv ls -> _register_cfg (driver ls) = cfg ->
  Forall (write_expected cfg) (issued (world ls)) ->
  Forall (write_expected cfg) (issued (world ls')).
Proof.
  intros Hwf. induction 1 as [| n ls ls1 ls' Hr Hn IH]; intros Hinv Hcfg Hold; [done |].
  destruct (logged_round_writes _ _ _ Hinv Hcfg Hwf Hold Hr) as [Hcfg1 Hold1].
  apply IH; [| done..]. exact (round_inv _ _ Hinv (logged_round_round _ _ Hr)).
Qed.

(** Over a run of any length the driver writes nothing but the soft reset
    and bytes that satisfy the table. *)
Theorem run_writes n s ls' :
  driver_inv s -> Forall cfg_wf (_register_cfg (driver s)) ->
  nsteps logged_round n (record s) ls' ->
  Forall (write_expected (_register_cfg (driver s))) (issued (world ls')).
Proof.
  intros Hinv Hwf Hn.
  by apply (logged_rounds_write _ n (record s)); [| | apply record_inv | | constructor].
Qed.

End WritesOfSteps.

(** ** A step and a run on the simulated device *)

(** The step in [CONFIGURE] after a reset, with the table of three
    entries. *)
Lemma RunImpl_writes_witness :
  exists ls',
    RunImpl (record (sim_run 2 sim_started).2) = Some (tt, ls') /\
    Forall (write_allowed STATE.CONFIGURE continuous_cfg) (issued (world ls')).
Proof.
  destruct (RunImpl_defined (sim_run 2 sim_started).2) as [s' Hrun];
    [apply sim_run_inv; [apply sim_started_inv | sim_compute] |].
  destruct (RunImpl_recorded _ _ Hrun) as (lw & Hrec & _).
  eexists. split; [exact Hrec |].
  exact (RunImpl_writes (sim_run 2 sim_started).2 _ (proj1 continuous_cfg_wf) Hrec).
Defined.
