(* ===== verification/Detection.v ===== *)
(** * Detection: a register that has lost its configuration is found

    The periodic check of [READ] looks at one entry of the table at a time,
    and only when more than 100 ms have passed since the last check that
    passed.  This file bounds the time a fault can stay hidden: the rounds
    of [READ] are 20 ms apart, so a check is due in every sixth round at
    the latest, and the index of the check gets to any entry after at most
    as many checks as the table has entries.  With the recovery of
    [Recovery] this gives the repair of every fault within six rounds for
    every entry and four more.  The measure that decreases is
    [detection_time]. *)

From Stdlib Require Import ZArith Lia Bool.
From stdpp Require Import base tactics option list relations.
From S2P Require Import Prelude Registers Platform RegisterAccess Decoder Driver.
From S2P Require Import SimDevice Configuration Lifecycle Progress Steps Recovery.

#[local] Open Scope Z_scope.

(** ** The time a fault can stay hidden *)

(** The checks that pass before the index [i] of the periodic check gets to
    [j], in a table of [n] entries. *)
Definition dist (n i j : Z) : Z := if i <=? j then j - i else j - i + n.

Lemma dist_range n i j : 0 <= i < n -> 0 <= j < n -> 0 <= dist n i j < n.
Proof. unfold dist. destruct (Z.leb_spec i j); lia. Qed.

Lemma dist_next n i j :
  0 <= i < n -> 0 <= j < n -> i <> j -> dist n ((i + 1) mod n) j = dist n i j - 1.
Proof.
  intros Hi Hj Hne. unfold dist. destruct (decide (i + 1 = n)) as [Heq | Hn].
  - rewrite Heq, Z.mod_same by lia. destruct (Z.leb_spec 0 j), (Z.leb_spec i j); lia.
  - rewrite Z.mod_small by lia. destruct (Z.leb_spec (i + 1) j), (Z.leb_spec i j); lia.
Qed.

Section Detection.
Context {W : Type} `{PlatformLaws W} `{!RegisterFile W} `{!Chip W}.
Implicit Types (w : W) (s : System W).

(** The time left until a check is due whatever the bus does. *)
Definition check_deadline s : Z :=
  Z.max 0 (_last_config_check_timestamp (driver s) + ms 100 - hrt_absolute_time (world s)).

(** A bound on the time until entry [j] is checked: every entry before it
    takes a check, which is due 100 ms after the last and happens in the
    round after that at the latest; a round that is queued to run at once
    does not let time pass. *)
Definition detection_time (j : nat) s : Z :=
  ms 120 * dist (size_register_cfg (driver s)) (_checked_register (driver s)) (Z.of_nat j)
  + check_deadline s
  + (if run_now (_schedule (driver s)) then ms 20 else 0).

(** Entry [j] of the table does not hold of its register. *)
Definition broken (j : nat) s : Prop :=
  exists c, _register_cfg (driver s) !! j = Some c /\
    control (reg c) /\ ~ cfg_holds c (peek (world s) (reg c)).

(** A quiet round that leaves the driver in [READ]. *)
Definition reading_round s s' : Prop :=
  quiet_round s s' /\ _state (driver s') = STATE.READ.

(** The timestamp of the last check that passed. *)
Lemma RunImpl_check_timestamp s s' :
  driver_inv s -> RunImpl s = Some (tt, s') -> _state (driver s) = STATE.READ ->
  _last_config_check_timestamp (driver s') =
  if passed (observe s) then hrt_absolute_time (world s)
  else _last_config_check_timestamp (driver s).
Proof.
  intros Hinv Hrun. pose proof (lookup_checked_register s Hinv) as [c Hc].
  destruct Hinv as [Hsz Hck Hf _ _ _ _].
  unfold observe, observe_READ, check_due.
  wp_from Hrun. wp_simpl. intros Hrun Hst. revert Hrun. rewrite Hst.
  wp_cases_with ltac:(rewrite ?Hc, ?Hf; cbn [passed negb orb]); intros [= <-]; done.
Qed.

(** The driver reads, the chip is alive, and entry [j] does not hold. *)
Definition hidden (j : nat) s : Prop :=
  driver_inv s /\ _state (driver s) = STATE.READ /\ alive (world s) /\ broken j s.

(** What a step in [READ] observes: no check, and then the last one is no
    more than 100 ms ago, or the check of the current entry. *)
Lemma observe_READ_cases s :
  driver_inv s -> _state (driver s) = STATE.READ ->
  (exists f, observe s = Sampled f None /\
     hrt_absolute_time (world s) <= _last_config_check_timestamp (driver s) + ms 100) \/
  (exists f c,
     _register_cfg (driver s) !! Z.to_nat (_checked_register (driver s)) = Some c /\
     observe s = Sampled f (Some (fst (RegisterCheck c (snd (sample_bus (world s))))))).
Proof.
  intros Hinv Hst. pose proof (lookup_checked_register s Hinv) as [c Hc].
  destruct Hinv as [_ _ _ _ Ht _ _].
  unfold observe. rewrite Hst. unfold observe_READ. rewrite Hc.
  destruct (check_due s) eqn:Hdue; [right; eauto |]. left. eexists. split; [done |].
  unfold check_due in Hdue. apply orb_false_elim in Hdue as [_ Hdue].
  pose proof (clock_mono_sample_bus (world s)).
  rewrite elapsed_since_exact in Hdue by lia. lia.
Qed.

(** The check of an entry that does not hold fails. *)
Lemma broken_check_fails j s c w :
  broken j s -> _register_cfg (driver s) !! j = Some c ->
  alive w -> undisturbed (world s) w -> alive (world s) ->
  fst (RegisterCheck c w) = false.
Proof.
  intros (c' & Hc' & Hctl & Hbad) Hc Hw Hu Hws. rewrite Hc in Hc'. injection Hc' as <-.
  destruct (RegisterCheck_peek c w) as (-> & _ & _); [by apply alive_healthy |].
  destruct (Hu Hws) as [_ Hp]. rewrite Hp by done. by apply bool_decide_false.
Qed.

(** The fault stays where it is while the chip is undisturbed. *)
Lemma broken_undisturbed j s s' :
  broken j s -> alive (world s) -> undisturbed (world s) (world s') ->
  _register_cfg (driver s') = _register_cfg (driver s) -> broken j s'.
Proof.
  intros (c & Hc & Hctl & Hbad) Hw Hu Hcfg. destruct (Hu Hw) as [_ Hp].
  exists c. rewrite Hcfg, Hp by done. done.
Qed.

(** The start of a round in [READ]: 20 ms have passed, unless the item
    was queued to run at once. *)
Lemma env_step_READ s s1 :
  driver_inv s -> _state (driver s) = STATE.READ -> env_step s s1 ->
  _last_config_check_timestamp (driver s1) = _last_config_check_timestamp (driver s) /\
  hrt_absolute_time (world s) + (if run_now (_schedule (driver s)) then 0 else ms 20)
  <= hrt_absolute_time (world s1).
Proof.
  intros [_ _ _ _ _ _ Hsch] Hst (d & Hd & -> & _ & Hclk). split; [done |].
  revert Hd. unfold next_delay. rewrite (Hsch Hst).
  destruct (run_now _); intros [= <-]; exact Hclk.
Qed.

(** A step in [READ] that stays there: either no check was due, or the
    check of the current entry has passed. *)
Lemma RunImpl_stays_READ s s' :
  driver_inv s -> _state (driver s) = STATE.READ ->
  RunImpl s = Some (tt, s') -> _state (driver s') = STATE.READ ->
  _schedule (driver s') = _schedule (driver s) /\
  ((_checked_register (driver s') = _checked_register (driver s) /\
    _last_config_check_timestamp (driver s') = _last_config_check_timestamp (driver s) /\
    hrt_absolute_time (world s) <= _last_config_check_timestamp (driver s) + ms 100) \/
   (exists c,
      _register_cfg (driver s) !! Z.to_nat (_checked_register (driver s)) = Some c /\
      fst (RegisterCheck c (snd (sample_bus (world s)))) = true /\
      _checked_register (driver s') =
      (_checked_register (driver s) + 1) mod size_register_cfg (driver s) /\
      _last_config_check_timestamp (driver s') = hrt_absolute_time (world s))).
Proof.
  intros Hinv Hst Hrun Hst'.
  destruct (RunImpl_refines s s' Hinv Hrun) as [Hnext Hsch].
  destruct (RunImpl_checked_register s s' Hinv Hrun) as [_ Hidx].
  pose proof (RunImpl_check_timestamp s s' Hinv Hrun Hst) as Hts.
  rewrite Hst, Hst' in Hnext. rewrite Hst in Hsch.
  destruct (observe_READ_cases s Hinv Hst) as [(f & Ho & Hclk) | (f & c & Hc & Ho)];
    rewrite Ho in *.
  - split; [done |]. by left.
  - destruct (fst (RegisterCheck c _)) eqn:Hok; [| done].
    split; [done |]. right. by exists c.
Qed.

(** A check that passes is not the check of the entry that does not
    hold. *)
Lemma fault_not_checked j s s1 c :
  broken j s -> alive (world s) -> undisturbed (world s) (world s1) ->
  _register_cfg (driver s1) = _register_cfg (driver s) ->
  _register_cfg (driver s1) !! Z.to_nat (_checked_register (driver s1)) = Some c ->
  fst (RegisterCheck c (snd (sample_bus (world s1)))) = true ->
  _checked_register (driver s1) <> Z.of_nat j.
Proof.
  intros Hbr Hw Hu Hcfg Hc Hok Hidx. rewrite Hidx, Nat2Z.id, Hcfg in Hc.
  destruct (Hu Hw) as [Hw1 _].
  rewrite (broken_check_fails j s c (snd (sample_bus (world s1)))) in Hok; try done.
  - by apply (along_sample_bus undisturbed undisturbed_read).
  - etransitivity; [exact Hu |]. apply (along_sample_bus undisturbed undisturbed_read).
Qed.

(** A round that leaves the driver in [READ] has not checked the entry
    that does not hold: the fault is still hidden, and there is less time
    left until it is found. *)
Lemma reading_round_hidden j s s' :
  hidden j s -> reading_round s s' ->
  hidden j s' /\ detection_time j s' + ms 20 <= detection_time j s.
Proof.
  intros (Hinv & Hst & Hw & Hbr) [(s1 & [Henv Hu] & Hrun) Hst'].
  pose proof (env_step_inv _ _ Hinv Henv) as Hinv1.
  pose proof (env_step_run_now _ _ Henv) as Hnow1.
  destruct (env_step_members _ _ Henv) as (Hst1 & _ & Hidx1 & Hcfg1). rewrite Hst in Hst1.
  destruct (env_step_READ _ _ Hinv Hst Henv) as [Hts1 Hclk1].
  destruct (Hu Hw) as [Hw1 _].
  destruct (RunImpl_checked_register s1 s' Hinv1 Hrun) as [Hcfg' _].
  pose proof (RunImpl_clock s1 s' Hrun) as Hclk'.
  assert (undisturbed (world s1) (world s')) as Hu'
    by (apply (RunImpl_undisturbed s1 s' Hrun); by rewrite Hst1).
  assert (undisturbed (world s) (world s')) as Hu2 by (by etransitivity).
  split.
  { split_and!; [exact (wp_run _ _ _ _ _ Hrun (RunImpl_inv_wp s1 Hinv1)) | done | by apply Hu2 |].
    apply (broken_undisturbed j s); [done.. |]. by rewrite Hcfg'. }
  destruct (RunImpl_stays_READ s1 s' Hinv1 Hst1 Hrun Hst')
    as [Hsch [(Hidx & Hts & Hdue) | (c & Hc & Hok & Hidx & Hts)]].
  all: unfold detection_time, check_deadline, size_register_cfg.
  all: rewrite Hsch, Hnow1, Hidx, Hts, Hcfg', ?Hidx1, ?Hts1, ?Hcfg1.
  - rewrite Hts1 in Hdue. revert Hclk1.
    destruct (run_now (_schedule (driver s))); cbv iota; unfold ms in *; lia.
  - destruct Hinv as [Hsz Hck _ _ _ _ _]. unfold size_register_cfg in *. rewrite Hcfg1.
    assert (_checked_register (driver s) <> Z.of_nat j) as Hne
      by (rewrite <- Hidx1; by apply (fault_not_checked j s s1 c)).
    destruct Hbr as (cj & Hcj & _). pose proof (lookup_lt_Some _ _ _ Hcj) as Hj.
    rewrite dist_next by lia.
    revert Hclk1. destruct (run_now (_schedule (driver s))); cbv iota; unfold ms in *; lia.
Qed.

Lemma reading_rounds_hidden j n : forall s s',
  hidden j s -> nsteps reading_round n s s' ->
  hidden j s' /\ detection_time j s' + ms 20 * Z.of_nat n <= detection_time j s.
Proof.
  induction n as [| n IH]; intros s s' Hh Hn.
  - inversion Hn; subst. split; [done | lia].
  - apply nsteps_inv_r in Hn as (s1 & Hn & Hr).
    destruct (IH _ _ Hh Hn) as [Hh1 Ht1].
    destruct (reading_round_hidden _ _ _ Hh1 Hr) as [Hh' Ht']. split; [done | lia].
Qed.

Lemma detection_time_range j s :
  hidden j s -> 0 <= detection_time j s <= ms 120 * size_register_cfg (driver s).
Proof.
  intros ([Hsz Hck _ _ Ht _ _] & _ & _ & c & Hc & _).
  apply lookup_lt_Some in Hc. unfold detection_time, check_deadline, size_register_cfg in *.
  pose proof (dist_range (Z.of_nat (length (_register_cfg (driver s))))
                (_checked_register (driver s)) (Z.of_nat j)).
  destruct (run_now _); unfold ms in *; lia.
Qed.

(** A quiet round keeps the invariant, the table and the chip; from
    [READ] it leads to [READ] or to [RESET]. *)
Lemma quiet_round_keeps s s' :
  driver_inv s -> quiet_round s s' ->
  driver_inv s' /\ _register_cfg (driver s') = _register_cfg (driver s) /\
  stays_alive (world s) (world s') /\
  (_state (driver s) = STATE.READ ->
   _state (driver s') = STATE.READ \/ _state (driver s') = STATE.RESET).
Proof.
  intros Hinv (s1 & [Henv Hu] & Hrun).
  pose proof (env_step_inv _ _ Hinv Henv) as Hinv1.
  destruct (env_step_members _ _ Henv) as (Hst1 & _ & _ & Hcfg1).
  destruct (RunImpl_refines s1 s' Hinv1 Hrun) as [Hnext _].
  destruct (RunImpl_checked_register s1 s' Hinv1 Hrun) as [Hcfg' _].
  split_and!.
  - exact (wp_run _ _ _ _ _ Hrun (RunImpl_inv_wp s1 Hinv1)).
  - by rewrite Hcfg'.
  - intros Hw. apply (RunImpl_alive s1 s' Hrun). by apply Hu.
  - intros Hst. rewrite Hnext, Hst1, Hst. destruct (observe s1) as [| | | f [[] |]]; auto.
Qed.

(** A run from a hidden fault stays in [READ], or leaves it for [RESET]
    after some rounds in [READ]. *)
Lemma first_reset j m : forall s s',
  hidden j s -> table_ok s -> nsteps quiet_round m s s' ->
  nsteps reading_round m s s' \/
  exists k s1 s2,
    (k < m)%nat /\ nsteps reading_round k s s1 /\ quiet_round s1 s2 /\
    driver_inv s2 /\ table_ok s2 /\ on_track STATE.RESET s2 /\
    nsteps quiet_round (m - k - 1) s2 s'.
Proof.
  induction m as [| m IH]; intros s s' Hh Hok Hn.
  { inversion Hn; subst. left. constructor. }
  inversion Hn as [| ? ? s1 ? Hr Hrest]; subst.
  destruct Hh as (Hinv & Hst & Hw & Hbr).
  destruct (quiet_round_keeps _ _ Hinv Hr) as (Hinv1 & Hcfg1 & Hw1 & Hst1).
  assert (table_ok s1) as Hok1 by (unfold table_ok; by rewrite Hcfg1).
  destruct (Hst1 Hst) as [Hread | Hreset].
  - assert (reading_round s s1) as Hrr by done.
    destruct (reading_round_hidden j s s1) as [Hh1 _]; [done.. |].
    destruct (IH _ _ Hh1 Hok1 Hrest) as [Hall | (k & s2 & s3 & Hk & Hrs & Hq & Hrem)].
    + left. by econstructor.
    + right. exists (S k), s2, s3. split_and!; [lia | by econstructor | done | apply Hrem..].
  - right. exists 0%nat, s, s1.
    rewrite Nat.sub_0_r. cbn. rewrite Nat.sub_0_r.
    split_and!; [lia | constructor | done | done | done | by split; [| apply Hw1] | done].
Qed.

(** C17: a fault does not stay hidden: while an entry of the table does
    not hold of its control register, on a chip that is alive and left
    undisturbed, the driver stays in [READ] for at most six rounds for every
    entry of the table: the check is due every sixth round at the latest,
    and it gets to the entry after at most as many checks as the table has
    entries. *)
Theorem detection_bound j n s s' :
  hidden j s -> nsteps reading_round n s s' ->
  (n <= 6 * length (_register_cfg (driver s)))%nat.
Proof.
  intros Hh Hn. destruct (reading_rounds_hidden j n s s' Hh Hn) as [Hh' Ht].
  pose proof (detection_time_range j s Hh). pose proof (detection_time_range j s' Hh').
  unfold size_register_cfg, ms in *. lia.
Qed.

(** A fault that is hidden is found and repaired. *)
Lemma hidden_settles j m s s' :
  hidden j s -> table_ok s ->
  (6 * length (_register_cfg (driver s)) + 4 <= m)%nat ->
  nsteps quiet_round m s s' -> serving s'.
Proof.
  intros Hh Hok Hm Hn.
  destruct (first_reset j m s s' Hh Hok Hn)
    as [Hall | (k & s1 & s2 & Hk & Hrs & _ & Hinv2 & Hok2 & Htr2 & Hrest)].
  { pose proof (reading_rounds_hidden j m s s' Hh Hall) as [Hh' Ht].
    pose proof (detection_time_range j s Hh). pose proof (detection_time_range j s' Hh').
    unfold size_register_cfg, ms in *. lia. }
  pose proof (reading_rounds_hidden j k s s1 Hh Hrs) as [Hh1 Ht].
  pose proof (detection_time_range j s Hh). pose proof (detection_time_range j s1 Hh1).
  apply (on_track_settles STATE.RESET (m - k - 1) s2); [done.. | | done].
  unfold size_register_cfg, ms in *. lia.
Qed.

(** C6: repair: a control register that has lost its configuration is
    found and written again: after six rounds for every entry of the table
    and four more, on a chip that is alive and that nothing but the driver
    writes to, the driver is in [READ] and every entry of the table holds. *)
Theorem repair j m s s' :
  hidden j s -> table_ok s ->
  (6 * length (_register_cfg (driver s)) + 4 <= m)%nat ->
  nsteps quiet_round m s s' -> serving s'.
Proof. apply hidden_settles. Qed.

End Detection.

(** ** On the simulated device *)

(** [SET_RESET_PERIOD], the third entry of the table, has lost its
    configuration, on a device whose transfers take no time; the last check
    has just passed, the index is at the first entry, and the item is
    queued to run at once: the fault stays hidden as long as it can. *)
Definition sim_hidden_system : System SimDevice :=
  {| driver := set_last_config_check_timestamp (ms 500)
                 (set_schedule ScheduleNow (sim_driver STATE.READ));
     world :=
       {| sim_regs := <[ Register.addr Register.SET_RESET_PERIOD := 0 ]> sim_sample_regs;
          sim_clock := ms 500; sim_cost := 0; sim_faults := []; sim_down := false;
          sim_log := [];
          sim_soft_reset := true; sim_init_status := PX4_OK |} |}.

(** [n] rounds that leave the driver in [READ]. *)
Fixpoint sim_reading (n : nat) (s : System SimDevice) : option (System SimDevice) :=
  match n with
  | O => Some s
  | S n =>
      s' ← sim_round s;
      if decide (_state (driver s') = STATE.READ) then sim_reading n s' else None
  end.

Lemma sim_reading_sound n : forall s s',
  sim_reading n s = Some s' -> nsteps reading_round n s s'.
Proof.
  induction n as [| n IH]; intros s s'; cbn [sim_reading].
  - intros [= <-]. constructor.
  - destruct (sim_round s) as [s1 |] eqn:Hr; [| done]. cbn [mbind option_bind].
    destruct (decide _) as [Hst |]; [| done].
    intros Hn. econstructor; [split; eauto using sim_round_quiet | eauto].
Qed.

Lemma sim_hidden_system_hidden : hidden 2 sim_hidden_system.
Proof.
  split_and!; [sim_inv | done | done |].
  eexists. split_and!; [reflexivity | done |]. vm_compute. by intros [[=] _].
Qed.

(** The bound is attained: eighteen rounds in [READ] with a table of three
    entries; the nineteenth round finds the fault. *)
Lemma detection_bound_witness :
  nsteps reading_round 18 sim_hidden_system
    (default sim_hidden_system (sim_reading 18 sim_hidden_system)) /\
  sim_reading 19 sim_hidden_system = None /\
  (18 <= 6 * length (_register_cfg (driver sim_hidden_system)))%nat.
Proof.
  assert (nsteps reading_round 18 sim_hidden_system
            (default sim_hidden_system (sim_reading 18 sim_hidden_system))) as Hn
    by (apply sim_reading_sound; sim_compute).
  split_and!; [exact Hn | sim_compute |].
  exact (detection_bound 2 18 _ _ sim_hidden_system_hidden Hn).
Defined.

Lemma repair_witness : serving (sim_rounds_state 22 sim_hidden_system).
Proof.
  apply (repair 2 22 sim_hidden_system);
    [apply sim_hidden_system_hidden | by apply continuous_cfg_ok | cbn; lia |].
  apply sim_rounds_quiet. sim_compute.
Defined.
