(* ===== verification/Stabilisation.v ===== *)
(** * Stabilisation: from any state to [READ]

    The theorems of [Recovery] and [Detection] start from a driver that is
    where it should be.  This file starts from any state of the driver
    object that satisfies the invariant, and any content of the chip's
    registers: the driver may be waiting for a reset that was never
    issued, configuring a chip that is in reset, or reading from a chip
    that is not configured.  From [WAIT_FOR_RESET] and from [CONFIGURE] it
    gets out within eleven rounds, by the budget of one second
    ([Progress.retrying_rounds]), to the next state or to [RESET]; from
    [READ] it resets when the periodic check finds the fault ([Detection]);
    from [RESET] three rounds lead to [READ] ([Recovery]). *)

From Stdlib Require Import ZArith Lia Bool.
From stdpp Require Import base tactics option list relations.
From S2P Require Import Prelude Registers Platform RegisterAccess Decoder Driver.
From S2P Require Import SimDevice Configuration Lifecycle Progress Steps Recovery Detection.

#[local] Open Scope Z_scope.

Section Stabilisation.
Context {W : Type} `{PlatformLaws W} `{!RegisterFile W} `{!Chip W}.
Implicit Types (w : W) (s : System W).

(** ** What quiet rounds keep *)

Lemma quiet_rounds_keep n : forall s s',
  driver_inv s -> nsteps quiet_round n s s' ->
  driver_inv s' /\ _register_cfg (driver s') = _register_cfg (driver s) /\
  stays_alive (world s) (world s').
Proof.
  induction n as [| n IH]; intros s s' Hinv Hn.
  - inversion Hn; subst. done.
  - apply nsteps_inv_r in Hn as (s1 & Hn & Hr).
    destruct (IH _ _ Hinv Hn) as (Hinv1 & Hcfg1 & Hw1).
    destruct (quiet_round_keeps _ _ Hinv1 Hr) as (Hinv' & Hcfg' & Hw' & _).
    split_and!; [done | by rewrite Hcfg' | by etransitivity].
Qed.

Lemma quiet_round_round s s' : quiet_round s s' -> round s s'.
Proof. intros (s1 & [Henv _] & Hrun). by exists s1. Qed.

(** ** The way out of the two states that retry *)

(** [Configure] that succeeds has found every entry holding. *)
Lemma configure_bus_true cfg w :
  alive w -> fst (configure_bus cfg w) = true ->
  configured cfg (snd (configure_bus cfg w)).
Proof.
  intros Hw. unfold configure_bus, bind. cbv beta zeta.
  pose proof (along_apply_register_cfg stays_alive stays_alive_read stays_alive_write
                cfg w Hw) as Hw1.
  destruct (check_register_cfg_configured cfg (snd (apply_register_cfg cfg w)) true)
    as (Hiff & _ & Hp); [by apply alive_healthy |].
  intros Hok. rewrite Hp. by apply Hiff.
Qed.

(** The step out of [WAIT_FOR_RESET] or [CONFIGURE] leaves the chip as the
    next state takes it to be. *)
Lemma RunImpl_exit st s s' :
  driver_inv s -> retrying st -> _state (driver s) = st -> alive (world s) ->
  RunImpl s = Some (tt, s') -> _state (driver s') <> st ->
  on_track (_state (driver s')) s'.
Proof.
  intros Hinv Hret Hst Hw Hrun Hne.
  destruct (RunImpl_refines s s' Hinv Hrun) as [Hnext _].
  destruct (RunImpl_checked_register s s' Hinv Hrun) as [Hcfg _].
  pose proof (RunImpl_alive s s' Hrun Hw) as Hw'.
  pose proof (RunImpl_world s s' Hrun) as Hworld.
  pose proof (RunImpl_undisturbed s s' Hrun) as Hu.
  split; [done |]. revert Hne. rewrite Hnext. unfold observe. rewrite Hst in *.
  destruct Hret as [-> | ->]; cbn [lifecycle_next observe_WAIT_FOR_RESET observe_CONFIGURE].
  - destruct (RegisterRead_peek Register.CNTL2 (world s)) as (Hv & _ & _);
      [by apply alive_healthy |].
    rewrite Hv. destruct (Z.eqb_spec (Z.land (peek (world s) Register.CNTL2)
                                        CNTL2_BIT.SOFT_RST) 0) as [Hb | Hb]; cbn.
    + intros _. destruct (Hu ltac:(done) ltac:(done) Hw) as [_ Hp].
      split; [done | by rewrite Hp].
    + by destruct (_ >? _).
  - destruct (fst (configure_bus _ _)) eqn:Hok; cbn.
    + intros _. split; [done |]. rewrite Hcfg, Hworld. by apply configure_bus_true.
    + by destruct (_ >? _).
Qed.

(** From [WAIT_FOR_RESET] or [CONFIGURE] the driver gets to [READ]. *)
Lemma retrying_settles st m s s' :
  driver_inv s -> table_ok s -> retrying st -> _state (driver s) = st ->
  alive (world s) -> (15 <= m)%nat -> nsteps quiet_round m s s' -> serving s'.
Proof.
  intros Hinv Hok Hret Hst Hw Hm Hn.
  destruct (nsteps_first_exit quiet_round (fun s => _state (driver s) = st) m s s' Hn)
    as [Hall | (k & s1 & s2 & Hk & Hstay & Hr & Hne & Hrest)].
  { pose proof (retrying_rounds quiet_round_round st m s s' Hinv Hret Hst Hall). lia. }
  pose proof (retrying_rounds quiet_round_round st k s s1 Hinv Hret Hst Hstay) as Hk11.
  pose proof (staying_last _ _ _ _ _ Hstay Hst) as Hst1. cbn beta in Hst1.
  destruct (quiet_rounds_keep k s s1 Hinv (nsteps_staying _ _ _ _ _ Hstay))
    as (Hinv1 & Hcfg1 & Hw1).
  destruct (quiet_round_keeps s1 s2 Hinv1 Hr) as (Hinv2 & Hcfg2 & _ & _).
  destruct Hr as (s0 & [Henv Hu] & Hrun).
  destruct (env_step_members _ _ Henv) as (Hst0 & _).
  apply (on_track_settles (_state (driver s2)) (m - k - 1) s2); [done | | | lia | done].
  - unfold table_ok. by rewrite Hcfg2, Hcfg1.
  - apply (RunImpl_exit st s0 s2); eauto using env_step_inv; [congruence |].
    by apply Hu, Hw1.
Qed.

(** ** From any state *)

(** In [READ], the table holds or one of its entries does not. *)
Lemma READ_serving_or_hidden s :
  driver_inv s -> table_ok s -> _state (driver s) = STATE.READ -> alive (world s) ->
  serving s \/ exists j, hidden j s.
Proof.
  intros Hinv (_ & _ & _ & Hctl) Hst Hw.
  destruct (decide (configured (_register_cfg (driver s)) (world s))) as [Hcfg | Hcfg].
  { by left. }
  right. apply not_Forall_Exists in Hcfg; [| apply _].
  apply Exists_exists in Hcfg as (c & Hin & Hbad).
  pose proof (proj1 (Forall_forall _ _) Hctl c Hin) as Hc.
  apply list_elem_of_lookup_1 in Hin as [j Hj]. exists j. split_and!; [done.. |].
  by exists c.
Qed.

(** The driver is self-stabilising: from any state of the driver
    object that satisfies the invariant, with any content of the chip's
    registers, on a chip that is alive and that nothing but the driver
    writes to, the driver is in [READ] with every entry of the table holding
    after fifteen rounds and six for every entry of the table, and from
    then on. *)
Theorem self_stabilising m s s' :
  driver_inv s -> table_ok s -> alive (world s) ->
  (6 * length (_register_cfg (driver s)) + 15 <= m)%nat ->
  nsteps quiet_round m s s' -> serving s'.
Proof.
  intros Hinv Hok Hw Hm Hn. destruct (_state (driver s)) eqn:Hst.
  - apply (on_track_settles STATE.RESET m s); [done.. | lia | done].
  - apply (retrying_settles STATE.WAIT_FOR_RESET m s); try done; [by left | lia].
  - apply (retrying_settles STATE.CONFIGURE m s); try done; [by right | lia].
  - destruct (READ_serving_or_hidden s) as [Hs | [j Hh]]; [done.. | |].
    + apply (on_track_settles STATE.READ m s); [done.. | lia | done].
    + apply (hidden_settles j m s); [done.. | lia | done].
Qed.

End Stabilisation.

(** ** On the simulated device *)

(** The driver waits for a reset that the chip has never been asked for:
    [SOFT_RST] reads as set. *)
Definition sim_lost_system : System SimDevice :=
  {| driver := sim_driver STATE.WAIT_FOR_RESET;
     world := sim_device {[ Register.addr Register.CNTL2 := CNTL2_BIT.SOFT_RST ]}
                (ms 500) [] true |}.

Lemma self_stabilising_witness : serving (sim_rounds_state 33 sim_lost_system).
Proof.
  apply (self_stabilising 33 sim_lost_system);
    [sim_inv | by apply continuous_cfg_ok | done | cbn; lia |].
  apply sim_rounds_quiet. sim_compute.
Defined.
