(* ===== verification/Faults.v ===== *)
(** * Faults: a bus that fails for a while

    [Chip] describes a device that answers every transfer.  [Transient]
    adds the bus that does not: the number of transfers after which no
    transfer fails any more, which every transfer the driver issues takes
    one from, and the chip behind it; when the number is zero the chip is
    alive.  Any of the transfers before may fail, or not.  A fault
    may leave the driver anywhere: a write of the reset bit that is lost, a
    read in [WAIT_FOR_RESET] that fails and is taken for a reset that is
    complete, a [Configure] that fails half way, a failed block read that
    forces the check of a register.  Every step issues a transfer, so the
    faults that come within [k] transfers are over after [k] rounds, and
    the driver is back
    in [READ] a bounded number of rounds later, whatever state the faults
    left it in ([Stabilisation.self_stabilising]). *)

From Stdlib Require Import ZArith Lia Bool.
From stdpp Require Import base tactics option list relations.
From S2P Require Import Prelude Registers Platform RegisterAccess Decoder Driver.
From S2P Require Import SimDevice Configuration Lifecycle Progress Graded Steps Recovery.
From S2P Require Import Detection Stabilisation.

#[local] Open Scope Z_scope.

(** ** A bus with transient faults *)

(** After [pending w] transfers no transfer fails any more, and [sound w]
    says that the chip behind the bus works.  A transfer takes one from the
    number, whether it fails or not, and leaves the chip sound. *)
Class Transient (W : Type) `{Chip W} : Type := {
  pending : W -> nat;
  sound : W -> Prop;
  recovered : forall w, pending w = 0%nat -> sound w -> alive w;
  read_pending : forall w r n,
    (pending (snd (transfer [Register.addr r] n w)) <= pending w - 1)%nat /\
    (sound w -> sound (snd (transfer [Register.addr r] n w)));
  write_pending : forall w r v,
    (pending (snd (transfer [Register.addr r; v] 0 w)) <= pending w - 1)%nat /\
    (sound w -> sound (snd (transfer [Register.addr r; v] 0 w)));
}.

Section Faults.
Context {W : Type} `{Transient W}.
Implicit Types (w : W) (s : System W).

(** From [w] to [w'] at least [n] of the pending faults were taken, and
    the chip stays sound. *)
Definition settled (n : nat) (w w' : W) : Prop :=
  (pending w' <= pending w - n)%nat /\ (sound w -> sound w').

(** The work queue starts the item; no fault is added, and a chip that is
    alive is left undisturbed. *)
Definition fair_step (s s1 : System W) : Prop :=
  env_step s s1 /\ settled 0 (world s) (world s1) /\ undisturbed (world s) (world s1).

Definition fair_round (s s' : System W) : Prop :=
  exists s1, fair_step s s1 /\ RunImpl s1 = Some (tt, s').

#[export] Instance settled_preorder : PreOrder (settled 0).
Proof.
  split; [intros w; split; [lia | done] |].
  intros w1 w2 w3 [H12 S12] [H23 S23]. split; [lia | auto].
Qed.

Lemma settled_trans a b w1 w2 w3 :
  settled a w1 w2 -> settled b w2 w3 -> settled (a + b) w1 w3.
Proof. intros [H12 S12] [H23 S23]. split; [lia | auto]. Qed.

Lemma settled_weaken a b w w' : (b <= a)%nat -> settled a w w' -> settled b w w'.
Proof. intros Hab [Hp Hs]. split; [lia | done]. Qed.

Lemma settled_read_transfer r n w : settled 1 w (snd (transfer [Register.addr r] n w)).
Proof. apply read_pending. Qed.

Lemma settled_write_transfer r v w :
  settled 1 w (snd (transfer [Register.addr r; v] 0 w)).
Proof. apply write_pending. Qed.

(** The faults taken are counted from below. *)
#[export] Instance settled_graded : Graded (fun lo _ => settled lo).
Proof.
  split; [reflexivity | |].
  - intros l1 _ l2 _ w1 w2 w3. apply settled_trans.
  - intros l _ l' _ w w' Hs Hl _. by apply (settled_weaken l).
Qed.

End Faults.

Section Bursts.
Context {W : Type} `{PlatformLaws W} `{!RegisterFile W} `{!Chip W} `{!Transient W}.
Implicit Types (w : W) (s : System W).

(** Every step of the driver issues a transfer: it takes one of the
    pending faults. *)
Lemma RunImpl_settled s s' :
  driver_inv s -> RunImpl s = Some (tt, s') -> settled 1 (world s) (world s').
Proof.
  intros [Hsize _ _ _ _ _ _] Hrun. unfold size_register_cfg in Hsize.
  eapply settled_weaken;
    [| apply (RunImpl_costs (fun lo _ => settled lo)); eauto;
       intros; intros w; first [apply settled_read_transfer | apply settled_write_transfer] ].
  destruct (_state (driver s)); cbn; lia.
Qed.

End Bursts.

(** ** A burst of faults *)

Section Tolerance.
Context {W : Type} `{PlatformLaws W} `{!RegisterFile W} `{!Chip W} `{!Transient W}.
Implicit Types (w : W) (s : System W).

Lemma fair_round_quiet s s' : fair_round s s' -> quiet_round s s'.
Proof. intros (s1 & (Henv & _ & Hu) & Hrun). by exists s1. Qed.

(** A round takes one of the pending faults, and keeps the invariant and
    the table. *)
Lemma fair_round_settled s s' :
  driver_inv s -> fair_round s s' -> settled 1 (world s) (world s').
Proof.
  intros Hinv (s1 & (Henv & Hs & _) & Hrun).
  apply (settled_trans 0 1 _ (world s1)); [done |].
  apply RunImpl_settled; eauto using env_step_inv.
Qed.

Lemma fair_rounds_settled k : forall s s',
  driver_inv s -> nsteps fair_round k s s' -> settled k (world s) (world s').
Proof.
  induction k as [| k IH]; intros s s' Hinv Hn.
  - inversion Hn; subst. reflexivity.
  - inversion Hn as [| ? ? s1 ? Hr Hrest]; subst.
    apply (settled_trans 1 k _ (world s1)); [by apply fair_round_settled |].
    apply IH; [| done].
    exact (round_inv _ _ Hinv (quiet_round_round _ _ (fair_round_quiet _ _ Hr))).
Qed.

(** After as many rounds as there are faults pending the chip is alive,
    under a driver that satisfies the invariant and has its table. *)
Lemma burst_ends k s s' :
  driver_inv s -> sound (world s) -> (pending (world s) <= k)%nat ->
  nsteps fair_round k s s' ->
  driver_inv s' /\ _register_cfg (driver s') = _register_cfg (driver s) /\
  alive (world s').
Proof.
  intros Hinv Hs Hk Hn.
  destruct (fair_rounds_settled k s s' Hinv Hn) as [Hp Hs'].
  destruct (quiet_rounds_keep k s s' Hinv) as (Hinv' & Hcfg & _).
  { exact (nsteps_sub _ _ _ _ _ fair_round_quiet Hn). }
  split_and!; [done.. |]. apply recovered; [lia | auto].
Qed.

(** C5: transient bus faults are tolerated.  From any state of the driver
    object that satisfies the invariant, on a sound chip behind a bus on
    which no transfer fails after the next [k], whichever of these fail and
    whatever the faults make of the registers, the driver is in [READ] with
    every entry of the table holding after [k] rounds, fifteen more and six
    for every entry of the table, and from then on. *)
Theorem fault_tolerance k m s s' :
  driver_inv s -> table_ok s -> sound (world s) -> (pending (world s) <= k)%nat ->
  (6 * length (_register_cfg (driver s)) + 15 <= m)%nat ->
  nsteps fair_round (k + m) s s' -> serving s'.
Proof.
  intros Hinv Hok Hs Hk Hm Hn.
  apply nsteps_add_inv in Hn as (s1 & Hk1 & Hm1).
  destruct (burst_ends k s s1 Hinv Hs Hk Hk1) as (Hinv1 & Hcfg1 & Hw1).
  apply (self_stabilising m s1 s'); [done | | done | by rewrite Hcfg1 |].
  - unfold table_ok. by rewrite Hcfg1.
  - exact (nsteps_sub _ _ _ _ _ fair_round_quiet Hm1).
Qed.

End Tolerance.

(** ** On the simulated device *)

(** The script of the simulated bus bounds the faults to come; the chip
    is sound when its bus is up and it performs the soft reset. *)
Definition sim_sound (d : SimDevice) : Prop :=
  sim_down d = false /\ sim_soft_reset d = true.

Lemma sim_transfer_pending send n d :
  (length (sim_faults (snd (sim_transfer send n d))) <= length (sim_faults d) - 1)%nat /\
  (sim_sound d -> sim_sound (snd (sim_transfer send n d))).
Proof. split; [| done]. cbn. destruct (sim_faults d); cbn; lia. Qed.

#[export] Instance SimDevice_Transient : Transient SimDevice := {
  pending d := length (sim_faults d);
  sound := sim_sound;
  recovered d Hp Hs := conj (conj (proj1 Hs) (nil_length_inv _ Hp)) (proj2 Hs);
  read_pending d r n := sim_transfer_pending [Register.addr r] n d;
  write_pending d r v := sim_transfer_pending [Register.addr r; v] 0 d;
}.

(** The simulated work queue only lets time pass. *)
Lemma sim_round_fair s s' : sim_round s = Some s' -> fair_round s s'.
Proof.
  intros (s1 & Hstart & Hrun)%sim_round_inv. exists s1. split; [| done].
  destruct (sim_start_quiet _ _ Hstart) as [Henv Hu]. split; [done | split; [| done]].
  destruct (sim_start_world _ _ Hstart) as [d ->]. split; [cbn; lia | done].
Qed.

Lemma sim_rounds_fair n s s' : sim_rounds n s = Some s' -> nsteps fair_round n s s'.
Proof.
  apply (sim_rounds_nsteps fair_round (fun _ => True)); [| done].
  eauto using sim_round_fair.
Qed.

(** The driver reads from a configured chip when the bus starts to fail:
    of the next eight transfers, six fail. *)
Definition sim_burst_system : System SimDevice :=
  {| driver := sim_driver STATE.READ;
     world := sim_device sim_sample_regs (ms 500)
                [true; true; false; true; true; true; false; true] true |}.

Lemma fault_tolerance_witness : serving (sim_rounds_state (8 + 33) sim_burst_system).
Proof.
  apply (fault_tolerance 8 33 sim_burst_system);
    [sim_inv | by apply continuous_cfg_ok | done | cbn; lia | cbn; lia |].
  apply sim_rounds_fair. sim_compute.
Defined.
