(* ===== verification/Outage.v ===== *)
(** * Outage: a bus that stays down

    On a bus on which every transfer fails the driver reads zeroed buffers:
    [RegisterRead] drops the status of the transfer.  A reset then looks
    complete, and the check of an entry fails exactly when the entry asks
    for a bit to be set.  When the table has such an entry, the driver
    returns to [RESET] from every state within the budget of one second,
    as the specification asks of a sequence of failures that does not end;
    when the table only clears bits, [Configure] succeeds without a chip
    and the driver stays in [READ] for as long as the outage lasts, no
    transfer succeeding: the count of consecutive failures is never
    incremented. *)

From Stdlib Require Import ZArith Lia Bool.
From stdpp Require Import base tactics option list relations.
From S2P Require Import Prelude Registers Platform RegisterAccess Decoder Driver.
From S2P Require Import SimDevice Configuration Lifecycle Progress Steps Diagnostics.
From S2P Require Import Recovery Detection.

#[local] Open Scope Z_scope.

(** ** A bus that is down *)

Section Down.
Context {W : Type} `{Platform W}.
Implicit Types (w : W) (s : System W).

(** The next [n] transfers fail, and deliver no byte. *)
Fixpoint down (n : nat) (w : W) : Prop :=
  match n with
  | O => True
  | S n => forall send len,
      fst (fst (transfer send len w)) <> PX4_OK /\
      snd (fst (transfer send len w)) = [] /\
      down n (snd (transfer send len w))
  end.

(** Every transfer to come fails. *)
Definition dead (w : W) : Prop := forall n, down n w.

(** From [w] to [w'] the bus stays down. *)
Definition stays_dead (w w' : W) : Prop := dead w -> dead w'.

(** The work queue starts the item on a bus that is down; [RunImpl] runs. *)
Definition dead_round (s s' : System W) : Prop :=
  exists s1, env_step s s1 /\ dead (world s1) /\ RunImpl s1 = Some (tt, s').

(** The entry asks for a bit to be set. *)
Definition sets_bit (c : register_config_t) : bool := truthy (set_bits c).

#[export] Instance stays_dead_preorder : PreOrder stays_dead.
Proof. split; [intros w | intros w1 w2 w3 H12 H23]; unfold stays_dead in *; auto. Qed.

Lemma dead_transfer send len w :
  dead w ->
  fst (fst (transfer send len w)) <> PX4_OK /\
  snd (fst (transfer send len w)) = [] /\
  dead (snd (transfer send len w)).
Proof.
  intros Hd. split_and!; [apply (Hd 1%nat) | apply (Hd 1%nat) |].
  intros n. apply (Hd (S n)).
Qed.

Lemma stays_dead_transfer send len : along stays_dead (transfer send len).
Proof. intros w Hd. by apply dead_transfer. Qed.

(** A read on a bus that is down returns zero. *)
Lemma RegisterRead_dead r w : dead w -> fst (RegisterRead r w) = 0.
Proof.
  intros Hd. destruct (dead_transfer [Register.addr r] 1 w Hd) as (_ & Hdata & _).
  destruct (transfer [Register.addr r] 1 w) as [[st data] w'] eqn:Ht. cbn in Hdata.
  subst data. by rewrite (RegisterRead_no_data r w st w' Ht).
Qed.

(** The check of an entry passes on the zeroed buffer unless the entry
    asks for a bit to be set. *)
Lemma RegisterCheck_dead c w : dead w -> fst (RegisterCheck c w) = negb (sets_bit c).
Proof.
  intros Hd. pose proof (RegisterRead_dead (reg c) w Hd) as Hv.
  rewrite RegisterCheck_run. destruct (RegisterRead (reg c) w) as [v w1].
  cbn in *. subst v. unfold sets_bit, truthy.
  destruct (Z.eqb_spec (set_bits c) 0) as [Hs | Hs]; cbn.
  - apply bool_decide_eq_true_2. split; rewrite Z.land_0_l; congruence.
  - apply bool_decide_eq_false_2. intros [Hset _]. rewrite Z.land_0_l in Hset. congruence.
Qed.

End Down.

#[export] Hint Extern 1 (along stays_dead (transfer _ _)) =>
  apply stays_dead_transfer : along.

Section Outage.
Context {W : Type} `{PlatformLaws W}.
Implicit Types (w : W) (s : System W).

(** No entry of the table asks for a bit to be set. *)
Definition clears_only (cfg : list register_config_t) : bool :=
  forallb (fun c => negb (sets_bit c)) cfg.

(** The second loop of [Configure] on a bus that is down. *)
Lemma check_register_cfg_dead cfg : forall w success,
  dead w -> fst (check_register_cfg cfg success w) = success && clears_only cfg.
Proof.
  induction cfg as [| c cfg IH]; intros w success Hd.
  { cbn. by rewrite andb_true_r. }
  cbn [check_register_cfg clears_only forallb]. unfold bind. cbv beta zeta.
  rewrite IH by (by apply (along_RegisterCheck stays_dead); auto with along).
  rewrite (RegisterCheck_dead c w Hd). fold (clears_only cfg).
  by destruct success, (sets_bit c).
Qed.

(** [Configure] on a bus that is down succeeds exactly when the table only
    clears bits. *)
Lemma configure_bus_dead cfg w :
  dead w -> fst (configure_bus cfg w) = clears_only cfg.
Proof.
  intros Hd. unfold configure_bus, bind. cbv beta zeta.
  apply check_register_cfg_dead.
  by apply (along_apply_register_cfg stays_dead); auto with along.
Qed.

(** The bus stays down through a step. *)
Lemma RunImpl_dead s s' : RunImpl s = Some (tt, s') -> stays_dead (world s) (world s').
Proof. intros Hrun. run_cases Hrun. all: along_solve. Qed.

(** What a step observes on a bus that is down: a reset that is complete,
    a configuration that fails unless the table only clears bits, a block
    read that failed and the check of the current entry. *)
Lemma observe_dead s :
  driver_inv s -> dead (world s) ->
  match _state (driver s) with
  | STATE.RESET => observe s = Nothing
  | STATE.WAIT_FOR_RESET => exists e, observe s = ResetStatus true e
  | STATE.CONFIGURE =>
      exists e, observe s = Configured (clears_only (_register_cfg (driver s))) e
  | STATE.READ =>
      exists c, _register_cfg (driver s) !! Z.to_nat (_checked_register (driver s)) = Some c /\
        observe s = Sampled true (Some (negb (sets_bit c)))
  end.
Proof.
  intros Hinv Hd. pose proof (lookup_checked_register s Hinv) as [c Hc].
  unfold observe. destruct (_state (driver s)); [done | ..].
  - eexists. unfold observe_WAIT_FOR_RESET. by rewrite (RegisterRead_dead _ _ Hd).
  - eexists. unfold observe_CONFIGURE. by rewrite (configure_bus_dead _ _ Hd).
  - exists c. split; [done |]. unfold observe_READ, check_due. rewrite Hc.
    destruct (dead_transfer [Register.addr Register.X_LSB] 7 (world s) Hd) as (Hst & _ & Hd1).
    unfold sample_bus. apply Z.eqb_neq in Hst. rewrite Hst. cbn [negb orb].
    by rewrite (RegisterCheck_dead c _ Hd1).
Qed.

End Outage.

(** ** Rounds on a bus that is down *)

Section OutageRounds.
Context {W : Type} `{PlatformLaws W}.
Implicit Types (w : W) (s : System W).

Lemma dead_round_round s s' : dead_round s s' -> round s s'.
Proof. intros (s1 & Henv & _ & Hrun). by exists s1. Qed.

(** One round: out of [RESET] and [WAIT_FOR_RESET] as on a chip that
    works; out of [CONFIGURE] to [READ] when the table only clears bits,
    and no further than [RESET] otherwise; in [READ] the check of the
    current entry, which resets the driver when the entry sets a bit. *)
Lemma dead_round_step s s' :
  driver_inv s -> dead_round s s' ->
  driver_inv s' /\ _register_cfg (driver s') = _register_cfg (driver s) /\
  match _state (driver s) with
  | STATE.RESET => _state (driver s') = STATE.WAIT_FOR_RESET
  | STATE.WAIT_FOR_RESET => _state (driver s') = STATE.CONFIGURE
  | STATE.CONFIGURE =>
      if clears_only (_register_cfg (driver s)) then _state (driver s') = STATE.READ
      else _state (driver s') = STATE.CONFIGURE \/ _state (driver s') = STATE.RESET
  | STATE.READ =>
      exists c,
        _register_cfg (driver s) !! Z.to_nat (_checked_register (driver s)) = Some c /\
        if sets_bit c then _state (driver s') = STATE.RESET
        else _state (driver s') = STATE.READ /\
             _checked_register (driver s') =
             (_checked_register (driver s) + 1) mod size_register_cfg (driver s)
  end.
Proof.
  intros Hinv (s1 & Henv & Hd & Hrun).
  pose proof (env_step_inv _ _ Hinv Henv) as Hinv1.
  destruct (env_step_members _ _ Henv) as (Hst1 & _ & Hck1 & Hcfg1).
  destruct (RunImpl_refines s1 s' Hinv1 Hrun) as [Hnext _].
  destruct (RunImpl_checked_register s1 s' Hinv1 Hrun) as [Hcfg' Hck'].
  pose proof (observe_dead s1 Hinv1 Hd) as Hobs.
  split_and!; [exact (wp_run _ _ _ _ _ Hrun (RunImpl_inv_wp s1 Hinv1)) | congruence |].
  unfold size_register_cfg in *. rewrite Hst1, Hcfg1, Hck1 in *.
  destruct (_state (driver s)).
  - by rewrite Hnext, Hobs.
  - destruct Hobs as [e Hobs]. by rewrite Hnext, Hobs.
  - destruct Hobs as [e Hobs]. rewrite Hnext, Hobs.
    destruct (clears_only _); cbn; [done |]. destruct (_ >? _); auto.
  - destruct Hobs as (c & Hc & Hobs). exists c. split; [done |].
    rewrite Hnext, Hck', Hobs. by destruct (sets_bit c).
Qed.

End OutageRounds.

(** ** Back to [RESET] *)

Section OutageResets.
Context {W : Type} `{PlatformLaws W}.
Implicit Types (w : W) (s : System W).

Lemma dead_rounds_keep n : forall s s',
  driver_inv s -> nsteps dead_round n s s' ->
  driver_inv s' /\ _register_cfg (driver s') = _register_cfg (driver s).
Proof.
  induction n as [| n IH]; intros s s' Hinv Hn.
  - by inversion Hn; subst.
  - apply nsteps_inv_r in Hn as (s1 & Hn & Hr).
    destruct (IH _ _ Hinv Hn) as (Hinv1 & Hcfg1).
    destruct (dead_round_step _ _ Hinv1 Hr) as (Hinv' & Hcfg' & _).
    split; [done | congruence].
Qed.

(** A run passes through [RESET] after [lo] to [hi] of its [m] rounds. *)
Definition resets_within (lo hi m : nat) s s' : Prop :=
  exists k s1, (lo <= k <= hi)%nat /\ nsteps dead_round k s s1 /\
    _state (driver s1) = STATE.RESET /\ nsteps dead_round (m - k) s1 s'.

Lemma resets_within_round lo hi m s s1 s' :
  dead_round s s1 -> resets_within lo hi m s1 s' ->
  resets_within (S lo) (S hi) (S m) s s'.
Proof.
  intros Hr (k & s2 & Hk & Hn & Hst & Hrest).
  exists (S k), s2. split_and!; [lia.. | by econstructor | done | done].
Qed.

Lemma resets_within_weaken lo hi lo' hi' m s s' :
  (lo' <= lo)%nat -> (hi <= hi')%nat ->
  resets_within lo hi m s s' -> resets_within lo' hi' m s s'.
Proof. intros Hlo Hhi (k & s1 & Hk & Hrest). exists k, s1. split; [lia | done]. Qed.

(** From a state [st] which the driver stays in for [b] rounds at most,
    and leaves for [RESET] only. *)
Lemma leaves_for_RESET st b m s s' :
  driver_inv s -> st <> STATE.RESET ->
  (forall n y,
     nsteps (staying dead_round (fun s => _state (driver s) = st)) n s y -> (n <= b)%nat) ->
  (forall y y',
     driver_inv y -> _register_cfg (driver y) = _register_cfg (driver s) ->
     _state (driver y) = st -> dead_round y y' ->
     _state (driver y') = st \/ _state (driver y') = STATE.RESET) ->
  _state (driver s) = st -> (b < m)%nat -> nsteps dead_round m s s' ->
  resets_within 1 (S b) m s s'.
Proof.
  intros Hinv Hne Hb Hout Hst Hm Hn.
  destruct (nsteps_exit dead_round _ b m s s' Hb Hm Hn)
    as (k & y & y' & Hk & Hstay & Hr & Hy' & Hrest).
  pose proof (nsteps_staying _ _ _ _ _ Hstay) as Hky.
  destruct (dead_rounds_keep k s y Hinv Hky) as [Hinvy Hcfgy].
  pose proof (staying_last _ _ _ _ _ Hstay Hst) as Hsty. cbn beta in Hsty.
  destruct (Hout y y' Hinvy Hcfgy Hsty Hr) as [? | Hreset]; [done |].
  exists (S k), y'. split_and!; [lia | lia | | done |].
  - eapply nsteps_r; eauto.
  - by replace (m - S k)%nat with (m - k - 1)%nat by lia.
Qed.

(** Every round in [READ] checks an entry: the rounds the driver stays
    there are those the index takes to get to an entry that sets a bit. *)
Lemma reading_rounds_dead j c n : forall s s',
  driver_inv s -> _register_cfg (driver s) !! j = Some c -> sets_bit c = true ->
  _state (driver s) = STATE.READ ->
  nsteps (staying dead_round (fun s => _state (driver s) = STATE.READ)) n s s' ->
  Z.of_nat n <= dist (size_register_cfg (driver s)) (_checked_register (driver s))
                  (Z.of_nat j).
Proof.
  induction n as [| n IH]; intros s s' Hinv Hj Hc Hst Hn.
  all: pose proof (lookup_lt_Some _ _ _ Hj) as Hlt.
  all: pose proof (inv_checked s Hinv) as Hck; unfold size_register_cfg in *.
  { pose proof (dist_range _ _ (Z.of_nat j) Hck). lia. }
  inversion Hn as [| ? ? s1 ? [Hr Hst1] Hrest]; subst.
  destruct (dead_round_step s s1 Hinv Hr) as (Hinv1 & Hcfg1 & Hstep).
  rewrite Hst in Hstep. destruct Hstep as (c0 & Hc0 & Hstep).
  destruct (sets_bit c0) eqn:Hs0; [congruence |]. destruct Hstep as [_ Hck1].
  assert (_checked_register (driver s) <> Z.of_nat j) as Hne.
  { intros Heq. rewrite Heq, Nat2Z.id in Hc0. congruence. }
  specialize (IH s1 s' Hinv1). rewrite Hcfg1, Hck1 in IH.
  unfold size_register_cfg in IH. rewrite dist_next in IH by lia.
  specialize (IH Hj Hc Hst1 Hrest). lia.
Qed.

(** A table that does not only clear bits has an entry that sets one. *)
Lemma clears_only_false cfg :
  clears_only cfg = false -> exists j c, cfg !! j = Some c /\ sets_bit c = true.
Proof.
  induction cfg as [| c cfg IH]; [done |]. cbn. destruct (sets_bit c) eqn:Hs; cbn.
  - intros _. by exists 0%nat, c.
  - intros Hc. destruct (IH Hc) as (j & c' & Hj & Hs'). by exists (S j), c'.
Qed.

Lemma outage_READ m s s' :
  driver_inv s -> clears_only (_register_cfg (driver s)) = false ->
  _state (driver s) = STATE.READ ->
  (length (_register_cfg (driver s)) <= m)%nat -> nsteps dead_round m s s' ->
  resets_within 1 (length (_register_cfg (driver s))) m s s'.
Proof.
  intros Hinv Hc Hst Hm Hn. destruct (clears_only_false _ Hc) as (j & c & Hj & Hs).
  pose proof (lookup_lt_Some _ _ _ Hj) as Hlt.
  apply (resets_within_weaken 1 (S (length (_register_cfg (driver s)) - 1))); [lia.. |].
  apply (leaves_for_RESET STATE.READ); [done | done | | | done | lia | done].
  - intros n y Hstay. pose proof (reading_rounds_dead j c n s y Hinv Hj Hs Hst Hstay) as Hd.
    pose proof (dist_range (size_register_cfg (driver s)) _ (Z.of_nat j) (inv_checked s Hinv)).
    unfold size_register_cfg in *. lia.
  - intros y y' Hinvy _ Hsty Hr. destruct (dead_round_step y y' Hinvy Hr) as (_ & _ & Hstep).
    rewrite Hsty in Hstep. destruct Hstep as (c0 & _ & Hstep).
    destruct (sets_bit c0); [by right | left; apply Hstep].
Qed.

Lemma outage_CONFIGURE m s s' :
  driver_inv s -> clears_only (_register_cfg (driver s)) = false ->
  _state (driver s) = STATE.CONFIGURE -> (12 <= m)%nat -> nsteps dead_round m s s' ->
  resets_within 1 12 m s s'.
Proof.
  intros Hinv Hc Hst Hm Hn.
  apply (leaves_for_RESET STATE.CONFIGURE); [done | done | | | done | lia | done].
  - intros n y. apply (retrying_rounds dead_round_round); [done | by right | done].
  - intros y y' Hinvy Hcfgy Hsty Hr.
    destruct (dead_round_step y y' Hinvy Hr) as (_ & _ & Hstep).
    by rewrite Hsty, Hcfgy, Hc in Hstep.
Qed.

(** C7: an outage that does not end takes the driver back to [RESET]:
    when the table has an entry that sets a bit, on a bus on which every
    transfer fails, from any state of the driver object that satisfies the
    invariant, every run passes through [RESET] after one round at least
    and after fourteen rounds at most, or as many as the table has entries
    when these are more.  The failed read of [CNTL2] takes the driver from
    [WAIT_FOR_RESET] to [CONFIGURE], where the budget of one second ends
    the retries. *)
Theorem outage_resets m s s' :
  driver_inv s -> clears_only (_register_cfg (driver s)) = false ->
  (Nat.max (length (_register_cfg (driver s))) 14 <= m)%nat ->
  nsteps dead_round m s s' ->
  exists k s1,
    (1 <= k <= Nat.max (length (_register_cfg (driver s))) 14)%nat /\
    nsteps dead_round k s s1 /\ _state (driver s1) = STATE.RESET /\
    nsteps dead_round (m - k) s1 s'.
Proof.
  intros Hinv Hc Hm Hn. destruct (_state (driver s)) eqn:Hst.
  - destruct m as [| [| m]]; [lia.. |].
    inversion Hn as [| ? ? s1 ? Hr1 Hn1]; subst.
    inversion Hn1 as [| ? ? s2 ? Hr2 Hn2]; subst.
    destruct (dead_round_step s s1 Hinv Hr1) as (Hinv1 & Hcfg1 & Hst1). rewrite Hst in Hst1.
    destruct (dead_round_step s1 s2 Hinv1 Hr2) as (Hinv2 & Hcfg2 & Hst2). rewrite Hst1 in Hst2.
    apply (resets_within_weaken 3 14); [lia.. |].
    do 2 (eapply resets_within_round; [eassumption |]).
    apply outage_CONFIGURE; [done | congruence | done | lia | done].
  - destruct m as [| m]; [lia |]. inversion Hn as [| ? ? s1 ? Hr1 Hn1]; subst.
    destruct (dead_round_step s s1 Hinv Hr1) as (Hinv1 & Hcfg1 & Hst1). rewrite Hst in Hst1.
    apply (resets_within_weaken 2 13); [lia.. |].
    eapply resets_within_round; [eassumption |].
    apply outage_CONFIGURE; [done | congruence | done | lia | done].
  - apply (resets_within_weaken 1 12); [lia.. |]. apply outage_CONFIGURE; [done.. | lia | done].
  - apply (resets_within_weaken 1 (length (_register_cfg (driver s)))); [lia.. |].
    apply outage_READ; [done.. | lia | done].
Qed.

(** ** An outage that goes unnoticed *)

(** The rounds that take the driver to [READ]. *)
Definition rounds_to_READ (st : STATE) : nat :=
  match st with
  | STATE.RESET => 3
  | STATE.WAIT_FOR_RESET => 2
  | STATE.CONFIGURE => 1
  | STATE.READ => 0
  end.

Lemma clears_only_lookup cfg i c :
  clears_only cfg = true -> cfg !! i = Some c -> sets_bit c = false.
Proof.
  intros Hc Hi. unfold clears_only in Hc. rewrite forallb_forall in Hc.
  apply negb_true_iff, Hc, list_elem_of_In. by eapply list_elem_of_lookup_2.
Qed.

(** One round with a table that only clears bits: a step towards [READ],
    no check that fails, and a failed block read in [READ]. *)
Lemma dead_round_clears_only s s' :
  driver_inv s -> clears_only (_register_cfg (driver s)) = true -> dead_round s s' ->
  rounds_to_READ (_state (driver s')) = pred (rounds_to_READ (_state (driver s))) /\
  _bad_register_perf (driver s') = _bad_register_perf (driver s) /\
  _bad_transfer_perf (driver s') =
    (_bad_transfer_perf (driver s) + (1 - rounds_to_READ (_state (driver s))))%nat.
Proof.
  intros Hinv Hc Hr. destruct (dead_round_step s s' Hinv Hr) as (_ & _ & Hstep).
  destruct Hr as (s1 & Henv & Hd & Hrun).
  pose proof (env_step_inv _ _ Hinv Henv) as Hinv1.
  pose proof (RunImpl_counted s1 s' Hinv1 Hrun) as Hcount.
  pose proof (observe_dead s1 Hinv1 Hd) as Hobs.
  destruct (env_step_members _ _ Henv) as (Hst1 & _ & Hck1 & Hcfg1).
  destruct Henv as (dl & _ & Hdrv & _). rewrite Hst1, Hcfg1, Hck1 in Hobs.
  rewrite Hc in Hstep. unfold QMC5883L_delete, counted in Hcount. rewrite Hdrv in Hcount.
  injection Hcount as _ Hreg Hbus. rewrite Hreg, Hbus.
  destruct (_state (driver s)); [rewrite Hobs | destruct Hobs as [e ->] ..| ];
    try (rewrite Hstep; cbn; split_and!; [done | lia | lia ]).
  destruct Hobs as (c & Hi & ->), Hstep as (c' & Hi' & Hstep).
  rewrite (clears_only_lookup _ _ _ Hc Hi') in Hstep.
  rewrite (clears_only_lookup _ _ _ Hc Hi), (proj1 Hstep). cbn. split_and!; [done | lia | lia].
Qed.

Lemma dead_rounds_clears_only m : forall s s',
  driver_inv s -> clears_only (_register_cfg (driver s)) = true ->
  nsteps dead_round m s s' ->
  rounds_to_READ (_state (driver s')) = (rounds_to_READ (_state (driver s)) - m)%nat /\
  _bad_register_perf (driver s') = _bad_register_perf (driver s) /\
  _bad_transfer_perf (driver s') =
    (_bad_transfer_perf (driver s) + (m - rounds_to_READ (_state (driver s))))%nat.
Proof.
  induction m as [| m IH]; intros s s' Hinv Hc Hn.
  { inversion Hn; subst. split_and!; lia. }
  inversion Hn as [| ? ? s1 ? Hr Hrest]; subst.
  destruct (dead_round_step s s1 Hinv Hr) as (Hinv1 & Hcfg1 & _).
  destruct (dead_round_clears_only s s1 Hinv Hc Hr) as (Hrank & Hreg & Hbus).
  destruct (IH s1 s' Hinv1) as (Hrank' & Hreg' & Hbus'); [congruence | done |].
  rewrite Hrank', Hreg', Hbus', Hrank, Hreg, Hbus. split_and!; [lia | done | lia].
Qed.

(** C21: an outage goes unnoticed when the table only clears bits: on a bus
    on which every transfer fails, from any state of the driver object
    that satisfies the invariant, the driver is in [READ] after three
    rounds and stays there, although no transfer succeeds: [Configure]
    takes the zeroed buffers for registers that hold the table, no
    periodic check fails, and nothing counts the failed reads but the
    diagnostic counter of bad transfers, which advances by one in every
    round in [READ]. *)
Theorem outage_unnoticed m s s' :
  driver_inv s -> clears_only (_register_cfg (driver s)) = true ->
  (3 <= m)%nat -> nsteps dead_round m s s' ->
  _state (driver s') = STATE.READ /\
  _bad_register_perf (driver s') = _bad_register_perf (driver s) /\
  _bad_transfer_perf (driver s') =
    (_bad_transfer_perf (driver s) + (m - rounds_to_READ (_state (driver s))))%nat.
Proof.
  intros Hinv Hc Hm Hn.
  destruct (dead_rounds_clears_only m s s' Hinv Hc Hn) as (Hrank & Hreg & Hbus).
  split; [| done].
  destruct (_state (driver s')), (_state (driver s)); cbn in Hrank; done || lia.
Qed.

End OutageResets.

(** ** On the simulated device *)

(** From [d] to [d'] the simulated bus stays down. *)
Definition stays_down (d d' : SimDevice) : Prop :=
  sim_down d = true -> sim_down d' = true.

#[export] Instance stays_down_preorder : PreOrder stays_down.
Proof. split; [intros d | intros d1 d2 d3 H12 H23]; unfold stays_down in *; auto. Qed.

Lemma stays_down_transfer send n : along stays_down (transfer send n).
Proof. by intros d Hd. Qed.

#[export] Hint Extern 1 (along stays_down (transfer _ _)) =>
  apply stays_down_transfer : along.

Lemma sim_RunImpl_down s s' :
  RunImpl s = Some (tt, s') -> stays_down (world s) (world s').
Proof. intros Hrun. run_cases Hrun. all: along_solve. all: by intros Hd. Qed.

(** The bus that is switched off is down for good. *)
Lemma sim_down_dead d : sim_down d = true -> dead d.
Proof.
  intros Hd n. revert d Hd. induction n as [| n IH]; intros d Hd; [done |].
  intros send len. cbn. rewrite Hd. cbn. split_and!; [done | by destruct send as [| ? [| ? ?]] |].
  by apply IH.
Qed.

Lemma sim_round_dead s s' :
  sim_down (world s) = true -> sim_round s = Some s' ->
  dead_round s s' /\ sim_down (world s') = true.
Proof.
  intros Hd (s1 & Hstart & Hrun)%sim_round_inv.
  assert (sim_down (world s1) = true) as Hd1
    by (by destruct (sim_start_world _ _ Hstart) as [d ->]).
  split; [| by apply (sim_RunImpl_down s1)].
  exists s1. eauto using sim_start_env_step, sim_down_dead.
Qed.

Lemma sim_rounds_dead n s s' :
  sim_down (world s) = true -> sim_rounds n s = Some s' -> nsteps dead_round n s s'.
Proof.
  apply (sim_rounds_nsteps dead_round (fun s => sim_down (world s) = true)), sim_round_dead.
Qed.

(** The simulated device with its bus switched off. *)
Definition sim_unplug (d : SimDevice) : SimDevice :=
  {| sim_regs := sim_regs d; sim_clock := sim_clock d; sim_cost := sim_cost d;
     sim_faults := sim_faults d; sim_down := true; sim_log := sim_log d;
     sim_soft_reset := sim_soft_reset d; sim_init_status := sim_init_status d |}.

(** The driver reads when the bus goes down. *)
Definition sim_outage_system : System SimDevice :=
  {| driver := sim_driver STATE.READ;
     world := sim_unplug (sim_device sim_sample_regs (ms 500) [] true) |}.

(** A table that only clears the reset bit, and the driver after [init]
    with that table on a bus that is down. *)
Definition clearing_cfg : list register_config_t :=
  [ {| reg := Register.CNTL2; set_bits := 0x00; clear_bits := CNTL2_BIT.SOFT_RST |} ].

Definition sim_unnoticed_system : System SimDevice :=
  {| driver := after_Reset (QMC5883L_new false 0 clearing_cfg);
     world := sim_unplug (sim_new 0 100 [] true) |}.

Lemma outage_resets_witness :
  exists k s1,
    (1 <= k <= Nat.max (length (_register_cfg (driver sim_outage_system))) 14)%nat /\
    nsteps dead_round k sim_outage_system s1 /\ _state (driver s1) = STATE.RESET /\
    nsteps dead_round (14 - k) s1 (sim_rounds_state 14 sim_outage_system).
Proof.
  apply (outage_resets 14 sim_outage_system); [sim_inv | done | cbn; lia |].
  apply sim_rounds_dead; [done | sim_compute].
Defined.

Lemma outage_unnoticed_witness :
  _state (driver (sim_rounds_state 50 sim_unnoticed_system)) = STATE.READ /\
  _bad_register_perf (driver (sim_rounds_state 50 sim_unnoticed_system)) = 0%nat /\
  _bad_transfer_perf (driver (sim_rounds_state 50 sim_unnoticed_system)) = 47%nat.
Proof.
  apply (outage_unnoticed 50 sim_unnoticed_system); [sim_inv | done | lia |].
  apply sim_rounds_dead; [done | sim_compute].
Defined.
