(* ===== verification/Duration.v ===== *)
(** * Duration: how long a step and a start take

    The driver never waits: a step lasts as long as its transfers.  On a
    bus whose transfers take no more than [D] each a step takes no more
    than [D] for every transfer of the budget of its state; with a work
    queue that starts the item no later than [L] after the time asked for,
    the driver reads from a configured chip within 101 ms, three times
    [L], and [D] for every transfer of the three steps, counted from
    [init]: the 100 ms the chip is given to complete its reset, and the
    1 ms before [Configure].  In [READ] a round starts between 20 ms and
    20 ms, [L] and two transfers after the one before.  The count of the
    transfers is that of [Graded]; the time is one more relation it is
    graded by. *)

From Stdlib Require Import ZArith Lia Bool.
From stdpp Require Import base tactics option list relations.
From S2P Require Import Prelude Registers Platform RegisterAccess Decoder Driver.
From S2P Require Import SimDevice Configuration Lifecycle Progress Graded Steps Recovery.

#[local] Open Scope Z_scope.

(** ** A bus that is brisk *)

Section Brisk.
Context {W : Type} `{Platform W}.
Implicit Types (w : W) (s : System W).

(** The next [n] transfers take no more than [D] each. *)
Fixpoint timely (D : Z) (n : nat) (w : W) : Prop :=
  match n with
  | O => True
  | S n => forall send len,
      hrt_absolute_time (snd (transfer send len w)) <= hrt_absolute_time w + D /\
      timely D n (snd (transfer send len w))
  end.

(** Every transfer to come does. *)
Definition brisk (D : Z) (w : W) : Prop := forall n, timely D n w.

(** From [w] to [w'] no more than [hi] times [D] have passed, and the bus
    stays brisk. *)
Definition took (D : Z) (lo hi : nat) (w w' : W) : Prop :=
  brisk D w -> brisk D w' /\ hrt_absolute_time w' <= hrt_absolute_time w + D * Z.of_nat hi.

(** The work queue starts the item no later than [L] after the delay it
    was asked for. *)
Definition on_time (L : Z) s s1 : Prop :=
  forall delay,
    next_delay (_schedule (driver s)) = Some delay ->
    hrt_absolute_time (world s1) <= hrt_absolute_time (world s) + Z.max 0 delay + L.

Lemma brisk_transfer D send len w :
  brisk D w ->
  hrt_absolute_time (snd (transfer send len w)) <= hrt_absolute_time w + D /\
  brisk D (snd (transfer send len w)).
Proof. intros Hb. split; [apply (Hb 1%nat) | intros n; apply (Hb (S n))]. Qed.

Lemma took_transfer D send len : costs (took D) 1 1 (transfer send len).
Proof. intros w Hb. destruct (brisk_transfer D send len w Hb). split; [done | lia]. Qed.

(** Time is graded by the number of transfers. *)
Lemma took_graded D : 0 <= D -> Graded (took D).
Proof.
  intros HD. split.
  - intros w Hb. split; [done | lia].
  - intros l1 h1 l2 h2 w1 w2 w3 H12 H23 Hb. destruct (H12 Hb) as [Hb2 Hc2].
    destruct (H23 Hb2) as [Hb3 Hc3]. split; [done | lia].
  - intros l h l' h' w w' Hw _ Hh Hb. destruct (Hw Hb) as [Hb' Hc]. split; [done | nia].
Qed.

End Brisk.

Section StepDuration.
Context {W : Type} `{PlatformLaws W}.
Implicit Types (w : W) (s : System W).

(** A step takes the time of the transfers of its budget. *)
Lemma RunImpl_took D s s' :
  0 <= D -> RunImpl s = Some (tt, s') ->
  took D (budget (_state (driver s)) (length (_register_cfg (driver s)))).1
    (budget (_state (driver s)) (length (_register_cfg (driver s)))).2 (world s) (world s').
Proof.
  intros HD Hrun.
  apply (RunImpl_costs (took D) (Graded0 := took_graded D HD));
    first [done | intros; apply took_transfer].
Qed.

(** C20: the duration of a step.  On a bus whose transfers take no more
    than [D] each, a step of [RunImpl] takes no more than [D] in [RESET]
    and in [WAIT_FOR_RESET], twice [D] in [READ], and three times [D] for
    every entry of the table in [CONFIGURE]; nothing else in a step takes
    time. *)
Theorem RunImpl_duration D s s' :
  0 <= D -> brisk D (world s) -> RunImpl s = Some (tt, s') ->
  brisk D (world s') /\
  hrt_absolute_time (world s')
  <= hrt_absolute_time (world s)
     + D * Z.of_nat (budget (_state (driver s)) (length (_register_cfg (driver s)))).2.
Proof. intros HD Hb Hrun. by apply (RunImpl_took D s s'). Qed.

End StepDuration.

(** ** Rounds in time *)

(** The delay the driver asks for when all is well. *)
Definition phase_delay (st : STATE) : Z :=
  match st with
  | STATE.RESET => ms 100
  | STATE.WAIT_FOR_RESET => ms 1
  | STATE.CONFIGURE | STATE.READ => ms 20
  end.

Section Rounds.
Context {W : Type} `{PlatformLaws W} `{!RegisterFile W} `{!Chip W}.
Implicit Types (w : W) (s : System W).

(** A round that starts no later than [L] after the time asked for, on a
    chip that is left undisturbed behind a bus that is brisk. *)
Definition brisk_step (D L : Z) s s1 : Prop :=
  quiet_step s s1 /\ on_time L s s1 /\ brisk D (world s1).

Definition brisk_round (D L : Z) s s' : Prop :=
  exists s1, brisk_step D L s s1 /\ RunImpl s1 = Some (tt, s').

Lemma brisk_round_quiet D L s s' : brisk_round D L s s' -> quiet_round s s'.
Proof. intros (s1 & (Hq & _) & Hrun). by exists s1. Qed.

(** The delay the schedule of a phase gives. *)
Lemma next_delay_phase st sch :
  (st = STATE.READ -> timer sch = Some (ms 20, ms 20)) ->
  next_delay (apply_request (phase_request st) (fire sch)) = Some (phase_delay st).
Proof.
  intros Hsch. unfold next_delay, fire.
  destruct st; [by destruct (run_now sch).. |]. cbn. rewrite Hsch by done.
  by destruct (run_now sch).
Qed.

(** A round on a chip that is on track, in time: the next phase, the
    delay it asks for, and the time the round has taken. *)
Lemma brisk_round_on_track D L st d s s' :
  0 <= D -> driver_inv s -> table_ok s -> on_track st s ->
  next_delay (_schedule (driver s)) = Some d -> brisk_round D L s s' ->
  (driver_inv s' /\ table_ok s' /\ on_track (next_phase st) s') /\
  _register_cfg (driver s') = _register_cfg (driver s) /\
  next_delay (_schedule (driver s')) = Some (phase_delay st) /\
  hrt_absolute_time (world s')
  <= hrt_absolute_time (world s) + Z.max 0 d + L
     + D * Z.of_nat (budget st (length (_register_cfg (driver s)))).2.
Proof.
  intros HD Hinv Hok Htr Hd Hr.
  split; [exact (quiet_round_on_track _ _ _ Hinv Hok Htr (brisk_round_quiet _ _ _ _ Hr)) |].
  destruct Hr as (s1 & (Hq & Hon & Hb) & Hrun). specialize (Hon d Hd).
  destruct (quiet_step_on_track _ _ _ Hok Htr Hq) as [Hok1 Htr1].
  pose proof (env_step_inv _ _ Hinv (proj1 Hq)) as Hinv1.
  destruct (env_step_members _ _ (proj1 Hq)) as (Hst1 & _ & _ & Hcfg1).
  destruct (RunImpl_refines s1 s' Hinv1 Hrun) as [_ Hsch].
  destruct (RunImpl_checked_register s1 s' Hinv1 Hrun) as [Hcfg' _].
  destruct (RunImpl_took D s1 s' HD Hrun Hb) as [_ Hclk].
  rewrite (proj1 Htr1), (observe_on_track st s1) in Hsch by done.
  rewrite (proj1 Htr1), Hcfg1 in Hclk. split_and!; [congruence | | lia].
  rewrite Hsch. destruct Hq as [(d' & _ & -> & _) _]. apply next_delay_phase.
  intros ->. apply (inv_read_interval _ Hinv), Htr.
Qed.

(** The three rounds from [RESET] to [READ]. *)
Lemma brisk_rounds_from_RESET D L d s s' :
  0 <= D -> driver_inv s -> table_ok s -> on_track STATE.RESET s ->
  next_delay (_schedule (driver s)) = Some d -> nsteps (brisk_round D L) 3 s s' ->
  serving s' /\
  hrt_absolute_time (world s')
  <= hrt_absolute_time (world s) + Z.max 0 d + ms 101 + 3 * L
     + D * (3 * Z.of_nat (length (_register_cfg (driver s))) + 2).
Proof.
  intros HD Hinv Hok Htr Hd Hn.
  inversion Hn as [| ? ? s1 ? Hr1 Hn1]; subst. inversion Hn1 as [| ? ? s2 ? Hr2 Hn2]; subst.
  inversion Hn2 as [| ? ? s3 ? Hr3 Hn3]; subst. inversion Hn3; subst.
  destruct (brisk_round_on_track D L _ _ _ _ HD Hinv Hok Htr Hd Hr1)
    as ((Hinv1 & Hok1 & Htr1) & Hcfg1 & Hd1 & Hc1).
  destruct (brisk_round_on_track D L _ _ _ _ HD Hinv1 Hok1 Htr1 Hd1 Hr2)
    as ((Hinv2 & Hok2 & Htr2) & Hcfg2 & Hd2 & Hc2).
  destruct (brisk_round_on_track D L _ _ _ _ HD Hinv2 Hok2 Htr2 Hd2 Hr3)
    as ((_ & _ & Htr3) & _ & _ & Hc3).
  split; [done |]. rewrite Hcfg2, Hcfg1 in Hc3. rewrite Hcfg1 in Hc2.
  cbn [budget snd phase_delay next_phase] in *. unfold ms in *. lia.
Qed.

(** C19: the sample period.  In [READ] on a configured chip, with a work
    queue that is no more than [L] late and transfers that take no more
    than [D] each, a round starts no less than 20 ms and no more than
    20 ms, [L] and two transfers after the round before it started: the
    samples, which are stamped with the time at which their round starts,
    are that far apart. *)
Theorem sample_period D L s s1 s' s1' :
  0 <= D -> driver_inv s -> table_ok s -> serving s ->
  brisk_step D L s s1 -> RunImpl s1 = Some (tt, s') -> brisk_step D L s' s1' ->
  serving s' /\
  ms 20 <= hrt_absolute_time (world s1') - hrt_absolute_time (world s1) <= ms 20 + L + 2 * D.
Proof.
  intros HD Hinv Hok Hs Hstep Hrun ([(d' & Hd' & _ & _ & Hlo) _] & Hon & _).
  destruct (proj1 (proj1 Hstep)) as (d & Hd & _).
  destruct (brisk_round_on_track D L _ d s s' HD Hinv Hok Hs Hd)
    as ((_ & _ & Hs') & _ & Hnext & _); [by exists s1 |].
  specialize (Hon _ Hnext). rewrite Hnext in Hd'. injection Hd' as <-.
  destruct Hstep as ([Henv _] & _ & Hb).
  destruct (env_step_members _ _ Henv) as (Hst1 & _).
  destruct (RunImpl_took D s1 s' HD Hrun Hb) as [_ Hhi].
  pose proof (RunImpl_clock s1 s' Hrun) as Hmono.
  rewrite Hst1, (proj1 Hs) in Hhi. cbn [budget snd phase_delay] in *.
  split; [done |]. unfold ms in *. lia.
Qed.

(** C10: the time of the start.  A driver constructed with a table that is
    well formed, consistent and about control registers only, on a chip
    that is alive behind a bus that initialises and whose transfers take
    no more than [D] each, with a work queue that starts every round no
    later than [L] after the time asked for: three rounds after [init] the
    driver reads from a configured chip, and no more time has passed since
    [init] than the 100 ms of the reset and the 1 ms before [Configure],
    three times [L], and [D] for the write of the reset, the read of its
    status, and three transfers for every entry of the table. *)
Theorem startup_time D L ext rot cfg (w : W) :
  0 <= D -> alive w -> fst (I2C_init w) = PX4_OK -> (0 < length cfg < 256)%nat ->
  Forall cfg_wf cfg -> cfg_consistent cfg -> cfg_no_reset cfg -> cfg_control cfg ->
  exists s1,
    init {| driver := QMC5883L_new ext rot cfg; world := w |} = Some (0, s1) /\
    forall s', nsteps (brisk_round D L) 3 s1 s' ->
      serving s' /\
      hrt_absolute_time (world s')
      <= hrt_absolute_time (world s1) + ms 101 + 3 * L + D * (3 * Z.of_nat (length cfg) + 2).
Proof.
  intros HD Hw Hok Hlen Hwf Hcons Hnr Hctl. eexists. split; [by apply init_run |].
  intros s' Hn.
  pose proof (QMC5883L_new_inv ext rot cfg (snd (I2C_init w)) Hlen) as Hinv.
  destruct (brisk_rounds_from_RESET D L 0 _ s' HD Hinv) as [Hs Hc];
    [done | by split; [| apply init_alive] | done | done |].
  split; [done |]. cbn in *. lia.
Qed.

End Rounds.

(** ** On the simulated device *)

(** From [d] to [d'] every transfer costs the same. *)
Definition same_cost (d d' : SimDevice) : Prop := sim_cost d' = sim_cost d.

#[export] Instance same_cost_preorder : PreOrder same_cost.
Proof. split; [done | intros d1 d2 d3 H12 H23; unfold same_cost in *; congruence]. Qed.

Lemma same_cost_transfer send n : along same_cost (transfer send n).
Proof. by intros d. Qed.

#[export] Hint Extern 1 (along same_cost (transfer _ _)) =>
  apply same_cost_transfer : along.

Lemma sim_RunImpl_cost s s' :
  RunImpl s = Some (tt, s') -> sim_cost (world s') = sim_cost (world s).
Proof. intros Hrun. change (same_cost (world s) (world s')). run_cases Hrun. all: along_solve. Qed.

(** The simulated work queue is on time. *)
Lemma sim_start_on_time s s1 : sim_start s = Some s1 -> on_time 0 s s1.
Proof.
  unfold sim_start, on_time. destruct (next_delay _) as [d |] eqn:Hd; [| done].
  destruct (andb _ _) eqn:Hc; [| done]. intros [= <-] delay [= <-].
  apply andb_prop in Hc as [?%Z.leb_le ?%Z.ltb_lt]. cbn. unfold sim_now. cbn. lia.
Qed.

(** The simulated bus is brisk. *)
Lemma sim_brisk D d : 0 <= sim_cost d <= D -> brisk D d.
Proof.
  intros Hcost n. revert d Hcost. induction n as [| n IH]; intros d Hcost; [done |].
  intros send len. split; [cbn; unfold sim_now, sim_tick; cbn; lia | by apply IH].
Qed.

(** The rounds of the simulated work queue are on time, on a bus that is
    brisk. *)
Lemma sim_round_brisk D s s' :
  0 <= sim_cost (world s) <= D -> sim_round s = Some s' ->
  brisk_round D 0 s s' /\ 0 <= sim_cost (world s') <= D.
Proof.
  intros Hcost (s1 & Hstart & Hrun)%sim_round_inv.
  destruct (sim_start_world _ _ Hstart) as [d Hw1].
  split; [| by rewrite (sim_RunImpl_cost s1 s' Hrun), Hw1].
  exists s1. split; [| done].
  split_and!; [by apply sim_start_quiet | by apply sim_start_on_time |].
  apply sim_brisk. by rewrite Hw1.
Qed.

Lemma sim_rounds_brisk D n s s' :
  0 <= sim_cost (world s) <= D -> sim_rounds n s = Some s' ->
  nsteps (brisk_round D 0) n s s'.
Proof.
  apply (sim_rounds_nsteps (brisk_round D 0) (fun s => 0 <= sim_cost (world s) <= D)).
  apply sim_round_brisk.
Qed.

(** ** Witnesses *)

(** The step in [CONFIGURE] after a reset, with the table of three
    entries and transfers of 100 us: nine transfers at most. *)
Lemma RunImpl_duration_witness :
  exists s',
    RunImpl (sim_run 2 sim_started).2 = Some (tt, s') /\
    brisk 100 (world s') /\
    hrt_absolute_time (world s') <= hrt_absolute_time (world (sim_run 2 sim_started).2) + 900.
Proof.
  destruct (RunImpl_defined (sim_run 2 sim_started).2) as [s' Hrun];
    [apply sim_run_inv; [apply sim_started_inv | sim_compute] |].
  exists s'. split; [done |].
  apply (RunImpl_duration 100 (sim_run 2 sim_started).2 s'); [lia | by apply sim_brisk | done].
Defined.

(** Two rounds of the simulated work queue in [READ]: the second starts
    20 ms and the two transfers of the first after the first started. *)
Lemma sample_period_witness :
  exists s1 s' s1',
    sim_start sim_read_system = Some s1 /\ RunImpl s1 = Some (tt, s') /\
    sim_start s' = Some s1' /\ serving s' /\
    ms 20 <= hrt_absolute_time (world s1') - hrt_absolute_time (world s1)
    <= ms 20 + 0 + 2 * 100.
Proof.
  destruct (sim_start sim_read_system) as [s1 |] eqn:H1; [| by vm_compute in H1].
  destruct (sim_round_inv sim_read_system (sim_rounds_state 1 sim_read_system))
    as (s1_ & H1_ & Hrun); [sim_compute |]. rewrite H1 in H1_. injection H1_ as <-.
  destruct (sim_start (sim_rounds_state 1 sim_read_system)) as [s1' |] eqn:H2;
    [| by vm_compute in H2].
  exists s1, (sim_rounds_state 1 sim_read_system), s1'.
  do 3 (split; [done |]).
  apply (sample_period 100 0 sim_read_system s1 _ s1');
    [lia | apply sim_read_system_inv | by apply sim_serving | by apply sim_serving
    | | done |].
  all: (split_and!; [by apply sim_start_quiet | by apply sim_start_on_time |]);
    apply sim_brisk.
  - destruct (sim_start_world _ _ H1) as [d ->]. by vm_compute.
  - destruct (sim_start_world _ _ H2) as [d ->]. by vm_compute.
Defined.

(** The driver of the simulated device, from [init] on: the bound is
    attained, every entry of the table being written. *)
Lemma startup_time_witness :
  serving (sim_rounds_state 3 sim_started) /\
  hrt_absolute_time (world (sim_rounds_state 3 sim_started))
  <= hrt_absolute_time (world sim_started) + ms 101 + 3 * 0 + 100 * (3 * 3 + 2) /\
  hrt_absolute_time (world (sim_rounds_state 3 sim_started)) = ms 101 + 1100.
Proof.
  destruct (startup_time 100 0 false 0 continuous_cfg (sim_new 0 100 [] true))
    as (s1 & Hinit & Hs); [lia | done | done | cbn; lia | apply continuous_cfg_wf.. | |].
  { apply (bool_decide_unpack _). vm_compute. exact I. }
  assert (s1 = sim_started) as -> by (revert Hinit; vm_compute; congruence).
  destruct (Hs (sim_rounds_state 3 sim_started)) as [Hserving Hclk];
    [apply sim_rounds_brisk; [done | sim_compute] |].
  split_and!; [done | exact Hclk | by vm_compute].
Defined.
