(* ===== verification/Cadence.v ===== *)
(** * Cadence: when the driver looks after the chip

    In [READ] the driver does one of three things after the sample read:
    it checks an entry of the table, when the read failed or more than
    100 ms have passed since the last check that passed; else it reads the
    temperature, when more than a second has passed since it last tried;
    else nothing.  The check goes first, so the temperature is read only in
    a round that finds the check not due.  This file says when that is.
    The bounds of [Progress] and [Detection] need the rounds to start no
    earlier than asked; the bounds here need them to start no later than
    that by much, the transfers to take no longer than a bound and the
    sample reads to succeed ([Duration] has the first two).  On a work
    queue that is on time and a bus that is brisk the round after a check never
    finds the check due again: the last check is then never older than
    100 ms and a read, and the last temperature update never older than a
    second and a round.  On a work queue that lets more than 100 ms pass
    between two rounds every round checks, and the temperature is never
    read.  The ages are measured at the end of a round, against the
    timestamps the driver keeps, which it takes before the sample read. *)

From Stdlib Require Import ZArith Lia Bool.
From stdpp Require Import base tactics option list relations.
From S2P Require Import Prelude Registers Platform RegisterAccess Decoder Driver.
From S2P Require Import SimDevice Configuration Lifecycle Progress Steps Recovery Detection.
From S2P Require Import Stabilisation Duration.

#[local] Open Scope Z_scope.

(** ** What a step in [READ] does after the sample read *)

Inductive maintenance : Set :=
| Check          (* the periodic check of an entry of the table *)
| Temperature    (* the temperature update *)
| Idle.          (* neither *)

Section Maintenance.
Context {W : Type} `{Platform W}.
Implicit Types (w : W) (s : System W).

(** The time since the last temperature update, and since the last check
    that passed. *)
Definition temperature_age s : Z :=
  hrt_absolute_time (world s) - _temperature_update_timestamp (driver s).

Definition check_age s : Z :=
  hrt_absolute_time (world s) - _last_config_check_timestamp (driver s).

(** The choice of the step, from the state it starts in: the tests of
    lines 195 and 208, on the clock after the sample read. *)
Definition maintenance_due s : maintenance :=
  if check_due s then Check
  else if elapsed_since (_temperature_update_timestamp (driver s))
            (snd (sample_bus (world s))) >? sec 1
       then Temperature
       else Idle.

(** The sink after a temperature read that left [res]: a read that failed
    leaves the sink as it is. *)
Definition temperature_sink (res : Z * list Z) (m : PX4Magnetometer) : PX4Magnetometer :=
  if fst res =? PX4_OK
  then set_temperature (temperature_C (TransferBufferTemperature_of (snd res))) m
  else m.

End Maintenance.

Section MaintenanceSteps.
Context {W : Type} `{PlatformLaws W}.
Implicit Types (w : W) (s : System W).

(** A step in [READ], by what is due: the world it leaves, the two
    timestamps, and the sink.  The timestamps are set to the time taken
    before the sample read; the timestamp of the temperature is set
    whether its read succeeds or not. *)
Lemma RunImpl_maintenance s s' :
  driver_inv s -> _state (driver s) = STATE.READ -> RunImpl s = Some (tt, s') ->
  let w1 := snd (sample_bus (world s)) in
  match maintenance_due s with
  | Check =>
      exists c,
        _register_cfg (driver s) !! Z.to_nat (_checked_register (driver s)) = Some c /\
        world s' = snd (RegisterCheck c w1) /\
        _temperature_update_timestamp (driver s') = _temperature_update_timestamp (driver s) /\
        _px4_mag (driver s') = _px4_mag (driver s) /\
        if fst (RegisterCheck c w1)
        then _state (driver s') = STATE.READ /\
             _last_config_check_timestamp (driver s') = hrt_absolute_time (world s)
        else _state (driver s') = STATE.RESET
  | Temperature =>
      world s' = snd (temperature_bus w1) /\ _state (driver s') = STATE.READ /\
      _temperature_update_timestamp (driver s') = hrt_absolute_time (world s) /\
      _last_config_check_timestamp (driver s') = _last_config_check_timestamp (driver s) /\
      _px4_mag (driver s') = temperature_sink (fst (temperature_bus w1)) (_px4_mag (driver s))
  | Idle =>
      world s' = w1 /\ _state (driver s') = STATE.READ /\
      _temperature_update_timestamp (driver s') = _temperature_update_timestamp (driver s) /\
      _last_config_check_timestamp (driver s') = _last_config_check_timestamp (driver s) /\
      _px4_mag (driver s') = _px4_mag (driver s)
  end.
Proof.
  intros Hinv Hst Hrun. pose proof (lookup_checked_register s Hinv) as [c Hc].
  destruct Hinv as [_ _ Hf _ _ _ _]. unfold maintenance_due, check_due, temperature_sink.
  wp_from Hrun. wp_simpl. rewrite Hst.
  wp_cases_with ltac:(rewrite ?Hc, ?Hf; cbn [negb orb]); intros [= <-].
  all: try (exists c).
  all: repeat match goal with Hb : ?b = _ |- context [?b] => rewrite Hb end.
  all: done.
Qed.

End MaintenanceSteps.

(** ** The two ages *)

Section Fresh.
Context {W : Type} `{Platform W}.
Implicit Types (w : W) (s : System W).

(** The temperature is no older than a second, or than a second and the
    round of a check that has just been made. *)
Definition fresh (D L : Z) s : Prop :=
  temperature_age s <= sec 1 \/
  (temperature_age s <= sec 1 + ms 20 + L + 2 * D /\ check_age s <= 2 * D).

(** It will be after the next round: no check is in its way. *)
Definition nearly_fresh (D : Z) s : Prop :=
  temperature_age s <= sec 1 \/ check_age s <= 2 * D.

(** What a step in [READ] that starts [e] after [a] and [b] makes of the
    two ages: a check, due because of [b], leaves [b'] short; a temperature
    update leaves [a'] short; a step that does neither found [a'] within
    the second; and both of these found [b'] within the 100 ms. *)
Definition ages_step (D e a b a' b' : Z) : Prop :=
  (b + e + D > ms 100 /\ b' <= 2 * D /\ a' <= a + e + 2 * D) \/
  (a' <= 2 * D /\ b' <= ms 100 + D) \/
  (a' <= sec 1 /\ b' <= ms 100).

Lemma fresh_nearly_fresh D L s : fresh D L s -> nearly_fresh D s.
Proof. unfold fresh, nearly_fresh. tauto. Qed.

End Fresh.

(** The arithmetic of the two ages. *)
Lemma ages_step_check D e a b a' b' :
  0 <= D -> D <= ms 100 -> ages_step D e a b a' b' -> b' <= ms 100 + D.
Proof. unfold ages_step. lia. Qed.

Lemma ages_step_nearly_fresh D e a b a' b' :
  0 <= D -> 2 * D <= sec 1 -> ages_step D e a b a' b' -> a' <= sec 1 \/ b' <= 2 * D.
Proof. unfold ages_step. lia. Qed.

Lemma ages_step_fresh D L e a b a' b' :
  0 <= D -> 0 <= L -> e <= ms 20 + L -> ms 20 + L + 3 * D <= ms 100 ->
  a <= sec 1 \/ b <= 2 * D -> ages_step D e a b a' b' ->
  a' <= sec 1 \/ a' <= sec 1 + ms 20 + L + 2 * D /\ b' <= 2 * D.
Proof. unfold ages_step, ms, sec. lia. Qed.

Section Ages.
Context {W : Type} `{PlatformLaws W}.
Implicit Types (w : W) (s : System W).

(** A step in [READ] that stays there, on a bus that is brisk, when the
    sample read succeeds. *)
Lemma RunImpl_ages D s s' :
  driver_inv s -> _state (driver s) = STATE.READ ->
  brisk D (world s) -> fst (fst (sample_bus (world s))) = PX4_OK ->
  RunImpl s = Some (tt, s') -> _state (driver s') = STATE.READ ->
  ages_step D 0 (temperature_age s) (check_age s) (temperature_age s') (check_age s').
Proof.
  intros Hinv Hst Hb Hok Hrun Hst'.
  pose proof (RunImpl_maintenance s s' Hinv Hst Hrun) as Hm. cbv zeta in Hm.
  destruct (brisk_transfer D [Register.addr Register.X_LSB] 7 _ Hb) as [Hc1 Hb1].
  pose proof (fun r len => proj1 (brisk_transfer D [Register.addr r] len _ Hb1)) as Hc2.
  fold (sample_bus (world s)) in Hc1, Hc2.
  pose proof (clock_mono_sample_bus (world s)) as Hc0.
  destruct Hinv as [_ _ _ _ Hcheck Htemp _].
  unfold maintenance_due, check_due in Hm. rewrite Hok, !elapsed_since_exact in Hm by lia.
  unfold ages_step, temperature_age, check_age. cbn [negb orb Z.eqb PX4_OK] in Hm.
  destruct (_ >? ms 100) eqn:Hdue; [| destruct (_ >? sec 1) eqn:Htmp].
  - destruct Hm as (c & _ & -> & -> & _ & Hm). specialize (Hc2 (reg c) 1%nat).
    rewrite RegisterCheck_run, RegisterRead_run in *. cbn [snd] in *.
    destruct (bool_decide _); [destruct Hm as [_ ->] | congruence]. lia.
  - destruct Hm as (-> & _ & -> & -> & _). specialize (Hc2 Register.TEMP_LSB 2%nat).
    unfold temperature_bus. lia.
  - destruct Hm as (-> & _ & -> & -> & _). lia.
Qed.

End Ages.

(** ** Rounds on time *)

Section Punctual.
Context {W : Type} `{PlatformLaws W} `{!RegisterFile W} `{!Chip W}.
Implicit Types (w : W) (s : System W).

(** A round in time in which the sample read succeeds. *)
Definition punctual_step (D L : Z) s s1 : Prop :=
  brisk_step D L s s1 /\ fst (fst (sample_bus (world s1))) = PX4_OK.

Definition punctual_round (D L : Z) s s' : Prop :=
  exists s1, punctual_step D L s s1 /\ RunImpl s1 = Some (tt, s').

Lemma punctual_round_quiet D L s s' : punctual_round D L s s' -> quiet_round s s'.
Proof. intros (s1 & ((Hq & _) & _) & Hrun). by exists s1. Qed.

(** The start of a round in [READ]: the timestamps are those of the last
    round, and no more than 20 ms and [L] have passed. *)
Lemma punctual_step_READ D L s s1 :
  0 <= L -> driver_inv s -> _state (driver s) = STATE.READ -> punctual_step D L s s1 ->
  exists e,
    0 <= e <= ms 20 + L /\
    temperature_age s1 = temperature_age s + e /\ check_age s1 = check_age s + e.
Proof.
  intros HL [_ _ _ _ _ _ Hsch] Hst (([(d & Hd & Hdrv & Hmono & _) _] & Hon & _) & _).
  specialize (Hon d Hd). revert Hd. unfold next_delay. rewrite (Hsch Hst).
  exists (hrt_absolute_time (world s1) - hrt_absolute_time (world s)).
  unfold temperature_age, check_age. rewrite Hdrv. cbn.
  destruct (run_now _); injection Hd as <-; unfold ms in *; lia.
Qed.

(** A round on time in [READ], on a chip that is configured. *)
Lemma punctual_round_ages D L s s' :
  0 <= L -> driver_inv s -> table_ok s -> serving s -> punctual_round D L s s' ->
  exists e,
    0 <= e <= ms 20 + L /\
    ages_step D e (temperature_age s) (check_age s) (temperature_age s') (check_age s').
Proof.
  intros HL Hinv Hok Hs Hr.
  destruct (quiet_round_on_track _ _ _ Hinv Hok Hs (punctual_round_quiet _ _ _ _ Hr))
    as (_ & _ & Hst' & _).
  destruct Hr as (s1 & Hp & Hrun).
  destruct (punctual_step_READ D L s s1 HL Hinv (proj1 Hs) Hp) as (e & He & Ha & Hb).
  destruct Hp as (([Henv _] & _ & Hbrisk) & Hsample).
  destruct (env_step_members _ _ Henv) as (Hst1 & _). rewrite (proj1 Hs) in Hst1.
  pose proof (RunImpl_ages D s1 s' (env_step_inv _ _ Hinv Henv) Hst1 Hbrisk Hsample Hrun Hst')
    as Hages.
  exists e. split; [done |]. revert Hages. rewrite Ha, Hb. unfold ages_step. lia.
Qed.

(** After one round the check is fresh and the temperature nearly so,
    after two it is fresh. *)
Lemma punctual_rounds_fresh D L n : forall s s',
  0 <= D -> 0 <= L -> ms 20 + L + 3 * D <= ms 100 ->
  driver_inv s -> table_ok s -> serving s -> nsteps (punctual_round D L) n s s' ->
  serving s' /\
  ((1 <= n)%nat -> check_age s' <= ms 100 + D) /\
  ((1 <= n)%nat -> nearly_fresh D s') /\ ((2 <= n)%nat -> fresh D L s').
Proof.
  induction n as [| n IH]; intros s s' HD HL HDL Hinv Hok Hs Hn.
  { inversion Hn; subst. split_and!; [done | lia..]. }
  apply nsteps_inv_r in Hn as (s1 & Hn & Hr).
  destruct (IH _ _ HD HL HDL Hinv Hok Hs Hn) as (Hs1 & _ & Hnear & _).
  destruct (quiet_rounds_on_track n STATE.READ s s1) as (Hinv1 & Hok1 & _);
    [done.. | exact (nsteps_sub _ _ _ _ _ (punctual_round_quiet D L) Hn) |].
  destruct (quiet_round_on_track _ _ _ Hinv1 Hok1 Hs1 (punctual_round_quiet _ _ _ _ Hr))
    as (_ & _ & Hs').
  destruct (punctual_round_ages D L s1 s' HL Hinv1 Hok1 Hs1 Hr) as (e & He & Hages).
  unfold ms, sec in *. split_and!; [done | ..]; intros Hle.
  - eapply ages_step_check, Hages; unfold ms; lia.
  - eapply ages_step_nearly_fresh, Hages; unfold sec; lia.
  - eapply (ages_step_fresh D L e), Hages; unfold ms, sec; try lia. apply Hnear. lia.
Qed.

(** C18: the maintenance is kept fresh.  On a chip that is configured and
    left undisturbed, with a work queue that starts every round no later
    than [L] after the time asked for and reads that succeed within [D]
    each, where [20 ms + L + 3 D] is no more than 100 ms: from the second
    round on, and whatever the timestamps were before, the driver stays in
    [READ], and at the end of every round the last check that passed is
    no older than 100 ms and a read, and the last temperature update no
    older than one second, the 20 ms to the next round, [L] and two
    reads. *)
Theorem maintenance_fresh D L m s s' :
  0 <= D -> 0 <= L -> ms 20 + L + 3 * D <= ms 100 ->
  driver_inv s -> table_ok s -> serving s -> (2 <= m)%nat ->
  nsteps (punctual_round D L) m s s' ->
  serving s' /\ check_age s' <= ms 100 + D /\
  temperature_age s' <= sec 1 + ms 20 + L + 2 * D.
Proof.
  intros HD HL HDL Hinv Hok Hs Hm Hn.
  destruct (punctual_rounds_fresh D L m s s') as (Hs' & Hb & _ & Hf); [done.. |].
  split_and!; [done | unfold ms in *; lia |].
  destruct (Hf Hm) as [Ha | [Ha _]]; unfold ms, sec in *; lia.
Qed.

(** C9: the steady state.  From any state of the driver object that
    satisfies the invariant and any content of the registers, on a chip
    that is alive and left undisturbed, with a work queue that is on time,
    transfers that take no more than [D] and sample reads that succeed:
    after seventeen rounds and six for every entry of the table the
    driver reads from a configured chip, has
    checked an entry of the table within the last 100 ms and a read, and
    has looked at the temperature within the last second, 20 ms, [L] and
    two reads; and so at the end of every round from then on. *)
Theorem steady_state D L m s s' :
  0 <= D -> 0 <= L -> ms 20 + L + 3 * D <= ms 100 ->
  driver_inv s -> table_ok s -> alive (world s) ->
  (6 * length (_register_cfg (driver s)) + 17 <= m)%nat ->
  nsteps (punctual_round D L) m s s' ->
  serving s' /\ check_age s' <= ms 100 + D /\
  temperature_age s' <= sec 1 + ms 20 + L + 2 * D.
Proof.
  intros HD HL HDL Hinv Hok Hw Hm Hn.
  replace m with ((m - 2) + 2)%nat in Hn by lia.
  apply nsteps_add_inv in Hn as (s1 & Hn1 & Hn2).
  pose proof (nsteps_sub _ _ _ _ _ (punctual_round_quiet D L) Hn1) as Hq.
  destruct (quiet_rounds_keep _ s s1 Hinv Hq) as (Hinv1 & Hcfg1 & _).
  assert (table_ok s1) as Hok1 by (unfold table_ok; by rewrite Hcfg1).
  pose proof (self_stabilising (m - 2) s s1 Hinv Hok Hw ltac:(lia) Hq) as Hs1.
  destruct (punctual_rounds_fresh D L 2 s1 s') as (Hs' & Hb & _ & Hf); [done.. |].
  split_and!; [done | unfold ms in *; lia |].
  destruct (Hf ltac:(lia)) as [Ha | [Ha _]]; unfold ms, sec in *; lia.
Qed.

End Punctual.

(** ** Rounds that are late *)

Section Late.
Context {W : Type} `{PlatformLaws W} `{!RegisterFile W} `{!Chip W}.
Implicit Types (w : W) (s : System W).

(** A round that starts more than 100 ms after the last one ended, on a
    chip that is left undisturbed. *)
Definition late_round s s' : Prop :=
  exists s1,
    quiet_step s s1 /\
    hrt_absolute_time (world s) + ms 100 < hrt_absolute_time (world s1) /\
    RunImpl s1 = Some (tt, s').

Lemma late_round_quiet s s' : late_round s s' -> quiet_round s s'.
Proof. intros (s1 & Hq & _ & Hrun). by exists s1. Qed.

(** A round that is late finds the check due, and leaves the temperature
    alone. *)
Lemma late_round_starved s s' :
  driver_inv s -> _state (driver s) = STATE.READ -> late_round s s' ->
  _temperature_update_timestamp (driver s') = _temperature_update_timestamp (driver s) /\
  _px4_mag (driver s') = _px4_mag (driver s) /\
  temperature_age s + ms 100 <= temperature_age s'.
Proof.
  intros Hinv Hst (s1 & [Henv _] & Hlate & Hrun).
  pose proof (env_step_inv _ _ Hinv Henv) as Hinv1.
  destruct (env_step_members _ _ Henv) as (Hst1 & _). rewrite Hst in Hst1.
  pose proof (RunImpl_maintenance s1 s' Hinv1 Hst1 Hrun) as Hm. cbv zeta in Hm.
  pose proof (RunImpl_clock s1 s' Hrun) as Hclk.
  pose proof (clock_mono_sample_bus (world s1)) as Hc0.
  destruct Hinv as [_ _ _ _ Hcheck _ _]. destruct Hinv1 as [_ _ _ _ Hcheck1 _ _].
  assert (_last_config_check_timestamp (driver s1) = _last_config_check_timestamp (driver s) /\
          _temperature_update_timestamp (driver s1) = _temperature_update_timestamp (driver s) /\
          _px4_mag (driver s1) = _px4_mag (driver s)) as (Hl & Hu & Hmag)
    by (by destruct Henv as (d & _ & -> & _)).
  unfold maintenance_due, check_due in Hm. rewrite elapsed_since_exact in Hm by lia.
  destruct (negb _ || _) eqn:Hdue;
    [| apply orb_false_elim in Hdue as [_ Hdue]; unfold ms in *; lia].
  unfold temperature_age, ms in *. destruct Hm as (c & _ & _ & -> & -> & _).
  rewrite Hu. split_and!; [done.. | lia].
Qed.

(** C29: the temperature is starved by a work queue that is late.  On a
    chip that is configured and left undisturbed, when every round starts
    more than 100 ms after the last one ended, every round checks an
    entry of the table and none reads the temperature: the driver stays in
    [READ], the sink keeps the temperature it had, and the last update
    gets older by more than 100 ms with every round, without bound. *)
Theorem temperature_starved n s s' :
  driver_inv s -> table_ok s -> serving s -> nsteps late_round n s s' ->
  serving s' /\
  mag_temperature (_px4_mag (driver s')) = mag_temperature (_px4_mag (driver s)) /\
  temperature_age s + ms 100 * Z.of_nat n <= temperature_age s'.
Proof.
  intros Hinv Hok Hs Hn. revert Hinv Hok Hs.
  induction Hn as [s | n s s1 s' Hr Hn IH]; intros Hinv Hok Hs; [split_and!; [done.. | lia] |].
  destruct (quiet_round_on_track _ _ _ Hinv Hok Hs (late_round_quiet _ _ Hr))
    as (Hinv1 & Hok1 & Hs1).
  destruct (late_round_starved s s1 Hinv (proj1 Hs) Hr) as (_ & Hmag & Hage).
  destruct (IH Hinv1 Hok1 Hs1) as (Hs' & -> & Hage'). rewrite Hmag.
  split_and!; [done.. | lia].
Qed.

End Late.

(** ** On the simulated device *)

(** The driver on a simulated device that is alive and whose transfers
    take no more than [D]. *)
Definition sim_working (D : Z) (s : System SimDevice) : Prop :=
  driver_inv s /\ alive (world s) /\ 0 <= sim_cost (world s) <= D.

Lemma sim_round_punctual D s s' :
  sim_working D s -> sim_round s = Some s' -> punctual_round D 0 s s' /\ sim_working D s'.
Proof.
  intros (Hinv & Hw & Hcost) (s1 & Hstart & Hrun)%sim_round_inv.
  destruct (sim_start_world _ _ Hstart) as [d Hw1].
  assert (punctual_round D 0 s s') as Hr.
  { exists s1. split; [| done]. destruct Hw as [[Hup Hf] _].
    split; [| by rewrite Hw1; cbn; rewrite Hup, Hf].
    split_and!; [by apply sim_start_quiet | by apply sim_start_on_time |].
    apply sim_brisk. by rewrite Hw1. }
  split; [done |].
  destruct (quiet_round_keeps _ _ Hinv (punctual_round_quiet _ _ _ _ Hr)) as (Hinv' & _ & Hw' & _).
  split_and!; [done | by apply Hw' | |]; rewrite (sim_RunImpl_cost s1 s' Hrun), Hw1; apply Hcost.
Qed.

Lemma sim_rounds_punctual D n s s' :
  sim_working D s -> sim_rounds n s = Some s' -> nsteps (punctual_round D 0) n s s'.
Proof. apply (sim_rounds_nsteps (punctual_round D 0) (sim_working D)), sim_round_punctual. Qed.

(** A work queue that starts the item [lag] after the time asked for. *)
Definition sim_start_late (lag : Z) (s : System SimDevice) : option (System SimDevice) :=
  s1 ← sim_start s;
  if (0 <=? lag) && (sim_clock (world s1) + lag <? 2 ^ 64)
  then Some {| driver := driver s1; world := sim_wait lag (world s1) |}
  else None.

Definition sim_late_round (lag : Z) (s : System SimDevice) : option (System SimDevice) :=
  s1 ← sim_start_late lag s; snd <$> RunImpl s1.

Definition sim_late_rounds_state (lag : Z) (n : nat) (s : System SimDevice)
    : System SimDevice :=
  default s (steps (sim_late_round lag) n s).

(** A start that is late is a start, and more than 100 ms late when the
    lag is. *)
Lemma sim_start_late_quiet lag s s1 :
  sim_start_late lag s = Some s1 ->
  quiet_step s s1 /\
  (ms 100 < lag -> hrt_absolute_time (world s) + ms 100 < hrt_absolute_time (world s1)).
Proof.
  unfold sim_start_late. destruct (sim_start s) as [s0 |] eqn:Hstart; [| done].
  cbn [mbind option_bind]. destruct (andb _ _) eqn:Hc; [| done]. intros [= <-].
  apply andb_prop in Hc as [Hlag%Z.leb_le Hmax%Z.ltb_lt].
  destruct (sim_start_quiet _ _ Hstart) as [(d & Hd & Hdrv & Hmono & Hclk) Hu].
  revert Hstart Hmono Hclk Hmax Hu. unfold sim_start. rewrite Hd.
  destruct (andb _ _) eqn:Hc; [| done]. apply andb_prop in Hc as [Hpos%Z.leb_le _].
  intros [= <-]. cbn. unfold sim_now. cbn. intros Hmono Hclk Hmax Hu. split; [split |].
  - exists d. cbn. unfold sim_now. cbn. split_and!; [done.. | lia | lia].
  - intros Ha. by destruct (Hu Ha).
  - unfold ms. lia.
Qed.

Lemma sim_late_round_late lag s s' :
  ms 100 < lag -> sim_late_round lag s = Some s' -> late_round s s'.
Proof.
  intros Hlag. unfold sim_late_round.
  destruct (sim_start_late lag s) as [s1 |] eqn:Hstart; [| done]. cbn [mbind option_bind].
  destruct (RunImpl s1) as [[[] s2] |] eqn:Hrun; [| done]. intros [= <-].
  destruct (sim_start_late_quiet _ _ _ Hstart) as [Hq Hlate]. exists s1. auto.
Qed.

Lemma sim_late_rounds lag n s s' :
  ms 100 < lag -> steps (sim_late_round lag) n s = Some s' -> nsteps late_round n s s'.
Proof.
  intros Hlag. apply (steps_nsteps _ late_round (fun _ => True)); [| done].
  eauto using sim_late_round_late.
Qed.

(** ** Witnesses *)

(** Sixty rounds of the simulated work queue, 20 ms and one or two
    transfers of 100 us apart. *)
Lemma maintenance_fresh_witness :
  serving (sim_rounds_state 60 sim_read_system) /\
  check_age (sim_rounds_state 60 sim_read_system) <= ms 100 + 100 /\
  temperature_age (sim_rounds_state 60 sim_read_system) <= sec 1 + ms 20 + 0 + 2 * 100.
Proof.
  apply (maintenance_fresh 100 0 60 sim_read_system);
    [lia | lia | by vm_compute | apply sim_read_system_inv
    | by apply sim_serving | by apply sim_serving | lia |].
  apply sim_rounds_punctual; [| sim_compute].
  split_and!; [apply sim_read_system_inv | done..].
Defined.

(** The driver that waits for a reset the chip was never asked for: it
    waits for a second, resets, configures, and has read the temperature
    by the end of the run. *)
Lemma steady_state_witness :
  is_Some (mag_temperature (_px4_mag (driver (sim_rounds_state 100 sim_lost_system)))) /\
  serving (sim_rounds_state 100 sim_lost_system) /\
  check_age (sim_rounds_state 100 sim_lost_system) <= ms 100 + 100 /\
  temperature_age (sim_rounds_state 100 sim_lost_system) <= sec 1 + ms 20 + 0 + 2 * 100.
Proof.
  split; [sim_compute |].
  apply (steady_state 100 0 100 sim_lost_system);
    [lia | lia | by vm_compute | sim_inv | by apply continuous_cfg_ok | done | cbn; lia |].
  apply sim_rounds_punctual; [| sim_compute]. split_and!; [sim_inv | done..].
Defined.

(** The device at 25 degrees, whose temperature was never read: thirty
    rounds that start 100 ms late leave the sink without it, where one
    round on time delivers it. *)
Lemma temperature_starved_witness :
  mag_temperature (_px4_mag (driver (sim_rounds_state 1 sim_temperature_system)))
  = Some (temperature_C {| TOUT_LSB := 0xC4; TOUT_MSB := 0x09 |}) /\
  serving (sim_late_rounds_state (ms 101) 30 sim_temperature_system) /\
  mag_temperature (_px4_mag (driver (sim_late_rounds_state (ms 101) 30 sim_temperature_system)))
  = mag_temperature (_px4_mag (driver sim_temperature_system)) /\
  temperature_age sim_temperature_system + ms 100 * Z.of_nat 30
  <= temperature_age (sim_late_rounds_state (ms 101) 30 sim_temperature_system).
Proof.
  split; [by vm_compute |].
  apply (temperature_starved 30 sim_temperature_system);
    [apply sim_temperature_system_inv | by apply sim_serving | by apply sim_serving |].
  apply (sim_late_rounds (ms 101)); [by vm_compute | sim_compute].
Defined.
