(* ===== verification/Protocol.v ===== *)
(** * Protocol: the requests of a step, in order

    [Logged] bounds the number of the requests of a step and says that
    each is well formed; [Writes] says which of them may be writes.  This
    file gives the requests themselves, in the order in which they are
    issued, as a function of the state the step starts in
    ([step_requests]): the write of the soft reset; the read of the reset
    status; for every entry of the table the read of its register and,
    when the bits of the entry change the value read, the write of the
    new value, followed by the reads of the second loop; the read of the
    seven bytes of a sample, followed by the read of the register under
    check or by the read of the two bytes of the temperature, or by
    nothing.  The record of a step on the recording platform is this
    list. *)

From Stdlib Require Import ZArith Lia Bool.
From stdpp Require Import base tactics option list.
From S2P Require Import Prelude Registers Platform RegisterAccess Decoder Driver.
From S2P Require Import SimDevice Configuration Lifecycle Progress Logged Steps Recovery.
From S2P Require Import Writes Detection Stabilisation Duration Cadence.

#[local] Open Scope Z_scope.

(** ** The requests of a step *)

(** The read of [n] bytes from register [r] on, and the write of [v] to
    register [r]. *)
Definition read_request (r : Register.Register) (n : nat) : request_t :=
  ([Register.addr r], n).

Definition write_request (r : Register.Register) (v : Z) : request_t :=
  ([Register.addr r; v], 0%nat).

Section Requests.
Context {W : Type} `{Platform W}.
Implicit Types (w : W) (s : System W).

(** The requests of [RegisterSetAndClearBits] for an entry: the read, and
    the write of the value with the bits of the entry set and cleared when
    that is not the value read. *)
Definition entry_requests (c : register_config_t) (w : W) : list request_t :=
  let o := fst (RegisterRead (reg c) w) in
  let v := set_and_clear o (set_bits c) (clear_bits c) in
  read_request (reg c) 1 :: (if decide (v = o) then [] else [write_request (reg c) v]).

(** The requests of the first loop of [Configure], the first first. *)
Fixpoint apply_requests (cfg : list register_config_t) (w : W) : list request_t :=
  match cfg with
  | [] => []
  | c :: cfg =>
      entry_requests c w
      ++ apply_requests cfg
           (snd (RegisterSetAndClearBits (reg c) (set_bits c) (clear_bits c) w))
  end.

(** The requests of a step that starts in [s], the first first.  In
    [READ] the sample is read first; what follows is the read of the
    register under check, the read of the temperature, or nothing. *)
Definition step_requests (s : System W) : list request_t :=
  let cfg := _register_cfg (driver s) in
  match _state (driver s) with
  | STATE.RESET => [write_request Register.CNTL2 CNTL2_BIT.SOFT_RST]
  | STATE.WAIT_FOR_RESET => [read_request Register.CNTL2 1]
  | STATE.CONFIGURE => apply_requests cfg (world s) ++ reads_of cfg
  | STATE.READ =>
      read_request Register.X_LSB 7
      :: match maintenance_due s with
         | Check => reads_of (option_list (cfg !! Z.to_nat (_checked_register (driver s))))
         | Temperature => [read_request Register.TEMP_LSB 2]
         | Idle => []
         end
  end.

End Requests.

(** ** The record of the bus operations *)

Section Issued.
Context {W : Type} `{Platform W}.
Implicit Types (lw : Logged W) (cfg : list register_config_t).

Lemma issued_entry c lw :
  issued (snd (RegisterSetAndClearBits (reg c) (set_bits c) (clear_bits c) lw))
  = rev (entry_requests c lw) ++ issued lw.
Proof.
  unfold entry_requests. rewrite RegisterSetAndClearBits_run.
  destruct (RegisterRead (reg c) lw) as [o lw1] eqn:Hread.
  assert (issued lw1 = read_request (reg c) 1 :: issued lw) as Hlog
    by (by injection Hread as _ <-).
  cbn [fst]. case_decide; cbn; by rewrite Hlog.
Qed.

Lemma issued_apply cfg : forall lw,
  issued (snd (apply_register_cfg cfg lw)) = rev (apply_requests cfg lw) ++ issued lw.
Proof.
  induction cfg as [| c cfg IH]; intros lw; [done |].
  cbn [apply_register_cfg apply_requests]. unfold bind. cbv beta zeta.
  by rewrite IH, issued_entry, rev_app_distr, <- app_assoc.
Qed.

Lemma issued_check cfg : forall b lw,
  issued (snd (check_register_cfg cfg b lw)) = rev (reads_of cfg) ++ issued lw.
Proof.
  induction cfg as [| c cfg IH]; intros b lw; [done |].
  cbn [check_register_cfg]. unfold bind. cbv beta zeta. rewrite IH.
  cbn. by rewrite <- app_assoc.
Qed.

Lemma issued_configure_bus cfg lw :
  issued (snd (configure_bus cfg lw))
  = rev (apply_requests cfg lw ++ reads_of cfg) ++ issued lw.
Proof.
  unfold configure_bus, bind. cbv beta zeta.
  by rewrite issued_check, issued_apply, rev_app_distr, <- app_assoc.
Qed.

(** The requests do not depend on the record. *)
Lemma entry_requests_base c lw : entry_requests c lw = entry_requests c (base lw).
Proof. unfold entry_requests. by destruct (erases_RegisterRead (reg c) lw) as [-> _]. Qed.

Lemma apply_requests_base cfg : forall lw,
  apply_requests cfg lw = apply_requests cfg (base lw).
Proof.
  induction cfg as [| c cfg IH]; intros lw; [done |]. cbn [apply_requests].
  rewrite IH, entry_requests_base.
  by destruct (erases_RegisterSetAndClearBits (reg c) (set_bits c) (clear_bits c) lw)
    as [_ ->].
Qed.

Lemma step_requests_record (s : System W) : step_requests (record s) = step_requests s.
Proof.
  unfold step_requests. cbn [record driver world].
  destruct (_state (driver s)); [done | done | by rewrite apply_requests_base | done].
Qed.

End Issued.

(** ** The record of a step *)

Section Steps.
Context {W : Type} `{PlatformLaws W}.
Implicit Types (s : System W) (ls : System (Logged W)).

(** A step in [READ] on the recording platform. *)
Lemma RunImpl_issued_READ ls ls' :
  driver_inv ls -> _state (driver ls) = STATE.READ -> RunImpl ls = Some (tt, ls') ->
  issued (world ls') = rev (step_requests ls) ++ issued (world ls).
Proof.
  intros Hinv Hst Hrun. pose proof (RunImpl_maintenance ls ls' Hinv Hst Hrun) as Hm.
  cbv zeta in Hm. unfold step_requests. rewrite Hst.
  destruct (maintenance_due ls);
    [destruct Hm as (c & -> & -> & _) | destruct Hm as (-> & _)..]; done.
Qed.

(** A step in another state. *)
Lemma RunImpl_issued_start ls ls' :
  _state (driver ls) <> STATE.READ -> RunImpl ls = Some (tt, ls') ->
  issued (world ls') = rev (step_requests ls) ++ issued (world ls).
Proof.
  intros Hst Hrun. unfold step_requests. run_cases Hrun; try done.
  all: by rewrite ?issued_configure_bus.
Qed.

Lemma RunImpl_issued ls ls' :
  driver_inv ls -> RunImpl ls = Some (tt, ls') ->
  issued (world ls') = rev (step_requests ls) ++ issued (world ls).
Proof.
  intros Hinv Hrun. destruct (decide (_state (driver ls) = STATE.READ)).
  - by apply RunImpl_issued_READ.
  - by apply RunImpl_issued_start.
Qed.

(** C14: the requests of a step, in order.  A step of [RunImpl] from a
    state that satisfies the invariant issues exactly the requests of
    [step_requests], in that order.  In [RESET]: the write of [SOFT_RST] to
    [CNTL2].  In [WAIT_FOR_RESET]: the read of one byte from [CNTL2].  In
    [CONFIGURE]: for every entry of the table in turn the read of one byte
    from its register, followed by the write of that byte with the bits of
    the entry set and cleared when this is another byte; then the read of
    one byte from the register of every entry in turn.  In [READ]: the
    read of seven bytes from [X_LSB], followed by the read of one byte from
    the register of the entry under check when the check is due, else by
    the read of two bytes from [TEMP_LSB] when the temperature is due, else
    by nothing. *)
Theorem RunImpl_protocol s s' :
  driver_inv s -> RunImpl s = Some (tt, s') ->
  exists lw,
    RunImpl (record s) = Some (tt, {| driver := driver s'; world := lw |}) /\
    base lw = world s' /\
    issued lw = rev (step_requests s).
Proof.
  intros Hinv Hrun. destruct (RunImpl_recorded _ _ Hrun) as (lw & Hrec & Hb & _).
  exists lw. split_and!; [done.. |].
  pose proof (RunImpl_issued _ _ (record_inv _ Hinv) Hrec) as Hlog.
  cbn [world record issued] in Hlog. rewrite Hlog, step_requests_record. apply app_nil_r.
Qed.

End Steps.

(** ** On the simulated device *)

(** The step in [CONFIGURE] after a reset, with the table of three
    entries: each of the three registers is read and written, then read
    again; and the step in [READ] that finds the temperature due. *)
Lemma RunImpl_protocol_witness :
  step_requests (sim_run 2 sim_started).2
  = [read_request Register.CNTL1 1; write_request Register.CNTL1 0x05;
     read_request Register.CNTL2 1; write_request Register.CNTL2 0x40;
     read_request Register.SET_RESET_PERIOD 1; write_request Register.SET_RESET_PERIOD 0x01;
     read_request Register.CNTL1 1; read_request Register.CNTL2 1;
     read_request Register.SET_RESET_PERIOD 1] /\
  step_requests sim_temperature_system
  = [read_request Register.X_LSB 7; read_request Register.TEMP_LSB 2] /\
  exists s' lw,
    RunImpl (sim_run 2 sim_started).2 = Some (tt, s') /\
    RunImpl (record (sim_run 2 sim_started).2)
    = Some (tt, {| driver := driver s'; world := lw |}) /\
    base lw = world s' /\
    issued lw = rev (step_requests (sim_run 2 sim_started).2).
Proof.
  split; [by vm_compute |]. split; [by vm_compute |].
  assert (driver_inv (sim_run 2 sim_started).2) as Hinv
    by (apply sim_run_inv; [apply sim_started_inv | sim_compute]).
  destruct (RunImpl_defined _ Hinv) as [s' Hrun]. exists s'.
  destruct (RunImpl_protocol _ s' Hinv Hrun) as (lw & Hrec & Hb & Hlog). by exists lw.
Defined.
