(* ===== verification/Specified.v ===== *)
(** * The condition of line 178, and what it decides

    The condition of line 178 is false whatever the chip delivers
    ([Decoder.sample_condition_false]), so [RunImpl] hands no sample to the
    sink.  The specification describes the bitwise test: a sample is
    processed when the transfer succeeded, the data-ready bit is set and the
    overflow bit is clear ([Decoder.data_ready]).  [RunImpl_with accept] is
    the text of [RunImpl] with the condition [accept] in place of that of
    line 178: [RunImpl_with sample_condition] is [RunImpl], and
    [RunImpl_with data_ready], called [RunImpl_specified], is the code with
    the condition corrected and nothing else changed.  It is not the step
    of the specification, which differs from the code in more than the
    condition: it counts the read cycles that decode no sample and resets
    when the count exceeds ten, and it compares the timeouts with [>=];
    [Lifecycle] and [Steps] state these differences of the code.

    This file shows what the condition decides.  The block it guards
    writes the sink and clears the count of failures, which is zero; nothing
    in the driver reads the sink.  So under any two conditions the steps
    run in lock step, from states that differ in the sink only to states
    that differ in the sink only, and the defect of line 178 is confined
    to what the sink is given: states, schedules, timestamps, counters and
    transfers are those of the code with the condition corrected.  What is
    lost is one sample in every round in which [data_ready] holds. *)

From Stdlib Require Import ZArith Lia Bool QArith_base.
From stdpp Require Import base tactics option list relations.
From S2P Require Import Prelude Registers Platform RegisterAccess Decoder Driver.
From S2P Require Import SimDevice Configuration Lifecycle Progress.

#[local] Open Scope Z_scope.

(** ** The step, with the condition as a parameter *)

Section Specified.
Context {W : Type} `{Platform W}.

(** [read_sample] with [accept] for the condition of line 178. *)
Definition read_sample_with (accept : bool -> Z -> bool) : Drv (System W) (bool * Z) :=
  (assign (set_transfer_perf perf_begin) ;;
   timestamp_sample <- bus now ;;
   res <- bus (transfer [Register.addr Register.X_LSB] 7) ;;
   let buffer := TransferBuffer_of (snd res) in
   let failure := negb (fst res =? PX4_OK) in
   when failure (assign (set_bad_transfer_perf perf_count)) ;;
   assign (set_transfer_perf perf_end) ;;
   when (accept failure (STATUS buffer))
     (let '(x, y, z) := decode_sample buffer in
      assign (set_px4_mag (update timestamp_sample x y z)) ;;
      assign (set_consecutive_failures 0)) ;;
   dret (failure, timestamp_sample))%drv.

Definition run_READ_with (accept : bool -> Z -> bool) : Drv (System W) unit :=
  (r <- read_sample_with accept ;;
   let '(failure, timestamp_sample) := r in
   due <- config_check_due failure ;;
   go_on <-
     (if due then check_next_register timestamp_sample
      else
        temp <- temperature_due ;;
        when temp (update_temperature timestamp_sample) ;;
        dret true) ;;
   when go_on check_consecutive_failures)%drv.

Definition RunImpl_with (accept : bool -> Z -> bool) : Drv (System W) unit :=
  (st <- get _state ;;
   match st with
   | STATE.RESET => run_RESET
   | STATE.WAIT_FOR_RESET => run_WAIT_FOR_RESET
   | STATE.CONFIGURE => run_CONFIGURE
   | STATE.READ => run_READ_with accept
   end)%drv.

(** The step with the condition the specification describes. *)
Definition RunImpl_specified : Drv (System W) unit := RunImpl_with data_ready.

(** The sample the step hands to the sink under the condition of the
    specification: the decoded buffer, with the time before the transfer,
    when the driver reads and the condition holds. *)
Definition sample_of (s : System W) : option mag_sample :=
  let res := fst (sample_bus (world s)) in
  let buffer := TransferBuffer_of (snd res) in
  match _state (driver s) with
  | STATE.READ =>
      if data_ready (negb (fst res =? PX4_OK)) (STATUS buffer) then
        let '(x, y, z) := decode_sample buffer in
        Some {| sample_timestamp := hrt_absolute_time (world s);
                sample_x := x; sample_y := y; sample_z := z |}
      else None
  | _ => None
  end.

(** The sink with one sample more, or as it is. *)
Definition publish (o : option mag_sample) (m : PX4Magnetometer) : PX4Magnetometer :=
  {| mag_priority := mag_priority m; mag_rotation := mag_rotation m;
     mag_external := mag_external m; mag_scale := mag_scale m;
     mag_temperature := mag_temperature m;
     mag_samples := option_list o ++ mag_samples m |}.

(** One round of the work queue with the step under [accept], and under
    the condition of the specification. *)
Definition round_with (accept : bool -> Z -> bool) (s s' : System W) : Prop :=
  exists s1, env_step s s1 /\ RunImpl_with accept s1 = Some (tt, s').

Definition round_specified : relation (System W) := round_with data_ready.

(** The two states differ in the sink only. *)
Definition same_but_sink (s1 s2 : System W) : Prop :=
  world s2 = world s1 /\
  exists m, driver s2 = set_px4_mag (fun _ => m) (driver s1).

(** With the condition of line 178 the step is [RunImpl]. *)
Lemma RunImpl_with_sample_condition : RunImpl_with sample_condition = RunImpl.
Proof. reflexivity. Qed.

End Specified.

(** ** Computations in lock step *)

Section Related.
Context {S : Type} (R : relation S).

(** From states related by [R] the two computations are both undefined, or
    both return, the same result in states related by [R]. *)
Definition related {A} (m1 m2 : Drv S A) : Prop :=
  forall s1 s2, R s1 s2 ->
    option_Forall2 (fun r1 r2 => fst r1 = fst r2 /\ R (snd r1) (snd r2)) (m1 s1) (m2 s2).

Lemma related_dret {A} (a : A) : related (dret a) (dret a).
Proof. intros s1 s2 HR. by constructor. Qed.

Lemma related_dbind {A B} (m1 m2 : Drv S A) (k1 k2 : A -> Drv S B) :
  related m1 m2 -> (forall a, related (k1 a) (k2 a)) -> related (dbind m1 k1) (dbind m2 k2).
Proof.
  intros Hm Hk s1 s2 HR. unfold dbind.
  destruct (Hm s1 s2 HR) as [[a1 s1'] [a2 s2'] [Ha HR'] |]; [| constructor].
  cbn in Ha, HR'. subst a2. by apply Hk.
Qed.

Lemma related_undefined {A} : related (undefined : Drv S A) undefined.
Proof. intros s1 s2 _. constructor. Qed.

Lemma related_if {A} (b : bool) (m1 m2 n1 n2 : Drv S A) :
  related m1 m2 -> related n1 n2 -> related (if b then m1 else n1) (if b then m2 else n2).
Proof. by destruct b. Qed.

Lemma related_when (b : bool) (m1 m2 : Drv S unit) :
  related m1 m2 -> related (when b m1) (when b m2).
Proof. destruct b; [done | intros _; apply related_dret]. Qed.

(** A part of one computation that the other leaves out, or does under
    another condition. *)
Lemma related_when_or_not (b1 b2 : bool) (m : Drv S unit) :
  related m m -> related m (dret tt) -> related (dret tt) m ->
  related (when b1 m) (when b2 m).
Proof. intros Hmm Hm Hm'. destruct b1, b2; cbn; auto using related_dret. Qed.

End Related.

Create HintDb related discriminated.
#[export] Hint Resolve related_dret related_dbind related_undefined related_if
  related_when : related.
#[export] Hint Extern 2 (related _ (match ?x with _ => _ end) _) => destruct x : related.

(** ** The sink is never read *)

Section Sink.
Context {W : Type} `{Platform W}.
Implicit Types (s : System W) (d : Driver) (m : PX4Magnetometer).

(** The two states differ in the sink only, and no failure is counted. *)
Definition blind (s1 s2 : System W) : Prop :=
  _consecutive_failures (driver s1) = 0 /\ same_but_sink s1 s2.

#[export] Instance same_but_sink_equivalence : Equivalence (same_but_sink (W := W)).
Proof.
  split.
  - intros [d w]. split; [done |]. exists (_px4_mag d). by destruct d.
  - intros [d1 w1] [d2 w2] [Hw [m Hd]]. cbn in *. subst. split; [done |].
    exists (_px4_mag d1). by destruct d1.
  - intros [d1 w1] [d2 w2] [d3 w3] [Hw [m Hd]] [Hw' [m' Hd']]. cbn in *. subst.
    split; [done |]. by exists m'.
Qed.

(** A member other than the sink is the same in both states. *)
Lemma related_get {A} (f : Driver -> A) :
  (forall d m, f (set_px4_mag (fun _ => m) d) = f d) -> related blind (get f) (get f).
Proof.
  intros Hf s1 s2 (Hc & Hw & m & Hd). constructor. cbn.
  split; [by rewrite Hd, Hf | by split; [| split; [| exists m]]].
Qed.

(** An assignment that does not read the sink, and counts no failure. *)
Lemma related_assign (f : Driver -> Driver) :
  (forall d m, exists m', f (set_px4_mag (fun _ => m) d) = set_px4_mag (fun _ => m') (f d)) ->
  (forall d, _consecutive_failures d = 0 -> _consecutive_failures (f d) = 0) ->
  related blind (assign f) (assign f).
Proof.
  intros Hf Hc s1 s2 (Hc1 & Hw & m & Hd). constructor. cbn.
  split; [done |]. split; [by apply Hc |]. split; [done |].
  unfold with_driver. cbn. rewrite Hd. apply Hf.
Qed.

Lemma related_bus {A} (m : State W A) : related blind (bus m) (bus m).
Proof.
  intros s1 s2 (Hc & Hw & m' & Hd). unfold bus, zoom. rewrite Hw. constructor. cbn.
  split; [done |]. split; [done |]. split; [done |]. by exists m'.
Qed.

(** The processing of a sample changes the sink, and clears a count that
    is zero. *)
Lemma related_process_l t b :
  related blind
    (let '(x, y, z) := decode_sample b in
     assign (set_px4_mag (update t x y z)) ;; assign (set_consecutive_failures 0))%drv
    (dret tt).
Proof.
  destruct (decode_sample b) as [[x y] z]. intros [d1 w1] [d2 w2] (Hc & Hw & m & Hd).
  cbn in *. subst. constructor. split; [done |]. split; [done |]. split; [done |].
  exists m. destruct d1; cbn in *. by subst.
Qed.

Lemma related_process_r t b :
  related blind (dret tt)
    (let '(x, y, z) := decode_sample b in
     assign (set_px4_mag (update t x y z)) ;; assign (set_consecutive_failures 0))%drv.
Proof.
  destruct (decode_sample b) as [[x y] z]. intros [d1 w1] [d2 w2] (Hc & Hw & m & Hd).
  cbn in *. subst. constructor. split; [done |]. split; [done |]. split; [done |].
  exists (update t x y z m). destruct d1; cbn in *. by subst.
Qed.

End Sink.

#[export] Hint Resolve related_get related_assign related_bus : related.
#[export] Hint Extern 1 (forall d m, _ = _) => intros; reflexivity : related.
#[export] Hint Extern 1 (forall d m, exists m', _ = _) =>
  intros; eexists; reflexivity : related.
#[export] Hint Extern 1 (forall d, _ = 0 -> _ = 0) =>
  intros ? ?; first [assumption | reflexivity] : related.

Section Lockstep.
Context {W : Type} `{Platform W}.
Implicit Types (s : System W).

Lemma related_Reset : related blind (Reset (W := W)) Reset.
Proof. unfold Reset. auto 10 with related. Qed.

Lemma related_Configure : related blind (Configure (W := W)) Configure.
Proof. unfold Configure. auto 10 with related. Qed.

Lemma related_reset_timed_out : related blind (reset_timed_out (W := W)) reset_timed_out.
Proof. unfold reset_timed_out. auto 10 with related. Qed.

(** The steps under two conditions run in lock step. *)
Lemma related_RunImpl_with accept1 accept2 :
  related blind (RunImpl_with (W := W) accept1) (RunImpl_with accept2).
Proof.
  unfold RunImpl_with, run_RESET, run_WAIT_FOR_RESET, run_CONFIGURE, run_READ_with,
    read_sample_with, config_check_due, check_next_register, temperature_due,
    update_temperature, check_consecutive_failures.
  cbv zeta.
  auto 40 using related_Reset, related_Configure, related_reset_timed_out,
    related_when_or_not, related_process_l, related_process_r with related.
Qed.

End Lockstep.

#[export] Hint Unfold RunImpl_with run_READ_with read_sample_with RunImpl_specified : drv.

(** ** What the corrected condition publishes *)

Section Publishes.
Context {W : Type} `{Platform W}.
Implicit Types (s : System W).

(** C27: what [RunImpl] loses.  From a state with no failure counted, as
    the invariant says, the state the step leaves under the condition of
    the specification is the state [RunImpl] leaves with one sample more in
    the sink when the specification describes one, and the very same state
    otherwise: the driver reads, the block read succeeds, the data-ready
    bit is set and the overflow bit is clear, and the sample is the decoded
    buffer with the time taken before the transfer. *)
Theorem RunImpl_loses_sample s s' s_spec :
  _consecutive_failures (driver s) = 0 ->
  RunImpl s = Some (tt, s') -> RunImpl_specified s = Some (tt, s_spec) ->
  s_spec = with_driver (set_px4_mag (publish (sample_of s))) s'.
Proof.
  unfold sample_of. intros Hf Hrun Hspec. wp_from Hrun. wp_from Hspec. wp_simpl.
  destruct (_state (driver s)) eqn:Hst;
    [wp_simpl | wp_cases | wp_cases
     | wp_cases_with ltac:(first
         [ progress (rewrite ?Hf; unfold sample_bus in * )
         | match goal with
           | |- context [match ?o with Some _ => _ | None => _ end] => destruct o eqn:?
           end ]); try done].
  all: intros [= <-] [= <-]; wp_simpl; try congruence.
  all: unfold with_driver; cbn [driver world]; f_equal.
  all: revert Hf; destruct (driver s) as [mag]; destruct mag; cbn.
  all: by intros ->.
Qed.

End Publishes.

(** ** Runs in lock step *)

Section LockstepRuns.
Context {W : Type} `{Platform W}.
Implicit Types (s : System W).

(** The work queue does not read the sink either. *)
Lemma blind_env_step s1 s2 s1e :
  blind s1 s2 -> env_step s1 s1e -> exists s2e, env_step s2 s2e /\ blind s1e s2e.
Proof.
  intros (Hc & Hw & m & Hd) (delay & Hdelay & Hdrv & Hclk).
  exists {| driver := set_schedule fire (driver s2); world := world s1e |}.
  split.
  - exists delay. rewrite Hd, Hw. by destruct (driver s1).
  - unfold blind, same_but_sink. cbn. rewrite Hdrv, Hd. split; [done |]. split; [done |].
    by exists m.
Qed.

Lemma lockstep_with accept1 accept2 n : forall s1 s2 s1',
  blind s1 s2 -> nsteps (round_with accept1) n s1 s1' ->
  exists s2', nsteps (round_with accept2) n s2 s2' /\ blind s1' s2'.
Proof.
  induction n as [| n IH]; intros s1 s2 s1' HR Hn.
  { inversion Hn; subst. exists s2. split; [constructor | done]. }
  inversion Hn as [| ? ? s1m ? (s1e & Henv & Hrun) Hrest]; subst.
  destruct (blind_env_step s1 s2 s1e HR Henv) as (s2e & Henv2 & HRe).
  pose proof (related_RunImpl_with accept1 accept2 s1e s2e HRe) as Hrel.
  rewrite Hrun in Hrel. inversion Hrel as [? [[] s2m] [_ HRm] Heq1 Heq2 |]; subst.
  destruct (IH s1m s2m s1' HRm Hrest) as (s2' & Hn2 & HR').
  exists s2'. split; [| done]. econstructor; [| done]. by exists s2e.
Qed.

(** C28: the condition of line 178 decides what the sink is given, and
    nothing else.  With any condition [accept] in its place, from two
    states that differ in the sink only, the first with no failure counted
    as the invariant says, every run of the work queue with [RunImpl] is
    answered by a run with the step under [accept] that ends in a state
    which differs in the sink only, and every run with the step under
    [accept] by such a run with [RunImpl]: the block the condition guards
    touches the sink and a count that is zero, and the driver never reads
    the sink. *)
Theorem condition_lockstep accept n s1 s2 :
  _consecutive_failures (driver s1) = 0 -> same_but_sink s1 s2 ->
  (forall s1', nsteps round n s1 s1' ->
     exists s2', nsteps (round_with accept) n s2 s2' /\ same_but_sink s1' s2') /\
  (forall s2', nsteps (round_with accept) n s2 s2' ->
     exists s1', nsteps round n s1 s1' /\ same_but_sink s1' s2').
Proof.
  intros Hc Hs. split.
  - intros s1' Hn.
    destruct (lockstep_with sample_condition accept n s1 s2 s1') as (s2' & Hn2 & _ & HR);
      by eauto.
  - intros s2' Hn. assert (blind s2 s1) as HR.
    { split; [| by symmetry]. destruct Hs as (_ & m & ->). by destruct (driver s1). }
    destruct (lockstep_with accept sample_condition n s2 s1 s2' HR Hn)
      as (s1' & Hn1 & _ & HR').
    exists s1'. split; [done | by symmetry].
Qed.

End LockstepRuns.

(** ** The lifecycle under the corrected condition *)

Section Transfer.
Context {W : Type} `{PlatformLaws W}.
Implicit Types (s : System W).

(** The invariant and what a step observes do not depend on the sink. *)
#[export] Instance driver_inv_sink : Proper (same_but_sink ==> iff) (driver_inv (W := W)).
Proof.
  assert (forall s1 s2, same_but_sink s1 s2 -> driver_inv s1 -> driver_inv s2) as Himp.
  { intros s1 s2 (Hw & m & Hd) [? ? ? ? ? ? ?]. split; rewrite ?Hd, ?Hw; by destruct (driver s1). }
  intros s1 s2 Hs. split; apply Himp; [done | by symmetry].
Qed.

#[export] Instance observe_sink : Proper (same_but_sink ==> eq) (observe (W := W)).
Proof.
  intros s1 s2 (Hw & m & Hd).
  unfold observe, observe_WAIT_FOR_RESET, observe_CONFIGURE, observe_READ, check_due.
  rewrite Hd, Hw. by destruct (driver s1).
Qed.

(** The step under the condition of the specification is defined where
    [RunImpl] is, and ends in a state that differs in the sink only. *)
Lemma RunImpl_specified_answers s s' :
  _consecutive_failures (driver s) = 0 -> RunImpl s = Some (tt, s') ->
  exists s_spec, RunImpl_specified s = Some (tt, s_spec) /\ same_but_sink s' s_spec.
Proof.
  intros Hf Hrun. assert (blind s s) as HR by (by split).
  pose proof (related_RunImpl_with sample_condition data_ready s s HR) as Hrel.
  change (RunImpl_with sample_condition s) with (RunImpl s) in Hrel. rewrite Hrun in Hrel.
  inversion Hrel as [? [[] s_spec] [_ [_ Hs]] Heq1 Heq2 |]; subst. by exists s_spec.
Qed.

(** What [Lifecycle] proves of [RunImpl] holds with the condition
    corrected: the step returns from every state that satisfies the
    invariant, preserves the invariant, and follows the state table. *)
Corollary RunImpl_specified_refines s :
  driver_inv s ->
  exists s',
    RunImpl_specified s = Some (tt, s') /\ driver_inv s' /\
    _state (driver s') = fst (lifecycle_next (_state (driver s)) (observe s)) /\
    _schedule (driver s') =
    apply_request (snd (lifecycle_next (_state (driver s)) (observe s)))
      (_schedule (driver s)).
Proof.
  intros Hinv. destruct (RunImpl_defined s Hinv) as [s0 Hrun].
  destruct (RunImpl_refines s s0 Hinv Hrun) as [Hst Hsch].
  pose proof (wp_run _ _ _ _ _ Hrun (RunImpl_inv_wp s Hinv)) as Hinv0.
  destruct (RunImpl_specified_answers s s0 (inv_failures s Hinv) Hrun) as (s' & Hspec & Hs).
  exists s'. split; [done |]. split; [by rewrite <- Hs |].
  destruct Hs as (_ & m & Hd). rewrite Hd, <- Hst, <- Hsch. by destruct (driver s0).
Qed.

End Transfer.

(** ** On the simulated device *)

(** The state after a step of [RunImpl], and after the step under the
    condition of the specification, or [s] when the step is undefined. *)
Definition sim_step_state (s : System SimDevice) : System SimDevice :=
  default s (snd <$> RunImpl s).

Definition sim_specified_state (s : System SimDevice) : System SimDevice :=
  default s (snd <$> RunImpl_specified s).

(** One round of the simulated work queue with the step under the
    condition of the specification. *)
Definition sim_round_specified (s : System SimDevice) : option (System SimDevice) :=
  s1 ← sim_start s; snd <$> RunImpl_specified s1.

Lemma RunImpl_loses_sample_witness :
  sample_of sim_read_system =
    Some {| sample_timestamp := ms 500; sample_x := -4096; sample_y := 0; sample_z := 0 |} /\
  sim_specified_state sim_read_system =
    with_driver (set_px4_mag (publish (sample_of sim_read_system)))
      (sim_step_state sim_read_system).
Proof.
  split; [by vm_compute |]. by apply RunImpl_loses_sample; vm_compute.
Defined.

Lemma condition_lockstep_witness :
  (forall s1', nsteps round 3 sim_read_system s1' ->
     exists s2', nsteps round_specified 3 sim_read_system s2' /\ same_but_sink s1' s2') /\
  (forall s2', nsteps round_specified 3 sim_read_system s2' ->
     exists s1', nsteps round 3 sim_read_system s1' /\ same_but_sink s1' s2').
Proof. by apply (condition_lockstep data_ready 3 sim_read_system sim_read_system). Defined.
