(* ===== verification/Scenarios.v ===== *)
(** * Scenarios on the simulated device

    The scenarios of the specification's section 8, evaluated: the work
    queue of [SimDevice] runs the driver, and the theorems state what the
    run looks like.  Nothing is assumed here; every statement is closed and
    holds by computation on the definitions of the driver. *)

From Stdlib Require Import ZArith Lia Bool QArith_base.
From stdpp Require Import base tactics option list gmap.
From S2P Require Import Prelude Registers Platform RegisterAccess Decoder Driver.
From S2P Require Import SimDevice Configuration Lifecycle Progress Specified.

#[local] Open Scope Z_scope.

(** ** Running the driver *)

(** The states the driver is in after each round that ends before
    [deadline], for at most [fuel] rounds. *)
Fixpoint sim_history (fuel : nat) (deadline : Z) (s : System SimDevice) : list STATE :=
  match fuel with
  | O => []
  | S fuel =>
      match sim_round s with
      | Some s' =>
          if sim_clock (world s') <=? deadline
          then _state (driver s') :: sim_history fuel deadline s'
          else []
      | None => []
      end
  end.

(** [n] rounds in a row in state [st], if the driver stays there. *)
Fixpoint sim_stay (st : STATE) (n : nat) (s : System SimDevice) : option (System SimDevice) :=
  if bool_decide (_state (driver s) = st) then
    match n with
    | O => Some s
    | S n => s' ← sim_round s; sim_stay st n s'
    end
  else None.

(** The device of the first scenario: the driver with the table
    [(CNTL1, set = 0x01, clear = 0x00)], after [init]. *)
Definition sim_scenario : System SimDevice :=
  {| driver := after_Reset (QMC5883L_new false 0 scenario_cfg);
     world := sim_new 0 100 [] true |}.

(** The bytes of the first scenario appear in the device's data
    registers. *)
Definition inject_sample (s : System SimDevice) : System SimDevice :=
  {| driver := driver s;
     world :=
       {| sim_regs :=
            <[ Register.addr Register.X_MSB := 0x10 ]>
              (<[ Register.addr Register.STATUS := STATUS_BIT.DRDY ]> (sim_regs (world s)));
          sim_clock := sim_clock (world s); sim_cost := sim_cost (world s);
          sim_faults := sim_faults (world s); sim_down := sim_down (world s);
          sim_log := sim_log (world s);
          sim_soft_reset := sim_soft_reset (world s);
          sim_init_status := sim_init_status (world s) |} |}.

(** A device whose reset never completes and whose transfers take no
    time, the driver waiting for the reset for the first time. *)
Definition sim_stuck_instant : System SimDevice :=
  {| driver := sim_driver STATE.WAIT_FOR_RESET;
     world :=
       {| sim_regs := {[ Register.addr Register.CNTL2 := CNTL2_BIT.SOFT_RST ]};
          sim_clock := 0; sim_cost := 0; sim_faults := []; sim_down := false;
          sim_log := [];
          sim_soft_reset := false; sim_init_status := PX4_OK |} |}.

(** ** Soundness of the runs *)

Lemma sim_stay_sound st n : forall s s',
  sim_stay st n s = Some s' ->
  rounds_in (fun s => _state (driver s) = st) n s s'.
Proof.
  induction n as [| n IH]; intros s s'; cbn [sim_stay]; case_bool_decide; try done.
  - intros [= <-]. by constructor.
  - destruct (sim_round s) as [s1 |] eqn:Hround; [| done]. cbn [mbind option_bind].
    intros Hrest. econstructor; eauto using sim_round_sound.
Qed.

(** ** The scenarios *)

(** Scenario: with the table [(CNTL1, set = 0x01, clear = 0x00)] the
    driver is in [READ] after three rounds, reset, reset complete,
    configured, and reads at an interval of 20 ms with the scale of
    1/12000. *)
Theorem scenario_table_reaches_READ :
  let s := sim_rounds_state 3 sim_scenario in
  _state (driver s) = STATE.READ /\
  timer (_schedule (driver s)) = Some (ms 20, ms 20) /\
  mag_scale (_px4_mag (driver s)) = SCALE /\
  sim_writes (world s)
  = [([Register.addr Register.CNTL1; 0x01], 0%nat);
     ([Register.addr Register.CNTL2; CNTL2_BIT.SOFT_RST], 0%nat)].
Proof. by vm_compute. Qed.

(** Scenario: the bytes [X = 0x1000], [Y = 0], [Z = 0] with the
    data-ready status decode to [(-4096, 0, 0)]; the driver reads them in
    its next round and hands nothing to the sink, where the step under the
    condition of the specification hands over the decoded sample, to a sink
    whose scale is 1/12000. *)
Theorem scenario_sample_not_published :
  let s := inject_sample (sim_rounds_state 3 sim_scenario) in
  let s' := sim_rounds_state 1 s in
  let s_spec := default s (sim_round_specified s) in
  decode_sample (TransferBuffer_of (snd (fst (sample_bus (world s))))) = (-4096, 0, 0) /\
  data_ready false (STATUS (TransferBuffer_of (snd (fst (sample_bus (world s)))))) = true /\
  _state (driver s') = STATE.READ /\
  _transfer_perf (driver s') = 1%nat /\
  mag_samples (_px4_mag (driver s')) = [] /\
  mag_samples (_px4_mag (driver s_spec)) =
    [ {| sample_timestamp := 121500; sample_x := -4096; sample_y := 0; sample_z := 0 |} ] /\
  mag_scale (_px4_mag (driver s_spec)) = SCALE /\
  same_but_sink s' s_spec.
Proof.
  cbv zeta. split_and!; try by vm_compute.
  split; [by vm_compute |]. eexists. by vm_compute.
Qed.

(** Scenario: the reset bit never clears.  In the first 1200 ms the
    driver polls it ten times, goes back to [RESET] once, and waits
    again. *)
Theorem scenario_stuck_reset :
  sim_history 100 (ms 1200) sim_stuck
  = replicate 10 STATE.WAIT_FOR_RESET ++ [STATE.RESET; STATE.WAIT_FOR_RESET].
Proof. by vm_compute. Qed.

(** The bound of the retry budget is attained: on a device whose
    transfers take no time the driver, scheduled after 100 ms, stays in
    [WAIT_FOR_RESET] for ten rounds in a row, the tenth ending 1000 ms after
    the reset; with a timeout at 1000 ms inclusive it would be nine. *)
Theorem retry_budget_attained :
  next_delay (_schedule (driver sim_stuck_instant)) = Some (ms 100) /\
  rounds_in (fun s => _state (driver s) = STATE.WAIT_FOR_RESET) 10
    sim_stuck_instant (sim_rounds_state 10 sim_stuck_instant) /\
  sim_clock (world (sim_rounds_state 10 sim_stuck_instant))
  - _reset_timestamp (driver sim_stuck_instant) = ms 1000 /\
  _state (driver (sim_rounds_state 11 sim_stuck_instant)) = STATE.RESET.
Proof.
  split_and!; [by vm_compute | | by vm_compute..].
  apply sim_stay_sound. by vm_compute.
Qed.
